(* ===== verification/_CoqProject ===== *)
-Q . S2P
Prelude.v
Prog.v
PyValue.v
PyString.v
Table.v
Numerals.v
Regex.v
Dates.v
Redaction.v
RateLimiter.v
AuditTrail.v
AuditProps.v
Procedures.v
ProcedureProps.v
ActionSpecs.v
KernelData.v
Policy.v
World.v
KernelStore.v
KernelInv.v
RelyGuarantee.v
CaseKernel.v
Fixtures.v
KernelProps.v
KernelRaces.v
KernelSerial.v
PolicyStore.v
PolicyProps.v
Errors.v
Auth.v
Settings.v
Reasoning.v
Compliance.v
Guardrails.v
GuardrailsProps.v
WorkflowState.v
Conversation.v
Gateway.v
Outside.v
AtMostOnce.v
GatewayProps.v
ActionService.v
ToolCatalog.v
ToolProps.v
ProcedureFiles.v
Agents.v
Reference.v
Seed.v
Sandbox.v
ConnectorRegistry.v
AuthProps.v
Middleware.v
Domains.v
Connectors.v
BusinessTools.v
BusinessProps.v
Bridge.v
ServiceProps.v
ConnectorRegistryProps.v
DomainProps.v
BridgeProps.v
ConnectorProps.v
OutboxProps.v
Workers.v
WorkersProps.v
EngineSteps.v
Channels.v
Mcp.v
Startup.v
Api.v
Endpoints.v
Operations.v
ApiSteps.v
SandboxProps.v
Engine.v
ConversationProps.v
StartupProps.v
ApiProps.v
Console.v
ConsoleProps.v
