(* ===== verification/Prelude.v ===== *)
(** * Workflow engine: a verification development

    The engine under [src/workflow_engine] lets a conversational agent act for a
    customer: it proposes consequential actions (refunds, disputes, account
    flags), has them confirmed, authorizes them against verified facts and a
    signed policy, hands each to a provider at most once, and reconciles what it
    could not observe.  This library models that code as executable Rocq
    definitions and proves what makes it correct.  This file is the root: the
    shared notations, tactics and the type of exceptions.

    ** How the program is modelled

    A coroutine is a [Prog.prog]: a sequence of atomic steps on a world, ended by
    a value or an exception.  A step is one SQLite transaction, one query, one
    provider call, one synchronous stretch of Python: the code between two
    [await]s.  [Prog.run] executes a coroutine alone; [Prog.pool_step] interleaves
    any number of them, so the same definitions carry the sequential and the
    concurrent theorems.  [RelyGuarantee] and [Prog.steps] are the two ways of
    reasoning about every interleaving.

    [World.World] is the shared state: the core database (tables as lists of rows,
    [Table]), the policy table, the in-process policy registry, the log of
    provider calls, the readings of clock and UUIDs so far, and the state [Ext] of
    everything outside the repository.  [World.tx] is a transaction: it commits or
    leaves the database as it was.  Python values are [PyValue.value]; dicts are
    insertion-ordered association lists; integers are [Z]; floats are binary64
    [spec_float]s; timestamps are microseconds; a JSON column holds its value.
    Exceptions are [exn], in a sum.

    ** The parts

    The core:
    - the case kernel and its store, [core/kernel.py]: [KernelData] (records, the
      row updates), [KernelStore] (one definition per method of
      [SQLiteCoreStore]), [CaseKernel] (facts, authorization, outcomes),
      [KernelInv] (the invariant [db_inv] and the evolution of the tables that
      every method keeps), [KernelProps], [KernelSerial] (authorization is
      serializable), [KernelRaces] (one winner of each compare-and-set),
      [OutboxProps] (leases);
    - the action catalog and policies, [core/action_specs.py], [core/policy.py],
      [core/policy_store.py]: [ActionSpecs], [Policy], [PolicyStore],
      [PolicyProps]; HMAC is the class [Policy.Hmac];
    - the gateway, [core/gateway.py]: [Gateway] (connectors, resolvers and policy
      resolvers are the source's protocols, records here), [Outside] (what a
      provider has applied), [AtMostOnce] (the token argument), [GatewayProps];
    - consequential actions, [core/action_service.py]: [ActionService],
      [ServiceProps]; proposals, [actions/bridge.py]: [Bridge], [BridgeProps];
    - the workers, [core/workers.py]: [Workers], [WorkersProps]; their process,
      [worker.py], is in [Startup];
    - conversations, [conversation/]: [Conversation], [ConversationProps];
    - domain decisions, routing, replay verification, jurisdiction and the facade
      [core/service.py]: [Domains], [DomainProps];
    - the engine as a whole: [EngineSteps] (what each operation does at its
      awaits), [Engine] (every entry point above, composed).

    Providers and data:
    - bindings, [integrations/registry.py]: [ConnectorRegistry] (configuration,
      mapping language, REST connector, registry), [ConnectorRegistryProps];
    - the provider emulator, [integrations/sandbox.py]: [Sandbox], [SandboxProps];
    - the reference database, [database/]: [Reference] (tables, constraints, the
      repositories), [Seed] (the demonstration data), and the
      adapters over it, [core/connectors.py],
      [integrations/resources.py]: [Connectors], [ConnectorProps];
    - the audit chain, [audit/logger.py]: [AuditTrail], [AuditProps].

    Agents:
    - procedures, [procedures/]: [ProcedureFiles] (the loader, the instructions and
      the registry, over whatever a file parses to);
      [Procedures] (validation and the executor, over procedures of the schema),
      [ProcedureProps], [WorkflowState] (the state of a session);
    - the agents, [agents/]: [Agents] (tables of tools, the tree);
    - the tools, [tools/]: [ToolCatalog] (catalog, the check of a session, the
      proposal tools), [ToolProps]; [BusinessTools] (the tools over the reference
      database; its Module [Direct] holds the functions that write it),
      [BusinessProps];
    - guardrails, [agents/guardrails.py], [reasoning.py], [compliance.py]:
      [Guardrails], [Reasoning], [Compliance], [GuardrailsProps]; patterns are
      parsed and matched by [Regex], cleaned by [Redaction], dates read by [Dates].

    The application:
    - identity, [auth/] and [middleware/auth.py]: [Auth], [AuthProps] (JWT coding
      is the class [Auth.Jwt]); errors: [Errors]; [settings.py] and [config.py]:
      [Settings]; rate limiting: [RateLimiter]; channels: [Channels]; the MCP
      server: [Mcp];
    - [middleware/], [logging_config.py] and the stack in front of the endpoints:
      [Middleware];
    - [main.py]: [Startup] (module level and [lifespan]), [Api] (access,
      proposals, the turn), [Endpoints] and [Operations] (the handlers, the
      probes, the aliases of older clients, the endpoints of development),
      [ApiSteps] (every request as a call, what it does at its awaits);
      [StartupProps], [ApiProps];
    - the operator console, [app_ui.py] and [ui/client.py]: [Console] (the client,
      the session's data, a handler per event), [ConsoleProps].
    [Numerals], [PyString] (with [urllib.parse]) and [PyValue] model what the
    sources use of the language; [Fixtures] holds the concrete worlds the witnesses evaluate.

    ** What is proved

    - at most once: however requests to any endpoint and the turns of worker
      processes interleave, no idempotency key is dispatched to a provider twice,
      and a stored success was applied ([ApiProps], [Engine]); a key is applied
      once by the emulator ([SandboxProps]), an order refunded once by the
      database ([ConnectorProps]);
    - the application: only five endpoints can reach a provider of actions; the
      access matrix; a caller confirms only what they own; what a model or an MCP
      client asks for carries the identity the host knows ([ApiProps]); start-up
      governs every action by a policy, mirrors what is stored and succeeds on a
      fresh deployment ([StartupProps]); what a request meets before an endpoint,
      when the endpoint runs and what its response carries ([Middleware]);
    - the console decides only by the operator's clicks, and over the API a session
      without a confirmation executes nothing ([ConsoleProps]);
    - agents: the tree, when it can be built, holds no function that executes, and
      it can be built from procedures whose values have the schema's types, which
      the loader does not check ([Agents]); proposal tools only queue ([ToolProps]); a
      customer's session stays with the customer, however its tool calls
      interleave ([BusinessProps]); what leaves the guardrails is clean and, in a
      session that holds the order where they look for it, makes no false claim
      about its refund ([GuardrailsProps]);
    - authorization: only admissible commands on verified facts, all or nothing,
      serializable ([KernelProps], [KernelSerial]); a dispatch never leaves the
      binding the action was pinned to ([ConnectorRegistryProps]);
    - effects match the record, the proposal, the refund policy ([ServiceProps],
      [BridgeProps], [DomainProps]); outcomes are what the provider said, unknown
      when it said nothing ([GatewayProps]);
    - races have one winner; a lease lasts until it runs out or the record is
      settled, by whomever; messages are accepted once and
      in order ([KernelRaces], [OutboxProps], [ConversationProps]);
    - policies: only an approved and signed package becomes active, one active
      package of a scope where identities are not reused ([PolicyProps]);
    - worker runs and turns end within their bounds ([WorkersProps],
      [ConversationProps]); the sliding window ([RateLimiter]); a procedure never
      gets stuck ([ProcedureProps]); the audit chain detects tampering
      ([AuditProps]); production settings ([Settings]); seeding settles after one
      run ([Seed]).

    Fuel: [PyString.split_end] and the parser and matcher of [Regex] take the length
    of the text, which bounds their recursion ([Regex.repeat_fuel] shows that more
    changes nothing); [Guardrails.steer_loop] takes the number of iterations its
    loop allows; [Startup.worker_loop] the number of its turns.

    ** Assumptions

    What lies outside src/ is a parameter: cryptographic digests, the JWT and schema
    libraries, the HTTP library, the model service and the agent framework, the CORS
    middleware, the way the web framework stacks middleware and the reactive
    framework of the console, the solvers, the adapters of a provider bundle, the
    text of Python's repr and of dates, the clock and UUIDs.  Where a theorem relies
    on a documented property of one (a decode that undoes an encode, a connector that
    reports what it applied, CORS that passes on what is no preflight, a request that
    reaches an endpoint by its method and path, a clock that does not go back while a
    turn reads it) it is a class of laws, and a concrete instance shows it can hold.
    A theorem about digests names the collision it excludes.  No axiom is used.

    ** Not modelled

    The texts of prompts and personas; the layout of the console's page; the JSON
    schemas of the request models and the construction of the web framework;
    importing the modules a configuration names; settings that only libraries
    read; Unicode beyond ASCII in case mapping and patterns; the lifecycle hooks of
    procedures; the tables the store creates and never uses.  Enforcement of
    foreign keys is not modelled either: the store turns it on for one connection
    only. *)

From stdpp Require Export base numbers list strings gmap sorting.
From Stdlib Require Export ZArith Lia.



(** ** Exceptions

    The Python exception classes the modelled code raises, with their message
    where the code builds one; the detail of an [HTTPException] is the list of its
    texts, an [HTTPStatusError] is the HTTP client's, with the status and the text
    of the response.  [OtherError ty] is any exception class raised by code outside the repository, known by the name of its type. *)
Inductive exn : Type :=
  | ValueError (msg : string)
  | KeyError (key : string)
  | CaseConflict (msg : string)
  | ActionConflict (msg : string)
  | HandoffConflict (msg : string)
  | IntegrityError (constraint : string)
  | AssertionError
  | TypeError (msg : string)
  | RuntimeError (msg : string)
  | IndexError
  | AuthorizationError (msg : string) (required_permission : option string)
  | AuthenticationError (msg code : string)
  | ProcedureError (msg : string) (code : string)
  | NotFoundError (resource identifier : string)
  | ValidationError (msg : string) (field : option string) (allowed : list string)
  | HTTPException (status_code : Z) (detail : list string)
  | HTTPStatusError (status_code : Z) (text : string)
  | OtherError (ty : string).

#[export] Instance exn_eq_dec : EqDecision exn.
Proof. solve_decision. Defined.

(** [type(exc).__name__] *)
Definition exn_name (e : exn) : string :=
  match e with
  | ValueError _ => "ValueError"
  | KeyError _ => "KeyError"
  | CaseConflict _ => "CaseConflict"
  | ActionConflict _ => "ActionConflict"
  | HandoffConflict _ => "HandoffConflict"
  | IntegrityError _ => "IntegrityError"
  | AssertionError => "AssertionError"
  | TypeError _ => "TypeError"
  | RuntimeError _ => "RuntimeError"
  | IndexError => "IndexError"
  | AuthorizationError _ _ => "AuthorizationError"
  | AuthenticationError _ _ => "AuthenticationError"
  | ProcedureError _ _ => "ProcedureError"
  | NotFoundError _ _ => "NotFoundError"
  | ValidationError _ _ _ => "ValidationError"
  | HTTPException _ _ => "HTTPException"
  | HTTPStatusError _ _ => "HTTPStatusError"
  | OtherError ty => ty
  end.

(** ** Results

    A fallible computation without state is a value of [exn + A]; [inl] is a
    raised exception. *)
Abbreviation result A := (exn + A)%type.

Definition rbind {A B} (m : result A) (k : A → result B) : result B :=
  match m with inl e => inl e | inr a => k a end.

Definition is_ok {A} (r : result A) : bool :=
  match r with inl _ => false | inr _ => true end.

Declare Scope wf_scope.
Delimit Scope wf_scope with wf.
Notation "'let?' x := m 'in' k" := (rbind m (λ x, k))
  (at level 200, x pattern, m at level 100, k at level 200) : wf_scope.
Notation "'ensure' b 'else' e 'in' k" := (if (b : bool) then k else inl e)
  (at level 200, b at level 100, e at level 100, k at level 200) : wf_scope.
#[export] Set Warnings "-notation-overridden".

(** ** Automation *)

(** Close the branches that a guard of the code rules out, and substitute the
    results of the others. *)
Ltac results :=
  repeat match goal with
  | H : inl _ = inr _ |- _ => discriminate H
  | H : inr _ = inl _ |- _ => discriminate H
  | H : inr _ = inr _ |- _ => injection H as H; subst
  | H : inl _ = inl _ |- _ => injection H as H; subst
  | H : Some _ = Some _ |- _ => injection H as H; subst
  | H : Some _ = None |- _ => discriminate H
  | H : None = Some _ |- _ => discriminate H
  | H : (_, _) = (_, _) |- _ => injection H as H; subst
  end; simplify_eq.

(** One case split on the discriminee the goal or a hypothesis is blocked on. *)
Ltac split_match :=
  match goal with
  | H : context [match ?x with _ => _ end] |- _ =>
      lazymatch x with context [match _ with _ => _ end] => fail | _ => idtac end;
      destruct x eqn:?; results
  | |- context [match ?x with _ => _ end] =>
      lazymatch x with context [match _ with _ => _ end] => fail | _ => idtac end;
      destruct x eqn:?; results
  end.

(** Boolean guards to propositions. *)
Ltac reflect_bools :=
  repeat match goal with
  | H : (_ && _)%bool = true |- _ => apply andb_true_iff in H as [? ?]
  | H : (_ || _)%bool = false |- _ => apply orb_false_iff in H as [? ?]
  | H : negb _ = true |- _ => apply negb_true_iff in H
  | H : negb _ = false |- _ => apply negb_false_iff in H
  | H : bool_decide _ = true |- _ => apply bool_decide_eq_true in H
  | H : bool_decide _ = false |- _ => apply bool_decide_eq_false in H
  | H : String.eqb _ _ = true |- _ => apply String.eqb_eq in H
  | H : String.eqb _ _ = false |- _ => apply String.eqb_neq in H
  | H : (_ =? _)%Z = true |- _ => apply Z.eqb_eq in H
  | H : (_ =? _)%Z = false |- _ => apply Z.eqb_neq in H
  | H : (_ <=? _)%Z = true |- _ => apply Z.leb_le in H
  | H : (_ <=? _)%Z = false |- _ => apply Z.leb_gt in H
  | H : (_ <? _)%Z = true |- _ => apply Z.ltb_lt in H
  | H : (_ <? _)%Z = false |- _ => apply Z.ltb_ge in H
  end.

Create HintDb wf discriminated.

(** A decidable property of a concrete value is settled by evaluation. *)
Lemma decide_by_eval (P : Prop) `{Decision P} : bool_decide P = true → P.
Proof. apply bool_decide_eq_true. Qed.

(** ** Lists filtered by a bool predicate *)

Lemma filter_all {A} (p : A → bool) l : (∀ x, x ∈ l → p x = true) → List.filter p l = l.
Proof.
  induction l as [|x l IH]; intros Hall; [done|]. cbn. rewrite Hall by left.
  rewrite IH; [done|]. intros y Hy. apply Hall. by right.
Qed.

Lemma filter_none {A} (p : A → bool) l : (∀ x, x ∈ l → p x = false) → List.filter p l = [].
Proof.
  induction l as [|x l IH]; intros Hall; [done|]. cbn. rewrite Hall by left.
  apply IH. intros y Hy. apply Hall. by right.
Qed.

Lemma NoDup_map_filter {A B} (f : A → B) (p : A → bool) l :
  NoDup (map f l) → NoDup (map f (List.filter p l)).
Proof.
  induction l as [|x l IH]; cbn; [done|]. intros [Hx Hl]%NoDup_cons.
  destruct (p x); [|auto]. apply NoDup_cons. split; [|auto].
  intros (y & Hy & Hin)%list_elem_of_In%in_map_iff. apply Hx, list_elem_of_In, in_map_iff.
  exists y. split; [done|]. by apply filter_In in Hin as [? _].
Qed.
