(* ===== verification/Prog.v ===== *)
(** * Programs with atomic steps

    A coroutine of the engine is a [prog]: a sequence of atomic steps on the
    world (one per store transaction, query or provider call, the points where
    an [await] can let another coroutine run) ended by a result or a raised
    exception.  [run] executes one coroutine alone; [pool_step] interleaves any
    number of them.  The same definitions therefore carry the sequential and
    the concurrent theorems. *)

From S2P Require Import Prelude.

Inductive prog (W A : Type) : Type :=
  | Done (r : result A)
  | Step (f : W → W) (k : W → prog W A).
Arguments Done {W A} r.
Arguments Step {W A} f k.

(** ** Sequential execution *)

Fixpoint run {W A} (p : prog W A) (w : W) : W * result A :=
  match p with
  | Done r => (w, r)
  | Step f k => run (k w) (f w)
  end.

(** ** The monad: [x ← m; k], [mret], [mthrow] are stdpp's notations. *)

#[export] Instance prog_ret {W} : MRet (prog W) := λ A a, Done (inr a).
#[export] Instance prog_throw {W} : MThrow exn (prog W) := λ A e, Done (inl e).
#[export] Instance prog_bind {W} : MBind (prog W) := λ A B k,
  fix go (p : prog W A) : prog W B :=
    match p with
    | Done (inl e) => Done (inl e)
    | Done (inr a) => k a
    | Step f c => Step f (λ w, go (c w))
    end.

(** [try: p except: h] *)
Fixpoint try_except {W A} (p : prog W A) (h : exn → prog W A) : prog W A :=
  match p with
  | Done (inl e) => h e
  | Done (inr a) => Done (inr a)
  | Step f c => Step f (λ w, try_except (c w) h)
  end.

(** One atomic operation: the world it leaves and its outcome. *)
Definition atomically {W A} (op : W → W * result A) : prog W A :=
  Step (λ w, (op w).1) (λ w, Done (op w).2).

(** A pure result used inside a program. *)
Definition lift_result {W A} (r : result A) : prog W A := Done r.

(** [if not cond: raise e] *)
Definition require {W} (b : bool) (e : exn) : prog W unit :=
  if b then mret tt else mthrow e.

(** [for x in l: body(acc, x)] *)
Fixpoint for_each {W A S} (l : list A) (acc : S) (body : S → A → prog W S) : prog W S :=
  match l with
  | [] => mret acc
  | x :: l' => acc' ← body acc x; for_each l' acc' body
  end.

(** [run] of a composition is the composition of the runs. *)
Lemma run_bind {W A B} (p : prog W A) (k : A → prog W B) w :
  run (p ≫= k) w =
  match run p w with
  | (w', inl e) => (w', inl e)
  | (w', inr a) => run (k a) w'
  end.
Proof.
  revert w; induction p as [[e|a]|f c IH]; intros w; [done|done|].
  cbn. apply IH.
Qed.

(** A composition either stops at its first part or runs both. *)
Lemma run_bind_cases {W A B} (p : prog W A) (k : A → prog W B) w w' r :
  run (p ≫= k) w = (w', r) →
  (∃ e, run p w = (w', inl e) ∧ r = inl e) ∨
  (∃ w1 a, run p w = (w1, inr a) ∧ run (k a) w1 = (w', r)).
Proof.
  rewrite run_bind. destruct (run p w) as [w1 [e|a]].
  - intros [= <- <-]. left. by exists e.
  - intros Hk. right. by exists w1, a.
Qed.

Lemma run_bind_assoc {W A A' A''} (m : prog W A) (f : A → prog W A') (g : A' → prog W A'') w :
  run ((m ≫= f) ≫= g) w = run (m ≫= (λ x, f x ≫= g)) w.
Proof. rewrite !run_bind. by destruct (run m w) as [w' [e|a]]; rewrite ?run_bind. Qed.

Lemma run_try {W A} (p : prog W A) h w :
  run (try_except p h) w =
  match run p w with
  | (w', inl e) => run (h e) w'
  | (w', inr a) => (w', inr a)
  end.
Proof.
  revert w; induction p as [[e|a]|f c IH]; intros w; [done|done|].
  cbn. apply IH.
Qed.

Lemma run_atomically {W A} (op : W → W * result A) w : run (atomically op) w = op w.
Proof. cbn. by destruct (op w). Qed.

Lemma run_ret {W A} (a : A) (w : W) : run (mret a : prog W A) w = (w, inr a).
Proof. done. Qed.

Lemma run_throw {W A} e (w : W) : run (mthrow e : prog W A) w = (w, inl e).
Proof. done. Qed.

Lemma run_lift {W A} (r : result A) (w : W) : run (lift_result r) w = (w, r).
Proof. done. Qed.

Lemma run_require {W} b e (w : W) :
  run (require b e) w = (w, if b then inr tt else inl e).
Proof. by destruct b. Qed.

#[export] Hint Rewrite @run_bind @run_try @run_atomically @run_ret @run_throw
  @run_lift @run_require : run.

(** Push a run through the operations of a program. *)
Ltac run_simpl :=
  repeat (autorewrite with run; cbn [fst snd]).
Ltac run_simpl_in H :=
  repeat (autorewrite with run in H; cbn [fst snd] in H).

(** ** What every step of a program does

    [steps R p]: each atomic step [p] can make relates the worlds before and
    after it by [R], whatever other coroutines did in between. *)
Fixpoint steps {W A} (R : W → W → Prop) (p : prog W A) : Prop :=
  match p with
  | Done _ => True
  | Step f k => ∀ w, R w (f w) ∧ steps R (k w)
  end.

Section steps.
Context {W : Type} (R : W → W → Prop).

Lemma steps_done {A} (r : result A) : steps R (Done r).
Proof. done. Qed.

Lemma steps_ret {A} (a : A) : steps R (mret a).
Proof. done. Qed.

Lemma steps_throw {A} (e : exn) : steps R (mthrow e : prog W A).
Proof. done. Qed.

Lemma steps_lift {A} (r : result A) : steps R (lift_result r).
Proof. done. Qed.

Lemma steps_bind {A B} (p : prog W A) (k : A → prog W B) :
  steps R p → (∀ a, steps R (k a)) → steps R (p ≫= k).
Proof.
  intros Hp Hk. induction p as [[e|a]|f c IH]; [done|apply Hk|].
  intros w. destruct (Hp w) as [Hf Hc]. split; [done|by apply IH].
Qed.

Lemma steps_try {A} (p : prog W A) h :
  steps R p → (∀ e, steps R (h e)) → steps R (try_except p h).
Proof.
  intros Hp Hh. induction p as [[e|a]|f c IH]; [apply Hh|done|].
  intros w. destruct (Hp w) as [Hf Hc]. split; [done|by apply IH].
Qed.

Lemma steps_atomically {A} (op : W → W * result A) :
  (∀ w, R w (op w).1) → steps R (atomically op).
Proof. intros Hop w. by split. Qed.

Lemma steps_require b e : steps R (require b e).
Proof. by destruct b. Qed.

Lemma steps_require_bind {A} b e (k : unit → prog W A) :
  (b = true → steps R (k tt)) → steps R (require b e ≫= k).
Proof. destruct b; [|done]. intros Hk. by apply Hk. Qed.

Lemma steps_for_each {A S} (l : list A) (acc : S) body :
  (∀ acc x, steps R (body acc x)) → steps R (for_each l acc body).
Proof.
  intros Hb. revert acc; induction l as [|x l IH]; intros acc; [done|].
  apply steps_bind; [apply Hb|apply IH].
Qed.

Lemma steps_run `{!PreOrder R} {A} (p : prog W A) w : steps R p → R w (run p w).1.
Proof.
  revert w; induction p as [r|f k IH]; intros w Hp; cbn; [reflexivity|].
  destruct (Hp w) as [Hf Hk]. etrans; [exact Hf|by apply IH].
Qed.
End steps.

Lemma steps_impl {W A} (R R' : W → W → Prop) (p : prog W A) :
  (∀ w w', R w w' → R' w w') → steps R p → steps R' p.
Proof.
  intros HR. induction p as [r|f k IH]; [done|]. intros Hp w.
  destruct (Hp w) as [Hf Hk]. split; [auto|by apply IH].
Qed.

#[export] Hint Resolve steps_ret steps_throw steps_done steps_lift steps_require : wf.

(** Walk through a program's monadic structure; the leaves that are not store
    transactions are closed by the hints. *)
Ltac step_through :=
  repeat first
    [ match goal with |- ∀ _, _ => intro end
    | solve [auto with wf]
    | match goal with
      | |- steps _ (mbind _ (require _ _)) => apply steps_require_bind
      | |- steps _ (mbind _ _) => apply steps_bind
      | |- steps _ (try_except _ _) => apply steps_try
      | |- steps _ (for_each _ _ _) => apply steps_for_each
      | |- steps _ (match ?x with _ => _ end) => destruct x eqn:?
      end ].

(** ** Interleaving

    A pool is a list of coroutines of the same result type; one step runs one
    atomic step of one of them. *)
Inductive pool_step {W A} : W * list (prog W A) → W * list (prog W A) → Prop :=
  | pool_step_one w ps i f k :
      ps !! i = Some (Step f k) →
      pool_step (w, ps) (f w, <[i := k w]> ps).

Inductive star {S} (R : S → S → Prop) : S → S → Prop :=
  | star_refl s : star R s s
  | star_step s1 s2 s3 : R s1 s2 → star R s2 s3 → star R s1 s3.

Lemma star_inv {S} (R : S → S → Prop) (I : S → Prop) s s' :
  (∀ a b, R a b → I a → I b) → star R s s' → I s → I s'.
Proof. intros HR. induction 1; eauto. Qed.

(** No coroutine of a pool is lost. *)
Lemma star_length {W A} (s s' : W * list (prog W A)) :
  star pool_step s s' → length s'.2 = length s.2.
Proof.
  induction 1 as [s|s1 s2 s3 H12 _ IH]; [done|]. rewrite IH. destruct H12. apply length_insert.
Qed.

(** A pool whose coroutines all keep to [R] moves along [R]. *)
Lemma pool_star_steps {W A} (R : W → W → Prop) `{!PreOrder R} (s s' : W * list (prog W A)) :
  star pool_step s s' → Forall (steps R) s.2 → R s.1 s'.1 ∧ Forall (steps R) s'.2.
Proof.
  induction 1 as [s|s1 s2 s3 H12 _ IH]; intros Hps; [split; [reflexivity|done]|].
  destruct H12 as [w ps i f k Hi]; cbn in *.
  destruct ((proj1 (Forall_lookup _ _) Hps i _ Hi) w) as [Hf Hk].
  destruct IH as [HR Hps']; [by apply Forall_insert|].
  split; [by etrans|done].
Qed.

(** An executable scheduler: which coroutine makes each step.  A name that is
    out of range, or that of a finished coroutine, is skipped. *)
Fixpoint schedule {W A} (sched : list nat) (w : W) (ps : list (prog W A)) :
    W * list (prog W A) :=
  match sched with
  | [] => (w, ps)
  | i :: sched' =>
      match ps !! i with
      | Some (Step f k) => schedule sched' (f w) (<[i := k w]> ps)
      | _ => schedule sched' w ps
      end
  end.

Lemma schedule_star {W A} sched (w : W) (ps : list (prog W A)) :
  star pool_step (w, ps) (schedule sched w ps).
Proof.
  revert w ps; induction sched as [|i sched IH]; intros w ps; cbn.
  - apply star_refl.
  - destruct (ps !! i) as [[r|f k]|] eqn:Hi; [apply IH| |apply IH].
    eapply star_step; [by apply pool_step_one|apply IH].
Qed.

Lemma schedule_reaches {W A} sched (w : W) (ps : list (prog W A)) :
  star pool_step (w, ps) ((schedule sched w ps).1, (schedule sched w ps).2).
Proof. rewrite <- surjective_pairing. apply schedule_star. Qed.

Definition finished {W A} (p : prog W A) : option (result A) :=
  match p with Done r => Some r | Step _ _ => None end.

Definition all_finished {W A} (ps : list (prog W A)) : bool :=
  forallb (λ p, match p with Done _ => true | Step _ _ => false end) ps.

Lemma all_finished_spec {W A} (ps : list (prog W A)) :
  all_finished ps = true → ∀ p, p ∈ ps → is_Some (finished p).
Proof.
  unfold all_finished. rewrite forallb_forall. intros Hall p Hp%list_elem_of_In.
  specialize (Hall p Hp). destruct p as [r|]; [by exists r|done].
Qed.

(** Running one coroutine alone is one of the interleavings. *)
Lemma run_star {W A} (p : prog W A) w ps i :
  ps !! i = Some p →
  star pool_step (w, ps) ((run p w).1, <[i := Done (run p w).2]> ps).
Proof.
  revert w ps; induction p as [r|f k IH]; intros w ps Hi; cbn.
  - rewrite list_insert_id; [apply star_refl|done].
  - eapply star_step; [by apply pool_step_one|].
    replace (<[i:=Done (run (k w) (f w)).2]> ps)
      with (<[i:=Done (run (k w) (f w)).2]> (<[i:=k w]> ps))
      by apply list_insert_insert_eq.
    apply IH. apply list_lookup_insert_eq. by eapply lookup_lt_Some.
Qed.
