(* ===== verification/PyValue.v ===== *)
(** * Python values, dicts and strings

    The part of the Python data model the engine relies on: JSON-like values,
    insertion-ordered dicts, [==] between values (numeric types compare by
    exact value), truthiness, [str()] and [sorted()].  Floats are IEEE 754
    binary64 values, as [SpecFloat] specifies them. *)

From S2P Require Import Prelude.
From stdpp Require Import pretty.
From Stdlib Require Import Floats.SpecFloat Strings.Ascii.

(** ** Dicts: association lists in insertion order *)

Abbreviation dict V := (list (string * V)).

Section dict.
Context {V : Type}.
Implicit Types d : dict V.

Fixpoint dget (k : string) d : option V :=
  match d with
  | [] => None
  | (k', v) :: d' => if String.eqb k k' then Some v else dget k d'
  end.

(** [d[k] = v]: an existing key keeps its position. *)
Fixpoint dset (k : string) (v : V) d : dict V :=
  match d with
  | [] => [(k, v)]
  | (k', v') :: d' => if String.eqb k k' then (k', v) :: d' else (k', v') :: dset k v d'
  end.

(** [d.pop(k, None)] *)
Fixpoint ddel (k : string) d : dict V :=
  match d with
  | [] => []
  | (k', v') :: d' => if String.eqb k k' then ddel k d' else (k', v') :: ddel k d'
  end.

(** [k in d] *)
Definition dhas (k : string) d : bool :=
  match dget k d with Some _ => true | None => false end.

Definition dkeys d : list string := d.*1.
Definition dkeyset d : gset string := list_to_set (dkeys d).

(** [d.get(k, default)] *)
Definition dget_or (k : string) (default : V) d : V :=
  match dget k d with Some v => v | None => default end.

(** [{**d, **e}] *)
Definition dupdate d (e : dict V) : dict V :=
  fold_left (λ acc p, dset p.1 p.2 acc) e d.

Lemma dget_dset_eq k v d : dget k (dset k v d) = Some v.
Proof.
  induction d as [|[k' v'] d IH]; cbn; [by rewrite String.eqb_refl|].
  destruct (String.eqb k k') eqn:E; cbn; by rewrite E.
Qed.

Lemma dset_same k v d : dget k d = Some v → dset k v d = d.
Proof.
  induction d as [|[k' v'] d IH]; cbn; [done|].
  destruct (String.eqb_spec k k') as [<-|]; [by intros [= ->]|]. intros Hk. by rewrite IH.
Qed.

Lemma dget_dset_ne k k' v d : k ≠ k' → dget k' (dset k v d) = dget k' d.
Proof.
  intros Hne. induction d as [|[k1 v1] d IH]; cbn.
  - by destruct (String.eqb_spec k' k).
  - destruct (String.eqb_spec k k1) as [->|]; cbn.
    + by destruct (String.eqb_spec k' k1).
    + by rewrite IH.
Qed.

Lemma dget_dset k k' v d :
  dget k' (dset k v d) = if decide (k = k') then Some v else dget k' d.
Proof.
  case_decide; subst; [apply dget_dset_eq|by apply dget_dset_ne].
Qed.

Lemma dget_ddel_eq k d : dget k (ddel k d) = None.
Proof.
  induction d as [|[k' v'] d IH]; cbn; [done|].
  destruct (String.eqb k k') eqn:E; cbn; [done|by rewrite E].
Qed.

Lemma dget_ddel_ne k k' d : k ≠ k' → dget k' (ddel k d) = dget k' d.
Proof.
  intros Hne. induction d as [|[k1 v1] d IH]; cbn; [done|].
  destruct (String.eqb_spec k k1) as [->|]; cbn.
  - by destruct (String.eqb_spec k' k1).
  - by rewrite IH.
Qed.

Lemma elem_of_dkeys k d : k ∈ dkeys d ↔ is_Some (dget k d).
Proof.
  unfold dkeys. induction d as [|[k' v] d IH]; cbn.
  - split; [by intros ?%not_elem_of_nil|by intros []].
  - rewrite elem_of_cons, IH. destruct (String.eqb_spec k k') as [->|].
    + split; [eauto|by left].
    + split; [by intros [->|]|by right].
Qed.

Lemma dget_dupdate d e k :
  NoDup (dkeys e) → dget k (dupdate d e) = match dget k e with Some v => Some v | None => dget k d end.
Proof.
  revert d; induction e as [|[k' v] e IH]; intros d; [done|].
  change (dupdate d ((k', v) :: e)) with (dupdate (dset k' v d) e).
  change (dkeys ((k', v) :: e)) with (k' :: dkeys e). intros [Hk Hnd]%NoDup_cons.
  rewrite IH by done. rewrite dget_dset. cbn. destruct (String.eqb_spec k k') as [->|Hne].
  - rewrite decide_True by done. destruct (dget k' e) eqn:E; [|done].
    destruct Hk. apply elem_of_dkeys. by rewrite E.
  - by rewrite decide_False by congruence.
Qed.

Lemma elem_of_dkeyset k d : k ∈ dkeyset d ↔ is_Some (dget k d).
Proof. unfold dkeyset. by rewrite elem_of_list_to_set, elem_of_dkeys. Qed.

Lemma dhas_spec k d : dhas k d = true ↔ is_Some (dget k d).
Proof.
  unfold dhas. destruct (dget k d); split; intros H; eauto; [done|by destruct H].
Qed.

Lemma dget_elem_of k v d : dget k d = Some v → (k, v) ∈ d.
Proof.
  induction d as [|[k' v'] d IH]; cbn; [done|].
  destruct (String.eqb_spec k k') as [->|]; intros; simplify_eq; [left|right; auto].
Qed.

Lemma elem_of_dset k v d q : q ∈ dset k v d → q = (k, v) ∨ q ∈ d.
Proof.
  induction d as [|[k' v'] d IH]; cbn; [by intros ->%list_elem_of_singleton; left|].
  destruct (String.eqb_spec k k') as [->|].
  - intros [->|Hq]%elem_of_cons; [by left|right; by right].
  - intros [->|Hq]%elem_of_cons; [right; by left|].
    destruct (IH Hq) as [?|?]; [by left|right; by right].
Qed.

Lemma dget_unique k v d :
  NoDup (dkeys d) → (k, v) ∈ d → dget k d = Some v.
Proof.
  unfold dkeys. induction d as [|[k' v'] d IH]; cbn.
  - by intros _ ?%not_elem_of_nil.
  - intros [Hn Hd]%NoDup_cons [[=]|Hin]%elem_of_cons; subst.
    + by rewrite String.eqb_refl.
    + destruct (String.eqb_spec k k') as [->|]; [|auto].
      destruct Hn. apply list_elem_of_fmap. by exists (k', v).
Qed.

Lemma dkeys_dset_in k v d : k ∈ dkeys d → dkeys (dset k v d) = dkeys d.
Proof.
  unfold dkeys. induction d as [|[k' v'] d IH]; cbn; [by intros ?%not_elem_of_nil|].
  intros Hin. destruct (String.eqb_spec k k') as [->|]; cbn; [done|].
  f_equal. apply IH. set_solver.
Qed.

Lemma dkeys_dset_notin k v d : k ∉ dkeys d → dkeys (dset k v d) = dkeys d ++ [k].
Proof.
  unfold dkeys. induction d as [|[k' v'] d IH]; cbn; [done|].
  intros Hin. destruct (String.eqb_spec k k') as [->|]; cbn; [set_solver|].
  f_equal. apply IH. set_solver.
Qed.

Lemma NoDup_dset k v d : NoDup (dkeys d) → NoDup (dkeys (dset k v d)).
Proof.
  intros Hd. destruct (decide (k ∈ dkeys d)) as [Hin|Hin].
  - by rewrite dkeys_dset_in.
  - rewrite dkeys_dset_notin by done. apply NoDup_app. split_and!; [done|set_solver|apply NoDup_singleton].
Qed.
End dict.

#[export] Hint Rewrite @dget_dset_eq @dget_ddel_eq : dict.

(** ** Floats *)

Abbreviation float := spec_float.
Definition f_prec : Z := 53.
Definition f_emax : Z := 1024.

#[export] Instance spec_float_eq_dec : EqDecision spec_float.
Proof. solve_decision. Defined.

Definition f_leb (x y : float) : bool := SFleb x y.
Definition f_ltb (x y : float) : bool := SFltb x y.
Definition f_eqb (x y : float) : bool := SFeqb x y.
Definition f_sub (x y : float) : float := SFsub f_prec f_emax x y.
Definition f_mul (x y : float) : float := SFmul f_prec f_emax x y.

(** The nearest float to an integer ([float(z)]). *)
Definition f_of_Z (z : Z) : float :=
  match z with
  | Z0 => S754_zero false
  | Zpos p => binary_normalize f_prec f_emax (Zpos p) 0 false
  | Zneg p => binary_normalize f_prec f_emax (Zneg p) 0 false
  end.

(** [max(0, x)] for a float [x]: Python keeps the first argument, the integer
    0, unless [x > 0]. *)
Definition f_max0 (x : float) : float := if f_ltb (S754_zero false) x then x else S754_zero false.

(** ** Values *)

Inductive value : Type :=
  | VNone
  | VBool (b : bool)
  | VInt (z : Z)
  | VFloat (f : float)
  | VStr (s : string)
  | VList (l : list value)
  | VDict (d : list (string * value)).

(** Exact comparison of an integer with a float: [z == f]. *)
Definition zf_eqb (z : Z) (f : float) : bool :=
  match f with
  | S754_zero _ => (z =? 0)%Z
  | S754_infinity _ | S754_nan => false
  | S754_finite s m e =>
      let v := if s then Zneg m else Zpos m in
      if (0 <=? e)%Z then (z =? v * 2 ^ e)%Z else (z * 2 ^ (- e) =? v)%Z
  end.

Definition as_int (v : value) : option Z :=
  match v with
  | VInt z => Some z
  | VBool b => Some (if b then 1 else 0)%Z
  | _ => None
  end.

(** [u == v] on the numeric types; [False] when either is not a number. *)
Definition num_eqb (u v : value) : bool :=
  match as_int u, as_int v with
  | Some x, Some y => (x =? y)%Z
  | Some x, None => match v with VFloat f => zf_eqb x f | _ => false end
  | None, Some y => match u with VFloat f => zf_eqb y f | _ => false end
  | None, None =>
      match u, v with VFloat f, VFloat g => f_eqb f g | _, _ => false end
  end.

(** [u == v] *)
Fixpoint py_eqb (u v : value) {struct u} : bool :=
  match u, v with
  | VNone, VNone => true
  | VStr s, VStr t => String.eqb s t
  | VList l, VList m =>
      (fix go (l m : list value) : bool :=
         match l, m with
         | [], [] => true
         | x :: l', y :: m' => py_eqb x y && go l' m'
         | _, _ => false
         end) l m
  | VDict d, VDict e =>
      Nat.eqb (length d) (length e) &&
      (fix go (d : list (string * value)) : bool :=
         match d with
         | [] => true
         | (k, x) :: d' =>
             match dget k e with Some y => py_eqb x y | None => false end && go d'
         end) d
  | _, _ => num_eqb u v
  end.

(** [==] on [dict[str, Any]] and on an optional one. *)
Definition dict_eqb (d e : dict value) : bool := py_eqb (VDict d) (VDict e).

Definition opt_eqb {A} (eqb : A → A → bool) (x y : option A) : bool :=
  match x, y with
  | Some a, Some b => eqb a b
  | None, None => true
  | _, _ => false
  end.

Definition ostr_eqb : option string → option string → bool := opt_eqb String.eqb.

Lemma ostr_eqb_eq x y : ostr_eqb x y = true → x = y.
Proof. destruct x, y; cbn; try done. by intros ->%String.eqb_eq. Qed.

(** [bool(v)] *)
Definition truthy (v : value) : bool :=
  match v with
  | VNone => false
  | VBool b => b
  | VInt z => negb (z =? 0)%Z
  | VFloat f => match f with S754_zero _ => false | _ => true end
  | VStr s => negb (String.eqb s "")
  | VList l => match l with [] => false | _ => true end
  | VDict d => match d with [] => false | _ => true end
  end.

(** Truth of a [str | None] attribute. *)
Definition str_truthy (s : option string) : bool :=
  match s with Some s => negb (String.eqb s "") | None => false end.

(** [payload.get(k)]: a missing key reads as [None]. *)
Definition dget_none (k : string) (d : dict value) : value := dget_or k VNone d.

(** [str(v)] for the values whose text the engine compares; [render] is the
    interpreter's repr of floats and containers. *)
Class Render := render : value → string.

Definition py_str `{Render} (v : value) : string :=
  match v with
  | VStr s => s
  | VNone => "None"
  | VBool true => "True"
  | VBool false => "False"
  | VInt z => pretty z
  | _ => render v
  end.

(** ** Strings *)

Definition str_le (a b : string) : Prop := String.leb a b = true.
#[export] Instance str_le_dec a b : Decision (str_le a b).
Proof. unfold str_le. apply _. Defined.

(** [sorted(s)] of a set, and [", ".join(...)] *)
Definition sorted_strs (l : list string) : list string := merge_sort str_le l.
Definition join (sep : string) (l : list string) : string := String.concat sep l.
Definition sorted_set (s : gset string) : list string := sorted_strs (elements s).

Lemma elem_of_sorted_set x s : x ∈ sorted_set s ↔ x ∈ s.
Proof.
  unfold sorted_set, sorted_strs. rewrite <- elem_of_elements.
  by rewrite (merge_sort_Permutation str_le (elements s)).
Qed.

Lemma NoDup_sorted_set s : NoDup (sorted_set s).
Proof.
  unfold sorted_set, sorted_strs.
  rewrite (merge_sort_Permutation str_le (elements s)). apply NoDup_elements.
Qed.

Definition to_lower (c : ascii) : ascii :=
  let n := nat_of_ascii c in
  if ((65 <=? n) && (n <=? 90))%nat then ascii_of_nat (n + 32) else c.

(** [s.lower()] (ASCII letters). *)
Fixpoint str_lower (s : string) : string :=
  match s with
  | EmptyString => EmptyString
  | String c s' => String (to_lower c) (str_lower s')
  end.

(** [s.startswith(p)] and [p in s] *)
Definition starts_with (p s : string) : bool := String.prefix p s.
Fixpoint str_contains (p s : string) : bool :=
  String.prefix p s ||
  match s with EmptyString => false | String _ s' => str_contains p s' end.

(** [next((x for x in l if p(x)), None)] *)
Fixpoint select_first {A} (p : A → bool) (l : list A) : option A :=
  match l with
  | [] => None
  | x :: l' => if p x then Some x else select_first p l'
  end.

(** [s in v] *)
Definition py_in (s : string) (v : value) : result bool :=
  match v with
  | VList l => inr (existsb (py_eqb (VStr s)) l)
  | VStr t => inr (str_contains s t)
  | VDict d => inr (dhas s d)
  | _ => inl (TypeError "argument is not iterable")
  end.

(** [list(v)] *)
Definition py_list (v : value) : result (list value) :=
  match v with
  | VList l => inr l
  | VDict d => inr (map (λ p, VStr p.1) d)
  | VStr s => inr (map (λ c, VStr (String c "")) (String.list_ascii_of_string s))
  | _ => inl (TypeError "object is not iterable")
  end.

(** [v[k]] for a text [k], and [len(v)] *)
Definition py_item (k : string) (v : value) : result value :=
  match v with
  | VDict d => match dget k d with Some x => inr x | None => inl (KeyError k) end
  | _ => inl (TypeError "indices must be integers or slices")
  end.
Definition py_len (v : value) : result nat :=
  match v with
  | VStr s => inr (String.length s)
  | VList l => inr (length l)
  | VDict d => inr (length d)
  | _ => inl (TypeError "object has no len()")
  end.

(** What a set or a dict takes as an element or a key *)
Definition hashable (v : value) : bool := match v with VList _ | VDict _ => false | _ => true end.

(** [d[k] = v] and [d.get(k)] of a dict whose keys are values *)
Fixpoint vset {V} (k : value) (v : V) (d : list (value * V)) : list (value * V) :=
  match d with
  | [] => [(k, v)]
  | (k', v') :: d' => if py_eqb k k' then (k', v) :: d' else (k', v') :: vset k v d'
  end.
Fixpoint vget {V} (k : value) (d : list (value * V)) : option V :=
  match d with [] => None | (k', v) :: d' => if py_eqb k k' then Some v else vget k d' end.

(** [v.get(k, default)], [v.lower()] of a value that may have no such method *)
Definition py_get (k : string) (default v : value) : result value :=
  match v with VDict d => inr (dget_or k default d) | _ => inl (OtherError "AttributeError") end.
Definition py_lower (v : value) : result string :=
  match v with VStr s => inr (str_lower s) | _ => inl (OtherError "AttributeError") end.

(** [u or v] *)
Definition py_or (u v : value) : value := if truthy u then u else v.

(** [for x in l: acc = f(acc, x)] *)
Fixpoint fold_result {A S} (f : S → A → result S) (acc : S) (l : list A) : result S :=
  match l with [] => inr acc | x :: l' => rbind (f acc x) (λ acc', fold_result f acc' l') end.

(** [json.dumps(v, sort_keys=True)] determines the value whose dicts, at every
    depth, list their entries by key. *)
Fixpoint insert_entry {V} (p : string * V) (d : dict V) : dict V :=
  match d with
  | [] => [p]
  | q :: d' => if String.leb p.1 q.1 then p :: d else q :: insert_entry p d'
  end.
Definition sort_dict {V} (d : dict V) : dict V := foldr insert_entry [] d.

Fixpoint canonical_json (v : value) : value :=
  match v with
  | VList l => VList (map canonical_json l)
  | VDict d => VDict (sort_dict (map (λ p, (p.1, canonical_json p.2)) d))
  | _ => v
  end.

(** ** Facts *)

Lemma f_eqb_refl_finite s m e : f_eqb (S754_finite s m e) (S754_finite s m e) = true.
Proof.
  unfold f_eqb, SFeqb, SFcompare. destruct s; rewrite Z.compare_refl.
  all: by rewrite Pos.compare_cont_refl.
Qed.

Lemma dict_eqb_nil d : dict_eqb d [] = true → d = [].
Proof. unfold dict_eqb. by destruct d. Qed.

(** Equal dicts have the same entries up to [==]. *)
Lemma dict_eqb_lookup d e k v :
  NoDup (dkeys d) → dict_eqb d e = true → dget k d = Some v →
  ∃ v', dget k e = Some v' ∧ py_eqb v v' = true.
Proof.
  unfold dict_eqb. cbn. intros Hnd [_ Hall]%andb_true_iff Hk.
  apply dget_elem_of in Hk. clear Hnd.
  induction d as [|[k1 v1] d IH]; [by apply not_elem_of_nil in Hk|].
  apply andb_true_iff in Hall as [H1 H2].
  apply elem_of_cons in Hk as [[=]|Hk]; subst; [|auto].
  destruct (dget k1 e) as [v'|]; [eauto|done].
Qed.

#[export] Hint Resolve dget_dset_eq NoDup_dset NoDup_sorted_set : wf.
