(* ===== verification/PyString.v ===== *)
(** * Strings as Python's [str], and URLs

    The methods of [str] the sources use, on ASCII text, and [urllib.parse.urlparse]
    over them. *)

From Stdlib Require Import Strings.Ascii.
From S2P Require Import Prelude PyValue.

Definition to_upper (c : ascii) : ascii :=
  let n := nat_of_ascii c in
  if (Nat.leb 97 n && Nat.leb n 122)%bool then ascii_of_nat (n - 32) else c.

(** [s.upper()] *)
Fixpoint str_upper (s : string) : string :=
  match s with
  | EmptyString => EmptyString
  | String c s' => String (to_upper c) (str_upper s')
  end.

(** [s.partition(sep)]: the text before the first [sep], and the text after it. *)
Fixpoint before (sep s : string) : string :=
  if String.prefix sep s then "" else
  match s with
  | EmptyString => ""
  | String c s' => String c (before sep s')
  end.
Fixpoint after (sep s : string) : option string :=
  if String.prefix sep s then Some (String.substring (String.length sep) (String.length s) s) else
  match s with
  | EmptyString => None
  | String _ s' => after sep s'
  end.

(** [s.removeprefix(p)] *)
Definition remove_prefix (p s : string) : string :=
  if String.prefix p s then String.substring (String.length p) (String.length s) s else s.

(** [s.split(c)] *)
Fixpoint split_on (c : ascii) (s : string) : list string :=
  match s with
  | EmptyString => [""]
  | String a s' =>
      if Ascii.eqb a c then "" :: split_on c s'
      else match split_on c s' with
           | [] => [String a ""]
           | w :: ws => String a w :: ws
           end
  end.

(** [s.split(sep)[-1]] *)
Fixpoint split_end (fuel : nat) (sep s : string) : string :=
  match fuel with
  | 0 => s
  | S fuel' => match after sep s with Some s' => split_end fuel' sep s' | None => s end
  end.

(** [s.lstrip("/")], [s.rstrip("/")] and [s.strip()] *)
Fixpoint lstrip_by (f : ascii → bool) (s : string) : string :=
  match s with
  | String c s' => if f c then lstrip_by f s' else s
  | EmptyString => ""
  end.
Fixpoint str_rev (s acc : string) : string :=
  match s with EmptyString => acc | String c s' => str_rev s' (String c acc) end.
Definition rstrip_by (f : ascii → bool) (s : string) : string :=
  str_rev (lstrip_by f (str_rev s "")) "".
(** [s.endswith(p)] *)
Definition ends_with (p s : string) : bool := starts_with (str_rev p "") (str_rev s "").
Definition is_space (c : ascii) : bool :=
  let n := nat_of_ascii c in
  Nat.eqb n 32 || (Nat.leb 9 n && Nat.leb n 13) || (Nat.leb 28 n && Nat.leb n 31).
Definition str_strip (s : string) : string := rstrip_by is_space (lstrip_by is_space s).
(** ["\n"] *)
Definition line_feed : string := String "010" "".

(** Character classes *)
Definition is_alpha (c : ascii) : bool :=
  let n := nat_of_ascii c in
  (Nat.leb 65 n && Nat.leb n 90) || (Nat.leb 97 n && Nat.leb n 122).
Definition is_digit (c : ascii) : bool :=
  let n := nat_of_ascii c in Nat.leb 48 n && Nat.leb n 57.
Definition is_hex (c : ascii) : bool :=
  let n := nat_of_ascii c in
  is_digit c || (Nat.leb 65 n && Nat.leb n 70) || (Nat.leb 97 n && Nat.leb n 102).
(** [\w] *)
Definition is_word (c : ascii) : bool := is_alpha c || is_digit c || Ascii.eqb c "_"%char.

Fixpoint str_all (f : ascii → bool) (s : string) : bool :=
  match s with EmptyString => true | String c s' => f c && str_all f s' end.

(** ** Laws *)

Lemma split_on_nonempty c s : split_on c s ≠ [].
Proof.
  destruct s as [|a s]; cbn; [done|].
  destruct (Ascii.eqb a c); [done|]. by destruct (split_on c s).
Qed.

Lemma starts_with_app p x : starts_with p (p +:+ x) = true.
Proof.
  unfold starts_with. induction p as [|c p IH]; [by destruct x|].
  change (String.prefix (String c p) _)
    with (if Ascii.ascii_dec c c then String.prefix p (p +:+ x) else false).
  destruct (Ascii.ascii_dec c c); [exact IH|congruence].
Qed.

Lemma string_app_assoc (a b c : string) : (a +:+ b) +:+ c = a +:+ (b +:+ c).
Proof. induction a as [|x a IH]; [done|]. exact (f_equal (String x) IH). Qed.

Lemma str_rev_app s t acc : str_rev (s +:+ t) acc = str_rev t (str_rev s acc).
Proof. revert acc; induction s as [|c s IH]; intros acc; [done|]. apply IH. Qed.

Lemma str_rev_acc s acc : str_rev s acc = str_rev s "" +:+ acc.
Proof.
  revert acc; induction s as [|c s IH]; intros acc; [done|]. cbn.
  rewrite (IH (String c acc)), (IH (String c "")). by rewrite string_app_assoc.
Qed.

(** The end of a text is that of its last part. *)
Lemma ends_with_app p s t :
  ends_with p (s +:+ t) = starts_with (str_rev p "") (str_rev t "" +:+ str_rev s "").
Proof. unfold ends_with. by rewrite str_rev_app, (str_rev_acc t). Qed.

(** Splitting and joining again is the identity. *)
Lemma split_on_concat c s : String.concat (String c "") (split_on c s) = s.
Proof.
  induction s as [|a s IH]; [done|]. cbn. pose proof (split_on_nonempty c s) as Hne.
  destruct (Ascii.eqb_spec a c) as [->|]; destruct (split_on c s) as [|w ws]; try done.
  - change (String c (String.concat (String c "") (w :: ws)) = String c s). by rewrite IH.
  - rewrite <- IH. by destruct ws.
Qed.

(** ** URLs as [urllib.parse.urlparse] reads them

    The scheme and the host of a URL.  The validity of an IPv6 literal between
    brackets is not checked; mismatched brackets are refused as the library
    refuses them. *)

(** [url.lstrip(C0 control or space)], then tabs and line ends removed *)
Fixpoint remove_unsafe (s : string) : string :=
  match s with
  | EmptyString => ""
  | String c s' =>
      let n := nat_of_ascii c in
      if Nat.eqb n 9 || Nat.eqb n 10 || Nat.eqb n 13 then remove_unsafe s'
      else String c (remove_unsafe s')
  end.
Definition clean_url (s : string) : string :=
  remove_unsafe (lstrip_by (λ c, Nat.leb (nat_of_ascii c) 32) s).

Definition scheme_char (c : ascii) : bool :=
  is_alpha c || is_digit c || Ascii.eqb c "+" || Ascii.eqb c "-" || Ascii.eqb c ".".

Definition starts_alpha (s : string) : bool :=
  match s with String c _ => is_alpha c | EmptyString => false end.

(** The scheme in lower case, and the rest of the URL. *)
Definition split_scheme (url : string) : string * string :=
  match after ":" url with
  | Some rest =>
      let scheme := before ":" url in
      if starts_alpha scheme && str_all scheme_char scheme then (str_lower scheme, rest)
      else ("", url)
  | None => ("", url)
  end.

(** The text before the first of the characters [/?#]. *)
Fixpoint until_delimiter (s : string) : string :=
  match s with
  | EmptyString => ""
  | String c s' =>
      if Ascii.eqb c "/" || Ascii.eqb c "?" || Ascii.eqb c "#" then ""
      else String c (until_delimiter s')
  end.

Definition netloc_of (rest : string) : string :=
  if starts_with "//" rest then until_delimiter (remove_prefix "//" rest) else "".

(** [netloc.rpartition("@")[2]] *)
Definition host_info (netloc : string) : string :=
  split_end (String.length netloc) "@" netloc.

Definition host_of (netloc : string) : option string :=
  let info := host_info netloc in
  let host :=
    match after "[" info with
    | Some bracketed => before "]" bracketed
    | None => before ":" info
    end in
  if String.eqb host "" then None
  else
    match after "%" host with
    | Some zone => Some (str_lower (before "%" host) +:+ "%" +:+ zone)
    | None => Some (str_lower host)
    end.

Record parsed_url := mkParsed { u_scheme : string; u_hostname : option string }.

Definition urlparse (url : string) : result parsed_url :=
  let '(scheme, rest) := split_scheme (clean_url url) in
  let netloc := netloc_of rest in
  if Bool.eqb (str_contains "[" netloc) (str_contains "]" netloc)
  then inr (mkParsed scheme (host_of netloc))
  else inl (ValueError "Invalid IPv6 URL").

Example parse_api :
  urlparse "HTTPS://user@API.Example.com:8443/v1?x=1" = inr (mkParsed "https" (Some "api.example.com")).
Proof. reflexivity. Qed.
Example parse_path : urlparse "/v1/refunds" = inr (mkParsed "" None).
Proof. reflexivity. Qed.
