(* ===== verification/Table.v ===== *)
(** * SQL tables

    A table is the list of its rows in rowid order.  [UPDATE t SET f WHERE p]
    maps the rows [p] selects and reports how many there were ([rowcount]); an
    [INSERT] appends and fails on a uniqueness constraint; [ORDER BY key] is a
    stable sort (ties keep rowid order) and [LIMIT n] with a negative [n] is no
    limit, as in SQLite. *)

From S2P Require Import Prelude.

Section sql.
Context {R : Type}.
Implicit Types (t : list R) (p : R → bool) (f : R → R) (r : R).

(** [SELECT * FROM t WHERE p], and [fetchone()] of it. *)
Fixpoint select_where p t : list R :=
  match t with
  | [] => []
  | r :: t' => if p r then r :: select_where p t' else select_where p t'
  end.

Fixpoint select_one p t : option R :=
  match t with
  | [] => None
  | r :: t' => if p r then Some r else select_one p t'
  end.

(** [UPDATE t SET f WHERE p] and its [cursor.rowcount]. *)
Definition update_where p f t : list R := map (λ r, if p r then f r else r) t.
Definition rowcount p t : nat := length (select_where p t).

(** [ORDER BY key] and [LIMIT n] *)
Fixpoint insert_by (key : R → Z) r t : list R :=
  match t with
  | [] => [r]
  | r' :: t' => if (key r <=? key r')%Z then r :: t else r' :: insert_by key r t'
  end.
Definition order_by (key : R → Z) t : list R := foldr (insert_by key) [] t.
Definition order_by_desc (key : R → Z) t : list R := order_by (λ r, - key r)%Z t.
(** [ORDER BY] under any comparison, stable. *)
Fixpoint insert_le (le : R → R → bool) r t : list R :=
  match t with
  | [] => [r]
  | r' :: t' => if le r r' then r :: t else r' :: insert_le le r t'
  end.
Definition order_le (le : R → R → bool) t : list R := foldr (insert_le le) [] t.
Definition limit (n : Z) t : list R := if (n <? 0)%Z then t else take (Z.to_nat n) t.

Lemma elem_of_select_where p t r : r ∈ select_where p t ↔ r ∈ t ∧ p r = true.
Proof.
  induction t as [|x t IH]; cbn.
  - split; [by intros ?%not_elem_of_nil|by intros [?%not_elem_of_nil _]].
  - destruct (p x) eqn:Hp; rewrite ?elem_of_cons, IH.
    + split; [intros [->|[? ?]]; auto|intros [[->|?] ?]; auto].
    + split; [intros [? ?]; auto|intros [[->|?] ?]; [congruence|auto]].
Qed.

Lemma select_one_Some p t r : select_one p t = Some r → r ∈ t ∧ p r = true.
Proof.
  induction t as [|x t IH]; cbn; [done|].
  destruct (p x) eqn:Hp; intros; simplify_eq.
  - by split; [left|].
  - destruct IH; [done|]. by split; [right|].
Qed.

Lemma select_one_None p t : select_one p t = None ↔ ∀ r, r ∈ t → p r = false.
Proof.
  induction t as [|x t IH]; cbn; [by split; [intros _ r ?%not_elem_of_nil|]|].
  destruct (p x) eqn:Hp.
  - split; [done|]. intros H. rewrite H in Hp by left. done.
  - rewrite IH. setoid_rewrite elem_of_cons. naive_solver.
Qed.

Lemma select_where_app p t1 t2 :
  select_where p (t1 ++ t2) = select_where p t1 ++ select_where p t2.
Proof. induction t1 as [|x t IH]; cbn; [done|]. destruct (p x); cbn; by rewrite IH. Qed.

Lemma select_one_app p t1 t2 :
  select_one p (t1 ++ t2) =
  match select_one p t1 with Some r => Some r | None => select_one p t2 end.
Proof. induction t1 as [|x t IH]; cbn; [done|]. by destruct (p x). Qed.

Lemma select_one_ext p q t : (∀ r, p r = q r) → select_one p t = select_one q t.
Proof. intros He. induction t as [|x t IH]; cbn; [done|]. by rewrite He, IH. Qed.

Lemma elem_of_update_where p f t r :
  r ∈ update_where p f t ↔ ∃ r0, r0 ∈ t ∧ r = if p r0 then f r0 else r0.
Proof. unfold update_where. rewrite list_elem_of_fmap. naive_solver. Qed.

Lemma update_where_none p f t :
  (∀ r, r ∈ t → p r = false) → update_where p f t = t.
Proof.
  unfold update_where. induction t as [|x t IH]; cbn; [done|].
  intros H. rewrite (H x) by left. f_equal. apply IH. intros r ?. apply H. by right.
Qed.

Lemma rowcount_zero p t : rowcount p t = 0 → ∀ r, r ∈ t → p r = false.
Proof.
  unfold rowcount. intros H%nil_length_inv r Hr. destruct (p r) eqn:E; [|done].
  assert (r ∈ select_where p t) as Hin by by apply elem_of_select_where.
  rewrite H in Hin. by apply not_elem_of_nil in Hin.
Qed.

Lemma insert_by_perm key r t : insert_by key r t ≡ₚ r :: t.
Proof.
  induction t as [|x t IH]; cbn; [done|]. case_match; [done|].
  rewrite IH. apply Permutation_swap.
Qed.

Lemma order_by_perm key t : order_by key t ≡ₚ t.
Proof.
  unfold order_by. induction t as [|x t IH]; cbn; [done|]. by rewrite insert_by_perm, IH.
Qed.

Lemma elem_of_order_by key t r : r ∈ order_by key t ↔ r ∈ t.
Proof. by rewrite order_by_perm. Qed.

Lemma insert_le_perm le r t : insert_le le r t ≡ₚ r :: t.
Proof.
  induction t as [|x t IH]; cbn; [done|]. case_match; [done|].
  rewrite IH. apply Permutation_swap.
Qed.

Lemma order_le_perm le t : order_le le t ≡ₚ t.
Proof.
  unfold order_le. induction t as [|x t IH]; cbn; [done|]. by rewrite insert_le_perm, IH.
Qed.

Lemma elem_of_order_le le t r : r ∈ order_le le t ↔ r ∈ t.
Proof. by rewrite order_le_perm. Qed.

Lemma elem_of_limit n t r : r ∈ limit n t → r ∈ t.
Proof. unfold limit. case_match; [done|]. intros (i & Hi & _)%elem_of_take. by eapply list_elem_of_lookup_2. Qed.

Lemma length_limit n t : (0 ≤ n)%Z → length (limit n t) ≤ Z.to_nat n.
Proof. intros. unfold limit. case_match; [lia|]. rewrite length_take. lia. Qed.
End sql.

(** ** Keyed tables: a table whose rows are identified by [key] *)
Section keyed.
Context {R K : Type} `{!EqDecision K} (key : R → K).
Implicit Types (t : list R) (p : R → bool) (f : R → R) (r : R) (k : K).

Definition tget k t : option R := select_one (λ r, bool_decide (key r = k)) t.

(** [INSERT INTO t VALUES r] with [key] as PRIMARY KEY or UNIQUE. *)
Definition tinsert (constraint : string) r t : result (list R) :=
  match tget (key r) t with
  | Some _ => inl (IntegrityError constraint)
  | None => inr (t ++ [r])
  end.

(** [INSERT ... ON CONFLICT(key) DO UPDATE SET f] *)
Definition tupsert r f t : list R :=
  match tget (key r) t with
  | Some _ => update_where (λ r', bool_decide (key r' = key r)) f t
  | None => t ++ [r]
  end.

Definition unique t : Prop := NoDup (key <$> t).

Lemma tget_key k t r : tget k t = Some r → key r = k ∧ r ∈ t.
Proof. intros [? ?]%select_one_Some. by case_bool_decide. Qed.

Lemma tget_None k t : tget k t = None ↔ k ∉ key <$> t.
Proof.
  unfold tget. rewrite select_one_None, list_elem_of_fmap. split.
  - intros H (r & -> & Hr). specialize (H _ Hr). by case_bool_decide.
  - intros H r Hr. case_bool_decide; [|done]. destruct H. eauto.
Qed.

Lemma tget_elem t r : unique t → r ∈ t → tget (key r) t = Some r.
Proof.
  unfold unique, tget. induction t as [|x t IH]; cbn; [by intros _ ?%not_elem_of_nil|].
  intros [Hx Ht]%NoDup_cons [->|Hr]%elem_of_cons.
  - by rewrite bool_decide_true.
  - case_bool_decide as Hk; [|auto]. destruct Hx. rewrite Hk.
    apply list_elem_of_fmap. eauto.
Qed.

Lemma tget_app k t1 t2 :
  tget k (t1 ++ t2) = match tget k t1 with Some r => Some r | None => tget k t2 end.
Proof. apply select_one_app. Qed.

Lemma tget_snoc k t r :
  tget k (t ++ [r]) =
  match tget k t with
  | Some x => Some x
  | None => if bool_decide (key r = k) then Some r else None
  end.
Proof. rewrite tget_app. by cbn. Qed.

(** [f] leaves the key of the rows [p] selects. *)
Definition keeps_key p f : Prop := ∀ r, p r = true → key (f r) = key r.

Lemma keeps_key_all p f : (∀ r, key (f r) = key r) → keeps_key p f.
Proof. by intros Hf r _. Qed.

Lemma keeps_key_if p f r : keeps_key p f → key (if p r then f r else r) = key r.
Proof. intros Hf. destruct (p r) eqn:Hp; auto. Qed.

Lemma tget_update k p f t :
  keeps_key p f →
  tget k (update_where p f t) = (λ r, if p r then f r else r) <$> tget k t.
Proof.
  intros Hf. unfold tget, update_where. induction t as [|x t IH]; cbn; [done|].
  rewrite keeps_key_if by done. by case_bool_decide.
Qed.

Lemma key_update p f t : keeps_key p f → key <$> update_where p f t = key <$> t.
Proof.
  intros Hf. unfold update_where. induction t as [|x t IH]; cbn; [done|].
  by rewrite IH, keeps_key_if.
Qed.

Lemma unique_update p f t : keeps_key p f → unique t → unique (update_where p f t).
Proof. intros Hf. unfold unique. by rewrite key_update. Qed.

Lemma unique_snoc r t : tget (key r) t = None → unique t → unique (t ++ [r]).
Proof.
  unfold unique. rewrite tget_None, fmap_app. intros Hk Ht. cbn.
  apply NoDup_app. split_and!; [done| |apply NoDup_singleton].
  intros x Hx ->%list_elem_of_singleton. done.
Qed.

Lemma unique_insert c r t t' : tinsert c r t = inr t' → unique t → unique t'.
Proof.
  unfold tinsert. destruct (tget (key r) t) eqn:E; intros; simplify_eq.
  by apply unique_snoc.
Qed.

Definition upserts_key r f : Prop := ∀ r', key r' = key r → key (f r') = key r.

Lemma upserts_keeps r f :
  upserts_key r f → keeps_key (λ r', bool_decide (key r' = key r)) f.
Proof. intros Hf r' Hr'. apply bool_decide_eq_true in Hr'. rewrite Hr'. auto. Qed.

Lemma unique_upsert r f t : upserts_key r f → unique t → unique (tupsert r f t).
Proof.
  intros Hf Ht. unfold tupsert. destruct (tget _ t) eqn:E.
  - apply unique_update; [by apply upserts_keeps|done].
  - by apply unique_snoc.
Qed.

Lemma tget_upsert k r f t :
  upserts_key r f →
  tget k (tupsert r f t) =
  if bool_decide (key r = k)
  then Some (match tget k t with Some x => f x | None => r end)
  else tget k t.
Proof.
  intros Hf. unfold tupsert. destruct (tget (key r) t) as [x|] eqn:E.
  - rewrite tget_update by by apply upserts_keeps. case_bool_decide as Hk; subst.
    + rewrite E. cbn. apply tget_key in E as [-> _]. by rewrite bool_decide_true.
    + destruct (tget k t) as [y|] eqn:Ey; cbn; [|done].
      apply tget_key in Ey as [<- _]. by rewrite bool_decide_false by congruence.
  - rewrite tget_snoc. case_bool_decide as Hk; subst; [by rewrite E|by destruct (tget k t)].
Qed.

(** A query by key with one more condition. *)
Lemma select_one_key k q t :
  unique t →
  select_one (λ r, bool_decide (key r = k) && q r) t =
  match tget k t with Some r => if q r then Some r else None | None => None end.
Proof.
  unfold unique, tget. induction t as [|x t IH]; cbn; [done|].
  intros [Hx Ht]%NoDup_cons. case_bool_decide as Hk; cbn; [|auto].
  destruct (q x); [done|]. apply select_one_None. intros r Hr. case_bool_decide; [|done].
  destruct Hx. rewrite Hk. apply list_elem_of_fmap. exists r. split; congruence.
Qed.

(** The rowcount of an UPDATE whose condition names the key is that of the
    one row with this key. *)
Lemma rowcount_key k p t :
  unique t → (∀ r, p r = true → key r = k) →
  rowcount p t = match tget k t with Some r => if p r then 1 else 0 | None => 0 end.
Proof.
  unfold unique, rowcount, tget. intros Ht Hp.
  induction t as [|x t IH]; cbn; [done|]. apply NoDup_cons in Ht as [Hx Ht].
  destruct (p x) eqn:Hpx; cbn.
  - rewrite bool_decide_true by auto. rewrite Hpx. f_equal.
    rewrite IH by done. destruct (select_one _ t) as [r|] eqn:E; [|done].
    apply select_one_Some in E as [Hr Hk]. case_bool_decide; [|done].
    destruct Hx. apply list_elem_of_fmap. exists r. split; [|done].
    rewrite (Hp x) by done. done.
  - case_bool_decide as Hk; [|auto]. rewrite Hpx. subst k.
    destruct (select_where p t) as [|y l] eqn:E; [done|]. exfalso. apply Hx.
    assert (y ∈ select_where p t) as Hy by (rewrite E; left).
    apply elem_of_select_where in Hy as [Hy1 Hy2].
    apply list_elem_of_fmap. exists y. split; [|done]. symmetry. auto.
Qed.
End keyed.

(** ** Evolution of a keyed table

    Every row stays, and changes only along [rel]. *)
Section evolution.
Context {R K : Type} `{!EqDecision K} (key : R → K) (rel : R → R → Prop) `{!PreOrder rel}.

Definition keyed_ev (t t' : list R) : Prop :=
  ∀ k r, tget key k t = Some r → ∃ r', tget key k t' = Some r' ∧ rel r r'.

#[export] Instance keyed_ev_preorder : PreOrder keyed_ev.
Proof.
  split.
  - intros t k r Hr. exists r. by split; [|reflexivity].
  - intros t1 t2 t3 H12 H23 k r Hr. destruct (H12 k r Hr) as (r2 & Hr2 & ?).
    destruct (H23 k r2 Hr2) as (r3 & Hr3 & ?). exists r3. split; [done|by etrans].
Qed.

Lemma keyed_ev_update_in p f t :
  keeps_key key p f →
  (∀ r, tget key (key r) t = Some r → p r = true → rel r (f r)) →
  keyed_ev t (update_where p f t).
Proof.
  intros Hk Hf k r Hr. rewrite tget_update by done. rewrite Hr.
  eexists. split; [done|]. destruct (p r) eqn:Hp; [|reflexivity].
  apply Hf; [|done]. by rewrite (proj1 (tget_key _ _ _ _ Hr)).
Qed.

Lemma keyed_ev_update p f t :
  keeps_key key p f → (∀ r, p r = true → rel r (f r)) →
  keyed_ev t (update_where p f t).
Proof. intros. apply keyed_ev_update_in; auto. Qed.

Lemma keyed_ev_snoc r t : keyed_ev t (t ++ [r]).
Proof.
  intros k r' Hr'. rewrite tget_snoc, Hr'. exists r'. by split; [|reflexivity].
Qed.

Lemma keyed_ev_upsert r f t :
  upserts_key key r f →
  (∀ r', tget key (key r) t = Some r' → rel r' (f r')) → keyed_ev t (tupsert key r f t).
Proof.
  intros Hk Hf k x Hx. rewrite tget_upsert by done. case_bool_decide as Hkey.
  - subst k. rewrite Hx. eexists. split; [done|auto].
  - exists x. by split; [|reflexivity].
Qed.

Lemma keyed_ev_fmap {B} (g : R → B) t t' r :
  keyed_ev t t' → (∀ r r', rel r r' → g r = g r') → unique key t → r ∈ t →
  ∃ r', r' ∈ t' ∧ key r' = key r ∧ g r' = g r.
Proof.
  intros Hev Hg Hu Hr. destruct (Hev (key r) r) as (r' & Hr' & Hrel); [by apply tget_elem|].
  apply tget_key in Hr' as [? ?]. exists r'. split_and!; [done|done|]. symmetry. auto.
Qed.
End evolution.

Arguments unique {R K} key t : simpl never.
Arguments tget {R K _} key k t : simpl never.
Arguments rowcount {R} p t : simpl never.

(** A unique constraint is decided by the keys alone. *)
Lemma unique_fmap_eq {R K} (key : R → K) (t t' : list R) :
  key <$> t = key <$> t' → unique key t → unique key t'.
Proof. unfold unique. by intros ->. Qed.

#[export] Hint Resolve keeps_key_all unique_update unique_insert unique_upsert unique_snoc : wf.
