(* ===== verification/Numerals.v ===== *)
(** * Python's [int()] and [float()]

    The conversions the engine applies to values read from a system of record.
    Strings are read in the ASCII grammar of the language; a decimal is rounded
    to the nearest binary64 value, ties to even. *)

From Stdlib Require Import Floats.SpecFloat Strings.Ascii.
From Stdlib Require Strings.String.
From S2P Require Import Prelude PyValue.

From stdpp Require Import pretty.

Definition is_space (c : ascii) : bool :=
  bool_decide (c ∈ [" "; "009"; "010"; "011"; "012"; "013"; "028"; "029"; "030"; "031"]%char).

Fixpoint drop_spaces (l : list ascii) : list ascii :=
  match l with
  | c :: l' => if is_space c then drop_spaces l' else l
  | [] => []
  end.

(** [s.strip()] *)
Definition strip (l : list ascii) : list ascii := rev (drop_spaces (rev (drop_spaces l))).

Definition digit (c : ascii) : option Z :=
  let n := nat_of_ascii c in
  if (Nat.leb 48 n && Nat.leb n 57)%bool then Some (Z.of_nat n - 48)%Z else None.

(** A run of digits, single underscores allowed between them: its value, its
    length and what follows. *)
Fixpoint more_digits (l : list ascii) (acc : Z) (n : nat) : option (Z * nat * list ascii) :=
  match l with
  | [] => Some (acc, n, [])
  | c :: l' =>
      match digit c with
      | Some d => more_digits l' (10 * acc + d)%Z (S n)
      | None =>
          if Ascii.eqb c "_" then
            match l' with
            | c' :: l'' =>
                match digit c' with
                | Some d => more_digits l'' (10 * acc + d)%Z (S n)
                | None => None
                end
            | [] => None
            end
          else Some (acc, n, l)
      end
  end.

Definition digits (l : list ascii) : option (Z * nat * list ascii) :=
  match l with
  | c :: l' => match digit c with Some d => more_digits l' d 1 | None => None end
  | [] => None
  end.

Definition sign (l : list ascii) : bool * list ascii :=
  match l with
  | c :: l' =>
      if Ascii.eqb c "-" then (true, l') else if Ascii.eqb c "+" then (false, l') else (false, l)
  | [] => (false, [])
  end.

Definition int_of_string (s : string) : option Z :=
  let '(neg, l) := sign (strip (Strings.String.list_ascii_of_string s)) in
  match digits l with
  | Some (z, _, []) => Some (if neg then - z else z)%Z
  | _ => None
  end.

(** The float nearest to [m * 10 ^ e].  A negative power is divided out with at
    least 63 bits of quotient and one sticky bit, which rounding to 53 bits
    cannot tell from the exact quotient. *)
Definition decimal_float (neg : bool) (m e : Z) : float :=
  let signed (z : Z) := if neg then (- z)%Z else z in
  if (m =? 0)%Z then S754_zero neg
  else if (0 <=? e)%Z then binary_normalize f_prec f_emax (signed (m * 10 ^ e)%Z) 0 neg
  else
    let n := (10 ^ (- e))%Z in
    let k := Z.max 0 (64 + Z.log2 n - Z.log2 m) in
    let q := (m * 2 ^ k / n)%Z in
    let sticky := if (m * 2 ^ k mod n =? 0)%Z then 0%Z else 1%Z in
    binary_normalize f_prec f_emax (signed (2 * q + sticky)%Z) (- k - 1) neg.

(** The optional exponent. *)
Definition exponent (l : list ascii) : option Z :=
  match l with
  | [] => Some 0%Z
  | c :: l' =>
      if Ascii.eqb c "e" then
        let '(neg, l'') := sign l' in
        match digits l'' with
        | Some (z, _, []) => Some (if neg then - z else z)%Z
        | _ => None
        end
      else None
  end.

(** A run of digits or nothing. *)
Definition digits_opt (l : list ascii) : option (Z * nat * list ascii) :=
  match l with
  | c :: _ => match digit c with Some _ => digits l | None => Some (0%Z, 0, l) end
  | [] => Some (0%Z, 0, [])
  end.

Definition decimal (neg : bool) (l : list ascii) : option float :=
  match digits_opt l with
  | None => None
  | Some (whole, nw, rest) =>
      match
        match rest with
        | c :: rest' => if Ascii.eqb c "." then digits_opt rest' else Some (0%Z, 0, rest)
        | [] => Some (0%Z, 0, [])
        end
      with
      | None => None
      | Some (frac, nf, rest) =>
          if Nat.eqb (nw + nf) 0 then None
          else
            match exponent rest with
            | None => None
            | Some e =>
                Some (decimal_float neg (whole * 10 ^ Z.of_nat nf + frac) (e - Z.of_nat nf))
            end
      end
  end.

Definition float_of_string (s : string) : option float :=
  let '(neg, l) := sign (strip (Strings.String.list_ascii_of_string (str_lower s))) in
  let body := Strings.String.string_of_list_ascii l in
  if bool_decide (body ∈ ["inf"; "infinity"]) then Some (S754_infinity neg)
  else if String.eqb body "nan" then Some S754_nan
  else decimal neg l.

(** [int(x)] of a float: towards zero. *)
Definition truncate (f : float) : result Z :=
  match f with
  | S754_zero _ => inr 0%Z
  | S754_infinity _ => inl (OtherError "OverflowError")
  | S754_nan => inl (ValueError "cannot convert float NaN to integer")
  | S754_finite s m e =>
      let z := if (0 <=? e)%Z then (Zpos m * 2 ^ e)%Z else (Zpos m / 2 ^ (- e))%Z in
      inr (if s then - z else z)%Z
  end.

(** [int(v)] and [float(v)] *)
Definition py_int (v : value) : result Z :=
  match v with
  | VInt z => inr z
  | VBool b => inr (if b then 1 else 0)%Z
  | VFloat f => truncate f
  | VStr s =>
      match int_of_string s with
      | Some z => inr z
      | None => inl (ValueError "invalid literal for int() with base 10")
      end
  | _ => inl (TypeError "int() argument must be a string, a bytes-like object or a real number")
  end.

Definition float_of_int (z : Z) : result float :=
  match f_of_Z z with
  | S754_infinity _ => inl (OtherError "OverflowError")
  | f => inr f
  end.

Definition py_float (v : value) : result float :=
  match v with
  | VInt z => float_of_int z
  | VBool b => float_of_int (if b then 1 else 0)%Z
  | VFloat f => inr f
  | VStr s =>
      match float_of_string s with
      | Some f => inr f
      | None => inl (ValueError "could not convert string to float")
      end
  | _ => inl (TypeError "float() argument must be a string or a real number")
  end.

(** [f"{x:.2f}"]: the exact value rounded to cents, ties to even. *)
Definition cents (m : positive) (e : Z) : Z :=
  if (0 <=? e)%Z then (Zpos m * 2 ^ e * 100)%Z
  else
    let d := (2 ^ (- e))%Z in
    let q := (Zpos m * 100 / d)%Z in
    match Z.compare (2 * (Zpos m * 100 mod d)) d with
    | Lt => q | Gt => (q + 1)%Z | Eq => if Z.even q then q else (q + 1)%Z
    end.
Definition fixed2 (c : Z) : string :=
  pretty (c / 100)%Z +:+ "." +:+ pretty (c / 10 mod 10)%Z +:+ pretty (c mod 10)%Z.
Definition fmt2 (x : float) : string :=
  match x with
  | S754_zero s => (if s then "-" else "") +:+ "0.00"
  | S754_infinity s => (if s then "-" else "") +:+ "inf"
  | S754_nan => "nan"
  | S754_finite s m e => (if s then "-" else "") +:+ fixed2 (cents m e)
  end.
Definition fmt2_value (v : value) : result string :=
  match v with
  | VFloat x => inr (fmt2 x)
  | VInt _ | VBool _ => rbind (py_float v) (λ x, inr (fmt2 x))
  | VStr _ => inl (ValueError "Unknown format code 'f' for object of type 'str'")
  | _ => inl (TypeError "unsupported format string")
  end.

(** ** Evaluations *)

Example fmt2_half_even : fmt2 (default S754_nan (float_of_string "1234.125")) = "1234.12".
Proof. vm_compute. reflexivity. Qed.


Example float_tenth : float_of_string " 0.1" = Some (S754_finite false 7205759403792794 (-56)).
Proof. vm_compute. reflexivity. Qed.
Example float_smallest : float_of_string "5e-324" = Some (S754_finite false 1 (-1074)).
Proof. vm_compute. reflexivity. Qed.
Example int_grouped : int_of_string "-1_000" = Some (-1000)%Z.
Proof. reflexivity. Qed.
