(* ===== verification/Regex.v ===== *)
(** * Regular expressions ([re])

    The part of Python's pattern language the sources use: a parser for their
    pattern texts, the backtracking matcher with its priorities, [search], [match],
    [findall] and [sub], on ASCII text; and the language a pattern denotes, with
    the soundness and completeness of the matcher. *)

From Stdlib Require Import Strings.Ascii.
From S2P Require Import Prelude PyValue PyString.

(** ** Patterns *)

(** One item of a character class. *)
Inductive citem := CChar (a : ascii) | CRange (a b : ascii) | CDigit | CSpace | CWord | CDot.

Definition newline : ascii := "010"%char.

Definition in_item (ci : bool) (i : citem) (a : ascii) : bool :=
  match i with
  | CChar b => Ascii.eqb a b || (ci && Ascii.eqb (to_lower a) (to_lower b))
  | CRange lo hi =>
      let inside c := Nat.leb (nat_of_ascii lo) (nat_of_ascii c) &&
                      Nat.leb (nat_of_ascii c) (nat_of_ascii hi) in
      inside a || (ci && (inside (to_lower a) || inside (to_upper a)))
  | CDigit => is_digit a
  | CSpace => is_space a
  | CWord => is_word a
  | CDot => negb (Ascii.eqb a newline)
  end.

Inductive re :=
  | Eps
  | Cls (ci : bool) (items : list citem)
  | Cat (r s : re)
  | Alt (r s : re)
  | Star (greedy : bool) (r : re)
  | Opt (greedy : bool) (r : re)
  | Group (n : nat) (r : re)
  | Bound | Bol | Eol.

Definition in_class (ci : bool) (items : list citem) (a : ascii) : bool :=
  existsb (λ i, in_item ci i a) items.

Definition cat (l : list re) : re := foldr Cat Eps l.

(** ** The parser *)
Section parser.
Context (ci : bool).

(** The class an escaped character stands for. *)
Definition escape (c : ascii) : citem :=
  if Ascii.eqb c "d" then CDigit else if Ascii.eqb c "s" then CSpace
  else if Ascii.eqb c "w" then CWord else CChar c.

(** The items of a class up to its closing bracket, and the text after it. *)
Fixpoint parse_class (s : list ascii) : option (list citem * list ascii) :=
  match s with
  | "]"%char :: s' => Some ([], s')
  | "\"%char :: c :: s' => option_map (λ p, (escape c :: p.1, p.2)) (parse_class s')
  | c :: ("-"%char :: d :: s') as s1 =>
      if Ascii.eqb d "]" then option_map (λ p, (CChar c :: p.1, p.2)) (parse_class s1)
      else option_map (λ p, (CRange c d :: p.1, p.2)) (parse_class s')
  | c :: s' => option_map (λ p, (CChar c :: p.1, p.2)) (parse_class s')
  | [] => None
  end.

(** The quantifier that follows an atom. *)
Definition quantified (r : re) (s : list ascii) : re * list ascii :=
  match s with
  | "*"%char :: "?"%char :: s' => (Star false r, s')
  | "*"%char :: s' => (Star true r, s')
  | "+"%char :: "?"%char :: s' => (Cat r (Star false r), s')
  | "+"%char :: s' => (Cat r (Star true r), s')
  | "?"%char :: "?"%char :: s' => (Opt false r, s')
  | "?"%char :: s' => (Opt true r, s')
  | _ => (r, s)
  end.

(** One atom with its quantifier is put before what follows it. *)
Definition then_parse (k : list ascii → option (list re * list ascii)) (r : re) (s : list ascii) :
    option (list re * list ascii) :=
  let q := quantified r s in option_map (λ p, (q.1 :: p.1, p.2)) (k q.2).

(** An alternation up to the end or a closing parenthesis; [n] numbers the
    groups.  The fuel is the length of the text. *)
Fixpoint parse_alt (fuel : nat) (n : nat) (s : list ascii) : option (re * list ascii) :=
  match fuel with
  | 0 => None
  | S fuel =>
      match parse_seq fuel n s with
      | Some (items, "|"%char :: s') =>
          option_map (λ p, (Alt (cat items) p.1, p.2)) (parse_alt fuel n s')
      | Some (items, s') => Some (cat items, s')
      | None => None
      end
  end
with parse_seq (fuel : nat) (n : nat) (s : list ascii) : option (list re * list ascii) :=
  match fuel with
  | 0 => None
  | S fuel =>
      let next := then_parse (parse_seq fuel n) in
      match s with
      | [] | "|"%char :: _ | ")"%char :: _ => Some ([], s)
      | "("%char :: "?"%char :: ":"%char :: s' =>
          match parse_alt fuel n s' with
          | Some (r, ")"%char :: s'') => next r s''
          | _ => None
          end
      | "("%char :: s' =>
          match parse_alt fuel (S n) s' with
          | Some (r, ")"%char :: s'') =>
              then_parse (parse_seq fuel (S n)) (Group n r) s''
          | _ => None
          end
      | "["%char :: s' =>
          match parse_class s' with
          | Some (items, s'') => next (Cls ci items) s''
          | None => None
          end
      | "\"%char :: "b"%char :: s' => next Bound s'
      | "\"%char :: c :: s' => next (Cls ci [escape c]) s'
      | "."%char :: s' => next (Cls ci [CDot]) s'
      | "^"%char :: s' => next Bol s'
      | "$"%char :: s' => next Eol s'
      | c :: s' => next (Cls ci [CChar c]) s'
      end
  end.
End parser.

(** [re.compile]: an initial [(?i)] makes the whole pattern ignore case. *)
Definition compile (pattern : string) : option re :=
  let parse ci s :=
    match parse_alt ci (4 + 2 * length s) 1 s with Some (r, []) => Some r | _ => None end in
  match String.list_ascii_of_string pattern with
  | "("%char :: "?"%char :: "i"%char :: ")"%char :: s => parse true s
  | s => parse false s
  end.

(** A pattern of the sources (all of them compile: each use is evaluated). *)
Definition re_of (pattern : string) : re := default (Cls false []) (compile pattern).

(** ** The matcher *)

(** The state of a match: the character before the position, the text after it,
    the groups captured so far. *)
Record mstate := mkM { m_prev : option ascii; m_rest : string; m_groups : list (nat * string) }.

Definition word_at (c : option ascii) : bool := match c with Some a => is_word a | None => false end.
Definition head (s : string) : option ascii := match s with String a _ => Some a | _ => None end.

Definition at_boundary (st : mstate) : bool :=
  xorb (word_at (m_prev st)) (word_at (head (m_rest st))).
Definition at_start (st : mstate) : bool := match m_prev st with None => true | Some _ => false end.
Definition at_end (st : mstate) : bool :=
  String.eqb (m_rest st) "" || String.eqb (m_rest st) (String newline "").

(** The text between two positions. *)
Definition consumed (st st' : mstate) : string :=
  String.substring 0 (String.length (m_rest st) - String.length (m_rest st')) (m_rest st).
Definition capture (n : nat) (st st' : mstate) : mstate :=
  mkM (m_prev st') (m_rest st') ((n, consumed st st') :: m_groups st').
Definition shorter (st' st : mstate) : bool :=
  Nat.ltb (String.length (m_rest st')) (String.length (m_rest st)).

#[local] Arguments shorter : simpl never.

(** The repetitions of [m], each of which must make progress: as many as possible
    first, or as few; the fuel is the length of the text. *)
Fixpoint repeat (m : (mstate → option mstate) → mstate → option mstate) (greedy : bool)
    (k : mstate → option mstate) (n : nat) (st : mstate) : option mstate :=
  match n with
  | 0 => k st
  | S n =>
      let again st' := if shorter st' st then repeat m greedy k n st' else None in
      if greedy then match m again st with Some r => Some r | None => k st end
      else match k st with Some r => Some r | None => m again st end
  end.

Fixpoint mt (r : re) (k : mstate → option mstate) (st : mstate) : option mstate :=
  match r with
  | Eps => k st
  | Cls ci items =>
      match m_rest st with
      | String a s => if in_class ci items a then k (mkM (Some a) s (m_groups st)) else None
      | EmptyString => None
      end
  | Cat r1 r2 => mt r1 (mt r2 k) st
  | Alt r1 r2 => match mt r1 k st with Some m => Some m | None => mt r2 k st end
  | Star greedy r1 =>
      repeat (mt r1) greedy k (String.length (m_rest st)) st
  | Opt greedy r1 =>
      if greedy then match mt r1 k st with Some m => Some m | None => k st end
      else match k st with Some m => Some m | None => mt r1 k st end
  | Group n r1 => mt r1 (λ st', k (capture n st st')) st
  | Bound => if at_boundary st then k st else None
  | Bol => if at_start st then k st else None
  | Eol => if at_end st then k st else None
  end.

(** A match that begins at a position, and the first match at or after it, with
    the position where it begins. *)
Definition match_at (r : re) (c : option ascii) (s : string) : option mstate :=
  mt r Some (mkM c s []).

Fixpoint search_from (r : re) (c : option ascii) (s : string) : option (mstate * mstate) :=
  match match_at r c s with
  | Some m => Some (mkM c s [], m)
  | None => match s with String a s' => search_from r (Some a) s' | EmptyString => None end
  end.

(** [bool(re.search(p, s))], [bool(re.match(p, s))] *)
Definition re_search (r : re) (s : string) : bool :=
  match search_from r None s with Some _ => true | None => false end.
Definition re_match (r : re) (s : string) : bool :=
  match match_at r None s with Some _ => true | None => false end.

(** [re.sub(p, repl, s)], for a pattern that matches no empty text; [skip] counts
    the characters of the current match still to be dropped. *)
Fixpoint sub_from (r : re) (repl : string) (skip : nat) (c : option ascii) (s : string) : string :=
  match s with
  | EmptyString => ""
  | String a s' =>
      match skip with
      | S n => sub_from r repl n (Some a) s'
      | 0 =>
          match match_at r c s with
          | Some m =>
              repl +:+ sub_from r repl (String.length s' - String.length (m_rest m)) (Some a) s'
          | None => String a (sub_from r repl 0 (Some a) s')
          end
      end
  end.
Definition re_sub (r : re) (repl s : string) : string := sub_from r repl 0 None s.

(** [p.findall(s)], for a pattern that matches no empty text: the matches, with
    their groups. *)
Fixpoint find_from (r : re) (skip : nat) (c : option ascii) (s : string) : list mstate :=
  match s with
  | EmptyString => []
  | String a s' =>
      match skip with
      | S n => find_from r n (Some a) s'
      | 0 =>
          match match_at r c s with
          | Some m => m :: find_from r (String.length s' - String.length (m_rest m)) (Some a) s'
          | None => find_from r 0 (Some a) s'
          end
      end
  end.
Definition re_findall (r : re) (s : string) : list mstate := find_from r 0 None s.

(** [""] for a group that took no part in the match. *)
Definition group (n : nat) (m : mstate) : string :=
  match select_first (λ g, Nat.eqb g.1 n) (m_groups m) with Some g => g.2 | None => "" end.

(** ** The language of a pattern *)
Inductive run_re : re → mstate → mstate → Prop :=
  | run_eps st : run_re Eps st st
  | run_cls ci items c a s g :
      in_class ci items a = true → run_re (Cls ci items) (mkM c (String a s) g) (mkM (Some a) s g)
  | run_cat r1 r2 st st1 st2 : run_re r1 st st1 → run_re r2 st1 st2 → run_re (Cat r1 r2) st st2
  | run_alt_l r1 r2 st st' : run_re r1 st st' → run_re (Alt r1 r2) st st'
  | run_alt_r r1 r2 st st' : run_re r2 st st' → run_re (Alt r1 r2) st st'
  | run_star_stop b r st : run_re (Star b r) st st
  | run_star_more b r st st1 st2 :
      run_re r st st1 → shorter st1 st = true → run_re (Star b r) st1 st2 → run_re (Star b r) st st2
  | run_opt_none b r st : run_re (Opt b r) st st
  | run_opt_some b r st st' : run_re r st st' → run_re (Opt b r) st st'
  | run_group n r st st' : run_re r st st' → run_re (Group n r) st (capture n st st')
  | run_bound st : at_boundary st = true → run_re Bound st st
  | run_bol st : at_start st = true → run_re Bol st st
  | run_eol st : at_end st = true → run_re Eol st st.

Lemma mt_sound r k st m : mt r k st = Some m → ∃ st', run_re r st st' ∧ k st' = Some m.
Proof.
  revert k st m; induction r as [|ci items|r1 IH1 r2 IH2|r1 IH1 r2 IH2|b r IH|b r IH|n r IH| | |];
    intros k st m; cbn.
  - intros Hk. exists st. split; [constructor|done].
  - destruct st as [c [|a s] g]; cbn; [done|]. destruct (in_class ci items a) eqn:E; [|done].
    intros Hk. eexists. split; [by constructor|done].
  - intros (st1 & Hr1 & (st2 & Hr2 & Hk)%IH2)%IH1. exists st2. split; [by econstructor|done].
  - destruct (mt r1 k st) as [m'|] eqn:E.
    + intros [= ->]. apply IH1 in E as (st' & ? & ?). exists st'. split; [by constructor|done].
    + intros (st' & ? & ?)%IH2. exists st'. split; [by apply run_alt_r|done].
  - generalize (String.length (m_rest st)) as n. intros n. revert st m; induction n as [|n IHn];
      intros st m; cbn.
    { intros Hk. exists st. split; [constructor|done]. }
    set (again := λ st', if shorter st' st then repeat (mt r) b k n st' else None).
    assert (∀ m', mt r again st = Some m' → ∃ st', run_re (Star b r) st st' ∧ k st' = Some m') as Hmore.
    { intros m' (st1 & Hr & Hk)%IH. unfold again in Hk. destruct (shorter st1 st) eqn:Hs; [|done].
      apply IHn in Hk as (st2 & ? & ?). exists st2. split; [by eapply run_star_more|done]. }
    destruct b.
    + destruct (mt r again st) as [m'|] eqn:E; [intros [= ->]; by apply Hmore|].
      intros Hk. exists st. split; [constructor|done].
    + destruct (k st) as [m'|] eqn:E; [intros [= ->]; exists st; split; [constructor|done]|].
      apply Hmore.
  - destruct b.
    + destruct (mt r k st) as [m'|] eqn:E.
      * intros [= ->]. apply IH in E as (st' & ? & ?). exists st'. split; [by constructor|done].
      * intros Hk. exists st. split; [constructor|done].
    + destruct (k st) as [m'|] eqn:E.
      * intros [= ->]. exists st. split; [constructor|done].
      * intros (st' & ? & ?)%IH. exists st'. split; [by constructor|done].
  - intros (st' & ? & ?)%IH. eexists. split; [by constructor|done].
  - destruct (at_boundary st) eqn:E; [|done]. intros Hk. exists st. split; [by constructor|done].
  - destruct (at_start st) eqn:E; [|done]. intros Hk. exists st. split; [by constructor|done].
  - destruct (at_end st) eqn:E; [|done]. intros Hk. exists st. split; [by constructor|done].
Qed.

(** The matcher only looks at the values of its continuation, and a repetition has
    enough fuel in the length of the text. *)
Lemma mt_ext r k k' st : (∀ st', k st' = k' st') → mt r k st = mt r k' st.
Proof.
  revert k k' st; induction r as [|ci items|r1 IH1 r2 IH2|r1 IH1 r2 IH2|b r IH|b r IH|n r IH| | |];
    intros k k' st Hk; cbn; rewrite ?Hk; try done.
  - destruct (m_rest st); [done|]. by rewrite Hk.
  - apply IH1. intros st'. by apply IH2.
  - rewrite (IH1 k k' st Hk). destruct (mt r1 k' st); [done|]. by apply IH2.
  - generalize (String.length (m_rest st)) as n. intros n. revert st; induction n as [|n IHn];
      intros st; cbn; rewrite Hk; [done|].
    rewrite (IH _ (λ st', if shorter st' st then repeat (mt r) b k' n st' else None)); [done|].
    intros st'. by rewrite IHn.
  - by rewrite (IH k k' st Hk).
  - apply IH. intros st'. apply Hk.
Qed.

Lemma repeat_fuel r b k n st :
  String.length (m_rest st) ≤ n →
  repeat (mt r) b k n st = repeat (mt r) b k (String.length (m_rest st)) st.
Proof.
  revert st; induction n as [n IHn] using lt_wf_ind; intros st Hn.
  destruct n as [|n]; [by replace (String.length (m_rest st)) with 0 by lia|].
  destruct (String.length (m_rest st)) as [|l] eqn:El; cbn.
  - rewrite (mt_ext r _ (λ _, None)).
    2: { intros st'. unfold shorter. by rewrite El. }
    assert (mt r (λ _ : mstate, None) st = None) as ->.
    { destruct (mt r _ st) eqn:E; [|done]. by apply mt_sound in E as (? & _ & ?). }
    by destruct b, (k st).
  - rewrite (mt_ext r _ (λ st', if shorter st' st then repeat (mt r) b k l st' else None)); [done|].
    intros st'. destruct (shorter st' st) eqn:Hs; [|done]. unfold shorter in Hs.
    apply Nat.ltb_lt in Hs. rewrite (IHn n), (IHn l) by lia. done.
Qed.

Lemma mt_complete r k st st' : run_re r st st' → k st' ≠ None → mt r k st ≠ None.
Proof.
  intros Hr. revert k. induction Hr as
    [st|ci items c a s g Ha|r1 r2 st st1 st2 _ IH1 _ IH2|r1 r2 st st' _ IH|r1 r2 st st' _ IH
    |b r st|b r st st1 st2 _ IH1 Hs _ IH2|b r st|b r st st' _ IH|n r st st' _ IH
    |st Hb|st Hb|st Hb]; intros k Hk; cbn; rewrite ?Ha, ?Hb; try done.
  - by apply IH1, IH2.
  - specialize (IH k Hk). by destruct (mt r1 k st).
  - destruct (mt r1 k st); [done|]. by apply IH.
  - destruct (String.length _); [done|]. cbn.
    destruct b; [by destruct (mt r _ st)|by destruct (k st)].
  - specialize (IH2 k Hk). cbn in IH2. pose proof Hs as Hlt. unfold shorter in Hlt.
    apply Nat.ltb_lt in Hlt. destruct (String.length (m_rest st)) as [|n] eqn:En; [lia|]. cbn.
    set (again := λ st', if shorter st' st then repeat (mt r) b k n st' else None).
    assert (mt r again st ≠ None) as Hmore.
    { apply IH1. unfold again. rewrite Hs, repeat_fuel by lia. done. }
    destruct b; [by destruct (mt r again st)|by destruct (k st)].
  - destruct b; [by destruct (mt r k st)|by destruct (k st)].
  - specialize (IH k Hk). destruct b; [by destruct (mt r k st)|by destruct (k st)].
  - by apply IH.
Qed.

(** A position matches exactly when the language has a run from it. *)
Lemma match_at_spec r c s : match_at r c s ≠ None ↔ ∃ st', run_re r (mkM c s []) st'.
Proof.
  unfold match_at. split.
  - destruct (mt r Some _) as [m|] eqn:E; [|done]. intros _.
    apply mt_sound in E as (st' & ? & _). by exists st'.
  - intros [st' Hr]. by eapply mt_complete.
Qed.

(** ** Evaluations *)
Example pattern_range : re_match (re_of "^(1[0-2]|0[1-9])$") "12" = true.
Proof. vm_compute. reflexivity. Qed.
Example pattern_groups :
  map (group 1) (re_findall (re_of "\$\s?([\d,]+\.?\d*)") "from $ 1,200.50 to $3.") = ["1,200.50"; "3."].
Proof. vm_compute. reflexivity. Qed.
Example pattern_lazy : re_sub (re_of "(?i)\bstep[_ ]?id\b.*?:") "[REDACTED]" "the Step ID is: x: y" = "the [REDACTED] x: y".
Proof. vm_compute. reflexivity. Qed.
Example pattern_boundary : re_search (re_of "(?i)\b(sql|query)\b") "mysql" = false.
Proof. vm_compute. reflexivity. Qed.
