(* ===== verification/Dates.v ===== *)
(** * Dates ([datetime])

    The proleptic Gregorian calendar of Python's [datetime]: ordinals, the three
    formats of [strptime] the sources use, [timedelta.days].  An instant is a number
    of microseconds since 1970-01-01T00:00:00. *)

From Stdlib Require Import Strings.Ascii.
From S2P Require Import Prelude PyValue PyString Numerals Regex.

Local Open Scope Z_scope.

(** ** The calendar *)

Definition is_leap (y : Z) : bool :=
  (y mod 4 =? 0) && (negb (y mod 100 =? 0) || (y mod 400 =? 0)).

Definition month_lengths (leap : bool) : list Z :=
  [31; if leap then 29 else 28; 31; 30; 31; 30; 31; 31; 30; 31; 30; 31].
Definition days_in_month (y m : Z) : Z := nth (Z.to_nat (m - 1)) (month_lengths (is_leap y)) 0.
Definition days_before_month (y m : Z) : Z :=
  fold_right Z.add 0 (take (Z.to_nat (m - 1)) (month_lengths (is_leap y))).
Definition days_before_year (y : Z) : Z :=
  let p := y - 1 in p * 365 + p / 4 - p / 100 + p / 400.

(** [date(y, m, d).toordinal()] *)
Definition ymd2ord (y m d : Z) : Z := days_before_year y + days_before_month y m + d.

(** [datetime(y, m, d, ...)]: out-of-range fields are refused. *)
Definition date_valid (y m d : Z) : bool :=
  (1 <=? y) && (y <=? 9999) && (1 <=? m) && (m <=? 12) && (1 <=? d) && (d <=? days_in_month y m).

Definition epoch_ordinal : Z := 719163.
Definition day_us : Z := 86400000000.

Definition instant (y mo d h mi s : Z) : option Z :=
  if date_valid y mo d && (s <=? 59) then
    Some ((ymd2ord y mo d - epoch_ordinal) * day_us + ((h * 60 + mi) * 60 + s) * 1000000)
  else None.

(** [delta.days] *)
Definition days_of (delta : Z) : Z := delta / day_us.

(** ** [strptime] *)

Definition date_pattern : string :=
  "(\d\d\d\d)-(1[0-2]|0[1-9]|[1-9])-(3[0-1]|[1-2]\d|0[1-9]|[1-9]| [1-9])".
Definition time_pattern : string := "(2[0-3]|[0-1]\d|\d):([0-5]\d|\d):(6[0-1]|[0-5]\d|\d)".

Inductive format := FDate | FIso | FSpace.
Definition format_pattern (f : format) : string :=
  "(?i)" +:+ date_pattern +:+
  match f with
  | FDate => ""
  | FIso => "T" +:+ time_pattern
  | FSpace => "\s+" +:+ time_pattern
  end.

Definition field (n : nat) (m : mstate) : Z := default 0 (int_of_string (group n m)).

(** [datetime.strptime(s, f)]; [None] is the [ValueError]. *)
Definition strptime (f : format) (s : string) : option Z :=
  match match_at (re_of (format_pattern f)) None s with
  | Some m =>
      if String.eqb (m_rest m) "" then
        instant (field 1 m) (field 2 m) (field 3 m) (field 4 m) (field 5 m) (field 6 m)
      else None
  | None => None
  end.

(** ** Laws of the calendar *)

(** A valid date is a day of its year: ordinals of successive years do not meet. *)
Lemma days_before_year_succ y :
  days_before_year (y + 1) = days_before_year y + 365 + (if is_leap y then 1 else 0).
Proof.
  unfold days_before_year, is_leap. replace (y + 1 - 1) with y by lia.
  assert (Hd : ∀ n, 0 < n → y / n = (y - 1) / n + (if y mod n =? 0 then 1 else 0)).
  { intros n Hn. destruct (y mod n =? 0) eqn:E; [apply Z.eqb_eq in E|apply Z.eqb_neq in E].
    - pose proof (Z.div_mod y n ltac:(lia)). rewrite <- (Z.div_unique (y - 1) n (y / n - 1) (n - 1)); lia.
    - pose proof (Z.div_mod y n ltac:(lia)). pose proof (Z.mod_pos_bound y n Hn).
      rewrite <- (Z.div_unique (y - 1) n (y / n) (y mod n - 1)); lia. }
  rewrite (Hd 4), (Hd 100), (Hd 400) by lia.
  assert (y mod 400 = 0 → y mod 100 = 0).
  { intros [k ->]%Z.mod_divide; [|lia]. apply Z.mod_divide; [lia|]. exists (k * 4). lia. }
  assert (y mod 100 = 0 → y mod 4 = 0).
  { intros [k ->]%Z.mod_divide; [|lia]. apply Z.mod_divide; [lia|]. exists (k * 25). lia. }
  destruct (y mod 4 =? 0) eqn:E4, (y mod 100 =? 0) eqn:E1, (y mod 400 =? 0) eqn:E5;
    cbn [andb orb negb]; rewrite ?Z.eqb_eq, ?Z.eqb_neq in *; try lia.
Qed.

Lemma month_spec (P : Z → Prop) m :
  1 ≤ m ≤ 12 → P 1 → P 2 → P 3 → P 4 → P 5 → P 6 → P 7 → P 8 → P 9 → P 10 → P 11 → P 12 → P m.
Proof.
  intros Hm. assert (m = 1 ∨ m = 2 ∨ m = 3 ∨ m = 4 ∨ m = 5 ∨ m = 6 ∨ m = 7 ∨ m = 8 ∨ m = 9 ∨
    m = 10 ∨ m = 11 ∨ m = 12) as Hc by lia. by destruct_or! Hc; subst.
Qed.

Lemma days_before_month_succ y m :
  1 ≤ m < 12 → days_before_month y (m + 1) = days_before_month y m + days_in_month y m.
Proof.
  intros [Hm1 Hm2]. assert (1 ≤ m ≤ 12) as Hm by lia. revert Hm2. unfold days_before_month, days_in_month. pattern m.
  apply month_spec; [done|..]; destruct (is_leap y); intros Hlt; first [reflexivity|lia].
Qed.

(** The next calendar day is the next ordinal. *)
Lemma next_day_in_month y m d : ymd2ord y m (d + 1) = ymd2ord y m d + 1.
Proof. unfold ymd2ord. lia. Qed.
Lemma next_day_new_month y m :
  1 ≤ m < 12 → ymd2ord y (m + 1) 1 = ymd2ord y m (days_in_month y m) + 1.
Proof. intros. unfold ymd2ord. rewrite days_before_month_succ by done. lia. Qed.
Lemma next_day_new_year y : ymd2ord (y + 1) 1 1 = ymd2ord y 12 31 + 1.
Proof.
  unfold ymd2ord, days_before_month. rewrite days_before_year_succ.
  generalize (days_before_year y); intros n. destruct (is_leap y), (is_leap (y + 1)); vm_compute (Z.to_nat _); cbn; lia.
Qed.

Example epoch_is_1970 : ymd2ord 1970 1 1 = epoch_ordinal.
Proof. reflexivity. Qed.
Example strptime_date : strptime FDate "1970-1-2" = Some day_us.
Proof. vm_compute. reflexivity. Qed.
Example strptime_leap : strptime FDate "2023-02-29" = None.
Proof. vm_compute. reflexivity. Qed.
Example strptime_iso : strptime FIso "1970-01-01T01:00:01" = Some 3601000000.
Proof. vm_compute. reflexivity. Qed.
Example strptime_rest : strptime FDate "1970-01-01T01:00:01" = None.
Proof. vm_compute. reflexivity. Qed.
