(* ===== verification/Redaction.v ===== *)
(** * Redacting the matches of word patterns

    A word pattern is a boundary, one of finitely many words, a boundary and
    possibly the rest of a line up to a colon.  Replacing the matches of one by
    [[REDACTED]] leaves no match of it, and creates no match of another. *)

From S2P Require Import Prelude PyValue PyString Regex.

From Stdlib Require Import Strings.Ascii.

(** ** Patterns as sequences of atoms *)

Inductive atom := AChar (k : bool * list citem) | ABound | AStar (k : bool * list citem).

Definition accepts (k : bool * list citem) (a : ascii) : bool := in_class k.1 k.2 a.

Fixpoint seqs (r : re) : option (list (list atom)) :=
  match r with
  | Eps => Some [[]]
  | Cls ci items => Some [[AChar (ci, items)]]
  | Bound => Some [[ABound]]
  | Star _ (Cls ci items) => Some [[AStar (ci, items)]]
  | Group _ r => seqs r
  | Opt _ r => option_map (λ l, [] :: l) (seqs r)
  | Alt r s => match seqs r, seqs s with Some l, Some m => Some (l ++ m) | _, _ => None end
  | Cat r s =>
      match seqs r, seqs s with
      | Some l, Some m => Some (flat_map (λ q, map (app q) m) l)
      | _, _ => None
      end
  | _ => None
  end.

Definition boundary (c : option ascii) (s : string) : bool := xorb (word_at c) (word_at (head s)).

Inductive run_seq : list atom → option ascii → string → option ascii → string → Prop :=
  | seq_nil c s : run_seq [] c s c s
  | seq_char k q c a s e x :
      accepts k a = true → run_seq q (Some a) s e x → run_seq (AChar k :: q) c (String a s) e x
  | seq_bound q c s e x : boundary c s = true → run_seq q c s e x → run_seq (ABound :: q) c s e x
  | seq_stop k q c s e x : run_seq q c s e x → run_seq (AStar k :: q) c s e x
  | seq_more k q c a s e x :
      accepts k a = true → run_seq (AStar k :: q) (Some a) s e x →
      run_seq (AStar k :: q) c (String a s) e x.

Lemma run_seq_app p q c s e x :
  run_seq (p ++ q) c s e x ↔ ∃ d t, run_seq p c s d t ∧ run_seq q d t e x.
Proof.
  split.
  - revert c s; induction p as [|a p IH]; intros c s; [intros ?; by exists c, s; split; [constructor|]|].
    cbn. intros Hr. remember (a :: p ++ q) as l eqn:El. revert El.
    induction Hr as [| |? ? ? ? ? Hb Hr _|? ? ? ? ? ? Hr _|k q' c a' s e x Ha Hr IHr]; intros [=]; subst.
    + apply IH in Hr as (d & t & ? & ?). exists d, t. split; [by constructor|done].
    + apply IH in Hr as (d & t & ? & ?). exists d, t. split; [by constructor|done].
    + apply IH in Hr as (d & t & ? & ?). exists d, t. split; [by constructor|done].
    + destruct (IHr IH eq_refl) as (d & t & ? & ?). exists d, t. split; [by apply seq_more|done].
  - intros (d & t & Hp & Hq). revert Hq. induction Hp; cbn; intros; by eauto using run_seq.
Qed.

(** A run of a pattern is a run of one of its sequences. *)
Definition at_pos (st : mstate) (c : option ascii) (s : string) : Prop := m_prev st = c ∧ m_rest st = s.

Lemma seqs_sound r l st st' :
  seqs r = Some l → run_re r st st' →
  ∃ q, q ∈ l ∧ run_seq q (m_prev st) (m_rest st) (m_prev st') (m_rest st').
Proof.
  intros Hl Hr. revert l Hl. induction Hr as
    [st|ci items c a s g Ha|r1 r2 st st1 st2 _ IH1 _ IH2|r1 r2 st st' _ IH|r1 r2 st st' _ IH
    |b r st|b r st st1 st2 Hr1 IH1 Hs Hr2 IH2|b r st|b r st st' _ IH|n r st st' _ IH
    |st Hb|st Hb|st Hb]; intros l Hl; cbn in Hl; try done.
  - injection Hl as <-. eexists. split; [by left|constructor].
  - injection Hl as <-. eexists. split; [by left|]. cbn. apply seq_char; [done|constructor].
  - destruct (seqs r1) as [l1|] eqn:E1; [|done]. destruct (seqs r2) as [l2|] eqn:E2; [|done].
    injection Hl as <-. destruct (IH1 _ eq_refl) as (q1 & Hq1 & H1).
    destruct (IH2 _ eq_refl) as (q2 & Hq2 & H2). exists (q1 ++ q2). split.
    + apply list_elem_of_In, in_flat_map. exists q1. split; [by apply list_elem_of_In|].
      by apply in_map, list_elem_of_In.
    + apply run_seq_app. by eauto.
  - destruct (seqs r1) as [l1|]; [|done]. destruct (seqs r2) as [l2|]; [|done]. injection Hl as <-.
    destruct (IH _ eq_refl) as (q & ? & ?). exists q. split; [apply elem_of_app; by left|done].
  - destruct (seqs r1) as [l1|]; [|done]. destruct (seqs r2) as [l2|]; [|done]. injection Hl as <-.
    destruct (IH _ eq_refl) as (q & ? & ?). exists q. split; [apply elem_of_app; by right|done].
  - destruct r; try done. injection Hl as <-. eexists. split; [by left|apply seq_stop; constructor].
  - destruct r; try done. injection Hl as <-. eexists. split; [by left|].
    destruct (IH2 _ eq_refl) as (q & ->%list_elem_of_singleton & Hq). inversion Hr1; subst; cbn in *.
    by apply seq_more.
  - destruct (seqs r) as [l1|]; [|done]. injection Hl as <-. exists []. split; [by left|constructor].
  - destruct (seqs r) as [l1|]; [|done]. injection Hl as <-.
    destruct (IH _ eq_refl) as (q & ? & ?). exists q. split; [by right|done].
  - by apply IH.
  - injection Hl as <-. eexists. split; [by left|]. apply seq_bound; [done|constructor].
Qed.

Lemma star_class_run b ci items c s e x g :
  run_seq [AStar (ci, items)] c s e x → run_re (Star b (Cls ci items)) (mkM c s g) (mkM e x g).
Proof.
  remember [AStar (ci, items)] as q eqn:Eq. intros Hr. revert Eq.
  induction Hr as [| | |k q c s e x Hr _|k q c a s e x Ha Hr IH]; intros [=]; subst.
  - inversion Hr; subst. constructor.
  - eapply run_star_more; [by constructor|unfold shorter; apply Nat.ltb_lt; cbn; lia|by apply IH].
Qed.

Lemma seqs_complete r l q c s e x g :
  seqs r = Some l → q ∈ l → run_seq q c s e x →
  ∃ st', run_re r (mkM c s g) st' ∧ at_pos st' e x.
Proof.
  revert l q c s e x g; induction r as [|ci items|r1 IH1 r2 IH2|r1 IH1 r2 IH2|b r IH|b r IH|n r IH| | |];
    intros l q c s e x g Hl Hq Hr; cbn in Hl; try done.
  - injection Hl as <-. apply list_elem_of_singleton in Hq as ->. inversion Hr; subst.
    eexists. split; [constructor|done].
  - injection Hl as <-. apply list_elem_of_singleton in Hq as ->. inversion Hr as [|? ? ? ? ? ? ? ? Hnil| | |]; subst.
    inversion Hnil; subst. eexists. split; [by constructor|done].
  - destruct (seqs r1) as [l1|] eqn:E1; [|done]. destruct (seqs r2) as [l2|] eqn:E2; [|done].
    injection Hl as <-. apply list_elem_of_In, in_flat_map in Hq as (q1 & Hq1 & Hq).
    apply in_map_iff in Hq as (q2 & <- & Hq2). apply run_seq_app in Hr as (d & t & Hr1 & Hr2).
    destruct (IH1 _ _ _ _ _ _ g eq_refl ltac:(by apply list_elem_of_In) Hr1) as ([d' t' g'] & H1 & [<- <-]).
    destruct (IH2 _ _ _ _ _ _ g' eq_refl ltac:(by apply list_elem_of_In) Hr2) as (st2 & H2 & Hp).
    exists st2. split; [by eapply run_cat|done].
  - destruct (seqs r1) as [l1|]; [|done]. destruct (seqs r2) as [l2|]; [|done]. injection Hl as <-.
    apply elem_of_app in Hq as [Hq|Hq].
    + destruct (IH1 _ _ _ _ _ _ g eq_refl Hq Hr) as (st' & ? & ?). exists st'. split; [by constructor|done].
    + destruct (IH2 _ _ _ _ _ _ g eq_refl Hq Hr) as (st' & ? & ?). exists st'. split; [by apply run_alt_r|done].
  - destruct r; try done. injection Hl as <-. apply list_elem_of_singleton in Hq as ->.
    eexists. split; [by apply star_class_run|done].
  - destruct (seqs r) as [l1|]; [|done]. injection Hl as <-. apply elem_of_cons in Hq as [->|Hq].
    + inversion Hr; subst. eexists. split; [constructor|done].
    + destruct (IH _ _ _ _ _ _ g eq_refl Hq Hr) as (st' & ? & ?). exists st'. split; [by constructor|done].
  - destruct (IH _ _ _ _ _ _ g Hl Hq Hr) as (st' & ? & [? ?]). eexists. split; [by constructor|done].
  - injection Hl as <-. apply list_elem_of_singleton in Hq as ->. inversion Hr as [| |? ? ? ? ? Hb Hnil| |]; subst.
    inversion Hnil; subst. eexists. split; [by constructor|done].
Qed.

(** What matches at a position, by the sequences alone. *)
Definition starts (l : list (list atom)) (c : option ascii) (s : string) : Prop :=
  ∃ q e x, q ∈ l ∧ run_seq q c s e x.

Lemma match_at_starts r l c s : seqs r = Some l → match_at r c s ≠ None ↔ starts l c s.
Proof.
  intros Hl. rewrite match_at_spec. split.
  - intros [st' Hr]. destruct (seqs_sound _ _ _ _ Hl Hr) as (q & ? & ?). by eexists q, _, _.
  - intros (q & e & x & Hq & Hr). destruct (seqs_complete _ _ _ _ _ _ _ [] Hl Hq Hr) as (st' & ? & _). by exists st'.
Qed.

(** ** A search, position by position *)
Fixpoint somewhere (Q : option ascii → string → Prop) (c : option ascii) (s : string) : Prop :=
  Q c s ∨ match s with EmptyString => False | String a s' => somewhere Q (Some a) s' end.

Lemma search_somewhere r c s :
  search_from r c s ≠ None ↔ somewhere (λ c s, match_at r c s ≠ None) c s.
Proof.
  revert c; induction s as [|a s IH]; intros c; cbn; destruct (match_at r c _) as [m|] eqn:E.
  - split; [by left|done].
  - split; [done|by intros [|]].
  - split; [by left|done].
  - rewrite IH. split; [by right|by intros [|]].
Qed.

Lemma somewhere_impl (Q R : option ascii → string → Prop) c s :
  (∀ c s, Q c s → R c s) → somewhere Q c s → somewhere R c s.
Proof. intros HQ. revert c; induction s as [|a s IH]; intros c; cbn; intros [|]; auto. Qed.

Lemma somewhere_never (Q : option ascii → string → Prop) c s :
  (∀ c s, ¬ Q c s) → ¬ somewhere Q c s.
Proof. intros HQ. revert c; induction s as [|a s IH]; intros c; cbn; intros [H|H]; try done; [by apply HQ in H..|by apply IH in H]. Qed.

(** ** Word patterns *)

Definition dot : bool * list citem := (true, [CDot]).
Definition colon : bool * list citem := (true, [CChar ":"%char]).
Definition to_colon : list atom := [AStar dot; AChar colon].

Definition word_seq (w : list (bool * list citem)) (b : bool) : list atom :=
  ABound :: map AChar w ++ ABound :: (if b then to_colon else []).

(** The word of a sequence, and whether the rest of a line follows. *)
Definition is_colon (i : citem) : bool := match i with CChar a => Ascii.eqb a ":" | _ => false end.
Fixpoint chars_of (q : list atom) : option (list (bool * list citem) * bool) :=
  match q with
  | AChar k :: q => option_map (λ p, (k :: p.1, p.2)) (chars_of q)
  | [ABound] => Some ([], false)
  | [ABound; AStar (true, [CDot]); AChar (true, [CChar ":"%char])] => Some ([], true)
  | _ => None
  end.
Definition word_of (q : list atom) : option (list (bool * list citem) * bool) :=
  match q with ABound :: q => chars_of q | _ => None end.

Definition mark : string := "[REDACTED]".

(** The word disagrees with a text before either ends. *)
Fixpoint clash (w : list (bool * list citem)) (v : string) : bool :=
  match w, v with
  | k :: w, String a v => negb (accepts k a) || clash w v
  | _, _ => false
  end.
Fixpoint clash_all (w : list (bool * list citem)) (v : string) : bool :=
  match v with EmptyString => true | String _ v' => clash w v && clash_all w v' end.

(** What a class accepts, over all characters. *)
Definition every_char (p : ascii → bool) : bool := forallb (λ n, p (ascii_of_nat n)) (seq 0 256).
Definition only (p : ascii → bool) (k : bool * list citem) : bool :=
  every_char (λ a, negb (accepts k a) || p a).

Definition not_newline (a : ascii) : bool := negb (Ascii.eqb a newline).
Definition not_bracket (a : ascii) : bool := negb (Ascii.eqb a "[").

(** A word of word characters at both ends, without line ends and brackets, of which
    the mark holds no beginning. *)
Definition good_word (w : list (bool * list citem)) : bool :=
  match w, last w with
  | k :: _, Some k' => only is_word k && only is_word k'
  | _, _ => false
  end && forallb (only not_newline) w && forallb (only not_bracket) w && clash_all w mark.

Definition good_pattern (r : re) : bool :=
  match seqs r with
  | Some l => forallb (λ q, match word_of q with Some (w, _) => good_word w | None => false end) l
  | None => false
  end.

Lemma every_char_spec p a : every_char p = true → p a = true.
Proof.
  unfold every_char. rewrite forallb_forall. intros Hall. rewrite <- (ascii_nat_embedding a).
  apply Hall, in_seq. pose proof (nat_ascii_bounded a). lia.
Qed.

Lemma only_spec p k a : only p k = true → accepts k a = true → p a = true.
Proof. intros Ho Ha. apply (every_char_spec _ a) in Ho. cbv beta in Ho. by rewrite Ha in Ho. Qed.

Lemma chars_of_seq q w b :
  chars_of q = Some (w, b) → q = map AChar w ++ ABound :: (if b then to_colon else []).
Proof.
  revert w b; induction q as [|[k| |k] q IH]; intros w b; cbn; [done| | |done].
  - destruct (chars_of q) as [[w' b']|] eqn:E; [|done]. intros [= <- <-]. cbn. by rewrite <- (IH _ _ eq_refl).
  - intros Hq. repeat (case_match; try done); by simplify_eq.
Qed.

Lemma word_of_seq q w b : word_of q = Some (w, b) → q = word_seq w b.
Proof. destruct q as [|[]]; cbn; try done. by intros ->%chars_of_seq. Qed.

Lemma good_pattern_words r :
  good_pattern r = true →
  ∃ l, seqs r = Some l ∧ ∀ q, q ∈ l → ∃ w b, q = word_seq w b ∧ good_word w = true.
Proof.
  unfold good_pattern. destruct (seqs r) as [l|]; [|done]. rewrite forallb_forall. intros Hall.
  exists l. split; [done|]. intros q Hq%list_elem_of_In. apply Hall in Hq.
  destruct (word_of q) as [[w b]|] eqn:E; [|done]. exists w, b. split; [by apply word_of_seq|done].
Qed.

(** ** One pass of redaction *)

Definition last_of (c : option ascii) (u : string) : option ascii :=
  match last (String.list_ascii_of_string u) with Some a => Some a | None => c end.
Definition no_newline (u : string) : Prop := str_all not_newline u = true.

(** The old and the new text at a position agree on what a boundary is. *)
Definition prev_ok (c c' : option ascii) (s : string) : Prop :=
  word_at c' = word_at c ∨ (word_at c' = false ∧ word_at (head s) = false).

(** [redacted N c c' s s']: [s'] is [s] with segments replaced by the mark; [N]
    holds where a character is kept. *)
Inductive redacted (N : option ascii → string → Prop) :
    option ascii → option ascii → string → string → Prop :=
  | red_nil c c' : redacted N c c' "" ""
  | red_keep c c' a s s' :
      prev_ok c c' (String a s) → N c (String a s) → redacted N (Some a) (Some a) s s' →
      redacted N c c' (String a s) (String a s')
  | red_mark c c' u s s' :
      word_at c = false → no_newline u → redacted N (last_of c u) (Some "]"%char) s s' →
      redacted N c c' (u +:+ s) (mark +:+ s').

Lemma last_of_cons c a u : last_of c (String a u) = last_of (Some a) u.
Proof.
  unfold last_of. cbn [String.list_ascii_of_string]. rewrite last_cons.
  by destruct (last (String.list_ascii_of_string u)).
Qed.

Lemma str_all_app f u v : str_all f (u +:+ v) = str_all f u && str_all f v.
Proof. 
  induction u as [|a u IH]; [done|].
  change (f a && str_all f (u +:+ v) = f a && str_all f u && str_all f v). by rewrite IH, andb_assoc.
Qed.

(** A run over the characters of a word consumes them. *)
Lemma run_chars w q c s e x :
  run_seq (map AChar w ++ q) c s e x →
  ∃ u t, s = u +:+ t ∧ run_seq q (last_of c u) t e x ∧
    Forall2 (λ k a, accepts k a = true) w (String.list_ascii_of_string u).
Proof.
  revert c s; induction w as [|k w IH]; intros c s; cbn.
  - intros Hr. exists "", s. split; [done|]. split; [done|apply Forall2_nil_2].
  - intros Hr. inversion Hr as [|? ? ? a s1 ? ? Ha Hr1| | |]; subst.
    apply IH in Hr1 as (u & t & -> & Hr1 & Hf). exists (String a u), t.
    rewrite last_of_cons. split; [done|]. split; [done|by constructor].
Qed.

Lemma chars_run w q c u t e x :
  Forall2 (λ k a, accepts k a = true) w (String.list_ascii_of_string u) →
  run_seq q (last_of c u) t e x → run_seq (map AChar w ++ q) c (u +:+ t) e x.
Proof.
  revert c u; induction w as [|k w IH]; intros c u Hf Hr; destruct u as [|a u]; cbn in Hf; inversion Hf; subst; cbn.
  - done.
  - apply seq_char; [done|]. apply IH; [done|]. by rewrite last_of_cons in Hr.
Qed.

(** The rest of a line up to a colon. *)
Lemma to_colon_skip c u s e x :
  no_newline u → run_seq to_colon (last_of c u) s e x → run_seq to_colon c (u +:+ s) e x.
Proof.
  unfold no_newline. revert c; induction u as [|a u IH]; intros c Hu Hr; cbn in *; [done|].
  apply andb_true_iff in Hu as [Ha Hu]. apply seq_more.
  - unfold accepts, in_class, not_newline in *. cbn. by rewrite Ha.
  - apply IH; [done|]. by rewrite last_of_cons in Hr.
Qed.

Lemma to_colon_run c s e x :
  run_seq to_colon c s e x → ∃ v, s = v +:+ x ∧ e = last_of c v ∧ word_at e = false ∧ no_newline v.
Proof.
  revert c; induction s as [|a s IH]; intros c Hr; inversion Hr as [| | |k q ? ? ? ? Hq|k q ? ? ? ? ? Ha Hq]; subst.
  - inversion Hq.
  - inversion Hq as [|? ? ? ? ? ? ? Ha Hnil| | |]; subst. inversion Hnil; subst.
    assert (a = ":"%char) as ->.
    { apply Ascii.eqb_eq. refine (only_spec (λ a, Ascii.eqb a ":") colon a _ Ha). vm_compute. reflexivity. }
    exists ":". by repeat split.
  - apply IH in Hq as (v & -> & -> & He & Hv). exists (String a v). rewrite last_of_cons. repeat split; [done|].
    unfold no_newline. cbn. rewrite Hv, andb_true_r. unfold accepts, in_class in Ha. cbn in Ha.
    by rewrite orb_false_r in Ha.
Qed.

(** ** What a match of a word pattern consumes *)

Record goodw (w : list (bool * list citem)) : Prop := {
  gw_first : ∃ k w', w = k :: w' ∧ only is_word k = true;
  gw_last : ∃ k w', w = w' ++ [k] ∧ only is_word k = true;
  gw_line : ∀ k, k ∈ w → only not_newline k = true;
  gw_bracket : ∀ k, k ∈ w → only not_bracket k = true;
  gw_clash : clash_all w mark = true
}.

Lemma good_word_spec w : good_word w = true → goodw w.
Proof.
  unfold good_word. intros Hg. apply andb_true_iff in Hg as [Hg Hc]. apply andb_true_iff in Hg as [Hg Hb].
  apply andb_true_iff in Hg as [Hg Hl]. rewrite forallb_forall in Hb, Hl.
  destruct w as [|k w]; [done|]. destruct (last (k :: w)) as [k'|] eqn:E; [|done].
  apply andb_true_iff in Hg as [H1 H2]. apply last_Some in E as [w' E]. split.
  - by exists k, w.
  - exists k', w'. by rewrite E.
  - intros x Hx. by apply Hl, list_elem_of_In.
  - intros x Hx. by apply Hb, list_elem_of_In.
  - done.
Qed.

(** The text of a word: word characters at both ends, one line, no bracket. *)
Lemma word_text w u c :
  goodw w → Forall2 (λ k a, accepts k a = true) w (String.list_ascii_of_string u) →
  word_at (head u) = true ∧ word_at (last_of c u) = true ∧ no_newline u ∧ str_all not_bracket u = true.
Proof.
  intros [(k & w1 & -> & Hk) (k' & w2 & Hw & Hk') Hl Hb _] Hf. split_and!.
  - destruct u as [|a u]; inversion Hf; subst. by apply (only_spec is_word k).
  - rewrite Hw in Hf. apply Forall2_app_inv_l in Hf as (u1 & u2 & _ & Hf2 & Hu).
    inversion Hf2 as [|? a ? ? Ha Hnil]; subst. inversion Hnil; subst. unfold last_of.
    rewrite Hu, last_snoc. by apply (only_spec is_word k').
  - clear Hw. unfold no_newline. revert Hf Hl. generalize (k :: w1) as w. intros w. revert u.
    induction w as [|x w IH]; intros u Hf Hl; destruct u as [|a u]; inversion Hf; subst; [done|]. cbn.
    apply andb_true_iff. split; [eapply only_spec; [apply Hl; left|done]|].
    apply IH; [done|]. intros y Hy. apply Hl. by right.
  - clear Hw. revert Hf Hb. generalize (k :: w1) as w. intros w. revert u.
    induction w as [|x w IH]; intros u Hf Hb; destruct u as [|a u]; inversion Hf; subst; [done|]. cbn.
    apply andb_true_iff. split; [eapply only_spec; [apply Hb; left|done]|].
    apply IH; [done|]. intros y Hy. apply Hb. by right.
Qed.

(** A run of a word pattern, taken apart and put together. *)
Lemma word_run w b c s e x :
  run_seq (word_seq w b) c s e x ↔
  boundary c s = true ∧ ∃ u t, s = u +:+ t ∧
    Forall2 (λ k a, accepts k a = true) w (String.list_ascii_of_string u) ∧
    boundary (last_of c u) t = true ∧
    run_seq (if b then to_colon else []) (last_of c u) t e x.
Proof.
  split.
  - intros Hr. inversion Hr as [| |? ? ? ? ? Hb Hr1| |]; subst. split; [done|].
    apply run_chars in Hr1 as (u & t & -> & Hr2 & Hf).
    inversion Hr2 as [| |? ? ? ? ? Hb2 Hr3| |]; subst. by exists u, t.
  - intros (Hb & u & t & -> & Hf & Hb2 & Hr). apply seq_bound; [done|].
    apply chars_run; [done|]. by apply seq_bound.
Qed.

Lemma last_of_app c u v : last_of c (u +:+ v) = last_of (last_of c u) v.
Proof.
  revert c; induction u as [|a u IH]; intros c; [done|].
  change (String a u +:+ v) with (String a (u +:+ v)). by rewrite !last_of_cons, IH.
Qed.

Lemma head_app u v : u ≠ "" → head (u +:+ v) = head u.
Proof. by destruct u. Qed.

Lemma app_str_assoc (a b c : string) : a +:+ (b +:+ c) = (a +:+ b) +:+ c.
Proof.
  induction a as [|x a IH]; [done|].
  change (String x (a +:+ (b +:+ c)) = String x ((a +:+ b) +:+ c)). by rewrite IH.
Qed.

Lemma word_match w b c s e x :
  goodw w → run_seq (word_seq w b) c s e x →
  ∃ u, s = u +:+ x ∧ u ≠ "" ∧ e = last_of c u ∧ word_at c = false ∧ no_newline u ∧
    prev_ok e (Some "]"%char) x.
Proof.
  intros Hg (Hb & u & t & -> & Hf & Hb2 & Hr)%word_run.
  destruct (word_text w u c Hg Hf) as (Hh & Hla & Hn & _).
  assert (u ≠ "") as Hu by (by intros ->). unfold boundary in Hb. rewrite head_app, Hh in Hb by done.
  assert (word_at c = false) as Hc by (by destruct (word_at c)).
  destruct b.
  - apply to_colon_run in Hr as (v & -> & -> & He & Hv). exists (u +:+ v). rewrite last_of_app.
    split_and!; [apply app_str_assoc|by destruct u|done|done| |by left].
    unfold no_newline. by rewrite str_all_app, Hn.
  - inversion Hr; subst. exists u. split_and!; try done. right. split; [done|].
    unfold boundary in Hb2. rewrite Hla in Hb2. by destruct (word_at (head x)).
Qed.

(** ** A match in the redacted text is a match in the text *)

Definition good_seqs (l : list (list atom)) : Prop :=
  ∀ q, q ∈ l → ∃ w b, q = word_seq w b ∧ goodw w.

Lemma clash_spec w v s q c e x : clash w v = true → ¬ run_seq (map AChar w ++ q) c (v +:+ s) e x.
Proof.
  revert v c; induction w as [|k w IH]; intros [|a v] c Hc Hr; cbn in Hc; try done.
  inversion Hr as [|? ? ? ? ? ? ? Ha Hr1| | |]; subst. rewrite Ha in Hc. cbn in Hc. by eapply IH.
Qed.

(** No match begins inside a mark. *)
Lemma starts_not_mark l c v s :
  good_seqs l → (∀ w, goodw w → clash w v = true) → ¬ starts l c (v +:+ s).
Proof.
  intros Hl Hv (q & e & x & Hq & Hr). destruct (Hl q Hq) as (w & b & -> & Hw).
  inversion Hr as [| |? ? ? ? ? Hb Hr1| |]; subst. eapply clash_spec; [by apply Hv|exact Hr1].
Qed.

Lemma somewhere_mark l c v s :
  good_seqs l → (∀ w, goodw w → clash_all w v = true) →
  somewhere (starts l) c (v +:+ s) → somewhere (starts l) (last_of c v) s.
Proof.
  intros Hl. revert c; induction v as [|a v IH]; intros c Hv Hs; [done|].
  rewrite last_of_cons. destruct Hs as [Hs|Hs].
  - exfalso. revert Hs. apply (starts_not_mark l c (String a v) s Hl). intros w Hw.
    specialize (Hv w Hw). cbn [clash_all] in Hv. by apply andb_true_iff in Hv as [? _].
  - apply IH; [|done]. intros w Hw. specialize (Hv w Hw). cbn [clash_all] in Hv.
    by apply andb_true_iff in Hv as [_ ?].
Qed.

Lemma somewhere_app Q c u s : somewhere Q (last_of c u) s → somewhere Q c (u +:+ s).
Proof.
  revert c; induction u as [|a u IH]; intros c; [done|]. rewrite last_of_cons. intros Hs. right. by apply IH.
Qed.

Section transfer.
Context {N : option ascii → string → Prop}.

(** Over characters that are not brackets the two texts agree. *)
Lemma redacted_chars c c' s u t :
  redacted N c c' s (u +:+ t) → str_all not_bracket u = true → u ≠ "" →
  ∃ r, s = u +:+ r ∧ redacted N (last_of c u) (last_of c u) r t ∧
    prev_ok c c' s ∧ N c s.
Proof.
  revert c c' s; induction u as [|a u IH]; intros c c' s Hr Hu Hne; [done|].
  cbn in Hu. apply andb_true_iff in Hu as [Ha Hu]. rewrite last_of_cons.
  change (String a u +:+ t) with (String a (u +:+ t)) in Hr.
  inversion Hr as [|? ? ? r ? Hp HN Hr1|]; subst; [|done].
  destruct (decide (u = "")) as [->|Hu0].
  - exists r. by split_and!.
  - destruct (IH _ _ _ Hr1 Hu Hu0) as (r' & -> & Hr' & _). exists r'. by split_and!.
Qed.

Lemma redacted_colon c c' s t e x :
  redacted N c c' s t → run_seq to_colon c' t e x → ∃ e' x', run_seq to_colon c s e' x'.
Proof.
  intros Hr. revert e x. induction Hr as [c c'|c c' a s s' _ _ _ IH|c c' u s s' _ Hu _ IH]; intros e x Hc.
  - inversion Hc as [| | |? ? ? ? ? ? Hq|]; subst. inversion Hq.
  - inversion Hc as [| | |? ? ? ? ? ? Hq|? ? ? ? ? ? ? Ha Hq]; subst.
    + eexists _, _. apply seq_stop. inversion Hq; subst. apply seq_char; [done|constructor].
    + destruct (IH _ _ Hq) as (e' & x' & ?). exists e', x'. by apply seq_more.
  - assert (∃ e x, run_seq to_colon (Some "]"%char) s' e x) as (e1 & x1 & H1).
    { unfold mark in Hc. change ("[REDACTED]" +:+ s') with (String.append "[REDACTED]" s') in Hc.
      cbn in Hc. do 10 (inversion Hc as [| | |? ? ? ? ? ? Hq|? ? ? ? ? ? ? Ha Hq]; subst; clear Hc;
        [inversion Hq as [|? ? ? ? ? ? ? Ha| | |]; subst; vm_compute in Ha; discriminate|rename Hq into Hc; clear Ha]).
      by eexists _, _. }
    destruct (IH _ _ H1) as (e' & x' & ?). exists e', x'. by apply to_colon_skip.
Qed.
Lemma redacted_boundary d t r :
  redacted N d d r t → word_at d = true → boundary d t = true → boundary d r = true.
Proof.
  intros Hr Hd. inversion Hr as [|? ? ? ? ? Hp HN Hr1|? ? ? ? ? Hc]; subst; [done|done|congruence].
Qed.

Lemma redacted_starts l c c' s s' :
  good_seqs l → redacted N c c' s s' → starts l c' s' → starts l c s ∧ N c s.
Proof.
  intros Hl Hr (q & e & x & Hq & Hrun). destruct (Hl q Hq) as (w & b & -> & Hw).
  apply word_run in Hrun as (Hb & u & t & -> & Hf & Hb2 & Ht).
  destruct (word_text w u c' Hw Hf) as (Hh & Hla & _ & Hu).
  assert (u ≠ "") as Hne by (by intros ->).
  assert (last_of c' u = last_of c u) as Hlast by (by destruct u; [|rewrite !last_of_cons]).
  rewrite Hlast in *. destruct (redacted_chars _ _ _ _ _ Hr Hu Hne) as (r & -> & Hr' & Hp & HN).
  split; [|done]. unfold boundary in Hb. rewrite head_app, Hh in Hb by done.
  assert (boundary c (u +:+ r) = true) as Hb1.
  { unfold boundary. unfold prev_ok in Hp. rewrite head_app, Hh in * by done.
    destruct Hp as [Hp|[_ Hp]]; [|done]. by rewrite <- Hp. }
  pose proof (redacted_boundary _ _ _ Hr' Hla Hb2) as Hb3.
  destruct b.
  - destruct (redacted_colon _ _ _ _ _ _ Hr' Ht) as (e' & x' & Ht').
    exists (word_seq w true), e', x'. split; [done|]. apply word_run. split; [done|]. by exists u, r.
  - exists (word_seq w false), (last_of c u), r. split; [done|]. apply word_run. split; [done|].
    exists u, r. split_and!; [done..|constructor].
Qed.

Lemma redacted_somewhere l c c' s s' :
  good_seqs l → redacted N c c' s s' → somewhere (starts l) c' s' →
  somewhere (λ c s, starts l c s ∧ N c s) c s.
Proof.
  intros Hl Hr. induction Hr as [c c'|c c' a s s' Hp HN Hr IH|c c' u s s' Hc Hu Hr IH]; intros Hs.
  - destruct Hs as [Hs|[]]. left. eapply redacted_starts; [done|apply red_nil|done].
  - destruct Hs as [Hs|Hs]; [left|right; by apply IH].
    eapply redacted_starts; [done|by apply red_keep|done].
  - apply somewhere_app, IH. apply (somewhere_mark l c' mark s') in Hs; [done|done|].
    by intros w [_ _ _ _ ?].
Qed.
End transfer.

(** ** [re.sub] redacts *)

Lemma sub_from_skip r repl c u s :
  sub_from r repl (String.length u) c (u +:+ s) = sub_from r repl 0 (last_of c u) s.
Proof.
  revert c; induction u as [|a u IH]; intros c; [done|].
  change (String a u +:+ s) with (String a (u +:+ s)). rewrite last_of_cons. apply IH.
Qed.

Lemma length_app_str u v : String.length (u +:+ v) = String.length u + String.length v.
Proof. induction u as [|a u IH]; [done|]. exact (f_equal S IH). Qed.

Definition unmatched (r : re) (c : option ascii) (s : string) : Prop := match_at r c s = None.

Lemma sub_redacted r l s c c' :
  seqs r = Some l → good_seqs l → prev_ok c c' s →
  redacted (unmatched r) c c' s (sub_from r mark 0 c s).
Proof.
  intros Hl Hg. remember (String.length s) as n eqn:Hn. revert s c c' Hn.
  induction n as [n IH] using lt_wf_ind; intros s c c' -> Hp. destruct s as [|a s]; [apply red_nil|].
  cbn [sub_from]. destruct (match_at r c (String a s)) as [m|] eqn:E.
  - unfold match_at in E. apply mt_sound in E as (st' & Hrun & [= ->]).
    destruct (seqs_sound _ _ _ _ Hl Hrun) as (q & Hq & Hseq). cbn in Hseq.
    destruct (Hg q Hq) as (w & b & -> & Hw).
    destruct (word_match _ _ _ _ _ _ Hw Hseq) as (u & Hu & Hne & He & Hc & Hline & Hpo).
    destruct u as [|a' u]; [done|]. change (String a' u +:+ m_rest m) with (String a' (u +:+ m_rest m)) in Hu.
    injection Hu as <- Hs. rewrite He in Hpo. rewrite Hs, length_app_str.
    replace (String.length u + String.length (m_rest m) - String.length (m_rest m)) with (String.length u) by lia.
    rewrite sub_from_skip.
    change (String a (u +:+ m_rest m)) with (String a u +:+ m_rest m). rewrite <- last_of_cons with (c := c).
    apply red_mark; [done|done|]. eapply IH; [|done|done]. rewrite Hs. cbn. rewrite length_app_str. lia.
  - apply red_keep; [done|done|]. eapply IH; [|done|by left]. cbn. lia.
Qed.

(** Redacting a word pattern leaves no match of it. *)
Theorem redacted_clean r s : good_pattern r = true → re_search r (re_sub r mark s) = false.
Proof.
  intros (l & Hl & Hw)%good_pattern_words.
  assert (good_seqs l) as Hg.
  { intros q Hq. destruct (Hw q Hq) as (w & b & -> & ?). exists w, b. split; [done|by apply good_word_spec]. }
  unfold re_search. destruct (search_from r None _) as [p|] eqn:E; [|done].
  assert (search_from r None (re_sub r mark s) ≠ None) as Hs by (by rewrite E).
  apply search_somewhere in Hs. apply (somewhere_impl _ (starts l)) in Hs;
    [|intros ? ?; by apply match_at_starts].
  eapply redacted_somewhere in Hs; [|done|apply (sub_redacted r l s None None); [done|done|by left]].
  exfalso. revert Hs. apply somewhere_never. intros c t [Hst Hun]. by apply (match_at_starts r l) in Hst.
Qed.

(** Redacting one word pattern makes no other match. *)
Theorem redacted_keeps_clean r r' s :
  good_pattern r = true → good_pattern r' = true → re_search r' s = false →
  re_search r' (re_sub r mark s) = false.
Proof.
  intros (l & Hl & Hw)%good_pattern_words (l' & Hl' & Hw')%good_pattern_words Hs.
  assert (∀ l, (∀ q, q ∈ l → ∃ w b, q = word_seq w b ∧ good_word w = true) → good_seqs l) as Hgood.
  { intros l0 Hl0 q Hq. destruct (Hl0 q Hq) as (w & b & -> & ?). exists w, b. split; [done|by apply good_word_spec]. }
  unfold re_search in *. destruct (search_from r' None (re_sub r mark s)) as [p|] eqn:E; [|done].
  destruct (search_from r' None s) as [p'|] eqn:E'; [done|]. exfalso.
  assert (search_from r' None (re_sub r mark s) ≠ None) as Hs' by (by rewrite E).
  apply search_somewhere in Hs'. apply (somewhere_impl _ (starts l')) in Hs';
    [|intros ? ?; by apply match_at_starts].
  eapply redacted_somewhere in Hs';
    [|by apply Hgood|apply (sub_redacted r l s None None); [done|by apply Hgood|by left]].
  assert (search_from r' None s ≠ None) as Hne; [|done].
  apply search_somewhere. revert Hs'. apply somewhere_impl. intros c t [Hst _].
  by eapply match_at_starts.
Qed.
