(* ===== verification/RateLimiter.v ===== *)
(** * The rate limiter ([middleware/rate_limiter.py])

    A sliding window per user or address.  [dispatch] reads and writes the
    window of a key without an [await] in between, so one request is one step.
    [time.time()] is a number of microseconds.  The limiter is checked against a
    reference that keeps the whole history of admitted requests. *)

From S2P Require Import Prelude PyValue.

Record RateSettings := mkRateSettings {
  rate_limit_enabled : bool; rate_limit_requests : Z; rate_limit_window_seconds : Z
}.

Record http_request := mkHttpRequest {
  hq_path : string; hq_user_id : option string; hq_client_host : option string
}.

(** A request passes, or is answered with a status and a Retry-After header. *)
Inductive rate_verdict := Passed | Limited (status_code retry_after : Z).
#[export] Instance rate_verdict_eq_dec : EqDecision rate_verdict.
Proof. solve_decision. Defined.

Definition _get_key (rq : http_request) : string :=
  match hq_user_id rq with
  | Some user_id => "user:" +:+ user_id
  | None => "ip:" +:+ default "unknown" (hq_client_host rq)
  end.

Section limiter.
Context (s : RateSettings).

Definition window : Z := (rate_limit_window_seconds s * 1000000)%Z.

(** [now - ts < window] *)
Definition live (now ts : Z) : bool := (now - ts <? window)%Z.

Definition exempt (rq : http_request) : bool :=
  negb (rate_limit_enabled s) || String.eqb (hq_path rq) "/health".

Definition limited : rate_verdict := Limited 429 (rate_limit_window_seconds s).

Definition rate_dispatch (rq : http_request) (now : Z) (requests : dict (list Z)) :
    dict (list Z) * rate_verdict :=
  if exempt rq then (requests, Passed)
  else
    let key := _get_key rq in
    let recent := List.filter (live now) (dget_or key [] requests) in
    let requests := dset key recent requests in
    if (rate_limit_requests s <=? Z.of_nat (length recent))%Z then (requests, limited)
    else (dset key (recent ++ [now]) requests, Passed).

(** A sequence of requests, each with its reading of the clock. *)
Fixpoint rate_run (rqs : list (http_request * Z)) (requests : dict (list Z)) :
    dict (list Z) * list rate_verdict :=
  match rqs with
  | [] => (requests, [])
  | (rq, now) :: rqs' =>
      let r := rate_dispatch rq now requests in
      let r' := rate_run rqs' r.1 in (r'.1, r.2 :: r'.2)
  end.

(** ** The reference: the whole history of admitted requests *)

Definition history_of (key : string) (log : list (string * Z)) : list Z :=
  omap (λ e, if String.eqb e.1 key then Some e.2 else None) log.

Definition reference_verdict (rq : http_request) (now : Z) (log : list (string * Z)) :
    rate_verdict :=
  if exempt rq then Passed
  else if (rate_limit_requests s <=?
             Z.of_nat (length (List.filter (live now) (history_of (_get_key rq) log))))%Z
  then limited else Passed.

Definition reference_step (rq : http_request) (now : Z) (log : list (string * Z)) :
    list (string * Z) :=
  if exempt rq then log
  else if decide (reference_verdict rq now log = Passed) then log ++ [(_get_key rq, now)] else log.

Fixpoint reference_run (rqs : list (http_request * Z)) (log : list (string * Z)) :
    list (string * Z) * list rate_verdict :=
  match rqs with
  | [] => (log, [])
  | (rq, now) :: rqs' =>
      let r' := reference_run rqs' (reference_step rq now log) in
      (r'.1, reference_verdict rq now log :: r'.2)
  end.

(** ** The limiter keeps of the history what it needs *)

(** Clock readings never go back, from [t] on. *)
Fixpoint forward (t : Z) (rqs : list (http_request * Z)) : Prop :=
  match rqs with [] => True | (_, now) :: rqs' => (t ≤ now)%Z ∧ forward now rqs' end.

(** From time [t] on, what the limiter kept answers like the history. *)
Definition agrees (t : Z) (requests : dict (list Z)) (log : list (string * Z)) : Prop :=
  ∀ key t', (t ≤ t')%Z →
    List.filter (live t') (dget_or key [] requests) = List.filter (live t') (history_of key log).

Lemma filter_live t0 t l :
  (t0 ≤ t)%Z → List.filter (live t) (List.filter (live t0) l) = List.filter (live t) l.
Proof.
  intros Ht. induction l as [|x l IH]; cbn; [done|].
  destruct (live t0 x) eqn:H0; cbn; rewrite IH; [done|]. unfold live in *. apply Z.ltb_ge in H0.
  by assert ((t - x <? window)%Z = false) as -> by (apply Z.ltb_ge; lia).
Qed.

Lemma history_app key log log' :
  history_of key (log ++ log') = history_of key log ++ history_of key log'.
Proof. apply omap_app. Qed.

Lemma dispatch_agrees t rq now requests log :
  (t ≤ now)%Z → agrees t requests log →
  (rate_dispatch rq now requests).2 = reference_verdict rq now log ∧
  agrees now (rate_dispatch rq now requests).1 (reference_step rq now log).
Proof.
  intros Ht Hag. unfold rate_dispatch, reference_step, reference_verdict.
  assert (agrees now requests log) as Hnow by (intros key t' ?; apply Hag; lia).
  destruct (exempt rq); [done|]. set (key := _get_key rq). rewrite (Hag key now) by done.
  set (recent := List.filter (live now) (history_of key log)).
  destruct (_ <=? _)%Z; cbn [fst snd].
  - rewrite decide_False by done. split; [done|]. intros k t' Ht'. unfold dget_or. rewrite dget_dset.
    destruct (decide (key = k)) as [<-|]; [by apply filter_live|by apply Hnow].
  - rewrite decide_True by done. split; [done|]. intros k t' Ht'. unfold dget_or. rewrite !dget_dset.
    rewrite history_app, List.filter_app. cbn. destruct (String.eqb_spec key k) as [<-|Hne].
    + rewrite decide_True, List.filter_app by done. unfold recent. by rewrite filter_live.
    + rewrite !decide_False by done. cbn. rewrite app_nil_r. by apply Hnow.
Qed.

Lemma run_agrees rqs : ∀ t requests log,
  forward t rqs → agrees t requests log →
  (rate_run rqs requests).2 = (reference_run rqs log).2.
Proof.
  induction rqs as [|[rq now] rqs IH]; intros t requests log; cbn; [done|].
  intros [Ht Hf] Hag. destruct (dispatch_agrees t rq now requests log Ht Hag) as [-> Hag'].
  f_equal. by eapply IH.
Qed.

(** ** The bound *)

(** [t - window < x <= t] *)
Definition within (t x : Z) : bool := live t x && (x <=? t)%Z.

Definition count (f : Z → bool) (l : list Z) : Z := Z.of_nat (length (List.filter f l)).

Lemma count_app f l l' : count f (l ++ l') = (count f l + count f l')%Z.
Proof. unfold count. rewrite List.filter_app, length_app. lia. Qed.

Lemma count_mono f g l : (∀ x, x ∈ l → f x = true → g x = true) → (count f l ≤ count g l)%Z.
Proof.
  unfold count. induction l as [|x l IH]; intros Hfg; cbn; [lia|].
  assert (length (List.filter f l) ≤ length (List.filter g l)) as Hl.
  { apply Nat2Z.inj_le, IH. intros y Hy. apply Hfg. by right. }
  specialize (Hfg x). destruct (f x); cbn.
  - rewrite Hfg by first [left|done]. cbn. lia.
  - destruct (g x); cbn; lia.
Qed.

(** A history in which every admission found room. *)
Inductive paced : list Z → Prop :=
  | paced_nil : paced []
  | paced_snoc l now :
      paced l → Forall (λ x, x ≤ now)%Z l → (count (live now) l < rate_limit_requests s)%Z →
      paced (l ++ [now]).

Lemma paced_bound l : paced l → ∀ t, (count (within t) l ≤ Z.max 0 (rate_limit_requests s))%Z.
Proof.
  induction 1 as [|l now Hl IH Hle Hroom]; intros t; [unfold count; cbn; lia|].
  rewrite count_app. unfold count at 2. cbn. destruct (within t now) eqn:Hw; cbn.
  - unfold within in Hw. apply andb_true_iff in Hw as [_ Hw]. apply Z.leb_le in Hw.
    assert (count (within t) l ≤ count (live now) l)%Z; [|lia].
    apply count_mono. intros x _ Hx. unfold within, live in *. reflect_bools. apply Z.ltb_lt. lia.
  - specialize (IH t). lia.
Qed.

Definition log_paced (t : Z) (log : list (string * Z)) : Prop :=
  ∀ key, paced (history_of key log) ∧ Forall (λ x, x ≤ t)%Z (history_of key log).

Lemma reference_paced rqs : ∀ t log,
  forward t rqs → log_paced t log → ∀ key, paced (history_of key (reference_run rqs log).1).
Proof.
  induction rqs as [|[rq now] rqs IH]; intros t log; cbn; [by intros _ Hl key; apply Hl|].
  intros [Ht Hf] Hl. apply (IH now); [done|]. unfold reference_step.
  assert (log_paced now log) as Hnow.
  { intros key. destruct (Hl key) as [? Hle]. split; [done|].
    eapply Forall_impl; [exact Hle|]. cbn. lia. }
  destruct (exempt rq) eqn:He; [done|]. case_decide as Hv; [|done].
  unfold reference_verdict in Hv. rewrite He in Hv. destruct (_ <=? _)%Z eqn:Hm; [done|].
  apply Z.leb_gt in Hm. intros key. rewrite history_app. cbn.
  destruct (Hnow key) as [Hp Hle]. destruct (String.eqb_spec (_get_key rq) key) as [<-|Hne].
  - split; [by apply paced_snoc|]. apply Forall_app. split; [done|]. apply Forall_singleton. lia.
  - rewrite app_nil_r. by split.
Qed.

(** C36: the sliding window: as long as the clock does not go back, the limiter
    answers every sequence of requests as the reference that forgets nothing,
    refusing a request exactly when the limit of its key is used up in the
    window that ends now; and in every window of that length, wherever it
    begins, a key is admitted no more often than the limit. *)
Theorem rate_limiter_window rqs t :
  forward t rqs →
  (rate_run rqs []).2 = (reference_run rqs []).2 ∧
  ∀ key t', (count (within t') (history_of key (reference_run rqs []).1)
               ≤ Z.max 0 (rate_limit_requests s))%Z.
Proof.
  intros Hf. split; [by apply (run_agrees rqs t)|].
  intros key t'. apply paced_bound. eapply reference_paced; [done|].
  intros k. split; [apply paced_nil|by apply Forall_nil].
Qed.
End limiter.

(** Two requests per second: the third of the second is refused, the fourth, a
    second after the first, is not. *)
Definition demo_limits : RateSettings := mkRateSettings true 2 1.
Definition demo_rq (user : string) : http_request := mkHttpRequest "/api/v1/chat" (Some user) None.
Definition demo_requests : list (http_request * Z) :=
  [ (demo_rq "ana", 0); (demo_rq "ana", 400000); (demo_rq "bob", 500000);
    (demo_rq "ana", 900000); (demo_rq "ana", 1000000); (demo_rq "ana", 1300000) ]%Z.

Example rate_limiter_window_witness :
  (rate_run demo_limits demo_requests []).2
  = [Passed; Passed; Passed; Limited 429 1; Passed; Limited 429 1].
Proof.
  rewrite (proj1 (rate_limiter_window demo_limits demo_requests 0 ltac:(cbn; lia))).
  vm_compute. reflexivity.
Defined.
