(* ===== verification/AuditTrail.v ===== *)
(** * The audit trail ([audit/logger.py], [database/repository.py], [database/db.py])

    Audit entries, the hash chain [AuditRepository.write] appends to, its
    verification, and the backfill of [init_db] for rows older than the chain.
    A JSON column holds its value; the digest of [previous:canonical] is
    [chain_hash previous value]. *)

From S2P Require Import Prelude PyValue.

Inductive AuditAction :=
  | ORDER_LOOKUP | ORDER_SEARCH | REFUND_ISSUED | STORE_CREDIT_ISSUED | CASE_UPDATED
  | CASE_NOTE_ADDED | FRAUD_ALERT_VIEWED | TRANSACTIONS_VIEWED | DEVICE_CHECK | ACCOUNT_FLAGGED
  | SAR_SUBMITTED | ALERT_CLOSED | ESCALATION_CREATED | LOGIN | LOGIN_FAILED | TOKEN_REFRESHED
  | PROCEDURE_STARTED | PROCEDURE_COMPLETED | PROCEDURE_ESCALATED | STEP_TRANSITION
  | SESSION_CREATED | REASONING_VERIFIED | REASONING_VIOLATION | REASONING_REWRITE
  | COMPLIANCE_CHECK.
#[export] Instance AuditAction_eq_dec : EqDecision AuditAction.
Proof. solve_decision. Defined.

Definition audit_action_value (a : AuditAction) : string :=
  match a with
  | ORDER_LOOKUP => "order.lookup" | ORDER_SEARCH => "order.search"
  | REFUND_ISSUED => "refund.issued" | STORE_CREDIT_ISSUED => "store_credit.issued"
  | CASE_UPDATED => "case.updated" | CASE_NOTE_ADDED => "case.note_added"
  | FRAUD_ALERT_VIEWED => "fraud_alert.viewed" | TRANSACTIONS_VIEWED => "transactions.viewed"
  | DEVICE_CHECK => "device.check" | ACCOUNT_FLAGGED => "account.flagged"
  | SAR_SUBMITTED => "sar.submitted" | ALERT_CLOSED => "alert.closed"
  | ESCALATION_CREATED => "escalation.created" | LOGIN => "auth.login"
  | LOGIN_FAILED => "auth.login_failed" | TOKEN_REFRESHED => "auth.token_refreshed"
  | PROCEDURE_STARTED => "procedure.started" | PROCEDURE_COMPLETED => "procedure.completed"
  | PROCEDURE_ESCALATED => "procedure.escalated" | STEP_TRANSITION => "procedure.step_transition"
  | SESSION_CREATED => "session.created" | REASONING_VERIFIED => "reasoning.verified"
  | REASONING_VIOLATION => "reasoning.violation" | REASONING_REWRITE => "reasoning.rewrite"
  | COMPLIANCE_CHECK => "compliance.check"
  end.

Record AuditEntry := mkAuditEntry {
  ae_entry_id : string; ae_timestamp : string; ae_correlation_id : option string;
  ae_action : AuditAction; ae_actor : string; ae_resource_type : string;
  ae_resource_id : string; ae_session_id : option string; ae_procedure_id : option string;
  ae_step_id : option string; ae_before_state : option (dict value);
  ae_after_state : option (dict value); ae_metadata : dict value
}.

(** [if self.x: entry[k] = self.x] *)
Definition opt_str (k : string) (s : option string) : dict value :=
  if str_truthy s then [(k, VStr (default "" s))] else [].
Definition opt_dict (k : string) (d : option (dict value)) : dict value :=
  match d with Some (x :: l) => [(k, VDict (x :: l))] | _ => [] end.

(** [AuditEntry.to_dict] *)
Definition to_dict (e : AuditEntry) : dict value :=
  [ ("entry_id", VStr (ae_entry_id e)); ("timestamp", VStr (ae_timestamp e));
    ("action", VStr (audit_action_value (ae_action e))); ("actor", VStr (ae_actor e));
    ("resource_type", VStr (ae_resource_type e)); ("resource_id", VStr (ae_resource_id e)) ]
  ++ opt_str "correlation_id" (ae_correlation_id e)
  ++ opt_str "session_id" (ae_session_id e)
  ++ opt_str "procedure_id" (ae_procedure_id e)
  ++ opt_str "step_id" (ae_step_id e)
  ++ opt_dict "before_state" (ae_before_state e)
  ++ opt_dict "after_state" (ae_after_state e)
  ++ opt_dict "metadata" (Some (ae_metadata e)).

(** An [audit_trail] row. *)
Record audit_row := mkAuditRow {
  au_entry_id : option string; au_timestamp : option string; au_action : option string;
  au_actor : option string; au_resource_type : option string; au_resource_id : option string;
  au_correlation_id : option string; au_session_id : option string;
  au_procedure_id : option string; au_step_id : option string;
  au_before_state : option value; au_after_state : option value; au_metadata : option value;
  au_previous_hash : option string; au_entry_hash : option string
}.

Definition set_hashes (previous entry : string) (r : audit_row) : audit_row :=
  mkAuditRow (au_entry_id r) (au_timestamp r) (au_action r) (au_actor r) (au_resource_type r)
    (au_resource_id r) (au_correlation_id r) (au_session_id r) (au_procedure_id r) (au_step_id r)
    (au_before_state r) (au_after_state r) (au_metadata r) (Some previous) (Some entry).

(** [sha256(f"{previous_hash}:{canonical}")] *)
Class ChainHash := chain_hash : string → value → string.

Definition GENESIS : string := "GENESIS".

Section chain.
Context `{ChainHash}.

(** [entry.get(k)] for a text column; [json.dumps(x) if x else None] *)
Definition text (k : string) (entry : dict value) : option string :=
  match dget k entry with Some (VStr s) => Some s | _ => None end.
Definition json (k : string) (entry : dict value) : option value :=
  match dget k entry with Some v => if truthy v then Some v else None | None => None end.

Definition row_of_entry (entry : dict value) (previous hash : string) : audit_row :=
  mkAuditRow (text "entry_id" entry) (text "timestamp" entry) (text "action" entry)
    (text "actor" entry) (text "resource_type" entry) (text "resource_id" entry)
    (text "correlation_id" entry) (text "session_id" entry) (text "procedure_id" entry)
    (text "step_id" entry) (json "before_state" entry) (json "after_state" entry)
    (json "metadata" entry) (Some previous) (Some hash).

(** [row[0] if row and row[0] else "GENESIS"] of the newest row *)
Definition head_hash (rows : list audit_row) : string :=
  match last rows with
  | Some r => if str_truthy (au_entry_hash r) then default "" (au_entry_hash r) else GENESIS
  | None => GENESIS
  end.

Definition is_some {A} (x : option A) : bool := match x with Some _ => true | None => false end.

(** The NOT NULL columns. *)
Definition not_null (r : audit_row) : bool :=
  is_some (au_timestamp r) && is_some (au_action r) && is_some (au_actor r) &&
  is_some (au_resource_type r) && is_some (au_resource_id r).

(** [AuditRepository.write], one transaction. *)
Definition write (entry : dict value) (rows : list audit_row) : result (list audit_row) :=
  let previous := head_hash rows in
  let row := row_of_entry entry previous (chain_hash previous (canonical_json (VDict entry))) in
  if negb (not_null row) then inl (IntegrityError "NOT NULL constraint failed: audit_trail")
  else if existsb (λ r, match au_entry_id r, au_entry_id row with
                        | Some i, Some j => String.eqb i j
                        | _, _ => false
                        end) rows
  then inl (IntegrityError "audit_trail.entry_id")
  else inr (rows ++ [row]).

(** The entry a row stands for. *)
Definition col_str (k : string) (s : option string) : dict value :=
  match s with Some s => [(k, VStr s)] | None => [] end.
Definition col_json (k : string) (v : option value) : dict value :=
  match v with Some v => [(k, v)] | None => [] end.

Definition entry_of_row (r : audit_row) : dict value :=
  col_str "entry_id" (au_entry_id r) ++ col_str "timestamp" (au_timestamp r)
  ++ col_str "action" (au_action r) ++ col_str "actor" (au_actor r)
  ++ col_str "resource_type" (au_resource_type r) ++ col_str "resource_id" (au_resource_id r)
  ++ col_str "correlation_id" (au_correlation_id r) ++ col_str "session_id" (au_session_id r)
  ++ col_str "procedure_id" (au_procedure_id r) ++ col_str "step_id" (au_step_id r)
  ++ col_json "before_state" (au_before_state r) ++ col_json "after_state" (au_after_state r)
  ++ col_json "metadata" (au_metadata r).

Definition row_hash (previous : string) (r : audit_row) : string :=
  chain_hash previous (canonical_json (VDict (entry_of_row r))).

Inductive verification :=
  | Valid (checked : nat) (head : string)
  | Broken (checked : nat) (broken_entry_id : option string).

(** The loop of [verify_chain]. *)
Fixpoint verify_from (index : nat) (previous : string) (rows : list audit_row) : verification :=
  match rows with
  | [] => Valid index previous
  | r :: rows' =>
      let expected := row_hash previous r in
      if negb (ostr_eqb (au_previous_hash r) (Some previous)) ||
         negb (ostr_eqb (au_entry_hash r) (Some expected))
      then Broken index (au_entry_id r)
      else verify_from (S index) expected rows'
  end.

Definition verify_chain (rows : list audit_row) : verification := verify_from 0 GENESIS rows.

(** The backfill of [init_db]: rows without a hash are chained to the row before. *)
Fixpoint backfill_from (previous : string) (rows : list audit_row) : list audit_row :=
  match rows with
  | [] => []
  | r :: rows' =>
      if str_truthy (au_entry_hash r) then
        r :: backfill_from (default "" (au_entry_hash r)) rows'
      else
        let hash := row_hash previous r in
        set_hashes previous hash r :: backfill_from hash rows'
  end.

Definition backfill (rows : list audit_row) : list audit_row := backfill_from GENESIS rows.

(** ** The written entry is the one the verifier reads back *)

Lemma entry_roundtrip e previous hash :
  entry_of_row (row_of_entry (to_dict e) previous hash) = to_dict e.
Proof.
  unfold entry_of_row, row_of_entry, to_dict, opt_str, opt_dict.
  destruct e as [i t c a ac rt ri s p st b af m]; cbn -[String.eqb].
  destruct (str_truthy c) eqn:Ec, (str_truthy s) eqn:Es, (str_truthy p) eqn:Ep,
    (str_truthy st) eqn:Est, b as [[|]|], af as [[|]|], m; reflexivity.
Qed.

Lemma to_dict_not_null e previous hash : not_null (row_of_entry (to_dict e) previous hash) = true.
Proof. reflexivity. Qed.
End chain.
