(* ===== verification/AuditProps.v ===== *)
(** * Properties of the audit chain *)

From stdpp Require Import pretty.
From S2P Require Import Prelude PyValue AuditTrail.

#[export] Instance value_eq_dec : EqDecision value.
Proof.
  refine (fix go (x y : value) : Decision (x = y) :=
    let _ : EqDecision value := @go in
    match x, y with
    | VNone, VNone => left eq_refl
    | VBool a, VBool b => cast_if (decide (a = b))
    | VInt a, VInt b => cast_if (decide (a = b))
    | VFloat a, VFloat b => cast_if (decide (a = b))
    | VStr a, VStr b => cast_if (decide (a = b))
    | VList a, VList b => cast_if (decide (a = b))
    | VDict a, VDict b => cast_if (decide (a = b))
    | _, _ => right _
    end); try congruence; try discriminate; clear go; abstract congruence.
Defined.

(** A hexadecimal digest is not empty. *)
Class ChainHashLaws `{ChainHash} := chain_hash_nonempty p v : chain_hash p v ≠ "".

Section chain.
Context `{ChainHash}.

(** The content of a row that the chain commits to. *)
Definition content (r : audit_row) : value := canonical_json (VDict (entry_of_row r)).

Lemma verify_from_app i p t1 t2 n h :
  verify_from i p t1 = Valid n h → verify_from i p (t1 ++ t2) = verify_from n h t2.
Proof.
  revert i p; induction t1 as [|r t1 IH]; intros i p; cbn; [by intros [= <- <-]|].
  destruct (_ || _); [done|]. apply IH.
Qed.

Lemma verify_from_length i p t n h : verify_from i p t = Valid n h → n = i + length t.
Proof.
  revert i p; induction t as [|r t IH]; intros i p; cbn; [intros [= <- _]; lia|].
  destruct (_ || _); [done|]. intros ->%IH. lia.
Qed.

(** The first row of a verified chain carries its hash. *)
Lemma verify_cons i p r t n h :
  verify_from i p (r :: t) = Valid n h →
  au_previous_hash r = Some p ∧ au_entry_hash r = Some (row_hash p r) ∧
  verify_from (S i) (row_hash p r) t = Valid n h.
Proof.
  cbn. destruct (au_previous_hash r) as [q|]; [|done].
  destruct (au_entry_hash r) as [e|]; [|by rewrite orb_true_r].
  cbn. destruct (String.eqb_spec q p) as [->|]; [|done].
  destruct (String.eqb_spec e (row_hash p r)) as [->|]; done.
Qed.

Lemma verified_head i p t n h :
  verify_from i p t = Valid n h →
  match last t with Some r => au_entry_hash r = Some h | None => h = p end.
Proof.
  revert i p; induction t as [|r t IH]; intros i p; [by intros [= _ <-]|].
  intros (_ & Hh & Hv)%verify_cons. apply IH in Hv. rewrite last_cons.
  destruct (last t) as [r'|]; [exact Hv|congruence].
Qed.

(** Writing the entries one after the other. *)
Fixpoint write_all (entries : list AuditEntry) (rows : list audit_row) : result (list audit_row) :=
  match entries with
  | [] => inr rows
  | e :: entries' => rbind (write (to_dict e) rows) (write_all entries')
  end.

Definition row_ids (rows : list audit_row) : list string := omap au_entry_id rows.

Lemma fresh_row (rows : list audit_row) i :
  i ∉ row_ids rows →
  existsb (λ r, match au_entry_id r, Some i with
                | Some i, Some j => String.eqb i j
                | _, _ => false
                end) rows = false.
Proof.
  induction rows as [|r rows IH]; cbn; [done|]. destruct (au_entry_id r) as [j|]; cbn.
  - intros [Hne Hi]%not_elem_of_cons. rewrite (IH Hi), orb_false_r.
    destruct (String.eqb_spec j i) as [->|]; done.
  - intros Hi. by apply IH.
Qed.

Context `{!ChainHashLaws}.

Lemma write_verified e rows n h :
  verify_chain rows = Valid n h → ae_entry_id e ∉ row_ids rows →
  ∃ row h', write (to_dict e) rows = inr (rows ++ [row]) ∧
    verify_chain (rows ++ [row]) = Valid (S n) h' ∧
    au_entry_id row = Some (ae_entry_id e) ∧ entry_of_row row = to_dict e.
Proof.
  intros Hv Hid. unfold write. pose proof (verified_head _ _ _ _ _ Hv) as Hhead.
  assert (head_hash rows = h) as Hh.
  { unfold head_hash. destruct rows as [|r0 rows0] eqn:Hrows; [by injection Hv|].
    destruct (last (r0 :: rows0)) as [r|] eqn:Hl; [|by apply last_None in Hl].
    rewrite Hhead. cbn. destruct (String.eqb_spec h "") as [->|]; [|done].
    exfalso. apply last_Some in Hl as [l Hl]. rewrite Hl in Hv.
    destruct (verify_from 0 GENESIS l) as [m g|m b] eqn:Hl2.
    - unfold verify_chain in Hv. rewrite (verify_from_app _ _ _ _ _ _ Hl2) in Hv.
      apply verify_cons in Hv as (_ & _ & [= _ Hx]). by eapply chain_hash_nonempty.
    - clear -Hv Hl2. unfold verify_chain in Hv. revert Hv Hl2. generalize 0, GENESIS.
      induction l as [|x l IH]; intros k q; cbn; [done|].
      destruct (_ || _); [done|]. apply IH. }
  rewrite Hh. rewrite to_dict_not_null. cbn [negb].
  set (row := row_of_entry _ _ _).
  replace (existsb _ rows) with false by (symmetry; exact (fresh_row rows _ Hid)). eexists row, _. split; [reflexivity|].
  split; [|by split; [|apply entry_roundtrip]].
  unfold verify_chain. rewrite (verify_from_app _ _ _ _ _ _ Hv). cbn [verify_from].
  assert (entry_of_row row = to_dict e) as Hrow by apply entry_roundtrip.
  unfold row_hash. rewrite Hrow. change (au_previous_hash row) with (Some h).
  change (au_entry_hash row) with (Some (chain_hash h (canonical_json (VDict (to_dict e))))).
  unfold ostr_eqb, opt_eqb. by rewrite !String.eqb_refl.
Qed.

(** What the audit logger writes verifies: appending any entries with fresh,
    distinct ids to a trail that verifies succeeds, keeps every earlier row, and
    gives a trail that verifies, counts every row, and reads back, entry by
    entry, as what was logged. *)
Theorem written_chain_verifies entries rows n h :
  verify_chain rows = Valid n h →
  NoDup (row_ids rows ++ map ae_entry_id entries) →
  ∃ new h', write_all entries rows = inr (rows ++ new) ∧
    verify_chain (rows ++ new) = Valid (n + length entries) h' ∧
    map entry_of_row new = map to_dict entries.
Proof.
  revert rows n h; induction entries as [|e entries IH]; intros rows n h Hv Hnd.
  { exists [], h. rewrite app_nil_r. cbn. rewrite Nat.add_0_r. by split_and!. }
  cbn in Hnd. assert (ae_entry_id e ∉ row_ids rows) as Hid.
  { intros Hin. apply NoDup_app in Hnd as (_ & Hdis & _). by eapply Hdis; [exact Hin|left]. }
  destruct (write_verified e rows n h Hv Hid) as (row & h1 & Hw & Hv1 & Hrow & Hentry).
  destruct (IH (rows ++ [row]) (S n) h1 Hv1) as (new & h' & Hall & Hv' & Hmap).
  { unfold row_ids. rewrite omap_app. cbn. rewrite Hrow. by rewrite <- app_assoc. }
  exists (row :: new), h'. cbn [write_all]. rewrite Hw. cbn [rbind].
  rewrite <- app_assoc in Hall, Hv'. cbn [app] in Hall, Hv'. split_and!; [exact Hall| |].
  - cbn [length]. by rewrite Nat.add_succ_r.
  - cbn [map]. by rewrite Hentry, Hmap.
Qed.

(** The backfill at start-up chains every row that has no hash and touches no
    other: a trail whose hashed rows verify, followed by any rows without a hash,
    verifies afterwards, whatever those last rows say. *)
Theorem backfill_completes_chain hashed bare n h :
  verify_chain hashed = Valid n h → (∀ r, r ∈ bare → au_entry_hash r = None) →
  ∃ chained h', backfill (hashed ++ bare) = hashed ++ chained ∧
    verify_chain (hashed ++ chained) = Valid (n + length bare) h' ∧
    map entry_of_row chained = map entry_of_row bare.
Proof.
  unfold verify_chain, backfill. generalize GENESIS as p, 0 as i.
  induction hashed as [|r hashed IH]; intros p i Hv Hbare.
  - injection Hv as <- <-. cbn [app]. revert p i Hbare.
    induction bare as [|r bare IH]; intros p i Hbare; [exists [], p; cbn; by rewrite Nat.add_0_r|].
    destruct (IH (row_hash p r) (S i)) as (chained & h' & Hb & Hv & Hm).
    { intros r' Hr'. apply Hbare. by right. }
    exists (set_hashes p (row_hash p r) r :: chained), h'. cbn.
    rewrite (Hbare r) by by left. cbn. rewrite Hb.
    change (row_hash p (set_hashes p (row_hash p r) r)) with (row_hash p r).
    rewrite !String.eqb_refl. cbn. rewrite Hv, Hm. split_and!; [done|f_equal; lia|done].
  - apply verify_cons in Hv as (Hp & Hh & Hv).
    destruct (IH (row_hash p r) (S i) Hv Hbare) as (chained & h' & Hb & Hv' & Hm).
    exists chained, h'. cbn. rewrite Hh, Hp. cbn.
    destruct (String.eqb_spec (row_hash p r) "") as [Hx|_]; [destruct (chain_hash_nonempty _ _ Hx)|].
    cbn. rewrite Hb, !String.eqb_refl. by split_and!.
Qed.
End chain.

(** What verifying a trail hashes, row by row. *)
Fixpoint inputs `{ChainHash} (previous : string) (rows : list audit_row) : list (string * value) :=
  match rows with
  | [] => []
  | r :: rows' => (previous, content r) :: inputs (row_hash previous r) rows'
  end.

(** Two different inputs with one digest, one hashed for each of the trails. *)
Definition collision_of `{ChainHash} (t1 t2 : list audit_row) : Prop :=
  ∃ x1 x2, x1 ∈ inputs GENESIS t1 ∧ x2 ∈ inputs GENESIS t2 ∧ x1 ≠ x2 ∧
    chain_hash x1.1 x1.2 = chain_hash x2.1 x2.2.

(** Two rows with the same content and the same hashes. *)
Definition same_row (r1 r2 : audit_row) : Prop :=
  content r1 = content r2 ∧ au_previous_hash r1 = au_previous_hash r2 ∧
  au_entry_hash r1 = au_entry_hash r2.

Lemma same_head `{ChainHash} t1 t2 i1 i2 p1 p2 n1 n2 h :
  verify_from i1 p1 t1 = Valid n1 h → verify_from i2 p2 t2 = Valid n2 h →
  length t1 = length t2 →
  (p1 = p2 ∧ Forall2 same_row t1 t2) ∨
  ∃ x1 x2, x1 ∈ inputs p1 t1 ∧ x2 ∈ inputs p2 t2 ∧ x1 ≠ x2 ∧
    chain_hash x1.1 x1.2 = chain_hash x2.1 x2.2.
Proof.
  revert t2 i1 i2 p1 p2; induction t1 as [|r1 t1 IH]; intros [|r2 t2] i1 i2 p1 p2 H1 H2 Hl; try done.
  { injection H1 as _ ->. injection H2 as _ ->. left. by split. }
  apply verify_cons in H1 as (Hp1 & He1 & H1). apply verify_cons in H2 as (Hp2 & He2 & H2).
  injection Hl as Hl. destruct (IH t2 _ _ _ _ H1 H2 Hl) as [[Heq Hall]|(x1 & x2 & Hx1 & Hx2 & Hc)].
  2: { right. exists x1, x2. split_and!; [by right..|apply Hc|apply Hc]. }
  destruct (decide ((p1, content r1) = (p2, content r2))) as [Hpair|Hne].
  - pose proof (f_equal fst Hpair) as Hp. pose proof (f_equal snd Hpair) as Hcont. cbn [fst snd] in *.
    left. split; [done|]. constructor; [|done]. split_and!; congruence.
  - right. exists (p1, content r1), (p2, content r2).
    split_and!; [by left..|exact Hne|exact Heq].
Qed.

(** C38: tampering is evident: two trails that verify with the same count and the
    same head hash agree in every row, on its content and on both of its stored
    hashes; otherwise the digest has been broken on these very trails: among the
    inputs that verifying them hashes there are two different ones with one
    digest. *)
Theorem chain_tamper_evident `{ChainHash} t1 t2 n h :
  verify_chain t1 = Valid n h → verify_chain t2 = Valid n h →
  Forall2 same_row t1 t2 ∨ collision_of t1 t2.
Proof.
  intros H1 H2. apply verify_from_length in H1 as Hl1. apply verify_from_length in H2 as Hl2.
  destruct (same_head t1 t2 0 0 GENESIS GENESIS n n h H1 H2) as [[_ ?]|?]; [lia|by left|by right].
Qed.

(** ** Witnesses *)

#[export] Instance demo_chain_hash : ChainHash := λ p v, "h" +:+ p +:+
  match v with VDict d => pretty (length d) | _ => "" end.
#[export] Instance demo_chain_hash_laws : ChainHashLaws.
Proof. done. Qed.

Definition demo_entry (id actor : string) : AuditEntry :=
  mkAuditEntry id "2026-01-01T00:00:00+00:00" (Some "CORR-1") REFUND_ISSUED actor "order" "ORD-1"
    None None None None None [("amount", VInt 40)].
Definition demo_trail : list audit_row :=
  match write_all [demo_entry "E-1" "agent-1"; demo_entry "E-2" "agent-1"] [] with
  | inr rows => rows
  | inl _ => []
  end.

Example written_chain_verifies_witness :
  ∃ new h', write_all [demo_entry "E-1" "agent-1"; demo_entry "E-2" "agent-1"] [] = inr new ∧
    verify_chain new = Valid 2 h'.
Proof.
  destruct (written_chain_verifies [demo_entry "E-1" "agent-1"; demo_entry "E-2" "agent-1"] [] 0
    GENESIS) as (new & h' & Hw & Hv & _).
  - reflexivity.
  - apply (decide_by_eval (NoDup _)). vm_compute. reflexivity.
  - exists new, h'. split; [exact Hw|exact Hv].
Defined.

Example chain_tamper_evident_witness :
  Forall2 same_row demo_trail demo_trail ∨ collision_of demo_trail demo_trail.
Proof.
  refine (chain_tamper_evident demo_trail demo_trail 2 _ _ _); vm_compute; reflexivity.
Defined.

(** A row whose link is rewritten, its content and its own hash kept, breaks the
    chain at that row. *)
Example relinked_row_is_found :
  match demo_trail with
  | [r1; r2] => verify_chain [r1; set_hashes "elsewhere" (default "" (au_entry_hash r2)) r2]
  | _ => Valid 0 GENESIS
  end = Broken 1 (Some "E-2").
Proof. vm_compute. reflexivity. Qed.

(** The newest row rewritten to name another actor, its hash erased: after the next
    start-up the trail verifies. *)
Definition demo_tampered : list audit_row :=
  match demo_trail with
  | [r1; r2] =>
      [ r1;
        mkAuditRow (au_entry_id r2) (au_timestamp r2) (au_action r2) (Some "agent-2")
          (au_resource_type r2) (au_resource_id r2) (au_correlation_id r2) None None None None None
          (au_metadata r2) None None ]
  | _ => []
  end.

Example backfill_completes_chain_witness :
  ∃ chained h', backfill demo_tampered = firstn 1 demo_tampered ++ chained ∧
    verify_chain (firstn 1 demo_tampered ++ chained) = Valid 2 h'.
Proof.
  destruct (backfill_completes_chain (firstn 1 demo_tampered) (skipn 1 demo_tampered) 1
    (default "" (r ← head demo_tampered; au_entry_hash r))) as (chained & h' & Hb & Hv & _).
  - vm_compute. reflexivity.
  - intros r Hr. replace (skipn 1 demo_tampered) with (match demo_tampered with [_; r] => [r] | _ => [] end)
      in Hr by (vm_compute; reflexivity).
    vm_compute in Hr. apply list_elem_of_singleton in Hr as ->. reflexivity.
  - exists chained, h'. split; [exact Hb|exact Hv].
Defined.
