(* ===== verification/Procedures.v ===== *)
(** * Procedures ([procedures/loader.py], [procedures/executor.py])

    The validation of a procedure, the executor that walks its step graph, and
    the tool checks of a step, for procedures whose values are of the schema: a key
    that may be missing is an [option].  What the loader does with any parsed value
    is in [ProcedureFiles], with the proof that on these it does what this file
    says.  The hooks of an executor are the host's: their exceptions are swallowed
    and they are left out. *)

From Stdlib Require Import SpecFloat Strings.Ascii.
From stdpp Require Import pretty.
From S2P Require Import Prelude PyValue Numerals Prog AuditTrail.

(** ** The definition of a procedure *)

(** A condition or an option: its text and its target. *)
Record branch := mkBranch { br_text : option string; br_next_step : option string }.

Record step_def := mkStep {
  st_id : option string; st_instruction : option string; st_action : option string;
  st_tool : option string; st_tools : option (list string);
  st_next_step : option string; st_on_success : option string; st_on_failure : option string;
  st_conditions : option (list branch); st_options : option (list branch);
  st_required_info : option (list string)
}.

Record procedure := mkProcedure {
  pd_id : string; pd_name : string; pd_description : string; pd_steps : list step_def;
  pd_trigger_intents : list string
}.

(** [step["id"]] *)
Definition step_id (s : step_def) : result string :=
  match st_id s with Some i => inr i | None => inl (KeyError "id") end.

Fixpoint mapr {A B} (f : A → result B) (l : list A) : result (list B) :=
  match l with
  | [] => inr []
  | x :: l' => rbind (f x) (λ y, rbind (mapr f l') (λ ys, inr (y :: ys)))
  end.

(** ** [validate_procedure] *)

Definition reference_fields (s : step_def) : list (string * option string) :=
  [ ("next_step", st_next_step s); ("on_success", st_on_success s);
    ("on_failure", st_on_failure s) ].

Fixpoint check_references (valid_targets : list string) (sid : string)
    (refs : list (string * option string)) : result unit :=
  match refs with
  | [] => inr tt
  | (field, Some t) :: refs' =>
      if bool_decide (t ∈ valid_targets) then check_references valid_targets sid refs'
      else inl (ValueError ("Step '" +:+ sid +:+ "' has " +:+ field +:+ "='" +:+ t
                              +:+ "' which is not a valid step ID or 'end'"))
  | (_, None) :: refs' => check_references valid_targets sid refs'
  end.

Definition branch_references (kind : string) (bs : option (list branch)) :
    list (string * option string) :=
  map (λ b, (kind +:+ " with next_step", br_next_step b)) (default [] bs).

Definition validate_step (valid_targets : list string) (s : step_def) : result unit :=
  match st_id s with
  | None => inl (ValueError "Step missing 'id' field")
  | Some sid =>
      (ensure is_some (st_instruction s) else
         (ValueError ("Step '" +:+ sid +:+ "' missing 'instruction' field")) in
       ensure is_some (st_action s) else
         (ValueError ("Step '" +:+ sid +:+ "' missing 'action' field")) in
       ensure negb (ostr_eqb (st_action s) (Some "tool_call") && negb (is_some (st_tool s))) else
         (ValueError ("Step '" +:+ sid +:+ "' has action 'tool_call' but no 'tool' field")) in
       check_references valid_targets sid
         (reference_fields s ++ branch_references "condition" (st_conditions s)
            ++ branch_references "option" (st_options s)))%wf
  end.

Fixpoint validate_steps (valid_targets : list string) (steps : list step_def) : result unit :=
  match steps with
  | [] => inr tt
  | s :: steps' => rbind (validate_step valid_targets s) (λ _, validate_steps valid_targets steps')
  end.

Definition validate_procedure (p : procedure) : result bool :=
  rbind (mapr step_id (pd_steps p)) (λ step_ids,
    rbind (validate_steps (step_ids ++ ["end"]) (pd_steps p)) (λ _, inr true)).

(** What [load_procedure] checks of the parsed file. *)
Definition load_procedure (p : procedure) : result procedure :=
  if bool_decide (pd_steps p = []) then inl (ValueError "Procedure has no steps")
  else rbind (validate_procedure p) (λ _, inr p).

(** ** The executor *)

Inductive StepStatus := S_PENDING | S_ACTIVE | S_COMPLETED | S_SKIPPED | S_FAILED.
#[export] Instance StepStatus_eq_dec : EqDecision StepStatus.
Proof. solve_decision. Defined.
Definition step_status_value (s : StepStatus) : string :=
  match s with
  | S_PENDING => "pending" | S_ACTIVE => "active" | S_COMPLETED => "completed"
  | S_SKIPPED => "skipped" | S_FAILED => "failed"
  end.

Inductive ProcedureStatus :=
  | NOT_STARTED | IN_PROGRESS | PR_COMPLETED | PR_ESCALATED | PR_FAILED | TIMED_OUT.
#[export] Instance ProcedureStatus_eq_dec : EqDecision ProcedureStatus.
Proof. solve_decision. Defined.
Definition procedure_status_value (s : ProcedureStatus) : string :=
  match s with
  | NOT_STARTED => "not_started" | IN_PROGRESS => "in_progress" | PR_COMPLETED => "completed"
  | PR_ESCALATED => "escalated" | PR_FAILED => "failed" | TIMED_OUT => "timed_out"
  end.

Record StepExecution := mkStepExecution {
  se_step_id : string; se_status : StepStatus; se_entered_at : option string;
  se_completed_at : option string; se_transition_reason : option string
}.

Definition step_enter (now : string) (e : StepExecution) : StepExecution :=
  mkStepExecution (se_step_id e) S_ACTIVE (Some now) (se_completed_at e) (se_transition_reason e).
Definition step_complete (reason now : string) (e : StepExecution) : StepExecution :=
  mkStepExecution (se_step_id e) S_COMPLETED (se_entered_at e) (Some now) (Some reason).
Definition step_fail (reason now : string) (e : StepExecution) : StepExecution :=
  mkStepExecution (se_step_id e) S_FAILED (se_entered_at e) (Some now) (Some reason).

Definition ostr (s : option string) : value := match s with Some s => VStr s | None => VNone end.

(** [StepExecution.to_dict] *)
Definition step_to_dict (e : StepExecution) : dict value :=
  [ ("step_id", VStr (se_step_id e)); ("status", VStr (step_status_value (se_status e)));
    ("entered_at", ostr (se_entered_at e)); ("completed_at", ostr (se_completed_at e));
    ("transition_reason", ostr (se_transition_reason e)) ].

Record ProcedureExecutor := mkExecutor {
  ex_procedure_id : string; ex_procedure_name : string; ex_steps : dict step_def;
  ex_step_order : list string; ex_valid_transitions : dict (gset string);
  ex_status : ProcedureStatus; ex_current_step_id : option string;
  ex_step_executions : dict StepExecution; ex_started_at : option string;
  ex_completed_at : option string
}.

(** The targets of one step; "end" is always one. *)
Definition not_end (t : option string) : list string :=
  match t with Some t => if String.eqb t "end" then [] else [t] | None => [] end.
Definition branch_targets (bs : option (list branch)) : list string :=
  concat (map (λ b, if str_truthy (br_next_step b) then not_end (br_next_step b) else [])
            (default [] bs)).
Definition step_targets (s : step_def) : gset string :=
  list_to_set (concat (map (λ r, not_end r.2) (reference_fields s))
    ++ branch_targets (st_conditions s) ++ branch_targets (st_options s) ++ ["end"]).

(** [ProcedureExecutor.__init__]: a later step of the same id replaces an earlier
    one in both dicts. *)
Definition Executor_init (p : procedure) : result ProcedureExecutor :=
  rbind (mapr step_id (pd_steps p)) (λ ids,
    let steps := zip ids (pd_steps p) in
    inr (mkExecutor (pd_id p) (pd_name p) (dupdate [] steps) ids
           (dupdate [] (map (λ e, (e.1, step_targets e.2)) steps))
           NOT_STARTED None [] None None)).

(** The state a coroutine of the executor works on: the executor, the session
    state it is handed, the audit entries written, and the clock. *)
Record exec_world := mkExecWorld {
  ew_executor : ProcedureExecutor; ew_session : dict value;
  ew_audit : list (AuditAction * string * dict value); ew_clock : nat
}.

Definition set_executor (x : ProcedureExecutor) (w : exec_world) : exec_world :=
  mkExecWorld x (ew_session w) (ew_audit w) (ew_clock w).
Definition set_session (k : string) (v : value) (w : exec_world) : exec_world :=
  mkExecWorld (ew_executor w) (dset k v (ew_session w)) (ew_audit w) (ew_clock w).
Definition tick (w : exec_world) : exec_world :=
  mkExecWorld (ew_executor w) (ew_session w) (ew_audit w) (S (ew_clock w)).

Definition set_status (s : ProcedureStatus) (current : option string)
    (started completed : option string) (x : ProcedureExecutor) : ProcedureExecutor :=
  mkExecutor (ex_procedure_id x) (ex_procedure_name x) (ex_steps x) (ex_step_order x)
    (ex_valid_transitions x) s current (ex_step_executions x) started completed.
Definition set_executions (es : dict StepExecution) (current : option string)
    (x : ProcedureExecutor) : ProcedureExecutor :=
  mkExecutor (ex_procedure_id x) (ex_procedure_name x) (ex_steps x) (ex_step_order x)
    (ex_valid_transitions x) (ex_status x) current es (ex_started_at x) (ex_completed_at x).

(** The steps completed so far, in order of first visit. *)
Definition completed_steps (x : ProcedureExecutor) : list string :=
  dkeys (List.filter (λ e, bool_decide (se_status e.2 = S_COMPLETED)) (ex_step_executions x)).

(** ** Queries *)

Definition get_current_step (x : ProcedureExecutor) : option step_def :=
  match ex_current_step_id x with
  | Some i => if String.eqb i "" then None else dget i (ex_steps x)
  | None => None
  end.

Definition get_allowed_tools (x : ProcedureExecutor) : list string :=
  match get_current_step x with
  | None => []
  | Some s => option_list (st_tool s) ++ default [] (st_tools s)
  end.

Definition get_valid_transitions (x : ProcedureExecutor) : gset string :=
  match ex_current_step_id x with
  | Some i => if String.eqb i "" then ∅ else dget_or i ∅ (ex_valid_transitions x)
  | None => ∅
  end.

Definition get_progress (x : ProcedureExecutor) : dict value :=
  [ ("procedure_id", VStr (ex_procedure_id x)); ("procedure_name", VStr (ex_procedure_name x));
    ("status", VStr (procedure_status_value (ex_status x)));
    ("current_step", ostr (ex_current_step_id x));
    ("steps_completed", VList (map VStr (completed_steps x)));
    ("total_steps", VInt (Z.of_nat (length (ex_steps x)))); ("started_at", ostr (ex_started_at x));
    ("completed_at", ostr (ex_completed_at x)) ].

Definition get_step_history (x : ProcedureExecutor) : list (dict value) :=
  map (λ e, step_to_dict e.2) (ex_step_executions x).

(** ** Operations *)
Section executor.
(** [datetime.now(timezone.utc).isoformat()] at each reading of the clock. *)
Context (iso_at : nat → string).
Abbreviation prog := (prog exec_world).

Definition _update_session_state (sid : string) (w : exec_world) : exec_world :=
  let x := ew_executor w in
  set_session "workflow_started_at" (ostr (ex_started_at x))
  (set_session "workflow_status" (VStr (procedure_status_value (ex_status x)))
  (set_session "steps_completed" (VList (map VStr (completed_steps x)))
  (set_session "current_step" (VStr sid)
  (set_session "current_procedure_name" (VStr (ex_procedure_name x))
  (set_session "current_procedure" (VStr (ex_procedure_id x)) w))))).

(** [await audit.log(...)]: persisting an entry never raises. *)
Definition audit_log (action : AuditAction) (resource : string) (metadata : dict value) :
    prog unit :=
  atomically (λ w, (mkExecWorld (ew_executor w) (ew_session w)
                      (ew_audit w ++ [(action, resource, metadata)]) (ew_clock w), inr tt)).

(** The synchronous part of [enter_step]; the hooks run after it. *)
Definition enter_now (sid : string) (w : exec_world) : exec_world * result string :=
  let x := ew_executor w in
  if negb (dhas sid (ex_steps x)) then
    (w, inl (ProcedureError ("Step '" +:+ sid +:+ "' does not exist in procedure '"
                               +:+ ex_procedure_id x +:+ "'") "INVALID_STEP_TRANSITION"))
  else
    let execution := step_enter (iso_at (ew_clock w))
                       (mkStepExecution sid S_PENDING None None None) in
    let x' := set_executions (dset sid execution (ex_step_executions x)) (Some sid) x in
    (_update_session_state sid (set_executor x' (tick w)), inr sid).

Definition enter_step (sid : string) : prog string := atomically (enter_now sid).

Definition start : prog string :=
  first ← atomically (λ w,
    let x := ew_executor w in
    if bool_decide (ex_status x = IN_PROGRESS) then
      (w, inl (ProcedureError ("Procedure '" +:+ ex_procedure_id x +:+ "' is already in progress")
                 "PROCEDURE_ALREADY_ACTIVE"))
    else
      let w1 := set_executor (set_status IN_PROGRESS (ex_current_step_id x)
                  (Some (iso_at (ew_clock w))) (ex_completed_at x) x) (tick w) in
      match ex_step_order x with
      | [] => (w1, inl IndexError)
      | first :: _ => (_update_session_state first w1, inr (ex_procedure_id x, first))
      end);
  _ ← audit_log PROCEDURE_STARTED first.1 [("first_step", VStr first.2)];
  enter_step first.2.

Definition complete (resolution : string) : prog string :=
  r ← atomically (λ w,
    let x := ew_executor w in
    let now := iso_at (ew_clock w) in
    let w1 := set_executor (set_status PR_COMPLETED None (ex_started_at x) (Some now) x) (tick w) in
    (set_session "current_step" VNone
      (set_session "workflow_completed_at" (VStr now)
        (set_session "workflow_resolution" (VStr resolution)
          (set_session "workflow_status" (VStr "completed") w1))),
     inr (ex_procedure_id x, length (ex_step_executions x))));
  _ ← audit_log PROCEDURE_COMPLETED r.1
        [("resolution", VStr resolution); ("steps_executed", VInt (Z.of_nat r.2))];
  mret "end".

Definition escalate (reason : string) : prog string :=
  r ← atomically (λ w,
    let x := ew_executor w in
    let now := iso_at (ew_clock w) in
    let w1 := set_executor (set_status PR_ESCALATED (ex_current_step_id x) (ex_started_at x)
                (Some now) x) (tick w) in
    (set_session "escalated_at" (VStr now)
      (set_session "escalation_reason" (VStr reason)
        (set_session "workflow_status" (VStr "escalated") w1)),
     inr (ex_procedure_id x, ex_current_step_id x)));
  _ ← audit_log PROCEDURE_ESCALATED r.1 [("reason", VStr reason); ("step", ostr r.2)];
  mret "escalated".

(** The check of [transition] and the completion of the step it leaves. *)
Definition leave_now (target reason : string) (w : exec_world) :
    exec_world * result (string * string) :=
  let x := ew_executor w in
  match ex_current_step_id x with
  | None => (w, inl (ProcedureError "No active step to transition from" "INVALID_PROCEDURE"))
  | Some current =>
      if negb (bool_decide (target ∈ dget_or current ∅ (ex_valid_transitions x))) then
        (w, inl (ProcedureError ("Invalid transition from '" +:+ current +:+ "' to '" +:+ target
                   +:+ "'. Valid targets: ["
                   +:+ join ", " (map (λ s, "'" +:+ s +:+ "'")
                         (sorted_set (dget_or current ∅ (ex_valid_transitions x)))) +:+ "]")
                 "INVALID_STEP_TRANSITION"))
      else
        match dget current (ex_step_executions x) with
        | None => (w, inr (ex_procedure_id x, current))
        | Some e =>
            (set_executor (set_executions
               (dset current (step_complete reason (iso_at (ew_clock w)) e) (ex_step_executions x))
               (Some current) x) (tick w), inr (ex_procedure_id x, current))
        end
  end.

Definition transition (target reason : string) : prog string :=
  r ← atomically (leave_now target reason);
  _ ← audit_log STEP_TRANSITION (r.1 +:+ ":" +:+ target)
        [("from_step", VStr r.2); ("reason", VStr reason)];
  if String.eqb target "end" then complete reason else enter_step target.
End executor.

(** ** The executors of the sessions *)

Definition registry_get (session_id : string) (rg : dict ProcedureExecutor) :
    option ProcedureExecutor := dget session_id rg.
Definition registry_create (session_id : string) (p : procedure) (rg : dict ProcedureExecutor) :
    result (ProcedureExecutor * dict ProcedureExecutor) :=
  rbind (Executor_init p) (λ x, inr (x, dset session_id x rg)).
Definition registry_remove (session_id : string) (rg : dict ProcedureExecutor) :
    dict ProcedureExecutor := ddel session_id rg.
Definition list_active (rg : dict ProcedureExecutor) : list (string * dict value) :=
  map (λ e, (e.1, get_progress e.2))
    (List.filter (λ e, bool_decide (ex_status e.2 = IN_PROGRESS)) rg).
