(* ===== verification/ProcedureProps.v ===== *)
(** * Properties of procedures and their executor *)

From stdpp Require Import pretty.
From S2P Require Import Prelude PyValue Prog AuditTrail Procedures.

#[local] Arguments step_targets : simpl never.

(** ** Validation *)

Lemma elem_of_concat {A} (x : A) (ls : list (list A)) : x ∈ concat ls ↔ ∃ l, x ∈ l ∧ l ∈ ls.
Proof.
  induction ls as [|l ls IH]; cbn.
  - split; [by intros ?%not_elem_of_nil|by intros (l & _ & ?%not_elem_of_nil)].
  - rewrite elem_of_app, IH. setoid_rewrite elem_of_cons. naive_solver.
Qed.

Lemma mapr_ok {A B} (f : A → result B) l ys :
  mapr f l = inr ys → length ys = length l ∧ ∀ i x, l !! i = Some x → ∃ y, ys !! i = Some y ∧ f x = inr y.
Proof.
  revert ys; induction l as [|x l IH]; intros ys; cbn; [by intros [= <-]|].
  destruct (f x) as [e|y] eqn:Hx; [done|]. cbn. destruct (mapr f l) as [e|ys'] eqn:Hl; [done|].
  cbn. intros [= <-]. destruct (IH ys' eq_refl) as [Hlen Hall]. split; [cbn; lia|].
  intros [|i] x'; cbn; [|apply Hall]. intros [= <-]. by exists y.
Qed.

(** The references of a step. *)
Definition references (s : step_def) : list (string * option string) :=
  reference_fields s ++ branch_references "condition" (st_conditions s)
    ++ branch_references "option" (st_options s).

Lemma check_references_ok valid sid refs :
  check_references valid sid refs = inr tt ↔ ∀ field t, (field, Some t) ∈ refs → t ∈ valid.
Proof.
  induction refs as [|[field [t|]] refs IH]; cbn.
  - split; [by intros _ ? ? ?%not_elem_of_nil|done].
  - case_bool_decide as Ht.
    + rewrite IH. split.
      * intros Hall f t' [[= -> ->]|?]%elem_of_cons; eauto.
      * intros Hall f t' ?. apply (Hall f). by right.
    + split; [done|]. intros Hall. destruct Ht. apply (Hall field). left.
  - rewrite IH. split.
    + intros Hall f t' [[=]|?]%elem_of_cons; eauto.
    + intros Hall f t' ?. apply (Hall f). by right.
Qed.

Lemma validate_steps_ok valid steps :
  validate_steps valid steps = inr tt → ∀ s, s ∈ steps → validate_step valid s = inr tt.
Proof.
  induction steps as [|s steps IH]; cbn; [by intros _ s ?%not_elem_of_nil|].
  destruct (validate_step valid s) as [e|[]] eqn:Hs; [done|].
  intros Hall s' [->|?]%elem_of_cons; auto.
Qed.

Lemma validated_step_targets valid s :
  validate_step valid s = inr tt → "end" ∈ valid → ∀ t, t ∈ step_targets s → t ∈ valid.
Proof.
  unfold validate_step. destruct (st_id s) as [sid|]; [|done].
  destruct (is_some (st_instruction s)); [|done]. destruct (is_some (st_action s)); [|done].
  destruct (negb _); [|done]. rewrite check_references_ok. intros Hall Hend t Ht.
  assert (∀ o x, x ∈ not_end o → o = Some x) as Hne.
  { intros [o|] x; cbn; [|by intros ?%not_elem_of_nil].
    destruct (String.eqb o "end"); [by intros ?%not_elem_of_nil|].
    by intros ->%list_elem_of_singleton. }
  assert (∀ kind bs x, x ∈ branch_targets bs →
            (kind +:+ " with next_step", Some x) ∈ branch_references kind bs) as Hbr.
  { intros kind bs x (l & Hl & (b & -> & Hb)%list_elem_of_fmap)%elem_of_concat.
    unfold branch_references. apply list_elem_of_fmap. exists b. split; [|done].
    destruct (str_truthy (br_next_step b)); [|by apply not_elem_of_nil in Hl].
    by rewrite (Hne _ _ Hl). }
  unfold step_targets in Ht. rewrite elem_of_list_to_set, !elem_of_app in Ht.
  destruct Ht as [Ht|[Ht|[Ht|Ht]]].
  - apply elem_of_concat in Ht as (l & Hl & ([field o] & -> & Hf)%list_elem_of_fmap).
    cbn in Hl. rewrite (Hne _ _ Hl) in Hf. eapply (Hall field). apply elem_of_app. by left.
  - eapply Hall. apply elem_of_app. right. apply elem_of_app. left. by apply Hbr.
  - eapply Hall. apply elem_of_app. right. apply elem_of_app. right. by apply Hbr.
  - by apply list_elem_of_singleton in Ht as ->.
Qed.

(** ** The graph of a procedure *)

Definition step_named (p : procedure) (sid : string) : option step_def :=
  select_first (λ s, ostr_eqb (st_id s) (Some sid)) (pd_steps p).

(** [t] is a target of step [s]. *)
Definition edge_of (p : procedure) (s t : string) : Prop :=
  ∃ step, step_named p s = Some step ∧ t ∈ step_targets step.

Lemma edge_by_eval p s t :
  (if step_named p s is Some step then bool_decide (t ∈ step_targets step) else false) = true →
  edge_of p s t.
Proof.
  unfold edge_of. destruct (step_named p s) as [step|]; [|done].
  intros ?%bool_decide_eq_true. by exists step.
Qed.

Definition ids_of (p : procedure) : list string := omap st_id (pd_steps p).

Lemma mapr_ids l ids : mapr step_id l = inr ids → ids = omap st_id l.
Proof.
  revert ids; induction l as [|s l IH]; intros ids; cbn; [by intros [= <-]|].
  unfold step_id at 1. destruct (st_id s) as [i|]; [|done]. cbn.
  destruct (mapr step_id l) as [e|ids']; [done|]. cbn. intros [= <-]. by rewrite (IH ids').
Qed.

Lemma zip_lookup l ids sid :
  mapr step_id l = inr ids →
  dget sid (zip ids l) = select_first (λ s, ostr_eqb (st_id s) (Some sid)) l ∧
  dget sid (map (λ e, (e.1, step_targets e.2)) (zip ids l)) =
    step_targets <$> select_first (λ s, ostr_eqb (st_id s) (Some sid)) l ∧
  dkeys (zip ids l) = ids ∧ dkeys (map (λ e, (e.1, step_targets e.2)) (zip ids l)) = ids.
Proof.
  revert ids; induction l as [|s l IH]; intros ids; cbn; [by intros [= <-]|].
  unfold step_id at 1. destruct (st_id s) as [i|]; [|done]. cbn.
  destruct (mapr step_id l) as [e|ids'] eqn:Hl; [done|]. cbn.
  intros [= <-]. cbn.
  destruct (IH ids' eq_refl) as (E1 & E2 & E3 & E4). rewrite E1, E2. unfold dkeys in *.
  cbn. rewrite E3, E4. rewrite (String.eqb_sym i sid).
  by destruct (String.eqb sid i).
Qed.

(** The static part of an executor is the graph of its procedure. *)
Definition graph_of (p : procedure) (x : ProcedureExecutor) : Prop :=
  ex_procedure_id x = pd_id p ∧ ex_step_order x = ids_of p ∧
  (∀ s, dget s (ex_steps x) = step_named p s) ∧
  (∀ s, dget s (ex_valid_transitions x) = step_targets <$> step_named p s).

Lemma init_graph p :
  NoDup (ids_of p) → is_ok (mapr step_id (pd_steps p)) = true →
  ∃ x, Executor_init p = inr x ∧ graph_of p x ∧ ex_status x = NOT_STARTED ∧
       ex_current_step_id x = None ∧ ex_step_executions x = [].
Proof.
  intros Hnd Hok. unfold Executor_init.
  destruct (mapr step_id (pd_steps p)) as [e|ids] eqn:Hm; [done|]. cbn.
  eexists. split; [reflexivity|]. split; [|done].
  assert (ids = ids_of p) as -> by by apply mapr_ids.
  pose proof (λ s, zip_lookup _ _ s Hm) as Hz.
  destruct (Hz "") as (_ & _ & Hk1 & Hk2).
  split_and!; [done|done|intros s; cbn|intros s; cbn].
  - rewrite dget_dupdate by by rewrite Hk1. destruct (Hz s) as (-> & _). unfold step_named.
    by destruct (select_first _ _).
  - rewrite dget_dupdate by by rewrite Hk2. destruct (Hz s) as (_ & -> & _). unfold step_named.
    by destruct (select_first _ _).
Qed.

(** What loading guarantees of the graph. *)
Definition closed_graph (p : procedure) : Prop :=
  ∀ s t, edge_of p s t → t = "end" ∨ is_Some (step_named p t).

Lemma step_named_elem p s step : step_named p s = Some step → step ∈ pd_steps p ∧ st_id step = Some s.
Proof.
  unfold step_named. induction (pd_steps p) as [|x l IH]; cbn; [done|].
  destruct (st_id x) as [i|] eqn:Hi; cbn.
  - destruct (String.eqb_spec i s) as [->|]; [|intros [? ?]%IH; split; [by right|done]].
    intros [= <-]. split; [by left|done].
  - intros [? ?]%IH. split; [by right|done].
Qed.

Lemma ids_named p s : s ∈ ids_of p → is_Some (step_named p s).
Proof.
  unfold ids_of, step_named. induction (pd_steps p) as [|x l IH]; cbn; [by intros ?%not_elem_of_nil|].
  destruct (st_id x) as [i|]; cbn; [|done].
  destruct (String.eqb_spec i s) as [->|]; [by eexists|].
  intros [->|?]%elem_of_cons; [done|auto].
Qed.

Lemma loaded_closed p q :
  load_procedure p = inr q →
  q = p ∧ pd_steps p ≠ [] ∧ is_ok (mapr step_id (pd_steps p)) = true ∧ closed_graph p.
Proof.
  unfold load_procedure. case_bool_decide as Hne; [done|]. unfold validate_procedure.
  destruct (mapr step_id (pd_steps p)) as [e|ids] eqn:Hm; [done|]. cbn.
  destruct (validate_steps _ _) as [e|[]] eqn:Hv; [done|]. intros [= <-].
  split_and!; [done..|]. intros s t (step & Hs & Ht). apply step_named_elem in Hs as [Hin _].
  assert (t ∈ ids ++ ["end"]) as Hin'.
  { eapply validated_step_targets; [by eapply validate_steps_ok| |done].
    apply elem_of_app. right. by left. }
  apply elem_of_app in Hin' as [Hid|Hend]; [|left; by apply list_elem_of_singleton in Hend].
  right. apply ids_named. unfold ids_of. by rewrite <- (mapr_ids _ _ Hm).
Qed.

(** ** The executor under any interleaving *)
Section executor.
Context (iso_at : nat → string) (p : procedure).
Abbreviation prog := (prog exec_world).

(** The invariant: the graph is the procedure's, and the current step is one of
    its steps. *)
Definition exec_inv (w : exec_world) : Prop :=
  graph_of p (ew_executor w) ∧
  ∀ s, ex_current_step_id (ew_executor w) = Some s → is_Some (step_named p s).

Definition keeps_inv (w w' : exec_world) : Prop := exec_inv w → exec_inv w'.

#[export] Instance keeps_inv_preorder : PreOrder keeps_inv.
Proof. split; [by intros w Hw|]. intros w1 w2 w3 H12 H23 H1. auto. Qed.

Lemma audit_log_keeps action resource metadata : steps keeps_inv (audit_log action resource metadata).
Proof. apply steps_atomically. intros w Hw. exact Hw. Qed.

Lemma enter_step_keeps sid : steps keeps_inv (enter_step iso_at sid).
Proof.
  apply steps_atomically. intros w [Hg Hc]. unfold enter_now.
  destruct (dhas sid _) eqn:Hh; cbn [negb]; [|by split].
  apply dhas_spec in Hh. destruct Hg as (Hi & Ho & Hs & Hv). cbn.
  split; [by split_and!|]. intros s [= <-]. by rewrite <- Hs.
Qed.

Lemma complete_keeps resolution : steps keeps_inv (complete iso_at resolution).
Proof.
  unfold complete. apply steps_bind; [|intros r; apply steps_bind; [apply audit_log_keeps|done]].
  apply steps_atomically. intros w [Hg Hc]. by split.
Qed.

Lemma escalate_keeps reason : steps keeps_inv (escalate iso_at reason).
Proof.
  unfold escalate. apply steps_bind; [|intros r; apply steps_bind; [apply audit_log_keeps|done]].
  apply steps_atomically. intros w [Hg Hc]. by split.
Qed.

Lemma start_keeps : steps keeps_inv (start iso_at).
Proof.
  unfold start. apply steps_bind; [|intros r; apply steps_bind; [apply audit_log_keeps|]].
  - apply steps_atomically. intros w [Hg Hc]. case_bool_decide; [by split|].
    destruct (ex_step_order _); by split.
  - intros _. apply enter_step_keeps.
Qed.

Lemma executor_transition_keeps target reason : steps keeps_inv (transition iso_at target reason).
Proof.
  unfold transition. apply steps_bind; [|intros r; apply steps_bind; [apply audit_log_keeps|]].
  - apply steps_atomically. intros w Hw. unfold leave_now. pose proof Hw as [Hg Hc].
    destruct (ex_current_step_id _) as [c|] eqn:Ec; [|done].
    destruct (negb _); [done|].
    destruct (dget c _); [|done]. by split.
  - intros _. destruct (String.eqb _ _); [apply complete_keeps|apply enter_step_keeps].
Qed.

(** Leaving the current step for one of its targets. *)
Lemma run_leave target reason w :
  exec_inv w → ∀ c, ex_current_step_id (ew_executor w) = Some c → edge_of p c target →
  ∃ w1, run (atomically (leave_now iso_at target reason)) w = (w1, inr (pd_id p, c)) ∧
    exec_inv w1 ∧ ew_audit w1 = ew_audit w ∧ ex_status (ew_executor w1) = ex_status (ew_executor w).
Proof.
  intros Hw c Hc (step & Hstep & Ht). rewrite run_atomically.
  assert (keeps_inv w (leave_now iso_at target reason w).1) as Hk.
  { pose proof (executor_transition_keeps target reason) as Hs. cbn in Hs. apply (Hs w). }
  specialize (Hk Hw). revert Hk. unfold leave_now. destruct Hw as [(Hid & Ho & Hs & Hv) _].
  rewrite Hc. unfold dget_or. rewrite Hv, Hstep. cbn [fmap option_fmap option_map].
  rewrite bool_decide_true by done. cbn [negb].
  destruct (dget c _); cbn [fst]; intros Hk; rewrite Hid; eexists; (split; [reflexivity|]); by split_and!.
Qed.

Lemma run_enter target w :
  exec_inv w → is_Some (step_named p target) →
  ∃ w1, run (enter_step iso_at target) w = (w1, inr target) ∧ exec_inv w1 ∧
    ew_audit w1 = ew_audit w ∧ ex_status (ew_executor w1) = ex_status (ew_executor w) ∧
    ex_current_step_id (ew_executor w1) = Some target.
Proof.
  intros Hw Ht. pose proof (enter_step_keeps target) as Hk. unfold enter_step in *.
  rewrite run_atomically. destruct (Hk w) as [Hk1 _]. specialize (Hk1 Hw). revert Hk1.
  unfold enter_now. destruct Hw as [(Hid & Ho & Hs & Hv) _].
  assert (dhas target (ex_steps (ew_executor w)) = true) as -> by (apply dhas_spec; by rewrite Hs).
  cbn [negb fst]. intros Hk1. eexists. split; [reflexivity|]. by split_and!.
Qed.

(** A transition along an edge of a closed graph. *)
Lemma run_transition target reason w c :
  closed_graph p → exec_inv w → ex_current_step_id (ew_executor w) = Some c → edge_of p c target →
  ∃ w', run (transition iso_at target reason) w = (w', inr target) ∧ exec_inv w' ∧
    ∃ rest, ew_audit w' = ew_audit w ++
      (STEP_TRANSITION, pd_id p +:+ ":" +:+ target, [("from_step", VStr c); ("reason", VStr reason)])
      :: rest ∧
    if String.eqb target "end"
    then ex_status (ew_executor w') = PR_COMPLETED ∧ ex_current_step_id (ew_executor w') = None ∧
         ∃ meta, rest = [(PROCEDURE_COMPLETED, pd_id p, meta)]
    else ex_status (ew_executor w') = ex_status (ew_executor w) ∧
         ex_current_step_id (ew_executor w') = Some target ∧ rest = [].
Proof.
  intros Hcl Hw Hc He. unfold transition. rewrite run_bind.
  destruct (run_leave target reason w Hw c Hc He) as (w1 & -> & Hw1 & Ha1 & Hs1).
  rewrite run_bind. unfold audit_log at 1. rewrite run_atomically. cbv beta iota. cbn [fst snd].
  set (w2 := mkExecWorld _ _ _ _).
  assert (exec_inv w2) as Hw2 by exact Hw1.
  destruct (String.eqb_spec target "end") as [->|Hne].
  - unfold complete. rewrite run_bind, run_atomically. cbv beta iota zeta.
    rewrite run_bind. unfold audit_log. rewrite run_atomically. cbv beta iota. rewrite run_ret.
    destruct Hw1 as [(Hid & ?) ?].
    eexists. split; [reflexivity|]. split; [by split|]. eexists. cbn. rewrite Ha1, Hid.
    split; [by rewrite <- app_assoc|]. split_and!; [done|done|by eexists].
  - destruct (Hcl c target He) as [?|Hstep]; [done|].
    destruct (run_enter target w2 Hw2 Hstep) as (w3 & -> & Hw3 & Ha3 & Hs3 & Hc3).
    exists w3. split; [done|]. split; [done|]. exists []. rewrite Ha3. cbn. rewrite Ha1.
    split; [done|]. split_and!; [by rewrite Hs3|done|done].
Qed.

(** A transition that is not along an edge changes nothing. *)
Lemma run_transition_refused target reason w :
  exec_inv w →
  (∀ c, ex_current_step_id (ew_executor w) = Some c → ¬ edge_of p c target) →
  ∃ msg code, run (transition iso_at target reason) w = (w, inl (ProcedureError msg code)).
Proof.
  intros [(Hid & Ho & Hs & Hv) Hcur] Hno. unfold transition. rewrite run_bind, run_atomically.
  unfold leave_now. destruct (ex_current_step_id _) as [c|]; [|by eexists _, _].
  unfold dget_or. rewrite Hv. destruct (step_named p c) as [step|] eqn:Hc; cbn.
  - rewrite bool_decide_false; [by eexists _, _|]. intros Ht. apply (Hno c eq_refl). by exists step.
  - rewrite bool_decide_false by set_solver. by eexists _, _.
Qed.

(** *** The moves of a client *)

Inductive call :=
  | CStart | CEnter (sid : string) | CTransition (target reason : string)
  | CComplete (resolution : string) | CEscalate (reason : string).

Definition call_prog (c : call) : prog string :=
  match c with
  | CStart => start iso_at
  | CEnter sid => enter_step iso_at sid
  | CTransition target reason => transition iso_at target reason
  | CComplete resolution => complete iso_at resolution
  | CEscalate reason => escalate iso_at reason
  end.

Lemma call_keeps c : steps keeps_inv (call_prog c).
Proof.
  destruct c; [apply start_keeps|apply enter_step_keeps|apply executor_transition_keeps
              |apply complete_keeps|apply escalate_keeps].
Qed.

(** Calls of a session running one after the other. *)
Fixpoint follow (moves : list (string * string)) : prog unit :=
  match moves with
  | [] => mret tt
  | (t, r) :: moves' => _ ← transition iso_at t r; follow moves'
  end.

Definition play (moves : list (string * string)) : prog unit :=
  _ ← start iso_at; follow moves.

(** The reference: a walk of the graph.  [None] is the position of a finished
    procedure. *)
Definition after (t : string) : option string := if String.eqb t "end" then None else Some t.

Fixpoint walk (cur : option string) (moves : list (string * string)) : Prop :=
  match moves with
  | [] => True
  | (t, _) :: moves' => (∃ c, cur = Some c ∧ edge_of p c t) ∧ walk (after t) moves'
  end.

Fixpoint walk_end (cur : option string) (moves : list (string * string)) : option string :=
  match moves with [] => cur | (t, _) :: moves' => walk_end (after t) moves' end.

Fixpoint walk_log (cur : option string) (moves : list (string * string)) :
    list (AuditAction * string * dict value) :=
  match moves with
  | [] => []
  | (t, r) :: moves' =>
      (STEP_TRANSITION, pd_id p +:+ ":" +:+ t, [("from_step", ostr cur); ("reason", VStr r)])
        :: walk_log (after t) moves'
  end.

Definition is_move (e : AuditAction * string * dict value) : bool :=
  bool_decide (e.1.1 = STEP_TRANSITION).
Definition moves_logged (w : exec_world) : list (AuditAction * string * dict value) :=
  List.filter is_move (ew_audit w).

Lemma run_start w :
  exec_inv w → ex_status (ew_executor w) ≠ IN_PROGRESS → ids_of p ≠ [] →
  ∃ w' first, head (ids_of p) = Some first ∧ run (start iso_at) w = (w', inr first) ∧ exec_inv w' ∧
    moves_logged w' = moves_logged w ∧ ex_status (ew_executor w') = IN_PROGRESS ∧
    ex_current_step_id (ew_executor w') = Some first.
Proof.
  intros Hw Hst Hne. unfold start. rewrite run_bind, run_atomically.
  rewrite bool_decide_false by done. cbv zeta. pose proof Hw as [(Hid & Ho & Hs & Hv) Hc].
  rewrite Ho. destruct (ids_of p) as [|first ids] eqn:Hids; [done|]. cbv beta iota.
  rewrite run_bind. unfold audit_log. rewrite run_atomically. cbv beta iota. cbn [fst snd].
  set (w2 := mkExecWorld _ _ _ _).
  assert (exec_inv w2) as Hw2 by (split; [by rewrite <- Hids in Ho; split_and!|done]).
  destruct (run_enter first w2 Hw2) as (w3 & -> & Hw3 & Ha3 & Hs3 & Hc3).
  { apply ids_named. rewrite Hids. by left. }
  exists w3, first. split_and!; try done. unfold moves_logged. rewrite Ha3. cbn.
  by rewrite List.filter_app, app_nil_r.
Qed.

(** The executor stands at [cur]. *)
Definition status_at (cur : option string) : ProcedureStatus :=
  match cur with Some _ => IN_PROGRESS | None => PR_COMPLETED end.
Definition stands_at (w : exec_world) (cur : option string) : Prop :=
  exec_inv w ∧ ex_current_step_id (ew_executor w) = cur ∧
  ex_status (ew_executor w) = status_at cur.

#[local] Instance edge_of_dec c t : Decision (edge_of p c t).
Proof.
  destruct (step_named p c) as [step|] eqn:Hc.
  - destruct (decide (t ∈ step_targets step)) as [Ht|Ht]; [left; by exists step|].
    right. intros (step' & [= <-]%(λ E, eq_trans (eq_sym Hc) E) & ?). done.
  - right. intros (step' & E & _). congruence.
Defined.

Lemma run_follow moves : ∀ w cur,
  closed_graph p → stands_at w cur →
  (is_ok (run (follow moves) w).2 = true ↔ walk cur moves) ∧
  (walk cur moves →
   stands_at (run (follow moves) w).1 (walk_end cur moves) ∧
   moves_logged (run (follow moves) w).1 = moves_logged w ++ walk_log cur moves).
Proof.
  induction moves as [|[t r] moves IH]; intros w cur Hcl Hw.
  - cbn. rewrite app_nil_r. done.
  - cbn [follow walk walk_end walk_log]. rewrite run_bind. destruct Hw as (Hi & Hc & Hs).
    assert (Decision (∃ c, cur = Some c ∧ edge_of p c t)) as Hd.
    { destruct cur as [c|]; [|by right; intros (? & ? & _)].
      destruct (decide (edge_of p c t)); [left; eauto|right; naive_solver]. }
    destruct Hd as [(c & -> & He)|He].
    + destruct (run_transition t r w c Hcl Hi Hc He) as (w' & -> & Hi' & rest & Ha & Hw').
      assert (stands_at w' (after t) ∧ moves_logged w' = moves_logged w ++
                [(STEP_TRANSITION, pd_id p +:+ ":" +:+ t,
                  [("from_step", VStr c); ("reason", VStr r)])]) as [Hat Hl].
      { unfold stands_at, after, moves_logged. rewrite Ha, List.filter_app. cbn.
        destruct (String.eqb t "end").
        - destruct Hw' as (? & ? & meta & ->). by split_and!.
        - destruct Hw' as (Hs' & ? & ->). rewrite Hs in Hs'. by split_and!. }
      destruct (IH w' (after t) Hcl Hat) as [IH1 IH2]. rewrite IH1. split; [naive_solver|].
      intros [_ Hwalk]. destruct (IH2 Hwalk) as [? ->]. split; [done|].
      by rewrite Hl, <- app_assoc.
    + destruct (run_transition_refused t r w Hi) as (msg & code & ->); [naive_solver|].
      cbn. naive_solver.
Qed.
End executor.

(** A new executor in a session: nothing audited, nothing in the session. *)
Definition fresh (x : ProcedureExecutor) : exec_world := mkExecWorld x [] [] 0.

Lemma fresh_inv p q x :
  load_procedure p = inr q → NoDup (ids_of p) → Executor_init q = inr x →
  q = p ∧ closed_graph p ∧ ids_of p ≠ [] ∧ exec_inv p (fresh x) ∧ ex_status x = NOT_STARTED.
Proof.
  intros (-> & Hne & Hok & Hcl)%loaded_closed Hnd Hx.
  destruct (init_graph p Hnd Hok) as (x' & Hx' & Hg & Hst & Hc & _).
  rewrite Hx in Hx'. injection Hx' as <-. split_and!; try done.
  - destruct (mapr step_id (pd_steps p)) as [|ids] eqn:Hm; [done|].
    pose proof (mapr_ok _ _ _ Hm) as [Hlen _]. apply mapr_ids in Hm. unfold ids_of. rewrite <- Hm.
    intros ->. by destruct (pd_steps p).
  - split; [done|]. cbn. rewrite Hc. done.
Qed.

(** C40: a procedure that loads with distinct step ids never strands its
    executor: whatever calls the coroutines of a session have in flight and
    however their steps interleave, every target [get_valid_transitions] offers
    can be taken, and the transition returns that target. *)
Theorem procedure_never_stuck iso_at p q x calls w pool target reason :
  load_procedure p = inr q → NoDup (ids_of p) → Executor_init q = inr x →
  star pool_step (fresh x, map (call_prog iso_at) calls) (w, pool) →
  target ∈ get_valid_transitions (ew_executor w) →
  ∃ w', run (transition iso_at target reason) w = (w', inr target).
Proof.
  intros Hload Hnd Hx Hreach Ht.
  destruct (fresh_inv _ _ _ Hload Hnd Hx) as (_ & Hcl & _ & Hinv & _).
  destruct (pool_star_steps (keeps_inv p) _ _ Hreach) as [Hk _].
  { apply Forall_map, Forall_true. apply call_keeps. }
  specialize (Hk Hinv). cbn in Hk.
  unfold get_valid_transitions in Ht. destruct (ex_current_step_id _) as [c|] eqn:Hc; [|set_solver].
  destruct (String.eqb c ""); [set_solver|]. destruct (Hk) as [(_ & _ & _ & Hv) _].
  unfold dget_or in Ht. rewrite Hv in Ht. destruct (step_named p c) as [step|] eqn:Hs; [|set_solver].
  destruct (run_transition iso_at p target reason w c Hcl Hk Hc) as (w' & -> & _); [by exists step|].
  by exists w'.
Qed.

(** The executor refines the graph of its procedure.  Started and then
    asked for a sequence of moves, it grants all of them exactly when they are
    a walk of the graph from the first step; then the moves it audited are the
    walk, its current step is where the walk ends, and its status is in progress,
    or completed once the walk took [end]. *)
Theorem executor_walks_graph iso_at p q x moves first :
  load_procedure p = inr q → NoDup (ids_of p) → Executor_init q = inr x →
  head (ids_of p) = Some first →
  (is_ok (run (play iso_at moves) (fresh x)).2 = true ↔ walk p (Some first) moves) ∧
  (walk p (Some first) moves →
   let w := (run (play iso_at moves) (fresh x)).1 in
   ex_current_step_id (ew_executor w) = walk_end (Some first) moves ∧
   ex_status (ew_executor w) = status_at (walk_end (Some first) moves) ∧
   moves_logged w = walk_log p (Some first) moves).
Proof.
  intros Hload Hnd Hx Hfirst.
  destruct (fresh_inv _ _ _ Hload Hnd Hx) as (-> & Hcl & Hne & Hinv & Hst).
  unfold play. rewrite run_bind.
  destruct (run_start iso_at p (fresh x) Hinv) as (w & first' & Hf & -> & Hi & Hl & Hs & Hc);
    [cbn; congruence|done|]. rewrite Hfirst in Hf. injection Hf as <-.
  destruct (run_follow iso_at p moves w (Some first) Hcl) as [H1 H2]; [by split_and!|].
  rewrite H1. split; [done|]. intros Hwalk. destruct (H2 Hwalk) as [(_ & ? & ?) Hlog].
  split_and!; [done|done|]. by rewrite Hlog, Hl.
Qed.

(** ** A procedure *)
Module Example.

Definition step (i : string) (next ok ko : option string) (options : list branch) : step_def :=
  mkStep (Some i) (Some "do it") (Some "collect_info") None None next ok ko None (Some options) None.

Definition refund : procedure := mkProcedure "refund" "Refund" "Refund an order"
  [ step "lookup" None (Some "check") (Some "clarify") [];
    step "clarify" (Some "lookup") None None [];
    step "check" None None None
      [mkBranch (Some "yes") (Some "issue"); mkBranch (Some "no") (Some "end")];
    step "issue" (Some "end") None None [] ] ["refund"].

Definition executor : ProcedureExecutor :=
  match Executor_init refund with
  | inr x => x | inl _ => mkExecutor "" "" [] [] [] NOT_STARTED None [] None None end.

Definition clock (n : nat) : string := pretty n.
Definition moves : list (string * string) :=
  [("clarify", "unknown"); ("lookup", "again"); ("check", "found"); ("issue", "yes");
   ("end", "refunded")].

Definition reached : exec_world * list (prog exec_world string) :=
  schedule [0; 0; 0; 1; 1; 1] (fresh executor)
    (map (call_prog clock) [CStart; CTransition "check" "found"]).

Lemma refund_loads : load_procedure refund = inr refund.
Proof. reflexivity. Qed.

Lemma refund_ids : NoDup (ids_of refund).
Proof. apply (decide_by_eval (NoDup _)). vm_compute. reflexivity. Qed.

Lemma refund_reaches :
  star pool_step (fresh executor, map (call_prog clock) [CStart; CTransition "check" "found"])
    (reached.1, reached.2).
Proof. rewrite <- surjective_pairing. apply schedule_star. Qed.

Lemma refund_walk : walk refund (Some "lookup") moves.
Proof.
  unfold moves, after. cbn.
  split_and!; try done; (eexists; split; [reflexivity|]; by apply edge_by_eval).
Qed.
End Example.

Lemma procedure_never_stuck_witness :
  "issue" ∈ get_valid_transitions (ew_executor Example.reached.1) ∧
  ∃ w', run (transition Example.clock "issue" "eligible") Example.reached.1 = (w', inr "issue").
Proof.
  assert ("issue" ∈ get_valid_transitions (ew_executor Example.reached.1)) as Hin
    by (refine (proj1 (bool_decide_eq_true _) _); vm_compute; reflexivity).
  split; [exact Hin|].
  exact (procedure_never_stuck Example.clock Example.refund Example.refund Example.executor
           [CStart; CTransition "check" "found"] Example.reached.1 Example.reached.2 "issue" "eligible"
           Example.refund_loads Example.refund_ids eq_refl Example.refund_reaches Hin).
Defined.

Lemma executor_walks_graph_witness :
  is_ok (run (play Example.clock Example.moves) (fresh Example.executor)).2 = true ∧
  ex_status (ew_executor (run (play Example.clock Example.moves) (fresh Example.executor)).1)
    = PR_COMPLETED.
Proof.
  destruct (executor_walks_graph Example.clock Example.refund Example.refund Example.executor
              Example.moves "lookup" Example.refund_loads Example.refund_ids eq_refl eq_refl)
    as [H1 H2].
  split; [apply H1, Example.refund_walk|]. apply (H2 Example.refund_walk).
Defined.

(** Escalating does not stop an executor: a later transition completes it. *)
Example escalated_then_completed :
  let w := fresh Example.executor in
  let w1 := (run (start Example.clock) w).1 in
  let w2 := (run (escalate Example.clock "fraud") w1).1 in
  let w3 := (run (transition Example.clock "end" "done") w2) in
  ex_status (ew_executor w2) = PR_ESCALATED ∧ w3.2 = inr "end" ∧
  ex_status (ew_executor w3.1) = PR_COMPLETED.
Proof. by vm_compute. Qed.

(** A restart keeps the executions of the previous run. *)
Example restart_keeps_history :
  let w := (run (play Example.clock Example.moves) (fresh Example.executor)).1 in
  let w' := (run (start Example.clock) w).1 in
  completed_steps (ew_executor w') = ["clarify"; "check"; "issue"] ∧
  dget "current_step" (ew_session w') = Some (VStr "lookup").
Proof. by vm_compute. Qed.

(** A step without an id: the set of ids is built before the check for it. *)
Example missing_id_is_a_key_error :
  validate_procedure (mkProcedure "p" "P" "" [mkStep None (Some "do it") (Some "respond") None None
                                                None None None None None None] [])
  = inl (KeyError "id").
Proof. reflexivity. Qed.
