(* ===== verification/ActionSpecs.v ===== *)
(** * Closed inventory of consequential commands ([core/action_specs.py]) *)

From S2P Require Import Prelude PyValue.

Record ActionSpecification := mkSpec {
  spec_name : string;
  required_parameters : gset string;
  authoritative_parameters : gset string;
  customer_binding_parameter : option string;
  requires_consent : bool;
  requires_approval : bool
}.

Definition _spec (name : string) (required authoritative : list string)
    (consent approval : bool) (customer_binding : option string) : ActionSpecification :=
  {| spec_name := name;
     required_parameters := list_to_set required;
     authoritative_parameters := list_to_set authoritative;
     customer_binding_parameter := customer_binding;
     requires_consent := consent;
     requires_approval := approval |}.

Definition ACTION_SPECIFICATIONS : dict ActionSpecification :=
  map (λ s, (spec_name s, s))
  [ _spec "issue_refund"
      ["order_id"; "customer_id"; "refund_amount"; "currency"; "payment_method"; "reason"]
      ["order_id"; "customer_id"; "refund_amount"; "currency"; "payment_method"]
      true false (Some "customer_id");
    _spec "issue_store_credit"
      ["order_id"; "customer_id"; "amount"; "currency"; "reason"]
      ["order_id"; "customer_id"; "amount"; "currency"]
      true false (Some "customer_id");
    _spec "update_case_status" ["target_status"; "reason"] [] false false None;
    _spec "file_eft_dispute"
      ["customer_id"; "transaction_id"; "amount"; "dispute_type"]
      ["customer_id"; "transaction_id"; "amount"]
      true false (Some "customer_id");
    _spec "issue_provisional_credit"
      ["customer_id"; "dispute_id"; "amount"]
      ["customer_id"; "dispute_id"; "amount"]
      false true (Some "customer_id");
    _spec "escalate_to_supervisor" ["reason"; "priority"] [] false false None;
    _spec "add_case_note" ["note"] [] false false None;
    _spec "flag_account" ["account_id"; "reason"; "restriction"] ["account_id"]
      false true None;
    _spec "submit_sar" ["account_id"; "alert_id"; "narrative_ref"] ["account_id"; "alert_id"]
      false true None;
    _spec "close_alert" ["alert_id"; "resolution"] ["alert_id"] false true None ].

(** A specification is well formed when every fact the core must verify is a
    parameter of the action, the customer binding is one of the verified
    parameters, and nothing that must be verified runs without a human
    decision. *)
Definition spec_wf (s : ActionSpecification) : bool :=
  bool_decide (authoritative_parameters s ⊆ required_parameters s) &&
  match customer_binding_parameter s with
  | Some b => bool_decide (b ∈ authoritative_parameters s)
  | None => true
  end &&
  (bool_decide (authoritative_parameters s = ∅) || requires_consent s || requires_approval s) &&
  negb (requires_consent s && requires_approval s).

Lemma catalog_wf : forallb (λ p, spec_wf p.2) ACTION_SPECIFICATIONS = true.
Proof. vm_compute. reflexivity. Qed.

Lemma catalog_keys : forallb (λ p, String.eqb p.1 (spec_name p.2)) ACTION_SPECIFICATIONS = true.
Proof. vm_compute. reflexivity. Qed.

(** What every catalogued action satisfies. *)
Lemma catalog_lookup_wf a s :
  dget a ACTION_SPECIFICATIONS = Some s → spec_wf s = true ∧ spec_name s = a.
Proof.
  intros Hin%dget_elem_of.
  pose proof catalog_wf as Hw. pose proof catalog_keys as Hk.
  rewrite forallb_forall in Hw, Hk. apply list_elem_of_In in Hin.
  specialize (Hw _ Hin). specialize (Hk _ Hin). cbn in Hw, Hk.
  apply String.eqb_eq in Hk. auto.
Qed.
