(* ===== verification/KernelData.v ===== *)
(** * Data model of the core kernel ([core/kernel.py])

    The enums, the pydantic records and the tables of [SQLiteCoreStore].  A
    column that holds a JSON text is modelled by the JSON value itself; an
    instant written as an ISO-8601 UTC text is modelled by a number of
    microseconds, whose order is the order of the texts. *)

From S2P Require Import Prelude PyValue Table.

(** ** Enums *)

Inductive FactAuthority := ASSERTED | OBSERVED | VERIFIED | DERIVED.
#[export] Instance FactAuthority_eq_dec : EqDecision FactAuthority.
Proof. solve_decision. Defined.

Definition _AUTHORITY_RANK (a : FactAuthority) : nat :=
  match a with ASSERTED => 0 | OBSERVED => 1 | DERIVED => 1 | VERIFIED => 2 end.

Inductive ActionStatus :=
  | REQUESTED | AUTHORIZED | DISPATCHED | SUCCEEDED | FAILED | UNKNOWN | RECONCILED.
#[export] Instance ActionStatus_eq_dec : EqDecision ActionStatus.
Proof. solve_decision. Defined.

Definition action_status_value (s : ActionStatus) : string :=
  match s with
  | REQUESTED => "requested" | AUTHORIZED => "authorized" | DISPATCHED => "dispatched"
  | SUCCEEDED => "succeeded" | FAILED => "failed" | UNKNOWN => "unknown"
  | RECONCILED => "reconciled"
  end.

Inductive ActionProposalStatus := P_PENDING | P_CONFIRMED | P_CANCELLED | P_EXPIRED.
#[export] Instance ActionProposalStatus_eq_dec : EqDecision ActionProposalStatus.
Proof. solve_decision. Defined.

Definition proposal_status_value (s : ActionProposalStatus) : string :=
  match s with
  | P_PENDING => "pending" | P_CONFIRMED => "confirmed"
  | P_CANCELLED => "cancelled" | P_EXPIRED => "expired"
  end.

Inductive OutboxStatus := O_PENDING | O_LEASED | O_DELIVERED | O_FAILED | O_QUARANTINED.
#[export] Instance OutboxStatus_eq_dec : EqDecision OutboxStatus.
Proof. solve_decision. Defined.

(** ** Records *)

Record CaseRecord := mkCase {
  case_id : string; case_customer_id : string; case_procedure_id : string;
  case_procedure_version : string; case_status : string; case_version : Z
}.

(** A [workflow_cases] row: the record and its [created_at]. *)
Record case_row := mkCaseRow { cr_case : CaseRecord; cr_created_at : Z }.

Record FactProposal := mkFactProposal {
  fact_name : string; fact_value : value; fact_authority : FactAuthority;
  fact_source : string; fact_evidence_ref : string; fact_expires_at : option Z
}.

Record FactRecord := mkFact {
  fact_proposal : FactProposal; fact_case_id : string; fact_committed_at : Z;
  fact_superseded_at : option Z
}.

Record ActionCommand := mkCommand {
  c_action : string;
  c_case_id : string;
  c_policy_package_id : string;
  c_actor_id : string;
  c_idempotency_key : string;
  c_parameters : dict value;
  c_parameter_fact_refs : dict string;
  c_required_fact_authority : dict FactAuthority;
  c_consent_evidence_ref : option string;
  c_approval_evidence_ref : option string;
  c_policy_activation_signature : option string;
  c_connector_binding_id : option string;
  c_connector_binding_version : option string;
  c_contract_version : option string
}.

Record ActionRecord := mkAction {
  a_action_id : string;
  a_command : ActionCommand;
  a_status : ActionStatus;
  a_outcome : option (dict value);
  a_created_at : Z;
  a_updated_at : Z
}.

(** An [action_events] row. *)
Record ActionEvent := mkEvent {
  ev_event_id : string; ev_action_id : string; ev_status : ActionStatus;
  ev_details : option (dict value); ev_recorded_at : Z
}.

Record ActionProposal := mkProposal {
  p_proposal_id : string;
  p_action : string;
  p_payload : dict value;
  p_case_id : string;
  p_customer_id : string;
  p_actor_id : string;
  p_procedure_id : string;
  p_procedure_version : string;
  p_policy_package_id : string;
  p_idempotency_key : string;
  p_resource_type : option string;
  p_resource_id : option string;
  p_resource_version : option Z;
  p_conversation_id : option string;
  p_message_id : option string;
  p_connector_binding_id : option string;
  p_connector_binding_version : option string;
  p_contract_version : option string;
  p_preview : dict value;
  p_status : ActionProposalStatus;
  p_confirmation_evidence_ref : option string;
  p_action_id : option string;
  p_created_at : Z;
  p_expires_at : Z;
  p_updated_at : Z;
  p_confirmed_at : option Z;
  p_cancelled_at : option Z
}.

Record OutboxRecord := mkOutbox {
  o_outbox_id : string;
  o_topic : string;
  o_aggregate_id : string;
  o_payload : dict value;
  o_status : OutboxStatus;
  o_attempts : Z;
  o_available_at : Z;
  o_lease_owner : option string;
  o_lease_until : option Z;
  o_last_error : option string;
  o_created_at : Z;
  o_updated_at : Z
}.

(** A [conversation_inbox_v3] row. *)
Record InboxRow := mkInbox {
  i_provider_id : string; i_message_id : string; i_conversation_id : string;
  i_sequence : option Z; i_envelope : dict value; i_ordering_status : string;
  i_received_at : Z
}.

(** A [conversation_sequences] row. *)
Record SequenceRow := mkSequence {
  q_provider_id : string; q_conversation_id : string; q_last_sequence : Z; q_updated_at : Z
}.

(** A [handoffs] row. *)
Record HandoffRow := mkHandoff {
  h_handoff_id : string; h_conversation_id : string; h_case_id : string;
  h_context : dict value; h_status : string; h_assigned_agent_id : option string;
  h_created_at : Z; h_updated_at : Z
}.

(** ** Primary keys *)

Definition case_key (r : case_row) : string := case_id (cr_case r).
Definition fact_key (r : FactRecord) : string * string :=
  (fact_case_id r, fact_name (fact_proposal r)).
Definition action_idem (r : ActionRecord) : string := c_idempotency_key (a_command r).
Definition inbox_key (r : InboxRow) : string * string := (i_provider_id r, i_message_id r).
Definition sequence_key (r : SequenceRow) : string * string :=
  (q_provider_id r, q_conversation_id r).

(** ** The database: one list of rows per table of [initialize]'s schema *)
Record core_db := mkCoreDb {
  t_cases : list case_row;
  t_facts : list FactRecord;
  t_actions : list ActionRecord;
  t_events : list ActionEvent;
  t_proposals : list ActionProposal;
  t_outbox : list OutboxRecord;
  t_inbox : list InboxRow;
  t_sequences : list SequenceRow;
  t_handoffs : list HandoffRow;
  t_migrations : list (string * Z)
}.

Definition empty_core_db : core_db := mkCoreDb [] [] [] [] [] [] [] [] [] [].

(** A table of the database: how to read it and how to replace it. *)
Record table (R : Type) := mkTable {
  tbl_get : core_db → list R;
  tbl_set : list R → core_db → core_db
}.
Arguments tbl_get {R}.
Arguments tbl_set {R}.

Definition workflow_cases : table case_row := mkTable _ t_cases
  (λ x d, mkCoreDb x (t_facts d) (t_actions d) (t_events d) (t_proposals d) (t_outbox d)
            (t_inbox d) (t_sequences d) (t_handoffs d) (t_migrations d)).
Definition case_facts : table FactRecord := mkTable _ t_facts
  (λ x d, mkCoreDb (t_cases d) x (t_actions d) (t_events d) (t_proposals d) (t_outbox d)
            (t_inbox d) (t_sequences d) (t_handoffs d) (t_migrations d)).
Definition action_attempts : table ActionRecord := mkTable _ t_actions
  (λ x d, mkCoreDb (t_cases d) (t_facts d) x (t_events d) (t_proposals d) (t_outbox d)
            (t_inbox d) (t_sequences d) (t_handoffs d) (t_migrations d)).
Definition action_events : table ActionEvent := mkTable _ t_events
  (λ x d, mkCoreDb (t_cases d) (t_facts d) (t_actions d) x (t_proposals d) (t_outbox d)
            (t_inbox d) (t_sequences d) (t_handoffs d) (t_migrations d)).
Definition action_proposals : table ActionProposal := mkTable _ t_proposals
  (λ x d, mkCoreDb (t_cases d) (t_facts d) (t_actions d) (t_events d) x (t_outbox d)
            (t_inbox d) (t_sequences d) (t_handoffs d) (t_migrations d)).
Definition core_outbox : table OutboxRecord := mkTable _ t_outbox
  (λ x d, mkCoreDb (t_cases d) (t_facts d) (t_actions d) (t_events d) (t_proposals d) x
            (t_inbox d) (t_sequences d) (t_handoffs d) (t_migrations d)).
Definition conversation_inbox_v3 : table InboxRow := mkTable _ t_inbox
  (λ x d, mkCoreDb (t_cases d) (t_facts d) (t_actions d) (t_events d) (t_proposals d)
            (t_outbox d) x (t_sequences d) (t_handoffs d) (t_migrations d)).
Definition conversation_sequences : table SequenceRow := mkTable _ t_sequences
  (λ x d, mkCoreDb (t_cases d) (t_facts d) (t_actions d) (t_events d) (t_proposals d)
            (t_outbox d) (t_inbox d) x (t_handoffs d) (t_migrations d)).
Definition handoffs : table HandoffRow := mkTable _ t_handoffs
  (λ x d, mkCoreDb (t_cases d) (t_facts d) (t_actions d) (t_events d) (t_proposals d)
            (t_outbox d) (t_inbox d) (t_sequences d) x (t_migrations d)).
Definition core_migrations : table (string * Z) := mkTable _ t_migrations
  (λ x d, mkCoreDb (t_cases d) (t_facts d) (t_actions d) (t_events d) (t_proposals d)
            (t_outbox d) (t_inbox d) (t_sequences d) (t_handoffs d) x).

(** ** Record equality ([command != other]) *)

(** Dict equality for dicts whose values are compared by [eqb]. *)
Definition sdict_eqb {V} (eqb : V → V → bool) (d e : dict V) : bool :=
  Nat.eqb (length d) (length e) &&
  forallb (λ p, match dget p.1 e with Some y => eqb p.2 y | None => false end) d.

Definition command_eqb (c d : ActionCommand) : bool :=
  String.eqb (c_action c) (c_action d) &&
  String.eqb (c_case_id c) (c_case_id d) &&
  String.eqb (c_policy_package_id c) (c_policy_package_id d) &&
  String.eqb (c_actor_id c) (c_actor_id d) &&
  String.eqb (c_idempotency_key c) (c_idempotency_key d) &&
  dict_eqb (c_parameters c) (c_parameters d) &&
  sdict_eqb String.eqb (c_parameter_fact_refs c) (c_parameter_fact_refs d) &&
  sdict_eqb (λ x y, bool_decide (x = y))
    (c_required_fact_authority c) (c_required_fact_authority d) &&
  ostr_eqb (c_consent_evidence_ref c) (c_consent_evidence_ref d) &&
  ostr_eqb (c_approval_evidence_ref c) (c_approval_evidence_ref d) &&
  ostr_eqb (c_policy_activation_signature c) (c_policy_activation_signature d) &&
  ostr_eqb (c_connector_binding_id c) (c_connector_binding_id d) &&
  ostr_eqb (c_connector_binding_version c) (c_connector_binding_version d) &&
  ostr_eqb (c_contract_version c) (c_contract_version d).

(** ** Row updates used by the UPDATE statements *)

Definition bump_version (r : case_row) : case_row :=
  let c := cr_case r in
  mkCaseRow (mkCase (case_id c) (case_customer_id c) (case_procedure_id c)
               (case_procedure_version c) (case_status c) (case_version c + 1))
    (cr_created_at r).

Definition set_action_status (s : ActionStatus) (out : option (dict value)) (now : Z)
    (r : ActionRecord) : ActionRecord :=
  mkAction (a_action_id r) (a_command r) s out (a_created_at r) now.

(** The UPDATE of [claim_action] leaves [outcome_json] alone. *)
Definition set_action_claimed (now : Z) (r : ActionRecord) : ActionRecord :=
  mkAction (a_action_id r) (a_command r) DISPATCHED (a_outcome r) (a_created_at r) now.

(** [COALESCE(new, old)] *)
Definition coalesce {A} (new old : option A) : option A :=
  match new with Some x => Some x | None => old end.

Definition set_proposal_status (s : ActionProposalStatus) (evidence action_id : option string)
    (now : Z) (r : ActionProposal) : ActionProposal :=
  mkProposal (p_proposal_id r) (p_action r) (p_payload r) (p_case_id r) (p_customer_id r)
    (p_actor_id r) (p_procedure_id r) (p_procedure_version r) (p_policy_package_id r)
    (p_idempotency_key r) (p_resource_type r) (p_resource_id r) (p_resource_version r)
    (p_conversation_id r) (p_message_id r) (p_connector_binding_id r)
    (p_connector_binding_version r) (p_contract_version r) (p_preview r) s
    (coalesce evidence (p_confirmation_evidence_ref r))
    (coalesce action_id (p_action_id r))
    (p_created_at r) (p_expires_at r) now
    (coalesce (if decide (s = P_CONFIRMED) then Some now else None) (p_confirmed_at r))
    (coalesce (if decide (s = P_CANCELLED) then Some now else None) (p_cancelled_at r)).

Definition set_outbox_leased (owner : string) (until now : Z) (r : OutboxRecord) : OutboxRecord :=
  mkOutbox (o_outbox_id r) (o_topic r) (o_aggregate_id r) (o_payload r) O_LEASED
    (o_attempts r + 1) (o_available_at r) (Some owner) (Some until) (o_last_error r)
    (o_created_at r) now.

Definition set_outbox_status (s : OutboxStatus) (available : Z) (error : option string)
    (now : Z) (r : OutboxRecord) : OutboxRecord :=
  mkOutbox (o_outbox_id r) (o_topic r) (o_aggregate_id r) (o_payload r) s
    (o_attempts r) available None None error (o_created_at r) now.

Definition set_inbox (envelope : dict value) (status : string) (now : Z) (r : InboxRow) :
    InboxRow :=
  mkInbox (i_provider_id r) (i_message_id r) (i_conversation_id r) (i_sequence r)
    envelope status now.

Definition set_sequence (seq now : Z) (r : SequenceRow) : SequenceRow :=
  mkSequence (q_provider_id r) (q_conversation_id r) seq now.

Definition set_handoff (status : string) (agent : option string) (now : Z) (r : HandoffRow) :
    HandoffRow :=
  mkHandoff (h_handoff_id r) (h_conversation_id r) (h_case_id r) (h_context r) status agent
    (h_created_at r) now.
