(* ===== verification/Policy.v ===== *)
(** * Governed policy packages ([core/policy.py])

    [PolicySigner] and the in-process [PolicyRegistry].  HMAC-SHA256 is the
    abstract function [hmac_hex]; no theorem needs more of it than that it is a
    function, except where a hypothesis says so. *)

From S2P Require Import Prelude PyValue.

Inductive PolicyLifecycle := DRAFT | APPROVED | ACTIVE | RETIRED.
#[export] Instance PolicyLifecycle_eq_dec : EqDecision PolicyLifecycle.
Proof. solve_decision. Defined.

Definition lifecycle_value (l : PolicyLifecycle) : string :=
  match l with
  | DRAFT => "draft" | APPROVED => "approved" | ACTIVE => "active" | RETIRED => "retired"
  end.

Record PolicyPackage := mkPackage {
  pk_package_id : string;
  pk_procedure_id : string;
  pk_version : string;
  pk_jurisdiction : string;
  pk_author : string;
  pk_rules : dict value;
  pk_lifecycle : PolicyLifecycle;
  pk_approver : option string;
  pk_signing_key_id : option string;
  pk_activation_signature : option string;
  pk_signature : option string
}.

(** A [policy_packages] row: the indexed columns and the package text. *)
Record policy_row := mkPolicyRow {
  pr_package_id : string; pr_procedure_id : string; pr_version : string;
  pr_jurisdiction : string; pr_lifecycle : PolicyLifecycle; pr_package : PolicyPackage
}.

Definition ostr_value (s : option string) : value :=
  match s with Some s => VStr s | None => VNone end.

(** The package without its signatures, keys sorted: the value whose JSON text
    is signed. *)
Definition canonical_payload (p : PolicyPackage) : value :=
  canonical_json (VDict
    [ ("package_id", VStr (pk_package_id p)); ("procedure_id", VStr (pk_procedure_id p));
      ("version", VStr (pk_version p)); ("jurisdiction", VStr (pk_jurisdiction p));
      ("author", VStr (pk_author p)); ("rules", VDict (pk_rules p));
      ("lifecycle", VStr (lifecycle_value (pk_lifecycle p)));
      ("approver", ostr_value (pk_approver p));
      ("signing_key_id", ostr_value (pk_signing_key_id p)) ]).

(** [hmac.new(key, payload, sha256).hexdigest()] *)
Class Hmac := hmac_hex : string → value → string.

Record PolicySigner := mkSigner {
  sg_key : string; sg_key_id : string; sg_verification_keys : dict string
}.

(** [PolicySigner.__init__] *)
Definition PolicySigner_init (key key_id : string) (verification_keys : dict string) :
    result PolicySigner :=
  if Nat.ltb (String.length key) 8 then inl (ValueError "Signing key is too short")
  else inr (mkSigner key key_id (dset key_id key (dupdate [] verification_keys))).

(** [package.model_copy(update=...)] for the fields the signer changes *)
Definition with_lifecycle (l : PolicyLifecycle) (approver key_id : option string)
    (p : PolicyPackage) : PolicyPackage :=
  mkPackage (pk_package_id p) (pk_procedure_id p) (pk_version p) (pk_jurisdiction p)
    (pk_author p) (pk_rules p) l approver key_id (pk_activation_signature p) None.

Definition with_signature (sig : string) (p : PolicyPackage) : PolicyPackage :=
  mkPackage (pk_package_id p) (pk_procedure_id p) (pk_version p) (pk_jurisdiction p)
    (pk_author p) (pk_rules p) (pk_lifecycle p) (pk_approver p) (pk_signing_key_id p)
    (pk_activation_signature p) (Some sig).

Definition with_activation (sig : string) (p : PolicyPackage) : PolicyPackage :=
  mkPackage (pk_package_id p) (pk_procedure_id p) (pk_version p) (pk_jurisdiction p)
    (pk_author p) (pk_rules p) (pk_lifecycle p) (pk_approver p) (pk_signing_key_id p)
    (Some sig) (Some sig).

Section signer.
Context `{Hmac} (sg : PolicySigner).

Definition approve (p : PolicyPackage) (approver : string) : result PolicyPackage :=
  if String.eqb approver (pk_author p) then
    inl (ValueError "Policy author and approver must be separate")
  else
    let approved := with_lifecycle APPROVED (Some approver) (Some (sg_key_id sg)) p in
    inr (with_signature (hmac_hex (sg_key sg) (canonical_payload approved)) approved).

Definition verify (p : PolicyPackage) : bool :=
  if negb (str_truthy (pk_signature p)) ||
     negb (bool_decide (pk_lifecycle p ∈ [APPROVED; ACTIVE; RETIRED])) then false
  else
    match pk_signing_key_id p with
    | None => false
    | Some kid =>
        match dget kid (sg_verification_keys sg) with
        | None => false
        | Some key =>
            ostr_eqb (pk_signature p) (Some (hmac_hex key (canonical_payload p)))
        end
    end.

Definition activate (p : PolicyPackage) : result PolicyPackage :=
  if negb (bool_decide (pk_lifecycle p = APPROVED)) || negb (verify p) then
    inl (ValueError "Only a valid approved package can be activated")
  else
    let active := with_lifecycle ACTIVE (pk_approver p) (Some (sg_key_id sg)) p in
    inr (with_activation (hmac_hex (sg_key sg) (canonical_payload active)) active).

Definition retire (p : PolicyPackage) : result PolicyPackage :=
  if negb (bool_decide (pk_lifecycle p = ACTIVE)) || negb (verify p) then
    inl (ValueError "Only a valid active package can be retired")
  else
    let retired := with_lifecycle RETIRED (pk_approver p) (Some (sg_key_id sg)) p in
    inr (with_signature (hmac_hex (sg_key sg) (canonical_payload retired)) retired).
End signer.

(** ** The in-process registry *)

Record PolicyRegistry := mkRegistry {
  rg_active : dict PolicyPackage; rg_packages : dict PolicyPackage
}.
Definition empty_registry : PolicyRegistry := mkRegistry [] [].

Section registry.
Context `{Hmac} (sg : PolicySigner).

Definition registry_load (p : PolicyPackage) (rg : PolicyRegistry) : result PolicyRegistry :=
  if negb (bool_decide (pk_lifecycle p = ACTIVE)) || negb (verify sg p) then
    inl (ValueError "Policy registry accepts only valid active packages")
  else inr (mkRegistry (dset (pk_package_id p) p (rg_active rg))
              (dset (pk_package_id p) p (rg_packages rg))).

Definition registry_load_history (p : PolicyPackage) (rg : PolicyRegistry) :
    result PolicyRegistry :=
  if negb (bool_decide (pk_lifecycle p ∈ [ACTIVE; RETIRED])) then
    inl (ValueError "Policy history accepts only active or retired packages")
  else if negb (verify sg p) then
    inl (ValueError "Policy history package signature is invalid")
  else
    let packages := dset (pk_package_id p) p (rg_packages rg) in
    inr (mkRegistry
      (if decide (pk_lifecycle p = ACTIVE)
       then dset (pk_package_id p) p (rg_active rg) else rg_active rg)
      packages).

Definition registry_require_active (package_id : string) (rg : PolicyRegistry) :
    result PolicyPackage :=
  match dget package_id (rg_active rg) with
  | Some p => inr p
  | None => inl (ValueError ("Policy package is not active: " +:+ package_id))
  end.

Definition registry_require_authorization_snapshot (package_id activation_signature : string)
    (rg : PolicyRegistry) : result PolicyPackage :=
  match dget package_id (rg_packages rg) with
  | None => inl (ValueError ("Policy package history is unavailable: " +:+ package_id))
  | Some p =>
      if negb (ostr_eqb (pk_activation_signature p) (Some activation_signature)) then
        inl (ValueError "Action policy activation snapshot does not match policy history")
      else if negb (verify sg p) then
        inl (ValueError "Action policy history signature is invalid")
      else inr p
  end.

Definition registry_retire (package_id : string) (rg : PolicyRegistry) : PolicyRegistry :=
  mkRegistry (ddel package_id (rg_active rg)) (rg_packages rg).

Definition active_packages (rg : PolicyRegistry) : list PolicyPackage := (rg_active rg).*2.

Definition registry_clear (rg : PolicyRegistry) : PolicyRegistry := empty_registry.
End registry.
