(* ===== verification/World.v ===== *)
(** * The world the coroutines share

    One record holds the core database, the policy table, the in-process policy
    registry, how many clock readings and UUIDs have been taken, the log of
    provider calls, and the state [Ext] of everything outside the repository.
    [tx] is the monad of one SQLite transaction: it either commits the database
    it computed or, on an exception, leaves the database as it was. *)

From S2P Require Import Prelude PyValue Prog Table KernelData Policy.

(** Clock readings and generated identifiers, in the order they are taken. *)
Class Oracle := {
  now_at : nat → Z;
  uuid_at : nat → string
}.

(** The clock never goes back; [uuid4] never repeats. *)
Class OracleLaws `{Oracle} := {
  now_mono i j : i ≤ j → (now_at i ≤ now_at j)%Z;
  uuid_inj : Inj (=) (=) uuid_at
}.

Record sys := mkSys { n_clock : nat; n_uuid : nat }.

(** A call the gateway makes to a provider connector. *)
Inductive effect := EffDispatch (c : ActionCommand) | EffReconcile (c : ActionCommand).

Record World (Ext : Type) := mkWorld {
  w_core : core_db;
  w_sys : sys;
  w_policies : list policy_row;
  w_registry : PolicyRegistry;
  w_trace : list effect;
  w_ext : Ext
}.
Arguments mkWorld {Ext}.
Arguments w_core {Ext}.
Arguments w_sys {Ext}.
Arguments w_policies {Ext}.
Arguments w_registry {Ext}.
Arguments w_trace {Ext}.
Arguments w_ext {Ext}.

Section setters.
Context {Ext : Type}.
Implicit Types w : World Ext.
Definition set_core d s w :=
  mkWorld d s (w_policies w) (w_registry w) (w_trace w) (w_ext w).
Definition set_sys s w := set_core (w_core w) s w.
Definition set_policies ps w :=
  mkWorld (w_core w) (w_sys w) ps (w_registry w) (w_trace w) (w_ext w).
Definition set_registry rg w :=
  mkWorld (w_core w) (w_sys w) (w_policies w) rg (w_trace w) (w_ext w).
Definition set_ext (x : Ext) w : World Ext :=
  mkWorld (w_core w) (w_sys w) (w_policies w) (w_registry w) (w_trace w) x.
Definition log_effect e (x : Ext) w : World Ext :=
  mkWorld (w_core w) (w_sys w) (w_policies w) (w_registry w) (w_trace w ++ [e]) x.
End setters.

Lemma set_core_id {Ext} (w : World Ext) : set_core (w_core w) (w_sys w) w = w.
Proof. by destruct w. Qed.

(** ** Transactions *)

Definition tx (A : Type) : Type := core_db → sys → sys * result (A * core_db).

#[export] Instance tx_ret : MRet tx := λ A a d s, (s, inr (a, d)).
#[export] Instance tx_throw : MThrow exn tx := λ A e d s, (s, inl e).
#[export] Instance tx_bind : MBind tx := λ A B k m d s,
  match m d s with
  | (s', inl e) => (s', inl e)
  | (s', inr (a, d')) => k a d' s'
  end.

Section statements.
Context `{Oracle}.

(** [datetime.now(timezone.utc)] and [uuid.uuid4().hex] *)
Definition tx_now : tx Z := λ d s, (mkSys (S (n_clock s)) (n_uuid s), inr (now_at (n_clock s), d)).
Definition tx_uuid (prefix : string) : tx string := λ d s,
  (mkSys (n_clock s) (S (n_uuid s)), inr (prefix +:+ uuid_at (n_uuid s), d)).

Definition sql_select {R} (t : table R) (q : list R → list R) : tx (list R) := λ d s,
  (s, inr (q (tbl_get t d), d)).
Definition sql_fetchone {R} (t : table R) (p : R → bool) : tx (option R) := λ d s,
  (s, inr (select_one p (tbl_get t d), d)).
(** The value is [cursor.rowcount]. *)
Definition sql_update {R} (t : table R) (p : R → bool) (f : R → R) : tx nat := λ d s,
  (s, inr (rowcount p (tbl_get t d), tbl_set t (update_where p f (tbl_get t d)) d)).
Definition sql_insert {R K} `{EqDecision K} (t : table R) (key : R → K) (constraint : string)
    (r : R) : tx unit := λ d s,
  match tinsert key constraint r (tbl_get t d) with
  | inl e => (s, inl e)
  | inr rows => (s, inr (tt, tbl_set t rows d))
  end.
(** A UNIQUE constraint other than the primary key, checked by the INSERT. *)
Definition sql_unique {R K} `{EqDecision K} (t : table R) (key : R → K) (constraint : string)
    (r : R) : tx unit := λ d s,
  match tget key (key r) (tbl_get t d) with
  | Some _ => (s, inl (IntegrityError constraint))
  | None => (s, inr (tt, d))
  end.
Definition sql_upsert {R K} `{EqDecision K} (t : table R) (key : R → K) (r : R) (f : R → R) :
    tx unit := λ d s,
  (s, inr (tt, tbl_set t (tupsert key r f (tbl_get t d)) d)).
End statements.

(** [for x in l: body(x)] in a transaction *)
Fixpoint tx_for {A} (l : list A) (body : A → tx unit) : tx unit :=
  match l with
  | [] => mret tt
  | x :: l' => _ ← body x; tx_for l' body
  end.

Definition tx_require (b : bool) (e : exn) : tx unit := if b then mret tt else mthrow e.

(** [await] of a transaction on the core store: one atomic step. *)
Definition commit {Ext A} (t : tx A) : prog (World Ext) A :=
  atomically (λ w,
    match t (w_core w) (w_sys w) with
    | (s, inl e) => (set_core (w_core w) s w, inl e)
    | (s, inr (a, d)) => (set_core d s w, inr a)
    end).

(** Reading the clock or drawing a UUID outside a transaction. *)
Definition read_clock `{Oracle} {Ext} : prog (World Ext) Z :=
  atomically (λ w, (set_sys (mkSys (S (n_clock (w_sys w))) (n_uuid (w_sys w))) w,
                    inr (now_at (n_clock (w_sys w))))).
Definition new_uuid `{Oracle} {Ext} (prefix : string) : prog (World Ext) string :=
  atomically (λ w, (set_sys (mkSys (n_clock (w_sys w)) (S (n_uuid (w_sys w)))) w,
                    inr (prefix +:+ uuid_at (n_uuid (w_sys w))))).

Lemma run_commit {Ext A} (t : tx A) (w : World Ext) :
  run (commit t) w =
  match t (w_core w) (w_sys w) with
  | (s, inl e) => (set_core (w_core w) s w, inl e)
  | (s, inr (a, d)) => (set_core d s w, inr a)
  end.
Proof. apply run_atomically. Qed.

#[export] Hint Rewrite @run_commit : run.

(** ** What a transaction may change *)

(** [t] keeps the relation [R] between the database before and after, whether
    it commits or raises ([R] is reflexive). *)
Definition tx_preserves {A} (R : core_db → core_db → Prop) (t : tx A) : Prop :=
  ∀ d s s' a d', t d s = (s', inr (a, d')) → R d d'.

Section tx_preserves.
Context (R : core_db → core_db → Prop) `{!PreOrder R}.

Lemma tx_preserves_ret {A} (a : A) : tx_preserves R (mret a).
Proof. intros d s s' a' d' [= <- <- <-]. reflexivity. Qed.
Lemma tx_preserves_throw {A} (e : exn) : tx_preserves R (mthrow e : tx A).
Proof. intros d s s' a' d' [=]. Qed.
Lemma tx_preserves_bind {A B} (m : tx A) (k : A → tx B) :
  tx_preserves R m → (∀ a, tx_preserves R (k a)) → tx_preserves R (m ≫= k).
Proof.
  intros Hm Hk d s s' b d' Hb. unfold mbind, tx_bind in Hb.
  destruct (m d s) as [s1 [e|[a d1]]] eqn:E; [done|].
  etrans; [by eapply Hm|by eapply Hk].
Qed.
Lemma tx_preserves_now `{Oracle} : tx_preserves R tx_now.
Proof. intros d s s' a' d' [= <- <- <-]. reflexivity. Qed.
Lemma tx_preserves_uuid `{Oracle} p : tx_preserves R (tx_uuid p).
Proof. intros d s s' a' d' [= <- <- <-]. reflexivity. Qed.
Lemma tx_preserves_select {X} (t : table X) q : tx_preserves R (sql_select t q).
Proof. intros d s s' a' d' [= <- <- <-]. reflexivity. Qed.
Lemma tx_preserves_fetchone {X} (t : table X) p : tx_preserves R (sql_fetchone t p).
Proof. intros d s s' a' d' [= <- <- <-]. reflexivity. Qed.
Lemma tx_preserves_require b e : tx_preserves R (tx_require b e).
Proof. destruct b; [apply tx_preserves_ret|apply tx_preserves_throw]. Qed.
Lemma tx_preserves_for {A} (l : list A) body :
  (∀ x, tx_preserves R (body x)) → tx_preserves R (tx_for l body).
Proof.
  intros Hb. induction l as [|x l IH]; cbn; [apply tx_preserves_ret|].
  apply tx_preserves_bind; auto.
Qed.
Lemma tx_preserves_update {X} (t : table X) p f :
  (∀ d, R d (tbl_set t (update_where p f (tbl_get t d)) d)) →
  tx_preserves R (sql_update t p f).
Proof. intros HR d s s' a' d' [= <- <- <-]. apply HR. Qed.
Lemma tx_preserves_insert {X K} `{EqDecision K} (t : table X) (key : X → K) c r :
  (∀ d, tget key (key r) (tbl_get t d) = None → R d (tbl_set t (tbl_get t d ++ [r]) d)) →
  tx_preserves R (sql_insert t key c r).
Proof.
  intros HR d s s' a' d'. unfold sql_insert, tinsert.
  destruct (tget key (key r) (tbl_get t d)) eqn:E; [done|]. cbn. intros [= <- <- <-]. auto.
Qed.
Lemma tx_preserves_unique {X K} `{EqDecision K} (t : table X) (key : X → K) c r :
  tx_preserves R (sql_unique t key c r).
Proof.
  intros d s s' a' d'. unfold sql_unique. case_match; cbn; [done|]. intros [= <- <- <-]. reflexivity.
Qed.
Lemma tx_preserves_upsert {X K} `{EqDecision K} (t : table X) (key : X → K) r f :
  (∀ d, R d (tbl_set t (tupsert key r f (tbl_get t d)) d)) →
  tx_preserves R (sql_upsert t key r f).
Proof. intros HR d s s' a' d' [= <- <- <-]. apply HR. Qed.
End tx_preserves.

#[export] Hint Resolve tx_preserves_ret tx_preserves_throw tx_preserves_now tx_preserves_uuid
  tx_preserves_select tx_preserves_fetchone tx_preserves_require tx_preserves_unique : wf.

(** A relation on core databases, as one on worlds. *)
Definition on_core {Ext} (R : core_db → core_db → Prop) (w w' : World Ext) : Prop :=
  R (w_core w) (w_core w').

#[export] Instance on_core_preorder {Ext} R : PreOrder R → PreOrder (@on_core Ext R).
Proof.
  intros [Hr Ht]. split.
  - intros w. apply Hr.
  - intros w1 w2 w3. apply Ht.
Qed.

Lemma steps_commit {Ext A} R `{!PreOrder R} (t : tx A) :
  tx_preserves R t → steps (@on_core Ext R) (commit t).
Proof.
  intros Ht. apply steps_atomically. intros w. unfold on_core.
  destruct (t (w_core w) (w_sys w)) as [s [e|[a d]]] eqn:E; cbn; [reflexivity|].
  by eapply Ht.
Qed.

Lemma steps_read_clock `{Oracle} {Ext} R `{!PreOrder R} :
  steps (@on_core Ext R) read_clock.
Proof. apply steps_atomically. intros w. unfold on_core; cbn. reflexivity. Qed.

Lemma steps_new_uuid `{Oracle} {Ext} R `{!PreOrder R} prefix :
  steps (@on_core Ext R) (new_uuid prefix).
Proof. apply steps_atomically. intros w. unfold on_core; cbn. reflexivity. Qed.

(** ** Inverting a transaction that committed *)

Lemma tx_bind_inr {A B} (m : tx A) (k : A → tx B) d s s' r :
  (m ≫= k) d s = (s', inr r) →
  ∃ s1 a d1, m d s = (s1, inr (a, d1)) ∧ k a d1 s1 = (s', inr r).
Proof.
  unfold mbind, tx_bind. destruct (m d s) as [s1 [e|[a d1]]]; [done|]. intros H. by eexists _, _, _.
Qed.

Lemma sql_insert_inr {R K} `{EqDecision K} (t : table R) (key : R → K) c r d s s' u d' :
  sql_insert t key c r d s = (s', inr (u, d')) →
  s' = s ∧ tget key (key r) (tbl_get t d) = None ∧ d' = tbl_set t (tbl_get t d ++ [r]) d.
Proof.
  unfold sql_insert, tinsert. destruct (tget _ _ _) eqn:E; [done|]. by intros [= <- _ <-].
Qed.

Lemma sql_unique_inr {R K} `{EqDecision K} (t : table R) (key : R → K) c r d s s' u d' :
  sql_unique t key c r d s = (s', inr (u, d')) →
  s' = s ∧ tget key (key r) (tbl_get t d) = None ∧ d' = d.
Proof. unfold sql_unique. destruct (tget _ _ _) eqn:E; [done|]. by intros [= <- _ <-]. Qed.

Lemma tx_require_inr b e d s s' u d' :
  tx_require b e d s = (s', inr (u, d')) → s' = s ∧ b = true ∧ d' = d.
Proof. destruct b; [|done]. by intros [= <- _ <-]. Qed.

(** Split a committed transaction into its committed statements. *)
Ltac tx_inv H :=
  cbn beta iota in H;
  lazymatch type of H with
  | mbind _ _ _ _ = _ =>
      let H1 := fresh "Htx" in
      apply tx_bind_inr in H as (? & ? & ? & H1 & H); tx_inv H1; tx_inv H
  | tx_now _ _ = _ => injection H as H; subst
  | tx_uuid _ _ _ = _ => injection H as H; subst
  | sql_select _ _ _ _ = _ => injection H as H; subst
  | sql_fetchone _ _ _ _ = _ => injection H as H; subst
  | sql_update _ _ _ _ _ = _ => injection H as H; subst
  | sql_upsert _ _ _ _ _ _ = _ => injection H as H; subst
  | mret _ _ _ = _ => injection H as H; subst
  | mthrow _ _ _ = _ => discriminate H
  | sql_insert _ _ _ _ _ _ = _ =>
      let H2 := fresh "Hfresh" in apply sql_insert_inr in H as (? & H2 & ?); subst
  | sql_unique _ _ _ _ _ _ = _ =>
      let H2 := fresh "Hfresh" in apply sql_unique_inr in H as (? & H2 & ?); subst
  | tx_require _ _ _ _ = _ =>
      let H2 := fresh "Hreq" in apply tx_require_inr in H as (? & H2 & ?); subst
  | _ => idtac
  end.

(** What [commit] shows of a transaction that ran. *)
Lemma run_commit_inr {Ext A} (t : tx A) (w w' : World Ext) a :
  run (commit t) w = (w', inr a) →
  ∃ s d, t (w_core w) (w_sys w) = (s, inr (a, d)) ∧ w' = set_core d s w.
Proof.
  rewrite run_commit. destruct (t _ _) as [s [e|[a' d]]]; [done|]. intros [= <- <-]. eauto.
Qed.
