(* ===== verification/KernelStore.v ===== *)
(** * The SQLite core store ([core/kernel.py], class [SQLiteCoreStore])

    Every method is a program: each transaction, and each query made after the
    transaction has committed, is one atomic step. *)

From stdpp Require Import pretty.
From S2P Require Import Prelude PyValue Prog Table KernelData World.

Section store.
Context `{Oracle} {Ext : Type}.
Abbreviation prog := (prog (World Ext)).

(** [await self.get_x(...)]: a query in a connection of its own. *)
Definition query {R} (t : table R) (p : R → bool) : prog (option R) :=
  commit (sql_fetchone t p).

(** ** Schema and migration *)

(** The events a pre-v3 action must have gone through. *)
Definition backfill_sequence (status : ActionStatus) : list ActionStatus :=
  [REQUESTED]
  ++ (if bool_decide (status ≠ REQUESTED) then [AUTHORIZED] else [])
  ++ (if bool_decide (status ∈ [DISPATCHED; SUCCEEDED; FAILED; UNKNOWN; RECONCILED])
      then [DISPATCHED] else [])
  ++ (if bool_decide (status = RECONCILED) then [UNKNOWN] else [])
  ++ (if bool_decide (status ∈ [SUCCEEDED; FAILED; UNKNOWN; RECONCILED]) then [status] else []).

Definition insert_event (action_id : string) (status : ActionStatus)
    (details : option (dict value)) (recorded_at : Z) : tx unit :=
  eid ← tx_uuid "AEV-";
  sql_insert action_events ev_event_id "action_events.event_id"
    (mkEvent eid action_id status details recorded_at).

Definition initialize_tx : tx unit :=
  migration ← sql_fetchone core_migrations
                (λ m, String.eqb m.1 "action_events_v3_backfill");
  match migration with
  | Some _ => mret tt
  | None =>
      evs ← sql_select action_events id;
      legacy ← sql_select action_attempts
                 (select_where (λ a, bool_decide (a_action_id a ∉ map ev_action_id evs)));
      _ ← tx_for legacy (λ a,
            tx_for (backfill_sequence (a_status a)) (λ event_status,
              insert_event (a_action_id a) event_status
                (Some [("migrated", VBool true)])
                (if decide (event_status = a_status a) then a_updated_at a else a_created_at a)));
      now ← tx_now;
      sql_insert core_migrations fst "core_migrations.name" ("action_events_v3_backfill", now)
  end.

Definition initialize : prog unit := commit initialize_tx.

(** ** Cases and facts *)

Definition create_case_tx (record : CaseRecord) : tx unit :=
  now ← tx_now;
  sql_insert workflow_cases case_key "workflow_cases.case_id" (mkCaseRow record now).

Definition store_create_case (record : CaseRecord) : prog unit := commit (create_case_tx record).

Definition get_case (cid : string) : prog (option CaseRecord) :=
  row ← query workflow_cases (λ r, bool_decide (case_key r = cid));
  mret (option_map cr_case row).

Definition at_version (cid : string) (v : Z) (r : case_row) : bool :=
  bool_decide (case_key r = cid) && (case_version (cr_case r) =? v)%Z.

Definition append_fact_tx (cid : string) (proposal : FactProposal) (expected_version : Z) :
    tx unit :=
  n ← sql_update workflow_cases (at_version cid expected_version) bump_version;
  _ ← tx_require (Nat.eqb n 1) (CaseConflict ("Case " +:+ cid +:+ " version conflict"));
  now ← tx_now;
  let row := mkFact proposal cid now None in
  sql_upsert case_facts fact_key row (λ _, row).

Definition append_fact (cid : string) (proposal : FactProposal) (expected_version : Z) :
    prog CaseRecord :=
  _ ← commit (append_fact_tx cid proposal expected_version);
  record ← get_case cid;
  match record with Some r => mret r | None => mthrow AssertionError end.

Definition get_fact (cid name : string) : prog (option FactRecord) :=
  query case_facts (λ r, bool_decide (fact_key r = (cid, name)) &&
                         bool_decide (fact_superseded_at r = None)).

(** ** Actions *)

Definition insert_action_tx (record : ActionRecord) (expected_version : Z) : tx unit :=
  let cid := c_case_id (a_command record) in
  n ← sql_update workflow_cases (at_version cid expected_version) bump_version;
  _ ← tx_require (Nat.eqb n 1) (CaseConflict ("Case " +:+ cid +:+ " version conflict"));
  let row := mkAction (a_action_id record) (a_command record) (a_status record) None
               (a_created_at record) (a_updated_at record) in
  _ ← sql_unique action_attempts action_idem "action_attempts.idempotency_key" row;
  _ ← sql_insert action_attempts a_action_id "action_attempts.action_id" row;
  _ ← tx_for [REQUESTED; AUTHORIZED] (λ status,
        now ← tx_now; insert_event (a_action_id record) status None now);
  now ← tx_now;
  oid ← tx_uuid "OUT-";
  sql_insert core_outbox o_outbox_id "core_outbox.outbox_id"
    (mkOutbox oid "action.dispatch" (a_action_id record)
       [("action_id", VStr (a_action_id record))] O_PENDING 0 now None None None now now).

Definition insert_action (record : ActionRecord) (expected_version : Z) : prog ActionRecord :=
  _ ← commit (insert_action_tx record expected_version);
  mret record.

Definition get_action_by_key (key : string) : prog (option ActionRecord) :=
  query action_attempts (λ r, bool_decide (action_idem r = key)).

Definition get_action (aid : string) : prog (option ActionRecord) :=
  query action_attempts (λ r, bool_decide (a_action_id r = aid)).

Definition list_actions (status : option ActionStatus) (lim : Z) : prog (list ActionRecord) :=
  commit (sql_select action_attempts (λ rows,
    limit lim (order_by a_created_at
      match status with
      | None => rows
      | Some s => select_where (λ r, bool_decide (a_status r = s)) rows
      end))).

Definition list_action_events (aid : string) : prog (list ActionEvent) :=
  commit (sql_select action_events (select_where (λ e, bool_decide (ev_action_id e = aid)))).

Definition update_action_tx (aid : string) (status : ActionStatus)
    (outcome : option (dict value)) : tx unit :=
  now ← tx_now;
  n ← sql_update action_attempts (λ r, bool_decide (a_action_id r = aid))
        (set_action_status status outcome now);
  _ ← tx_require (Nat.eqb n 1) (KeyError aid);
  now' ← tx_now;
  insert_event aid status outcome now'.

Definition fetch_action (aid : string) (missing : exn) : prog ActionRecord :=
  row ← get_action aid;
  match row with Some r => mret r | None => mthrow missing end.

Definition update_action (aid : string) (status : ActionStatus) (outcome : option (dict value)) :
    prog ActionRecord :=
  _ ← commit (update_action_tx aid status outcome);
  fetch_action aid (KeyError aid).

Definition in_status (aid : string) (s : ActionStatus) (r : ActionRecord) : bool :=
  bool_decide (a_action_id r = aid) && bool_decide (a_status r = s).

Definition transition_action_tx (aid : string) (expected status : ActionStatus)
    (outcome : option (dict value)) : tx unit :=
  now ← tx_now;
  n ← sql_update action_attempts (in_status aid expected)
        (set_action_status status outcome now);
  _ ← tx_require (Nat.eqb n 1)
        (ActionConflict ("Action " +:+ aid +:+ " transition conflict from "
           +:+ action_status_value expected));
  now' ← tx_now;
  insert_event aid status outcome now'.

Definition transition_action (aid : string) (expected status : ActionStatus)
    (outcome : option (dict value)) : prog ActionRecord :=
  _ ← commit (transition_action_tx aid expected status outcome);
  fetch_action aid AssertionError.

Definition claim_action_tx (aid : string) : tx bool :=
  now ← tx_now;
  n ← sql_update action_attempts (in_status aid AUTHORIZED) (set_action_claimed now);
  if Nat.eqb n 1 then
    now' ← tx_now;
    _ ← insert_event aid DISPATCHED None now';
    mret true
  else mret false.

Definition claim_action (aid : string) : prog (ActionRecord * bool) :=
  claimed ← commit (claim_action_tx aid);
  row ← fetch_action aid (KeyError aid);
  mret (row, claimed).

(** ** Proposals *)

Definition create_action_proposal (record : ActionProposal) : prog ActionProposal :=
  _ ← commit (sql_insert action_proposals p_proposal_id "action_proposals.proposal_id" record);
  mret record.

Definition get_action_proposal (pid : string) : prog (option ActionProposal) :=
  query action_proposals (λ r, bool_decide (p_proposal_id r = pid)).

(** One optional filter clause of the WHERE. *)
Definition clause {A} `{EqDecision A} (wanted : option A) (actual : A) : bool :=
  match wanted with Some x => bool_decide (actual = x) | None => true end.

Definition list_action_proposals (customer_id conversation_id : option string)
    (status : option ActionProposalStatus) (lim : Z) : prog (list ActionProposal) :=
  commit (sql_select action_proposals (λ rows,
    limit lim (order_by_desc p_created_at
      (select_where (λ r,
         clause customer_id (p_customer_id r) &&
         match conversation_id with
         | Some c => bool_decide (p_conversation_id r = Some c)
         | None => true
         end &&
         clause status (p_status r)) rows)))).

Definition proposal_in (pid : string) (s : ActionProposalStatus) (r : ActionProposal) : bool :=
  bool_decide (p_proposal_id r = pid) && bool_decide (p_status r = s).

Definition transition_action_proposal (pid : string) (expected status : ActionProposalStatus)
    (confirmation_evidence_ref action_id : option string) : prog ActionProposal :=
  now ← read_clock;
  _ ← commit (
    n ← sql_update action_proposals (proposal_in pid expected)
          (set_proposal_status status confirmation_evidence_ref action_id now);
    tx_require (Nat.eqb n 1)
      (ActionConflict ("Action proposal " +:+ pid +:+ " transition conflict from "
         +:+ proposal_status_value expected)));
  row ← get_action_proposal pid;
  match row with Some r => mret r | None => mthrow AssertionError end.

(** ** Inbox *)

Record acceptance := mkAcceptance {
  acc_accepted : bool; acc_status : string; acc_reason : option string
}.

Definition env_str (k default : string) (envelope : dict value) : string :=
  match dget k envelope with Some (VStr s) => s | _ => default end.

Definition env_sequence (envelope : dict value) : option Z :=
  match dget "sequence" envelope with Some (VInt z) => Some z | _ => None end.

(** The ordering decision for a message that is not a duplicate by id:
    duplicate by sequence, accepted, or quarantined with its reason. *)
Definition ordering (last_sequence sequence : option Z) : option (string * option string) :=
  match sequence, last_sequence with
  | Some q, Some l =>
      if (q <=? l)%Z then None
      else if (l + 1 <? q)%Z then
        Some ("quarantined", Some ("sequence_gap:expected=" +:+ pretty (l + 1)%Z
                                     +:+ ":received=" +:+ pretty q))
      else Some ("accepted", None)
  | _, _ => Some ("accepted", None)
  end.

Definition accept_message_tx (envelope : dict value) : tx acceptance :=
  let provider_id := env_str "provider_id" "local" envelope in
  let message_id := env_str "message_id" "" envelope in
  let conversation_id := env_str "conversation_id" "" envelope in
  let sequence := env_sequence envelope in
  existing ← sql_fetchone conversation_inbox_v3
               (λ r, bool_decide (inbox_key r = (provider_id, message_id)));
  if match existing with
     | Some r => negb (String.eqb (i_ordering_status r) "quarantined")
     | None => false
     end
  then mret (mkAcceptance false "duplicate" (Some "message_id"))
  else
    row ← sql_fetchone conversation_sequences
            (λ r, bool_decide (sequence_key r = (provider_id, conversation_id)));
    match ordering (option_map q_last_sequence row) sequence with
    | None => mret (mkAcceptance false "duplicate" (Some "sequence_already_processed"))
    | Some (ordering_status, reason) =>
        now ← tx_now;
        _ ← match existing with
            | Some _ =>
                _ ← sql_update conversation_inbox_v3
                      (λ r, bool_decide (inbox_key r = (provider_id, message_id)))
                      (set_inbox envelope ordering_status now);
                mret tt
            | None =>
                sql_insert conversation_inbox_v3 inbox_key "conversation_inbox_v3"
                  (mkInbox provider_id message_id conversation_id sequence envelope
                     ordering_status now)
            end;
        _ ← match sequence with
            | Some q =>
                if String.eqb ordering_status "accepted" then
                  now' ← tx_now;
                  sql_upsert conversation_sequences sequence_key
                    (mkSequence provider_id conversation_id q now') (set_sequence q now')
                else mret tt
            | None => mret tt
            end;
        mret (mkAcceptance (String.eqb ordering_status "accepted") ordering_status reason)
    end.

Definition accept_message_result (envelope : dict value) : prog acceptance :=
  match dget "message_id" envelope with
  | Some _ => commit (accept_message_tx envelope)
  | None => mthrow (KeyError "message_id")
  end.

Definition accept_message (envelope : dict value) : prog bool :=
  r ← accept_message_result envelope; mret (acc_accepted r).

Definition list_quarantined_messages (lim : Z) : prog (list InboxRow) :=
  commit (sql_select conversation_inbox_v3 (λ rows,
    limit lim (order_by i_received_at
      (select_where (λ r, String.eqb (i_ordering_status r) "quarantined") rows)))).

(** ** Outbox *)

Definition enqueue_outbox (topic aggregate_id : string) (payload : dict value) :
    prog OutboxRecord :=
  now ← read_clock;
  oid ← new_uuid "OUT-";
  let record := mkOutbox oid topic aggregate_id payload O_PENDING 0 now None None None now now in
  _ ← commit (sql_insert core_outbox o_outbox_id "core_outbox.outbox_id" record);
  mret record.

(** The WHERE of the lease query. *)
Definition outbox_due (now : Z) (r : OutboxRecord) : bool :=
  (o_available_at r <=? now)%Z &&
  (bool_decide (o_status r ∈ [O_PENDING; O_FAILED]) ||
   (bool_decide (o_status r = O_LEASED) &&
    match o_lease_until r with Some u => (u <? now)%Z | None => false end)).

Definition seconds (n : Z) : Z := (n * 1000000)%Z.

Definition claim_outbox_tx (owner : string) (now lease_until lim : Z) : tx (list string) :=
  rows ← sql_select core_outbox (λ rows,
           limit lim (order_by o_created_at (select_where (outbox_due now) rows)));
  let ids := map o_outbox_id rows in
  _ ← tx_for ids (λ oid,
        _ ← sql_update core_outbox (λ r, bool_decide (o_outbox_id r = oid))
              (set_outbox_leased owner lease_until now);
        mret tt);
  mret ids.

Definition claim_outbox (owner : string) (lease_seconds lim : Z) : prog (list OutboxRecord) :=
  now ← read_clock;
  now' ← read_clock;
  ids ← commit (claim_outbox_tx owner now (now' + seconds lease_seconds)%Z lim);
  match ids with
  | [] => mret []
  | _ => commit (sql_select core_outbox
           (select_where (λ r, bool_decide (o_outbox_id r ∈ ids))))
  end.

Definition _update_outbox (oid : string) (status : OutboxStatus) (retry_at : option Z)
    (error : option string) : prog OutboxRecord :=
  now ← read_clock;
  _ ← commit (sql_update core_outbox (λ r, bool_decide (o_outbox_id r = oid))
        (set_outbox_status status
           match retry_at with Some t => t | None => now end error now));
  row ← query core_outbox (λ r, bool_decide (o_outbox_id r = oid));
  match row with Some r => mret r | None => mthrow (KeyError oid) end.

Definition complete_outbox (oid : string) : prog OutboxRecord :=
  _update_outbox oid O_DELIVERED None None.

Definition fail_outbox (oid error : string) (retry_at : option Z) (quarantine : bool) :
    prog OutboxRecord :=
  _update_outbox oid (if quarantine then O_QUARANTINED else O_FAILED) retry_at (Some error).

Definition list_outbox (status : option OutboxStatus) (lim : Z) : prog (list OutboxRecord) :=
  commit (sql_select core_outbox (λ rows,
    limit lim (order_by o_created_at
      match status with
      | None => rows
      | Some s => select_where (λ r, bool_decide (o_status r = s)) rows
      end))).

(** ** Handoffs *)

Definition create_handoff (record : HandoffRow) : prog unit :=
  case ← query workflow_cases (λ r, bool_decide (case_key r = h_case_id record));
  match case with
  | None => mthrow (KeyError (h_case_id record))
  | Some _ =>
      commit (sql_insert handoffs h_handoff_id "handoffs.handoff_id"
        (mkHandoff (h_handoff_id record) (h_conversation_id record) (h_case_id record)
           (h_context record) (h_status record) None (h_created_at record)
           (h_updated_at record)))
  end.

Definition get_handoff (hid : string) : prog (option HandoffRow) :=
  query handoffs (λ r, bool_decide (h_handoff_id r = hid)).

Definition update_handoff (hid status : string) (agent : option string) : prog HandoffRow :=
  _ ← commit (now ← tx_now;
        sql_update handoffs (λ r, bool_decide (h_handoff_id r = hid))
          (set_handoff status agent now));
  row ← get_handoff hid;
  match row with Some r => mret r | None => mthrow (KeyError hid) end.

Definition store_transition_handoff (hid expected status : string) (agent : option string) :
    prog HandoffRow :=
  _ ← commit (
    now ← tx_now;
    n ← sql_update handoffs
          (λ r, bool_decide (h_handoff_id r = hid) && String.eqb (h_status r) expected)
          (set_handoff status agent now);
    tx_require (Nat.eqb n 1)
      (HandoffConflict ("Handoff " +:+ hid +:+ " transition conflict from " +:+ expected)));
  row ← get_handoff hid;
  match row with Some r => mret r | None => mthrow AssertionError end.
End store.

Lemma run_query {Ext R} (t : table R) p (w : World Ext) :
  run (query t p) w = (w, inr (select_one p (tbl_get t (w_core w)))).
Proof. unfold query. rewrite run_commit. cbn. by rewrite set_core_id. Qed.

Lemma run_select {Ext R} (t : table R) q (w : World Ext) :
  run (commit (sql_select t q)) w = (w, inr (q (tbl_get t (w_core w)))).
Proof. rewrite run_commit. cbn. by rewrite set_core_id. Qed.

#[export] Hint Rewrite @run_query @run_select : run.

Lemma run_get_case `{Oracle} {Ext} cid (w : World Ext) :
  run (get_case cid) w = (w, inr (option_map cr_case (tget case_key cid (t_cases (w_core w))))).
Proof. unfold get_case. by rewrite run_bind, run_query. Qed.
