(* ===== verification/KernelInv.v ===== *)
(** * What the store's operations keep: [core/kernel.py]

    The invariant of the core database, the way its rows may evolve, and the
    proof that the transactions of [SQLiteCoreStore] keep both. *)

From S2P Require Import Prelude PyValue Prog Table KernelData World KernelStore.

(** ** The life of an action *)

(** The [allowed] table of [CaseKernel.record_outcome]. *)
Definition allowed_outcomes (current : ActionStatus) : list ActionStatus :=
  match current with
  | DISPATCHED => [SUCCEEDED; FAILED; UNKNOWN]
  | UNKNOWN => [UNKNOWN; FAILED; RECONCILED]
  | _ => []
  end.

(** One change of status. *)
Definition edge (s s' : ActionStatus) : Prop :=
  (s = REQUESTED ∧ s' = AUTHORIZED) ∨ (s = AUTHORIZED ∧ s' = DISPATCHED) ∨
  s' ∈ allowed_outcomes s.

(** The statuses an action's events record, ending in its present status. *)
Inductive lifecycle : list ActionStatus → ActionStatus → Prop :=
  | life_requested : lifecycle [REQUESTED] REQUESTED
  | life_edge l s s' : lifecycle l s → edge s s' → lifecycle (l ++ [s']) s'.

Definition events_of (aid : string) (evs : list ActionEvent) : list ActionStatus :=
  map ev_status (select_where (λ e, bool_decide (ev_action_id e = aid)) evs).

Arguments events_of aid evs : simpl never.

(** ** The invariant *)
Record db_inv (d : core_db) : Prop := {
  inv_cases : unique case_key (t_cases d);
  inv_facts : unique fact_key (t_facts d);
  inv_actions : unique a_action_id (t_actions d);
  inv_idem : unique action_idem (t_actions d);
  inv_events : unique ev_event_id (t_events d);
  inv_proposals : unique p_proposal_id (t_proposals d);
  inv_outbox : unique o_outbox_id (t_outbox d);
  inv_inbox : unique inbox_key (t_inbox d);
  inv_sequences : unique sequence_key (t_sequences d);
  inv_handoffs : unique h_handoff_id (t_handoffs d);
  inv_migrations : unique fst (t_migrations d);
  (** every event belongs to an action *)
  inv_event_action e : e ∈ t_events d → ∃ a, a ∈ t_actions d ∧ a_action_id a = ev_action_id e;
  (** the events of an action are its life up to its present status *)
  inv_history a : a ∈ t_actions d → lifecycle (events_of (a_action_id a) (t_events d)) (a_status a);
  (** every action was handed to the outbox *)
  inv_dispatch a : a ∈ t_actions d →
    ∃ o, o ∈ t_outbox d ∧ o_topic o = "action.dispatch" ∧ o_aggregate_id o = a_action_id a
}.

Lemma db_inv_empty : db_inv empty_core_db.
Proof.
  split; cbn; try apply NoDup_nil_2; intros ? ?%not_elem_of_nil; done.
Qed.

(** ** How rows evolve *)

Definition case_rel (r r' : case_row) : Prop :=
  case_customer_id (cr_case r') = case_customer_id (cr_case r) ∧
  case_procedure_id (cr_case r') = case_procedure_id (cr_case r) ∧
  case_procedure_version (cr_case r') = case_procedure_version (cr_case r) ∧
  case_status (cr_case r') = case_status (cr_case r) ∧
  (case_version (cr_case r) ≤ case_version (cr_case r'))%Z.

Definition action_rel (a a' : ActionRecord) : Prop :=
  a_command a' = a_command a ∧ a_created_at a' = a_created_at a ∧
  rtc edge (a_status a) (a_status a').

(** A proposal that has left [PENDING] is frozen. *)
Definition proposal_rel (p p' : ActionProposal) : Prop :=
  p' = p ∨ (p_status p = P_PENDING ∧
            p_action p' = p_action p ∧ p_payload p' = p_payload p ∧
            p_customer_id p' = p_customer_id p ∧ p_idempotency_key p' = p_idempotency_key p).

Definition outbox_rel (o o' : OutboxRecord) : Prop :=
  o_topic o' = o_topic o ∧ o_aggregate_id o' = o_aggregate_id o ∧
  o_payload o' = o_payload o ∧ o_created_at o' = o_created_at o ∧
  (o_attempts o ≤ o_attempts o')%Z.

(** A message that was not quarantined is never processed again. *)
Definition inbox_rel (i i' : InboxRow) : Prop :=
  i_ordering_status i = "quarantined" ∨ i' = i.

Definition sequence_rel (q q' : SequenceRow) : Prop := (q_last_sequence q ≤ q_last_sequence q')%Z.

Definition handoff_rel (h h' : HandoffRow) : Prop :=
  h_conversation_id h' = h_conversation_id h ∧ h_case_id h' = h_case_id h ∧
  h_context h' = h_context h ∧ h_created_at h' = h_created_at h.

Definition any_rel {A} (_ _ : A) : Prop := True.

#[export] Instance any_rel_preorder {A} : PreOrder (@any_rel A).
Proof. done. Qed.
#[export] Instance case_rel_preorder : PreOrder case_rel.
Proof. split; [done|]. unfold case_rel. intros x y z (?&?&?&?&?) (?&?&?&?&?). split_and!; congruence || lia. Qed.
#[export] Instance action_rel_preorder : PreOrder action_rel.
Proof.
  split; [done|]. intros x y z (?&?&?) (?&?&?). split_and!; [congruence|congruence|by etrans].
Qed.
#[export] Instance proposal_rel_preorder : PreOrder proposal_rel.
Proof.
  split; [by left|]. intros x y z [->|(?&?&?&?&?)] [->|(?&?&?&?&?)]; unfold proposal_rel;
    [by left|right..]; split_and!; congruence.
Qed.
#[export] Instance outbox_rel_preorder : PreOrder outbox_rel.
Proof. split; [done|]. unfold outbox_rel. intros x y z (?&?&?&?&?) (?&?&?&?&?). split_and!; congruence || lia. Qed.
#[export] Instance inbox_rel_preorder : PreOrder inbox_rel.
Proof. split; [by right|]. intros x y z [?| ->] [?| ->]; unfold inbox_rel; auto. Qed.
#[export] Instance sequence_rel_preorder : PreOrder sequence_rel.
Proof. split; red; unfold sequence_rel; intros; lia. Qed.
#[export] Instance handoff_rel_preorder : PreOrder handoff_rel.
Proof. split; [done|]. unfold handoff_rel. intros x y z (?&?&?&?) (?&?&?&?). split_and!; congruence. Qed.

(** While a case keeps its version, its facts stay as they are. *)
Definition facts_pinned (d d' : core_db) : Prop :=
  ∀ cid c c', tget case_key cid (t_cases d) = Some c → tget case_key cid (t_cases d') = Some c' →
    case_version (cr_case c') = case_version (cr_case c) →
    ∀ name, tget fact_key (cid, name) (t_facts d') = tget fact_key (cid, name) (t_facts d).

(** Evolution of the database: no row is lost and each follows its relation. *)
Record evolves (d d' : core_db) : Prop := {
  ev_cases : keyed_ev case_key case_rel (t_cases d) (t_cases d');
  ev_facts : keyed_ev fact_key any_rel (t_facts d) (t_facts d');
  ev_actions : keyed_ev a_action_id action_rel (t_actions d) (t_actions d');
  ev_log : keyed_ev ev_event_id eq (t_events d) (t_events d');
  ev_proposals : keyed_ev p_proposal_id proposal_rel (t_proposals d) (t_proposals d');
  ev_outbox : keyed_ev o_outbox_id outbox_rel (t_outbox d) (t_outbox d');
  ev_inbox : keyed_ev inbox_key inbox_rel (t_inbox d) (t_inbox d');
  ev_sequences : keyed_ev sequence_key sequence_rel (t_sequences d) (t_sequences d');
  ev_handoffs : keyed_ev h_handoff_id handoff_rel (t_handoffs d) (t_handoffs d');
  ev_migrations : keyed_ev fst eq (t_migrations d) (t_migrations d');
  ev_pinned : facts_pinned d d'
}.

#[export] Instance evolves_preorder : PreOrder evolves.
Proof.
  split.
  - intros d. split; try reflexivity. by intros cid c c' _ _ _.
  - intros d1 d2 d3 [] []. split; try (etrans; eassumption).
    intros cid c1 c3 H1 H3 Hv name. destruct (ev_cases0 cid c1 H1) as (c2 & H2 & ?&?&?&?&?).
    destruct (ev_cases1 cid c2 H2) as (c3' & H3' & ?&?&?&?&?). simplify_eq.
    rewrite (ev_pinned1 cid c2 c3) by (done || lia). apply (ev_pinned0 cid c1 c2); done || lia.
Qed.

(** A change that leaves the facts, or the version, alone pins them. *)
Lemma pinned_same d d' : t_facts d' = t_facts d → facts_pinned d d'.
Proof. intros Hf cid c c' _ _ _ name. by rewrite Hf. Qed.
#[export] Hint Resolve pinned_same : wf.

(** What each store step promises: from a good state, a good state reached by
    an allowed evolution. *)
Definition good (d d' : core_db) : Prop := db_inv d → db_inv d' ∧ evolves d d'.

#[export] Instance good_preorder : PreOrder good.
Proof.
  split.
  - intros d Hd. by split.
  - intros d1 d2 d3 H12 H23 H1. destruct (H12 H1) as [H2 ?]. destruct (H23 H2) as [H3 ?].
    split; [done|by etrans].
Qed.

(** ** One table at a time *)

Ltac good_table :=
  let H := fresh in let Hd := fresh in
  intros H Hd; destruct H as [? ?]; [apply Hd|];
  split; [destruct Hd; split; cbn; auto|split; cbn; auto with wf; reflexivity].

Lemma good_cases d l :
  (unique case_key (t_cases d) →
   unique case_key l ∧ keyed_ev case_key case_rel (t_cases d) l) →
  good d (tbl_set workflow_cases l d).
Proof. good_table. Qed.

Lemma good_proposals d l :
  (unique p_proposal_id (t_proposals d) →
   unique p_proposal_id l ∧ keyed_ev p_proposal_id proposal_rel (t_proposals d) l) →
  good d (tbl_set action_proposals l d).
Proof. good_table. Qed.

Lemma good_inbox d l :
  (unique inbox_key (t_inbox d) →
   unique inbox_key l ∧ keyed_ev inbox_key inbox_rel (t_inbox d) l) →
  good d (tbl_set conversation_inbox_v3 l d).
Proof. good_table. Qed.

Lemma good_sequences d l :
  (unique sequence_key (t_sequences d) →
   unique sequence_key l ∧ keyed_ev sequence_key sequence_rel (t_sequences d) l) →
  good d (tbl_set conversation_sequences l d).
Proof. good_table. Qed.

Lemma good_handoffs d l :
  (unique h_handoff_id (t_handoffs d) →
   unique h_handoff_id l ∧ keyed_ev h_handoff_id handoff_rel (t_handoffs d) l) →
  good d (tbl_set handoffs l d).
Proof. good_table. Qed.

Lemma good_migrations d l :
  (unique fst (t_migrations d) →
   unique fst l ∧ keyed_ev fst eq (t_migrations d) l) →
  good d (tbl_set core_migrations l d).
Proof. good_table. Qed.

(** A dispatch row, once in the outbox, stays there. *)
Lemma dispatch_kept (l l' : list OutboxRecord) aid :
  unique o_outbox_id l → keyed_ev o_outbox_id outbox_rel l l' →
  (∃ o, o ∈ l ∧ o_topic o = "action.dispatch" ∧ o_aggregate_id o = aid) →
  ∃ o, o ∈ l' ∧ o_topic o = "action.dispatch" ∧ o_aggregate_id o = aid.
Proof.
  intros Hu Hev (o & Ho & Ht & Ha).
  destruct (Hev (o_outbox_id o) o) as (o' & Ho' & ? & ? & _); [by apply tget_elem|].
  apply tget_key in Ho' as [_ ?]. exists o'. split_and!; congruence.
Qed.

Lemma good_outbox d l :
  (unique o_outbox_id (t_outbox d) →
   unique o_outbox_id l ∧ keyed_ev o_outbox_id outbox_rel (t_outbox d) l) →
  good d (tbl_set core_outbox l d).
Proof.
  intros H Hd. destruct H as [? ?]; [apply Hd|].
  split; [destruct Hd; split; cbn; auto|split; cbn; auto with wf; reflexivity].
  intros a Ha. eapply (dispatch_kept (t_outbox d)); [done..|]. by apply inv_dispatch0.
Qed.

(** ** An action moves along an edge and its event is appended *)

Lemma events_of_snoc aid evs e :
  events_of aid (evs ++ [e]) =
  events_of aid evs ++ (if bool_decide (ev_action_id e = aid) then [ev_status e] else []).
Proof.
  unfold events_of. rewrite select_where_app, map_app. cbn. by case_bool_decide.
Qed.

Lemma rowcount_one {R} (p : R → bool) t : rowcount p t = 1 → ∃ r, r ∈ t ∧ p r = true.
Proof.
  unfold rowcount. intros H. destruct (select_where p t) as [|r l] eqn:E; [done|].
  exists r. apply elem_of_select_where. rewrite E. left.
Qed.

Definition advance (p : ActionRecord → bool) (f : ActionRecord → ActionRecord)
    (e : ActionEvent) (d : core_db) : core_db :=
  tbl_set action_events (t_events d ++ [e])
    (tbl_set action_attempts (update_where p f (t_actions d)) d).

Lemma good_advance p f e d :
  rowcount p (t_actions d) = 1 →
  (∀ r, p r = true → a_action_id r = ev_action_id e ∧ edge (a_status r) (ev_status e)) →
  (∀ r, a_action_id (f r) = a_action_id r ∧ a_command (f r) = a_command r ∧
        a_created_at (f r) = a_created_at r ∧ a_status (f r) = ev_status e) →
  tget ev_event_id (ev_event_id e) (t_events d) = None →
  good d (advance p f e d).
Proof.
  intros Hn Hp Hf He Hd. apply rowcount_one in Hn as (a0 & Ha0 & Hp0).
  destruct (Hp a0 Hp0) as [Hid0 _].
  assert (∀ r, a_action_id (f r) = a_action_id r) as Hfid by apply Hf.
  assert (∀ r, action_idem (f r) = action_idem r) as Hfk
    by (intros r; unfold action_idem; by destruct (Hf r) as (_ & -> & _)).
  split.
  - destruct Hd; split; cbn; auto with wf.
    + by apply unique_snoc.
    + intros e' [He'| ->%list_elem_of_singleton]%elem_of_app.
      * destruct (inv_event_action0 e' He') as (a & Ha & Hae).
        exists (if p a then f a else a). rewrite elem_of_update_where. split; [by eauto|].
        case_match; by rewrite ?Hfid.
      * exists (if p a0 then f a0 else a0). rewrite elem_of_update_where. split; [by eauto|].
        by rewrite Hp0, Hfid.
    + intros a' (a & Ha & ->)%elem_of_update_where. rewrite events_of_snoc.
      destruct (p a) eqn:Hpa.
      * destruct (Hp a Hpa) as [Hid Hedge]. destruct (Hf a) as (-> & _ & _ & ->).
        rewrite bool_decide_true by done. by apply (life_edge _ (a_status a)); auto.
      * rewrite bool_decide_false, app_nil_r; [auto|]. intros Hid.
        assert (a = a0) as ->; [|congruence].
        assert (tget a_action_id (a_action_id a) (t_actions d) = Some a) as H1 by by apply tget_elem.
        assert (tget a_action_id (a_action_id a0) (t_actions d) = Some a0) as H2
          by by apply tget_elem.
        congruence.
    + intros a' (a & Ha & ->)%elem_of_update_where.
      destruct (inv_dispatch0 a Ha) as (o & ?). exists o. case_match; by rewrite ?Hfid.
  - split; cbn; auto with wf; try reflexivity.
    + apply keyed_ev_update; [tc_solve|by apply keeps_key_all|]. intros r Hr.
      destruct (Hf r) as (_ & Hc & Hca & Hs). split_and!; [done..|].
      apply rtc_once. rewrite Hs. by apply Hp.
    + apply keyed_ev_snoc. tc_solve.
Qed.

(** ** Transactions *)

(** An INSERT into, or an UPDATE of, a table keeps its key unique and lets its
    rows evolve. *)
Lemma insert_evolution {R K} `{EqDecision K} (key : R → K) rel `{!PreOrder rel} r t :
  tget key (key r) t = None →
  unique key t → unique key (t ++ [r]) ∧ keyed_ev key rel t (t ++ [r]).
Proof. intros. split; [by apply unique_snoc|by apply keyed_ev_snoc]. Qed.

Lemma update_evolution {R K} `{EqDecision K} (key : R → K) rel `{!PreOrder rel} p f t :
  keeps_key key p f → (∀ r, p r = true → rel r (f r)) →
  unique key t → unique key (update_where p f t) ∧ keyed_ev key rel t (update_where p f t).
Proof. intros. split; [by apply unique_update|by apply keyed_ev_update]. Qed.

Lemma upsert_evolution {R K} `{EqDecision K} (key : R → K) rel `{!PreOrder rel} r f t :
  upserts_key key r f →
  (∀ r', tget key (key r) t = Some r' → rel r' (f r')) →
  unique key t → unique key (tupsert key r f t) ∧ keyed_ev key rel t (tupsert key r f t).
Proof. intros. split; [by apply unique_upsert|by apply keyed_ev_upsert]. Qed.

Section transactions.
Context `{Oracle}.

Abbreviation keeps := (tx_preserves good).

Lemma keeps_bind {A B} (m : tx A) (k : A → tx B) :
  keeps m → (∀ a, keeps (k a)) → keeps (m ≫= k).
Proof. apply tx_preserves_bind, _. Qed.

Lemma create_case_keeps record : keeps (create_case_tx record).
Proof.
  apply keeps_bind; [auto with wf typeclass_instances|]. intros now.
  apply tx_preserves_insert. intros d Hf. apply good_cases. by apply insert_evolution; [tc_solve|].
Qed.

Lemma bump_version_keeps cid v : keeps (sql_update workflow_cases (at_version cid v) bump_version).
Proof.
  apply tx_preserves_update. intros d. apply good_cases, update_evolution; [tc_solve|done|].
  intros r _. unfold case_rel. cbn. split_and!; [done..|lia].
Qed.

Lemma at_version_true cid v r :
  at_version cid v r = true → case_key r = cid ∧ case_version (cr_case r) = v.
Proof. unfold at_version. intros H0. by reflect_bools. Qed.

(** What a committed fact leaves: the case's next version and the fact. *)
Definition fact_appended (cid : string) (proposal : FactProposal) (v now : Z) (d : core_db) :
    core_db :=
  let row := mkFact proposal cid now None in
  tbl_set case_facts (tupsert fact_key row (λ _, row) (t_facts d))
    (tbl_set workflow_cases (update_where (at_version cid v) bump_version (t_cases d)) d).

Lemma append_fact_tx_inr cid proposal v d s s' u d' :
  append_fact_tx cid proposal v d s = (s', inr (u, d')) →
  rowcount (at_version cid v) (t_cases d) = 1 ∧
  d' = fact_appended cid proposal v (now_at (n_clock s)) d.
Proof.
  unfold append_fact_tx. intros Ht. tx_inv Ht. apply Nat.eqb_eq in Hreq. by split.
Qed.

Lemma tget_bump cid v cid' t :
  tget case_key cid' (update_where (at_version cid v) bump_version t) =
  (λ r, if at_version cid v r then bump_version r else r) <$> tget case_key cid' t.
Proof. by apply tget_update, keeps_key_all. Qed.

Lemma rowcount_version cid v t :
  unique case_key t → rowcount (at_version cid v) t = 1 →
  ∃ c, tget case_key cid t = Some c ∧ case_version (cr_case c) = v.
Proof.
  intros Hu. rewrite (rowcount_key case_key cid) by
    (try done; by intros r [? _]%at_version_true).
  destruct (tget case_key cid t) as [c|]; [|done]. case_match eqn:E; [|done].
  apply at_version_true in E as [_ ?]. by exists c.
Qed.

Lemma append_fact_keeps cid proposal v : keeps (append_fact_tx cid proposal v).
Proof.
  intros d s s' u d' (Hn & ->)%append_fact_tx_inr Hd.
  destruct (rowcount_version cid v _ (inv_cases d Hd) Hn) as (c0 & Hc0 & Hv0).
  split.
  - destruct Hd; split; cbn; try done.
    + apply unique_update; [by apply keeps_key_all|done].
    + by apply unique_upsert; [intros r Hr|].
  - split; cbn; try reflexivity.
    + apply keyed_ev_update; [tc_solve|by apply keeps_key_all|].
      intros r _. unfold case_rel. cbn. split_and!; [done..|lia].
    + by apply keyed_ev_upsert; [tc_solve|intros r Hr|].
    + intros cid' c c' Hc Hc' Hv name. cbn in Hc', Hv. cbn.
      rewrite tget_upsert by (by intros r Hr).
      case_bool_decide as Hk; [|done]. injection Hk as -> _. exfalso.
      rewrite tget_bump, Hc0 in Hc'. rewrite Hc0 in Hc. injection Hc as <-.
      cbn in Hc'. injection Hc' as <-.
      assert (at_version cid' v c0 = true) as Hat.
      { unfold at_version. apply tget_key in Hc0 as [-> _].
        by rewrite bool_decide_true, Hv0, Z.eqb_refl. }
      rewrite Hat in Hv. cbn in Hv. lia.
Qed.

(** The event a transition records at the next clock readings and UUID. *)
Definition next_event (aid : string) (status : ActionStatus) (details : option (dict value))
    (clock uuid : nat) : ActionEvent :=
  mkEvent ("AEV-" +:+ uuid_at uuid) aid status details (now_at clock).

(** What a transition that commits has done. *)
Lemma transition_action_tx_inr aid expected status outcome d s s' u d' :
  transition_action_tx aid expected status outcome d s = (s', inr (u, d')) →
  rowcount (in_status aid expected) (t_actions d) = 1 ∧
  let e := next_event aid status outcome (S (n_clock s)) (n_uuid s) in
  tget ev_event_id (ev_event_id e) (t_events d) = None ∧
  d' = advance (in_status aid expected)
         (set_action_status status outcome (now_at (n_clock s))) e d.
Proof.
  unfold transition_action_tx, insert_event. intros Ht. tx_inv Ht.
  apply Nat.eqb_eq in Hreq. by split_and!.
Qed.

Lemma in_status_true aid st r : in_status aid st r = true → a_action_id r = aid ∧ a_status r = st.
Proof. unfold in_status. intros H0. by reflect_bools. Qed.

Lemma transition_keeps aid expected status outcome :
  edge expected status → keeps (transition_action_tx aid expected status outcome).
Proof.
  intros Hedge d s s' u d' (Hn & He & ->)%transition_action_tx_inr.
  apply good_advance; [done| |done|done].
  by intros r [-> ->]%in_status_true.
Qed.

Lemma claim_action_tx_inr aid d s s' b d' :
  claim_action_tx aid d s = (s', inr (b, d')) →
  let e := next_event aid DISPATCHED None (S (n_clock s)) (n_uuid s) in
  (b = true ∧ rowcount (in_status aid AUTHORIZED) (t_actions d) = 1 ∧
   tget ev_event_id (ev_event_id e) (t_events d) = None ∧
   d' = advance (in_status aid AUTHORIZED) (set_action_claimed (now_at (n_clock s))) e d) ∨
  (b = false ∧ rowcount (in_status aid AUTHORIZED) (t_actions d) ≠ 1 ∧
   d' = tbl_set action_attempts
          (update_where (in_status aid AUTHORIZED) (set_action_claimed (now_at (n_clock s)))
             (t_actions d)) d).
Proof.
  unfold claim_action_tx, insert_event. intros Ht.
  apply tx_bind_inr in Ht as (s1 & now & d1 & [= <- <- <-] & Ht).
  apply tx_bind_inr in Ht as (s1 & n & d1 & [= <- <- <-] & Ht).
  destruct (Nat.eqb _ 1) eqn:Hn in Ht.
  - left. tx_inv Ht. apply Nat.eqb_eq in Hn. by split_and!.
  - right. tx_inv Ht. apply Nat.eqb_neq in Hn. by split_and!.
Qed.

Lemma rowcount_le_one aid st d :
  unique a_action_id (t_actions d) → rowcount (in_status aid st) (t_actions d) ≤ 1.
Proof.
  intros Hu. rewrite (rowcount_key a_action_id aid) by
    (try done; by intros r [? _]%in_status_true).
  destruct (tget _ _ _); [|lia]. case_match; lia.
Qed.

(** A claim that found no authorized action changed nothing. *)
Lemma claim_nothing aid f d :
  unique a_action_id (t_actions d) → rowcount (in_status aid AUTHORIZED) (t_actions d) ≠ 1 →
  tbl_set action_attempts (update_where (in_status aid AUTHORIZED) f (t_actions d)) d = d.
Proof.
  intros Hu Hn. rewrite update_where_none; [by destruct d|].
  apply rowcount_zero. pose proof (rowcount_le_one aid AUTHORIZED d Hu). lia.
Qed.

Lemma claim_keeps aid : keeps (claim_action_tx aid).
Proof.
  intros d s s' b d' [(_ & Hn & He & ->)|(_ & Hn & ->)]%claim_action_tx_inr Hd.
  - apply good_advance; [done| |done|done|done].
    intros r [-> ->]%in_status_true. split; [done|]. right; left. done.
  - rewrite claim_nothing; [by split|apply Hd|done].
Qed.

(** What [insert_action] writes: the case's new version, the action, its two
    events and its outbox row. *)
Definition stored_action (record : ActionRecord) : ActionRecord :=
  mkAction (a_action_id record) (a_command record) (a_status record) None
    (a_created_at record) (a_updated_at record).

Definition dispatch_row (aid : string) (clock uuid : nat) : OutboxRecord :=
  mkOutbox ("OUT-" +:+ uuid_at uuid) "action.dispatch" aid [("action_id", VStr aid)]
    O_PENDING 0 (now_at clock) None None None (now_at clock) (now_at clock).

Definition action_inserted (record : ActionRecord) (v : Z) (s : sys) (d : core_db) : core_db :=
  let aid := a_action_id record in
  mkCoreDb (update_where (at_version (c_case_id (a_command record)) v) bump_version (t_cases d))
    (t_facts d) (t_actions d ++ [stored_action record])
    ((t_events d ++ [next_event aid REQUESTED None (n_clock s) (n_uuid s)])
       ++ [next_event aid AUTHORIZED None (S (n_clock s)) (S (n_uuid s))])
    (t_proposals d)
    (t_outbox d ++ [dispatch_row aid (S (S (n_clock s))) (S (S (n_uuid s)))])
    (t_inbox d) (t_sequences d) (t_handoffs d) (t_migrations d).

Lemma insert_action_tx_inr record v d s s' u d' :
  insert_action_tx record v d s = (s', inr (u, d')) →
  let aid := a_action_id record in
  let e1 := next_event aid REQUESTED None (n_clock s) (n_uuid s) in
  let e2 := next_event aid AUTHORIZED None (S (n_clock s)) (S (n_uuid s)) in
  let o := dispatch_row aid (S (S (n_clock s))) (S (S (n_uuid s))) in
  rowcount (at_version (c_case_id (a_command record)) v) (t_cases d) = 1 ∧
  tget action_idem (action_idem record) (t_actions d) = None ∧
  tget a_action_id aid (t_actions d) = None ∧
  tget ev_event_id (ev_event_id e1) (t_events d) = None ∧
  tget ev_event_id (ev_event_id e2) (t_events d ++ [e1]) = None ∧
  tget o_outbox_id (o_outbox_id o) (t_outbox d) = None ∧
  s' = mkSys (3 + n_clock s) (3 + n_uuid s) ∧
  d' = action_inserted record v s d.
Proof.
  unfold insert_action_tx, insert_event. cbn [tx_for]. intros Ht. tx_inv Ht.
  apply Nat.eqb_eq in Hreq. by split_and!.
Qed.

Lemma events_of_fresh aid d :
  db_inv d → tget a_action_id aid (t_actions d) = None → events_of aid (t_events d) = [].
Proof.
  intros Hd Hnone. unfold events_of.
  destruct (select_where _ (t_events d)) as [|e l] eqn:E; [done|]. exfalso.
  assert (e ∈ select_where (λ e, bool_decide (ev_action_id e = aid)) (t_events d)) as He
    by (rewrite E; left).
  apply elem_of_select_where in He as [He Hid]. apply bool_decide_eq_true in Hid.
  destruct (inv_event_action d Hd e He) as (a & Ha & Hae).
  apply (tget_None a_action_id) in Hnone. apply Hnone, list_elem_of_fmap.
  exists a. split; congruence.
Qed.

Lemma life_authorized : lifecycle [REQUESTED; AUTHORIZED] AUTHORIZED.
Proof. apply (life_edge [REQUESTED] REQUESTED); [constructor|by left]. Qed.

Lemma inserted_inv record v s s' u d d' :
  a_status record = AUTHORIZED →
  insert_action_tx record v d s = (s', inr (u, d')) → db_inv d → db_inv d'.
Proof.
  intros Hst (Hn & Hk & Hid & He1 & He2 & Ho & -> & ->)%insert_action_tx_inr Hd.
  pose proof (events_of_fresh _ d Hd Hid) as Hnoev.
  destruct Hd; split; cbn; try done.
  - apply unique_update; [by apply keeps_key_all|done].
  - by apply unique_snoc.
  - by apply unique_snoc.
  - apply unique_snoc; [done|by apply unique_snoc].
  - by apply unique_snoc.
  - assert (∃ a, a ∈ t_actions d ++ [stored_action record] ∧
                 a_action_id a = a_action_id record) as Hnew.
    { exists (stored_action record). split; [|done]. apply elem_of_app. right. by left. }
    intros e [[He| ->%list_elem_of_singleton]%elem_of_app
             | ->%list_elem_of_singleton]%elem_of_app; [|exact Hnew..].
    destruct (inv_event_action0 e He) as (a & Ha & ?). exists a.
    by rewrite elem_of_app; auto.
  - intros a [Ha| ->%list_elem_of_singleton]%elem_of_app; rewrite !events_of_snoc; cbn.
    + assert (a_action_id record ≠ a_action_id a) as Hne.
      { intros Heq. apply (tget_None a_action_id) in Hid. apply Hid.
        rewrite Heq. apply list_elem_of_fmap. by exists a. }
      rewrite bool_decide_false, !app_nil_r by done. auto.
    + rewrite bool_decide_true, Hnoev, Hst by done. exact life_authorized.
  - intros a [Ha| ->%list_elem_of_singleton]%elem_of_app.
    + destruct (inv_dispatch0 a Ha) as (o & ? & ?). exists o. by rewrite elem_of_app; auto.
    + eexists. split; [apply elem_of_app; right; by left|done].
Qed.

Lemma insert_action_keeps record v :
  a_status record = AUTHORIZED → keeps (insert_action_tx record v).
Proof.
  intros Hst d s s' u d' Ht Hd. split; [by eapply inserted_inv|].
  apply insert_action_tx_inr in Ht as (Hn & Hk & Hid & He1 & He2 & Ho & -> & ->).
  split; cbn; auto with wf; try reflexivity; try (by apply keyed_ev_snoc; tc_solve).
  - apply keyed_ev_update; [tc_solve|by apply keeps_key_all|].
    intros r _. unfold case_rel. cbn. split_and!; [done..|lia].
  - etrans; apply keyed_ev_snoc; tc_solve.
Qed.

(** ** The other tables *)

Lemma insert_proposal_keeps record :
  keeps (sql_insert action_proposals p_proposal_id "action_proposals.proposal_id" record).
Proof.
  apply tx_preserves_insert. intros d Hf. apply good_proposals.
  by apply insert_evolution; [tc_solve|].
Qed.

Lemma update_proposal_keeps pid status evidence aid now :
  keeps (sql_update action_proposals (proposal_in pid P_PENDING)
           (set_proposal_status status evidence aid now)).
Proof.
  apply tx_preserves_update. intros d.
  apply good_proposals, update_evolution; [tc_solve|by apply keeps_key_all|].
  intros r Hr. unfold proposal_in in Hr. reflect_bools. right. by split_and!.
Qed.

Lemma insert_outbox_keeps record :
  keeps (sql_insert core_outbox o_outbox_id "core_outbox.outbox_id" record).
Proof.
  apply tx_preserves_insert. intros d Hf. apply good_outbox.
  by apply insert_evolution; [tc_solve|].
Qed.

Lemma update_outbox_keeps p f :
  (∀ r, o_outbox_id (f r) = o_outbox_id r) → (∀ r, outbox_rel r (f r)) →
  keeps (sql_update core_outbox p f).
Proof.
  intros Hk Hf. apply tx_preserves_update. intros d.
  apply good_outbox, update_evolution; [tc_solve|by apply keeps_key_all|auto].
Qed.

Lemma claim_outbox_keeps owner now until lim : keeps (claim_outbox_tx owner now until lim).
Proof.
  apply keeps_bind; [auto with wf typeclass_instances|intros rows].
  apply keeps_bind; [|auto with wf typeclass_instances].
  apply tx_preserves_for; [tc_solve|]. intros oid.
  apply keeps_bind; [|auto with wf typeclass_instances].
  apply update_outbox_keeps; [done|]. intros r. unfold outbox_rel. cbn. split_and!; [done..|lia].
Qed.

Lemma insert_handoff_keeps record :
  keeps (sql_insert handoffs h_handoff_id "handoffs.handoff_id" record).
Proof.
  apply tx_preserves_insert. intros d Hf. apply good_handoffs.
  by apply insert_evolution; [tc_solve|].
Qed.

Lemma update_handoff_keeps p status agent now :
  keeps (sql_update handoffs p (set_handoff status agent now)).
Proof.
  apply tx_preserves_update. intros d.
  by apply good_handoffs, update_evolution; [tc_solve|apply keeps_key_all|].
Qed.

(** ** Messages *)

Lemma accepted_next l q reason :
  ordering (Some l) (Some q) = Some ("accepted", reason) → q = (l + 1)%Z.
Proof. cbn. case_match eqn:E1; [done|]. case_match eqn:E2; [done|]. intros _. lia. Qed.

(** The message's row: a quarantined row is replaced, a new message is added. *)
Lemma record_message_keeps key envelope status now row d :
  inbox_key row = key →
  match tget inbox_key key (t_inbox d) with
  | Some r => i_ordering_status r = "quarantined"
  | None => True
  end →
  good d (tbl_set conversation_inbox_v3
            match tget inbox_key key (t_inbox d) with
            | Some _ => update_where (λ r, bool_decide (inbox_key r = key))
                          (set_inbox envelope status now) (t_inbox d)
            | None => t_inbox d ++ [row]
            end d).
Proof.
  intros <- Hq. apply good_inbox. intros Hu.
  destruct (tget inbox_key _ (t_inbox d)) as [x|] eqn:E.
  - split; [by apply unique_update; [apply keeps_key_all|]|].
    apply keyed_ev_update_in; [tc_solve|by apply keeps_key_all|].
    intros r Hr Hp. left. apply bool_decide_eq_true in Hp. congruence.
  - by apply insert_evolution; [tc_solve|exact E|].
Qed.

(** The sequence only moves forward. *)
Lemma record_sequence_keeps provider conversation q now now' d :
  match tget sequence_key (provider, conversation) (t_sequences d) with
  | Some r => (q_last_sequence r ≤ q)%Z
  | None => True
  end →
  good d (tbl_set conversation_sequences
            (tupsert sequence_key (mkSequence provider conversation q now) (set_sequence q now')
               (t_sequences d)) d).
Proof.
  intros Hq. apply good_sequences, upsert_evolution; [tc_solve|by intros r' Hr'|].
  intros r Hr. change (sequence_key _) with (provider, conversation) in Hr.
  by rewrite Hr in Hq.
Qed.

Lemma ordering_forward last q st reason :
  ordering last (Some q) = Some (st, reason) →
  match last with Some l => (l ≤ q)%Z | None => True end.
Proof. destruct last as [l|]; cbn; [|done]. case_match; [done|]. intros _. lia. Qed.

(** The two writes of an accepted message. *)
Definition message_recorded (envelope : dict value) (status : string) (s : sys) (d : core_db) :
    core_db :=
  let provider := env_str "provider_id" "local" envelope in
  let message := env_str "message_id" "" envelope in
  let conversation := env_str "conversation_id" "" envelope in
  tbl_set conversation_inbox_v3
    match tget inbox_key (provider, message) (t_inbox d) with
    | Some _ => update_where (λ r, bool_decide (inbox_key r = (provider, message)))
                  (set_inbox envelope status (now_at (n_clock s))) (t_inbox d)
    | None => t_inbox d ++ [mkInbox provider message conversation (env_sequence envelope)
                              envelope status (now_at (n_clock s))]
    end d.

Definition sequence_recorded (envelope : dict value) (status : string) (s : sys) (d : core_db) :
    core_db :=
  let provider := env_str "provider_id" "local" envelope in
  let conversation := env_str "conversation_id" "" envelope in
  let now := now_at (S (n_clock s)) in
  match env_sequence envelope with
  | Some q =>
      if String.eqb status "accepted" then
        tbl_set conversation_sequences
          (tupsert sequence_key (mkSequence provider conversation q now) (set_sequence q now)
             (t_sequences d)) d
      else d
  | None => d
  end.

(** The outcome of a message, and the database it leaves: never an exception. *)
Lemma accept_message_tx_eq envelope d s :
  let provider := env_str "provider_id" "local" envelope in
  let message := env_str "message_id" "" envelope in
  let conversation := env_str "conversation_id" "" envelope in
  let existing := tget inbox_key (provider, message) (t_inbox d) in
  let last := option_map q_last_sequence
                (tget sequence_key (provider, conversation) (t_sequences d)) in
  (accept_message_tx envelope d s).2 = inr
    (if match existing with
        | Some r => negb (String.eqb (i_ordering_status r) "quarantined")
        | None => false
        end
     then (mkAcceptance false "duplicate" (Some "message_id"), d)
     else match ordering last (env_sequence envelope) with
          | None => (mkAcceptance false "duplicate" (Some "sequence_already_processed"), d)
          | Some (st, reason) =>
              (mkAcceptance (String.eqb st "accepted") st reason,
               sequence_recorded envelope st s (message_recorded envelope st s d))
          end).
Proof.
  cbv zeta. unfold accept_message_tx.
  set (provider := env_str "provider_id" _ _). set (message := env_str "message_id" _ _).
  set (conversation := env_str "conversation_id" _ _).
  unfold mbind, tx_bind, sql_fetchone. cbn [tbl_get conversation_inbox_v3].
  change (select_one _ (t_inbox d)) with (tget inbox_key (provider, message) (t_inbox d)).
  destruct (tget inbox_key (provider, message) (t_inbox d)) as [x|] eqn:Ex.
  - destruct (negb (String.eqb (i_ordering_status x) "quarantined")) eqn:Eq; [done|].
    cbn [tbl_get conversation_sequences].
    change (select_one _ (t_sequences d))
      with (tget sequence_key (provider, conversation) (t_sequences d)).
    destruct (ordering _ (env_sequence envelope)) as [[st reason]|]; [|done].
    unfold sequence_recorded, message_recorded. fold provider message conversation.
    rewrite Ex. destruct (env_sequence envelope); [|done]. by destruct (String.eqb st "accepted").
  - cbn [tbl_get conversation_sequences].
    change (select_one _ (t_sequences d))
      with (tget sequence_key (provider, conversation) (t_sequences d)).
    destruct (ordering _ (env_sequence envelope)) as [[st reason]|]; [|done].
    unfold sequence_recorded, message_recorded. fold provider message conversation.
    rewrite Ex. cbn. unfold sql_insert, tinsert. cbn.
    change (inbox_key _) with (provider, message). rewrite Ex.
    destruct (env_sequence envelope); [|done]. by destruct (String.eqb st "accepted").
Qed.

Lemma accept_message_keeps envelope : keeps (accept_message_tx envelope).
Proof.
  intros d s s' a d' Ht. apply (f_equal snd) in Ht. rewrite accept_message_tx_eq in Ht.
  cbv zeta in Ht. cbn [snd] in Ht. injection Ht as Ht.
  set (existing := tget inbox_key _ _) in Ht.
  assert (match existing with Some r => i_ordering_status r = "quarantined" | None => True end
          ∨ d' = d) as [Hq| ->]; [| |reflexivity].
  { destruct existing as [x|]; [|by left].
    destruct (String.eqb_spec (i_ordering_status x) "quarantined"); [by left|right].
    cbn in Ht. congruence. }
  match type of Ht with (if ?b then _ else _) = _ => destruct b end;
    [by injection Ht as _ <-|].
  destruct (ordering _ _) as [[st reason]|] eqn:Ho; [|by injection Ht as _ <-].
  injection Ht as _ <-.
  transitivity (message_recorded envelope st s d); [by apply record_message_keeps|].
  unfold sequence_recorded. destruct (env_sequence envelope) as [q|]; [|reflexivity].
  destruct (String.eqb st "accepted"); [|reflexivity].
  apply record_sequence_keeps. apply ordering_forward in Ho.
  change (t_sequences (message_recorded envelope st s d)) with (t_sequences d).
  by destruct (tget sequence_key _ _).
Qed.

(** ** The migration *)

(** Under the invariant every action has events: there is nothing to backfill. *)
Lemma lifecycle_nonempty l s : lifecycle l s → l ≠ [].
Proof. destruct 1; [done|]. by destruct l. Qed.

Lemma no_legacy d :
  db_inv d →
  select_where (λ a, bool_decide (a_action_id a ∉ map ev_action_id (t_events d))) (t_actions d) = [].
Proof.
  intros Hd. destruct (select_where _ _) as [|a l] eqn:E; [done|exfalso].
  assert (a ∈ a :: l) as Ha by left. rewrite <- E in Ha.
  apply elem_of_select_where in Ha as [Ha Hn]. apply bool_decide_eq_true in Hn.
  pose proof (lifecycle_nonempty _ _ (inv_history d Hd a Ha)) as Hne.
  unfold events_of in Hne. destruct (select_where _ (t_events d)) as [|e l'] eqn:E'; [done|].
  assert (e ∈ e :: l') as He by left. rewrite <- E' in He.
  apply elem_of_select_where in He as [He Hid]. apply bool_decide_eq_true in Hid.
  apply Hn. rewrite <- Hid. apply list_elem_of_fmap. by exists e.
Qed.

Lemma initialize_keeps : keeps initialize_tx.
Proof.
  intros d s s' u d' Ht Hd. unfold initialize_tx in Ht.
  apply tx_bind_inr in Ht as (s1 & m & d1 & [= <- <- <-] & Ht).
  destruct (select_one _ _) as [m|].
  { tx_inv Ht. by split. }
  apply tx_bind_inr in Ht as (s1 & evs & d1 & [= <- <- <-] & Ht).
  apply tx_bind_inr in Ht as (s1 & legacy & d1 & [= <- <- <-] & Ht).
  cbn in Ht. rewrite no_legacy in Ht by done.
  tx_inv Ht. cbn in Htx. tx_inv Htx. apply good_migrations; [|done]. by apply insert_evolution; [tc_solve|].
Qed.
End transactions.

(** ** Programs

    A calm step moves the core database from a good state along an allowed
    evolution and makes no provider call. *)
Definition calm {Ext} (w w' : World Ext) : Prop :=
  good (w_core w) (w_core w') ∧ w_trace w' = w_trace w.

#[export] Instance calm_preorder {Ext} : PreOrder (@calm Ext).
Proof.
  split.
  - intros w. by split.
  - intros w1 w2 w3 [??] [??]. split; [by etrans|congruence].
Qed.

Lemma calm_idle {Ext} (w w' : World Ext) :
  w_core w' = w_core w → w_trace w' = w_trace w → calm w w'.
Proof. intros He Ht. split; [rewrite He; reflexivity|done]. Qed.

#[export] Hint Resolve create_case_keeps append_fact_keeps insert_action_keeps transition_keeps
  claim_keeps insert_proposal_keeps update_proposal_keeps insert_outbox_keeps claim_outbox_keeps
  insert_handoff_keeps update_handoff_keeps accept_message_keeps initialize_keeps : wf.

Section programs.
Context `{Oracle} {Ext : Type}.

Lemma calm_commit {A} (t : tx A) : tx_preserves good t → steps (@calm Ext) (commit t).
Proof.
  intros Ht. apply steps_atomically. intros w.
  destruct (t (w_core w) (w_sys w)) as [s [e|[a d]]] eqn:E; cbn; [by split|].
  split; [|done]. by eapply Ht.
Qed.

Lemma calm_select {R} (t : table R) q : steps (@calm Ext) (commit (sql_select t q)).
Proof. apply calm_commit, tx_preserves_select, _. Qed.

Lemma calm_query {R} (t : table R) p : steps (@calm Ext) (query t p).
Proof. apply calm_commit, tx_preserves_fetchone, _. Qed.

Lemma calm_read_clock : steps (@calm Ext) read_clock.
Proof. apply steps_atomically. intros w. by split. Qed.

Lemma calm_new_uuid prefix : steps (@calm Ext) (new_uuid prefix).
Proof. apply steps_atomically. intros w. by split. Qed.
End programs.

#[export] Hint Resolve calm_commit calm_select calm_query calm_read_clock calm_new_uuid : wf.

Section store_programs.
Context `{Oracle} {Ext : Type}.
Abbreviation is_calm := (steps (@calm Ext)).

Lemma initialize_calm : is_calm initialize.
Proof. unfold initialize. auto with wf. Qed.
Lemma store_create_case_calm r : is_calm (store_create_case r).
Proof. unfold store_create_case. auto with wf. Qed.
Lemma get_case_calm cid : is_calm (get_case cid).
Proof. unfold get_case. step_through. Qed.
Hint Resolve get_case_calm : wf.
Lemma append_fact_calm cid p v : is_calm (append_fact cid p v).
Proof. unfold append_fact. step_through. Qed.
Lemma get_fact_calm cid n : is_calm (get_fact cid n).
Proof. unfold get_fact. auto with wf. Qed.
Lemma insert_action_calm r v : a_status r = AUTHORIZED → is_calm (insert_action r v).
Proof. intros. unfold insert_action. step_through. Qed.
Lemma get_action_by_key_calm k : is_calm (get_action_by_key k).
Proof. unfold get_action_by_key. auto with wf. Qed.
Lemma get_action_calm aid : is_calm (get_action aid).
Proof. unfold get_action. auto with wf. Qed.
Lemma list_actions_calm s l : is_calm (list_actions s l).
Proof. unfold list_actions. auto with wf. Qed.
Hint Resolve get_action_calm : wf.
Lemma fetch_action_calm aid e : is_calm (fetch_action aid e).
Proof. unfold fetch_action. step_through. Qed.
Hint Resolve fetch_action_calm : wf.
Lemma transition_action_calm aid s s' out : edge s s' → is_calm (transition_action aid s s' out).
Proof. intros. unfold transition_action. step_through. Qed.
Lemma claim_action_calm aid : is_calm (claim_action aid).
Proof. unfold claim_action. step_through. Qed.
Lemma create_action_proposal_calm r : is_calm (create_action_proposal r).
Proof. unfold create_action_proposal. step_through. Qed.
Lemma get_action_proposal_calm pid : is_calm (get_action_proposal pid).
Proof. unfold get_action_proposal. auto with wf. Qed.
Hint Resolve get_action_proposal_calm : wf.
Lemma list_action_proposals_calm c v s l : is_calm (list_action_proposals c v s l).
Proof. unfold list_action_proposals. auto with wf. Qed.
Lemma transition_action_proposal_calm pid s ev aid :
  is_calm (transition_action_proposal pid P_PENDING s ev aid).
Proof.
  unfold transition_action_proposal. step_through. apply calm_commit.
  apply keeps_bind; [auto with wf|intros n; auto with wf typeclass_instances].
Qed.
Lemma accept_message_result_calm env : is_calm (accept_message_result env).
Proof. unfold accept_message_result. step_through. Qed.
Hint Resolve accept_message_result_calm : wf.
Lemma accept_message_calm env : is_calm (accept_message env).
Proof. unfold accept_message. step_through. Qed.
Lemma enqueue_outbox_calm t a p : is_calm (enqueue_outbox t a p).
Proof. unfold enqueue_outbox. step_through. Qed.
Lemma claim_outbox_calm o s l : is_calm (claim_outbox o s l).
Proof. unfold claim_outbox. step_through. Qed.
Lemma _update_outbox_calm oid s t e : is_calm (_update_outbox oid s t e).
Proof.
  unfold _update_outbox. step_through. apply calm_commit, update_outbox_keeps; [done|].
  intros r. unfold outbox_rel. cbn. split_and!; [done..|lia].
Qed.
Hint Resolve _update_outbox_calm : wf.
Lemma complete_outbox_calm oid : is_calm (complete_outbox oid).
Proof. unfold complete_outbox. auto with wf. Qed.
Lemma fail_outbox_calm oid e t q : is_calm (fail_outbox oid e t q).
Proof. unfold fail_outbox. auto with wf. Qed.
Lemma list_outbox_calm s l : is_calm (list_outbox s l).
Proof. unfold list_outbox. auto with wf. Qed.
Lemma create_handoff_calm r : is_calm (create_handoff r).
Proof. unfold create_handoff. step_through. Qed.
Lemma get_handoff_calm hid : is_calm (get_handoff hid).
Proof. unfold get_handoff. auto with wf. Qed.
Hint Resolve get_handoff_calm : wf.
Lemma store_transition_handoff_calm hid s s' a : is_calm (store_transition_handoff hid s s' a).
Proof.
  unfold store_transition_handoff. step_through.
  apply calm_commit. apply keeps_bind; [auto with wf typeclass_instances|intros now].
  apply keeps_bind; [auto with wf|intros n; auto with wf typeclass_instances].
Qed.
End store_programs.

#[export] Hint Resolve initialize_calm store_create_case_calm get_case_calm append_fact_calm
  get_fact_calm insert_action_calm get_action_by_key_calm get_action_calm list_actions_calm
  fetch_action_calm transition_action_calm claim_action_calm create_action_proposal_calm
  get_action_proposal_calm list_action_proposals_calm transition_action_proposal_calm
  accept_message_result_calm accept_message_calm enqueue_outbox_calm claim_outbox_calm
  complete_outbox_calm fail_outbox_calm list_outbox_calm create_handoff_calm get_handoff_calm
  store_transition_handoff_calm : wf.
