(* ===== verification/RelyGuarantee.v ===== *)
(** * Rely-guarantee reasoning about coroutines

    [rg w0 g p Q] says what coroutine [p] does when it starts from world [w0]
    holding the ghost state [g], while other coroutines move the world along
    [rely] at each of its suspension points: every step it makes obeys the
    guarantee [guar] (which may change its ghost state), and its result, world
    and ghost state satisfy [Q].  [pool_rg] turns the coroutines' triples into
    an invariant of every interleaving. *)

From S2P Require Import Prelude Prog.

Section rg.
Context {W G : Type} (inv : W → Prop) (rely : W → W → Prop) `{!PreOrder rely}.
Context (guar : G → W → G → W → Prop).

(** A guaranteed step keeps the invariant and is a step others may rely on. *)
Class GuaranteeLaws := {
  guar_inv g w g' w' : guar g w g' w' → inv w → inv w';
  guar_rely g w g' w' : guar g w g' w' → inv w → rely w w'
}.

Fixpoint rg {A} (w0 : W) (g : G) (p : prog W A) (Q : W → G → result A → Prop) : Prop :=
  match p with
  | Done r => Q w0 g r
  | Step f k => ∀ w, inv w → rely w0 w → ∃ g', guar g w g' (f w) ∧ rg (f w) g' (k w) Q
  end.

(** A postcondition that stays true while others run. *)
Definition stable {A} (Q : W → G → result A → Prop) : Prop :=
  ∀ w w' g r, rely w w' → Q w g r → Q w' g r.

Lemma rg_later {A} w0 w1 g (p : prog W A) Q :
  stable Q → rely w0 w1 → rg w0 g p Q → rg w1 g p Q.
Proof.
  intros HQ H01. destruct p as [r|f k]; cbn; [by apply HQ|].
  intros Hp w Hw H1. apply Hp; [done|by etrans].
Qed.

Lemma rg_conseq {A} w g (p : prog W A) (Q Q' : W → G → result A → Prop) :
  (∀ w' g' r, Q w' g' r → Q' w' g' r) → rg w g p Q → rg w g p Q'.
Proof.
  intros HQ. revert w g; induction p as [r|f k IH]; intros w0 g; cbn; [auto|].
  intros Hp w Hw H0. destruct (Hp w Hw H0) as (g' & Hg & Hk). eauto.
Qed.

Lemma rg_bind {A B} w g (p : prog W A) (k : A → prog W B) Q Q' :
  rg w g p Q →
  (∀ w' g' a, Q w' g' (inr a) → rg w' g' (k a) Q') →
  (∀ w' g' e, Q w' g' (inl e) → Q' w' g' (inl e)) →
  rg w g (p ≫= k) Q'.
Proof.
  intros Hp Hk He. revert w g Hp; induction p as [[e|a]|f c IH]; intros w0 g; cbn; auto.
  intros Hp w Hw H0. destruct (Hp w Hw H0) as (g' & Hg & Hc).
  exists g'. split; [done|]. by apply IH.
Qed.

Lemma rg_try {A} w g (p : prog W A) h Q Q' :
  rg w g p Q →
  (∀ w' g' a, Q w' g' (inr a) → Q' w' g' (inr a)) →
  (∀ w' g' e, Q w' g' (inl e) → rg w' g' (h e) Q') →
  rg w g (try_except p h) Q'.
Proof.
  intros Hp Ha He. revert w g Hp; induction p as [[e|a]|f c IH]; intros w0 g; cbn; auto.
  intros Hp w Hw H0. destruct (Hp w Hw H0) as (g' & Hg & Hc).
  exists g'. split; [done|]. by apply IH.
Qed.

Lemma rg_require {A} w g b e (k : unit → prog W A) Q :
  (b = true → rg w g (k tt) Q) → (b = false → Q w g (inl e)) →
  rg w g (require b e ≫= k) Q.
Proof. destruct b; cbn; auto. Qed.

Lemma rg_atomically {A} w0 g (op : W → W * result A) Q :
  (∀ w, inv w → rely w0 w → ∃ g', guar g w g' (op w).1 ∧ Q (op w).1 g' (op w).2) →
  rg w0 g (atomically op) Q.
Proof. done. Qed.

(** A program whose every step is allowed without touching the ghost state. *)
Lemma rg_frame `{!GuaranteeLaws} {A} (R : W → W → Prop) w0 g (p : prog W A) :
  (∀ w w', R w w' → guar g w g w') →
  steps R p → rg w0 g p (λ w' g' _, g' = g ∧ rely w0 w').
Proof.
  intros HR. revert w0; induction p as [r|f k IH]; intros w0; cbn; [by split|].
  intros Hp w Hw H0. destruct (Hp w) as [Hf Hk]. exists g. split; [auto|].
  eapply rg_conseq; [|by apply IH]. cbn. intros w' g' _ [-> ?]. split; [done|].
  etrans; [exact H0|]. etrans; [|done]. eapply guar_rely; [by apply HR|done].
Qed.

(** Later knowledge: facts that other coroutines cannot destroy. *)
Lemma rg_know `{!GuaranteeLaws} {A} w0 g (p : prog W A) Q :
  rg w0 g p Q → rg w0 g p (λ w' g' r, Q w' g' r ∧ rely w0 w').
Proof.
  revert w0 g; induction p as [r|f k IH]; intros w0 g; cbn; [by split|].
  intros Hp w Hw H0. destruct (Hp w Hw H0) as (g' & Hg & Hk). exists g'. split; [done|].
  eapply rg_conseq; [|by apply IH]. cbn. intros w' g'' r [??]. split; [done|].
  etrans; [exact H0|]. etrans; [|done]. by eapply guar_rely.
Qed.

(** Running alone is one way of running with others. *)
Lemma rg_run `{!GuaranteeLaws} {A} w g (p : prog W A) Q :
  inv w → rg w g p Q → ∃ g', Q (run p w).1 g' (run p w).2 ∧ inv (run p w).1.
Proof.
  revert w g; induction p as [r|f k IH]; intros w g Hw; cbn; [by eauto|].
  intros Hp. destruct (Hp w Hw) as (g' & Hg & Hk); [reflexivity|].
  eapply IH; [|done]. by eapply guar_inv.
Qed.

(** ** Every interleaving *)
Section pool.
Context `{!GuaranteeLaws} {A : Type}.
(** The invariant that ties the world to the ghost state of the whole pool. *)
Context (I : W → list G → Prop).
Context (I_step : ∀ w gs i g g' w',
  inv w → I w gs → gs !! i = Some g → guar g w g' w' → I w' (<[i := g']> gs)).

(** What the [i]th coroutine's result satisfies. *)
Context (Q : nat → W → G → result A → Prop) (Q_stable : ∀ i, stable (Q i)).

Definition pool_ok (w : W) (gs : list G) (ps : list (prog W A)) : Prop :=
  inv w ∧ I w gs ∧ length gs = length ps ∧
  ∀ i p, ps !! i = Some p → ∃ g, gs !! i = Some g ∧ rg w g p (Q i).

Lemma pool_rg s s' gs :
  star pool_step s s' → pool_ok s.1 gs s.2 →
  ∃ gs', pool_ok s'.1 gs' s'.2 ∧ rely s.1 s'.1.
Proof.
  intros Hs. revert gs; induction Hs as [s|s1 s2 s3 H12 _ IH]; intros gs Hok.
  - exists gs. by split.
  - destruct Hok as (Hw & HI & Hlen & Hps). destruct H12 as [w ps i f k Hi]; cbn in *.
    destruct (Hps i _ Hi) as (g & Hgi & Hrg).
    destruct (Hrg w Hw) as (g' & Hg & Hk); [reflexivity|].
    assert (rely w (f w)) as Hr by by eapply guar_rely.
    destruct (IH (<[i := g']> gs)) as (gs' & Hok & Hr').
    { split_and!; [by eapply guar_inv|by eapply I_step|by rewrite !length_insert|].
      intros j p Hj. apply list_lookup_insert_Some in Hj as [(<- & <- & Hlt)|[Hne Hj]].
      - exists g'. split; [|done]. apply list_lookup_insert_eq. by eapply lookup_lt_Some.
      - destruct (Hps j p Hj) as (gj & Hgj & Hrgj). exists gj.
        split; [by rewrite list_lookup_insert_ne|]. by eapply rg_later. }
    exists gs'. split; [done|by etrans].
Qed.

(** What a finished coroutine of the pool returned. *)
Lemma pool_result w gs ps i r : pool_ok w gs ps → ps !! i = Some (Done r) → ∃ g, Q i w g r.
Proof. intros (_ & _ & _ & Hps) Hi. destruct (Hps i _ Hi) as (g & _ & HQ). by exists g. Qed.
End pool.
End rg.

(** ** Races

    Coroutines that compete for one thing: the world is [open] while it can
    still be taken, a coroutine's ghost state says whether it took it, and every
    step either leaves [open] alone or takes it. *)
Section race.
Context {W A : Type} (inv : W → Prop) (ev : W → W → Prop) `{!PreOrder ev} (is_open : W → Prop).
Context (wins : result A → bool) (fine : result A → Prop).

Definition race_rely (w w' : W) : Prop := ev w w' ∧ (is_open w' → is_open w).

#[export] Instance race_rely_preorder : PreOrder race_rely.
Proof.
  split.
  - intros w. by split.
  - intros w1 w2 w3 [??] [??]. split; [by etrans|auto].
Qed.

Definition race_guar (g : bool) (w : W) (g' : bool) (w' : W) : Prop :=
  inv w → inv w' ∧ ev w w' ∧
    ((g' = g ∧ (is_open w ↔ is_open w')) ∨ (g = false ∧ g' = true ∧ is_open w ∧ ¬ is_open w')).

#[export] Instance race_laws : GuaranteeLaws inv race_rely race_guar.
Proof.
  split.
  - intros g w g' w' H Hw. by apply H.
  - intros g w g' w' H Hw. destruct (H Hw) as (_ & ? & [[_ ?]|(_&_&?&?)]); split; tauto.
Qed.

(** A winner has taken it; a loser saw it taken; no other result is possible. *)
Definition race_post (w : W) (g : bool) (r : result A) : Prop :=
  fine r ∧ if wins r then g = true else g = false ∧ ¬ is_open w.

Lemma race_post_stable : stable race_rely race_post.
Proof.
  intros w w' g r [_ Hop]. unfold race_post. destruct (wins r); tauto.
Qed.

Definition race_inv (w : W) (gs : list bool) : Prop :=
  (∀ i j, gs !! i = Some true → gs !! j = Some true → i = j) ∧
  (∀ i, gs !! i = Some true → ¬ is_open w) ∧
  ((∀ i, gs !! i ≠ Some true) → is_open w).

Lemma race_inv_step w gs i g g' w' :
  inv w → race_inv w gs → gs !! i = Some g → race_guar g w g' w' → race_inv w' (<[i := g']> gs).
Proof.
  intros Hw (H1 & H2 & H3) Hi Hg. apply lookup_lt_Some in Hi as Hlt.
  destruct (Hg Hw) as (_ & _ & [[-> Hop]|(-> & -> & Ho & Hc)]).
  - rewrite list_insert_id by done. split_and!; [done|..].
    + intros j Hj. rewrite <- Hop. by apply (H2 j).
    + intros Hno. apply Hop, H3, Hno.
  - assert (∀ j, gs !! j ≠ Some true) as Hno by (intros j Hj; by apply (H2 j)).
    assert (∀ j, <[i:=true]> gs !! j = Some true → j = i) as Honly.
    { intros j [(-> & _)|[_ Hj]]%list_lookup_insert_Some; [done|]. by destruct (Hno j). }
    split_and!.
    + intros j k Hj Hk. rewrite (Honly j), (Honly k); done.
    + done.
    + intros Hnone. destruct (Hnone i). by apply list_lookup_insert_eq.
Qed.

(** However the coroutines interleave, at most one wins, and when all have
    finished exactly one has. *)
Lemma race_one_winner w ps w' ps' :
  inv w → is_open w →
  (∀ p, p ∈ ps → rg inv race_rely race_guar w false p race_post) →
  star pool_step (w, ps) (w', ps') →
  (∀ i r, ps' !! i = Some (Done r) → fine r) ∧
  (∀ i j r r', ps' !! i = Some (Done r) → ps' !! j = Some (Done r') →
     wins r = true → wins r' = true → i = j) ∧
  (ps ≠ [] → (∀ p, p ∈ ps' → is_Some (finished p)) →
   ∃ i r, ps' !! i = Some (Done r) ∧ wins r = true).
Proof.
  intros Hw Hop Hps Hstar.
  destruct (pool_rg inv race_rely race_guar race_inv race_inv_step (λ _, race_post)
              (λ _, race_post_stable) (w, ps) (w', ps') (replicate (length ps) false) Hstar)
    as (gs' & (Hw' & (HI1 & HI2 & HI3) & Hlen & Hps') & _).
  { split_and!; cbn; [done| |by rewrite length_replicate|].
    - split_and!; [intros i j Hi|intros i Hi|done]; by apply lookup_replicate in Hi as [? _].
    - intros i p Hi. exists false. split.
      + apply lookup_replicate. split; [done|]. by eapply lookup_lt_Some.
      + apply Hps. by eapply list_elem_of_lookup_2. }
  cbn in *.
  assert (∀ i r, ps' !! i = Some (Done r) → ∃ g, gs' !! i = Some g ∧ race_post w' g r) as Hres.
  { intros i r Hi. destruct (Hps' i _ Hi) as (g & Hg & HQ). by exists g. }
  split_and!.
  - intros i r Hi. by destruct (Hres i r Hi) as (g & _ & Hf & _).
  - intros i j r r' Hi Hj Hr Hr'. destruct (Hres i r Hi) as (g & Hg & _ & HQ).
    destruct (Hres j r' Hj) as (g' & Hg' & _ & HQ'). unfold race_post in *.
    rewrite Hr in HQ. rewrite Hr' in HQ'. subst. eauto.
  - intros Hne Hfin.
    assert (∀ i, i < length ps' → ∃ r g, ps' !! i = Some (Done r) ∧ gs' !! i = Some g ∧
              race_post w' g r) as Hall.
    { intros i [p Hp]%lookup_lt_is_Some. destruct (Hfin p) as [r Hr];
        [by eapply list_elem_of_lookup_2|].
      destruct p as [r'|]; [|done]. destruct (Hres i r' Hp) as (g & ? & ?). by exists r', g. }
    destruct (decide (true ∈ gs')) as [[i Hi]%list_elem_of_lookup|Hno].
    + destruct (Hall i) as (r & g & Hr & Hg & HQ).
      { apply lookup_lt_Some in Hi. lia. }
      exists i, r. split; [done|]. destruct HQ as [_ HQ]. destruct (wins r); [done|].
      destruct HQ as [-> _]. congruence.
    + destruct (Hall 0) as (r & g & Hr & Hg & HQ); [by apply star_length in Hstar as Hl; cbn in Hl; rewrite Hl; destruct ps; cbn; [done|lia]|].
      assert (is_open w') as Hop'.
      { apply HI3. intros i Hi. apply Hno. by eapply list_elem_of_lookup_2. }
      exists 0, r. split; [done|]. destruct HQ as [_ HQ]. destruct (wins r); [done|tauto].
Qed.
End race.
