(* ===== verification/CaseKernel.v ===== *)
(** * The case kernel ([core/kernel.py], class [CaseKernel])

    Cases, facts and the authorization of consequential actions. *)

From S2P Require Import Prelude PyValue PyString Prog RelyGuarantee Table ActionSpecs KernelData World KernelStore KernelInv.

Section kernel.
Context `{Oracle} {Ext : Type}.
Abbreviation prog := (prog (World Ext)).

Definition create_case (cid customer_id procedure_id version : string) : prog CaseRecord :=
  let record := mkCase cid customer_id procedure_id version "active" 0 in
  _ ← store_create_case record;
  mret record.

Definition commit_fact (cid : string) (proposal : FactProposal) (expected_version : Z) :
    prog CaseRecord :=
  append_fact cid proposal expected_version.

(** The checks of [authorize_action] that need only the command. *)
Definition check_command (command : ActionCommand) : result unit :=
  match dget (c_action command) ACTION_SPECIFICATIONS with
  | None => inl (ValueError ("Unknown consequential action: " +:+ c_action command))
  | Some specification =>
      let missing := required_parameters specification ∖ dkeyset (c_parameters command) in
      ensure bool_decide (missing = ∅) else
        (ValueError ("Missing required action parameters: " +:+ join ", " (sorted_set missing))) in
      ensure negb (requires_consent specification &&
                   negb (str_truthy (c_consent_evidence_ref command))) else
        (ValueError ("Action " +:+ c_action command +:+ " requires explicit consent evidence")) in
      ensure negb (requires_approval specification &&
                   negb (str_truthy (c_approval_evidence_ref command))) else
        (ValueError ("Action " +:+ c_action command +:+ " requires approval evidence")) in
      let unverified := authoritative_parameters specification
                          ∖ dkeyset (c_parameter_fact_refs command) in
      ensure bool_decide (unverified = ∅) else
        (ValueError ("Authoritative parameters lack fact references: "
                       +:+ join ", " (sorted_set unverified))) in
      inr tt
  end%wf.

(** One turn of the loop over [parameter_fact_refs]: what is demanded of the
    fact read for a parameter. *)
Definition check_fact (command : ActionCommand) (parameter fact_ref : string)
    (fact : option FactRecord) : result unit :=
  match fact with
  | None => inl (ValueError ("Missing required fact: " +:+ fact_ref))
  | Some fact =>
      match dget parameter (c_required_fact_authority command) with
      | None => inl (KeyError parameter)
      | Some required =>
          ensure negb (Nat.ltb (_AUTHORITY_RANK (fact_authority (fact_proposal fact)))
                         (_AUTHORITY_RANK required)) else
            (ValueError ("Fact " +:+ fact_ref +:+ " has insufficient authority")) in
          ensure py_eqb (dget_none parameter (c_parameters command))
                   (fact_value (fact_proposal fact)) else
            (ValueError ("Parameter " +:+ parameter +:+ " does not match authoritative fact")) in
          inr tt
      end
  end%wf.

Definition check_facts (command : ActionCommand) : prog unit :=
  for_each (c_parameter_fact_refs command) tt (λ _ ref,
    fact ← get_fact (c_case_id command) ref.2;
    lift_result (check_fact command ref.1 ref.2 fact)).

Definition authorize_action (command : ActionCommand) (expected_version : Z) :
    prog ActionRecord :=
  duplicate ← get_action_by_key (c_idempotency_key command);
  match duplicate with
  | Some duplicate =>
      _ ← require (command_eqb (a_command duplicate) command)
            (ValueError "Idempotency key is already bound to a different action command");
      mret duplicate
  | None =>
      _ ← lift_result (check_command command);
      _ ← check_facts command;
      now ← read_clock;
      aid ← new_uuid "ACT-";
      insert_action (mkAction aid command AUTHORIZED None now now) expected_version
  end.

Definition mark_dispatched (aid : string) : prog ActionRecord :=
  r ← claim_action aid; mret r.1.

Definition record_outcome (aid : string) (status : ActionStatus) (outcome : option (dict value)) :
    prog ActionRecord :=
  _ ← require (bool_decide (status ∈ [SUCCEEDED; FAILED; UNKNOWN; RECONCILED]))
        (ValueError "Invalid terminal/reconciliation status");
  current ← get_action aid;
  match current with
  | None => mthrow (KeyError aid)
  | Some current =>
      _ ← require (bool_decide (status ∈ allowed_outcomes (a_status current)))
            (ValueError ("Invalid action transition: " +:+ action_status_value (a_status current)
               +:+ " -> " +:+ action_status_value status));
      transition_action aid (a_status current) status outcome
  end.

Hint Resolve calm_read_clock : wf.

Lemma create_case_calm cid c p v : steps (@calm Ext) (create_case cid c p v).
Proof. unfold create_case. step_through. Qed.
Lemma commit_fact_calm cid p v : steps (@calm Ext) (commit_fact cid p v).
Proof. unfold commit_fact. auto with wf. Qed.
Lemma check_facts_calm c : steps (@calm Ext) (check_facts c).
Proof. unfold check_facts. step_through. Qed.
Hint Resolve check_facts_calm : wf.
Lemma authorize_action_calm c v : steps (@calm Ext) (authorize_action c v).
Proof. unfold authorize_action. step_through. Qed.
Lemma mark_dispatched_calm aid : steps (@calm Ext) (mark_dispatched aid).
Proof. unfold mark_dispatched. step_through. Qed.
Lemma record_outcome_calm aid s o : steps (@calm Ext) (record_outcome aid s o).
Proof.
  unfold record_outcome. step_through. apply transition_action_calm. right; right.
  by reflect_bools.
Qed.
End kernel.

#[export] Hint Resolve create_case_calm commit_fact_calm check_facts_calm authorize_action_calm
  mark_dispatched_calm record_outcome_calm : wf.

(** ** What the checks amount to on one database *)

(** [get_fact] of the store, on a database. *)
Definition current_fact (cid name : string) (d : core_db) : option FactRecord :=
  select_one (λ r, bool_decide (fact_key r = (cid, name)) &&
                   bool_decide (fact_superseded_at r = None)) (t_facts d).

(** The loop over the fact references, on one database. *)
Fixpoint facts_check (refs : dict string) (command : ActionCommand) (d : core_db) : result unit :=
  match refs with
  | [] => inr tt
  | (parameter, fact_ref) :: refs' =>
      match check_fact command parameter fact_ref
              (current_fact (c_case_id command) fact_ref d) with
      | inl e => inl e
      | inr _ => facts_check refs' command d
      end
  end.

(** Why a fact reference was accepted: the fact is committed, carries at least
    the demanded authority and has the very value the command is to act on. *)
Definition fact_verified (command : ActionCommand) (parameter fact_ref : string) (d : core_db) :
    Prop :=
  ∃ fact required,
    current_fact (c_case_id command) fact_ref d = Some fact ∧
    dget parameter (c_required_fact_authority command) = Some required ∧
    _AUTHORITY_RANK required ≤ _AUTHORITY_RANK (fact_authority (fact_proposal fact)) ∧
    py_eqb (dget_none parameter (c_parameters command)) (fact_value (fact_proposal fact)) = true.

Lemma check_fact_ok command parameter fact_ref d :
  check_fact command parameter fact_ref (current_fact (c_case_id command) fact_ref d) = inr tt ↔
  fact_verified command parameter fact_ref d.
Proof.
  unfold check_fact, fact_verified. split.
  - destruct (current_fact _ _ d) as [fact|]; [|done].
    destruct (dget parameter _) as [required|]; [|done].
    destruct (Nat.ltb _ _) eqn:Hr; [done|]. destruct (py_eqb _ _) eqn:Hv; [|done].
    intros _. exists fact, required. apply Nat.ltb_ge in Hr. by split_and!.
  - intros (fact & required & -> & -> & Hr & ->). apply Nat.ltb_ge in Hr. by rewrite Hr.
Qed.

Lemma facts_check_ok refs command d :
  facts_check refs command d = inr tt ↔
  ∀ parameter fact_ref, (parameter, fact_ref) ∈ refs → fact_verified command parameter fact_ref d.
Proof.
  induction refs as [|[p f] refs IH]; cbn.
  - split; [by intros _ p f ?%not_elem_of_nil|done].
  - destruct (check_fact command p f _) as [e|[]] eqn:E.
    + split; [done|]. intros Hall. specialize (Hall p f ltac:(left)).
      apply check_fact_ok in Hall. congruence.
    + rewrite IH. apply check_fact_ok in E. split.
      * intros Hall p' f' [[= -> ->]|?]%elem_of_cons; auto.
      * intros Hall p' f' ?. apply Hall. by right.
Qed.

(** What [check_command] demands of a command. *)
Definition command_admissible (command : ActionCommand) : Prop :=
  ∃ specification,
    dget (c_action command) ACTION_SPECIFICATIONS = Some specification ∧
    required_parameters specification ⊆ dkeyset (c_parameters command) ∧
    authoritative_parameters specification ⊆ dkeyset (c_parameter_fact_refs command) ∧
    (requires_consent specification = true → str_truthy (c_consent_evidence_ref command) = true) ∧
    (requires_approval specification = true → str_truthy (c_approval_evidence_ref command) = true).

Lemma check_command_ok command : check_command command = inr tt ↔ command_admissible command.
Proof.
  unfold check_command, command_admissible. split.
  - destruct (dget _ _) as [s|]; [|done].
    case_bool_decide as H1; [|done]. destruct (negb (requires_consent s && _)) eqn:H2; [|done].
    destruct (negb (requires_approval s && _)) eqn:H3; [|done]. case_bool_decide as H4; [|done].
    intros _. exists s.
    split_and!; [done|by apply empty_difference_subseteq_L|by apply empty_difference_subseteq_L| |].
    + intros Hc. rewrite Hc in H2. cbn in H2. by rewrite negb_involutive in H2.
    + intros Hc. rewrite Hc in H3. cbn in H3. by rewrite negb_involutive in H3.
  - intros (s & -> & H1 & H4 & H2 & H3). rewrite bool_decide_true by by apply subseteq_empty_difference_L.
    destruct (requires_consent s); [rewrite H2 by done|]; cbn;
      (destruct (requires_approval s); [rewrite H3 by done|]; cbn);
      by rewrite bool_decide_true by by apply subseteq_empty_difference_L.
Qed.

Section kernel_runs.
Context `{Oracle} {Ext : Type}.
Implicit Types w : World Ext.

Lemma run_check_facts refs command w :
  run (for_each refs tt (λ _ ref,
         fact ← get_fact (c_case_id command) ref.2;
         lift_result (check_fact command ref.1 ref.2 fact))) w =
  (w, facts_check refs command (w_core w)).
Proof.
  induction refs as [|[p f] refs IH]; [done|].
  cbn [for_each facts_check]. unfold get_fact. run_simpl.
  change (select_one _ _) with (current_fact (c_case_id command) f (w_core w)).
  destruct (check_fact _ _ _ _) as [e|[]]; [done|exact IH].
Qed.

(** The record [authorize_action] builds. *)
Definition authorized_record (command : ActionCommand) (s : sys) : ActionRecord :=
  mkAction ("ACT-" +:+ uuid_at (n_uuid s)) command AUTHORIZED None
    (now_at (n_clock s)) (now_at (n_clock s)).

(** [authorize_action] alone, as one equation. *)
Lemma run_authorize_action command v w :
  run (authorize_action command v) w =
  match tget action_idem (c_idempotency_key command) (t_actions (w_core w)) with
  | Some duplicate =>
      (w, if command_eqb (a_command duplicate) command then inr duplicate
          else inl (ValueError "Idempotency key is already bound to a different action command"))
  | None =>
      match check_command command with
      | inl e => (w, inl e)
      | inr _ =>
          match facts_check (c_parameter_fact_refs command) command (w_core w) with
          | inl e => (w, inl e)
          | inr _ =>
              let s := w_sys w in
              run (insert_action (authorized_record command s) v)
                (set_sys (mkSys (S (n_clock s)) (S (n_uuid s))) w)
          end
      end
  end.
Proof.
  unfold authorize_action. rewrite run_bind. unfold get_action_by_key. rewrite run_query.
  cbn [tbl_get action_attempts].
  change (select_one _ _)
    with (tget action_idem (c_idempotency_key command) (t_actions (w_core w))).
  destruct (tget action_idem _ _) as [dup|].
  - run_simpl. by destruct (command_eqb _ _).
  - rewrite run_bind, run_lift. destruct (check_command command) as [e|[]]; [done|].
    rewrite run_bind. unfold check_facts. rewrite run_check_facts.
    destruct (facts_check _ _ _) as [e|[]]; [done|].
    rewrite run_bind. unfold read_clock. rewrite run_atomically. cbv beta iota.
    rewrite run_bind. unfold new_uuid. rewrite run_atomically. reflexivity.
Qed.
End kernel_runs.

(** [create_core_store]: the scheme of a database URL picks the store. *)
Inductive store_choice := SQLite (path : string) | Adapter (scheme url : string).

Definition create_core_store (database_url : string) (adapters : list string) :
    result store_choice :=
  let scheme := before "+" (before ":" database_url) in
  if String.eqb scheme "sqlite" then
    inr (SQLite match after "///" database_url with Some p => p | None => database_url end)
  else if bool_decide (scheme ∈ adapters) then inr (Adapter scheme database_url)
  else inl (ValueError ("No core store adapter configured for database scheme '"
                          +:+ scheme +:+ "'")).
