(* ===== verification/Fixtures.v ===== *)
(** * Concrete worlds

    One customer's order, its case and its verified facts: the inputs on which
    the witnesses of the properties evaluate the definitions. *)

From stdpp Require Import pretty.
From S2P Require Import Prelude PyValue Prog Table ActionSpecs KernelData Policy World KernelStore KernelInv CaseKernel.

#[export] Instance demo_oracle : Oracle := {
  now_at n := (1000000 * Z.of_nat n)%Z;
  uuid_at n := pretty n
}.

Definition demo_world {Ext} (x : Ext) (d : core_db) : World Ext :=
  mkWorld d (mkSys 0 0) [] empty_registry [] x.

Definition demo_fact (name : string) (v : value) : FactRecord :=
  mkFact (mkFactProposal name v VERIFIED "demo.order_service" "order:ORD-1" None) "CASE-1" 0 None.

Definition demo_db : core_db :=
  mkCoreDb
    [mkCaseRow (mkCase "CASE-1" "CUST-1" "refund_request" "1" "active" 5) 0]
    [ demo_fact "order_id" (VStr "ORD-1"); demo_fact "customer_id" (VStr "CUST-1");
      demo_fact "refund_amount" (VInt 40); demo_fact "currency" (VStr "USD");
      demo_fact "payment_method" (VStr "card") ]
    [] [] [] [] [] [] [] [].

Definition demo_refs : dict string :=
  [ ("order_id", "order_id"); ("customer_id", "customer_id");
    ("refund_amount", "refund_amount"); ("currency", "currency");
    ("payment_method", "payment_method") ].

Definition demo_command : ActionCommand :=
  mkCommand "issue_refund" "CASE-1" "PKG-1" "CUST-1" "KEY-1"
    [ ("order_id", VStr "ORD-1"); ("customer_id", VStr "CUST-1"); ("refund_amount", VInt 40);
      ("currency", VStr "USD"); ("payment_method", VStr "card"); ("reason", VStr "damaged") ]
    demo_refs (map (λ r, (r.1, VERIFIED)) demo_refs)
    (Some "MSG-1") None None None None None.

(** The same key bound to another amount. *)
Definition demo_command' : ActionCommand :=
  mkCommand "issue_refund" "CASE-1" "PKG-1" "CUST-1" "KEY-1"
    (dset "refund_amount" (VInt 41) (c_parameters demo_command))
    demo_refs (map (λ r, (r.1, VERIFIED)) demo_refs)
    (Some "MSG-1") None None None None None.

Definition demo : World unit := demo_world tt demo_db.

Lemma demo_db_inv : db_inv demo_db.
Proof.
  split; try (apply (decide_by_eval (NoDup _)); vm_compute; reflexivity); intros ? ?%not_elem_of_nil; done.
Qed.

(** The demo command authorized. *)
Definition demo_action : ActionRecord := authorized_record demo_command (mkSys 0 0).
Definition demo_authorized : World unit := (run (authorize_action demo_command 5) demo).1.

(** Two observations of the same parcel, made from version 5 of the case. *)
Definition demo_observations : list FactProposal :=
  [ mkFactProposal "parcel" (VStr "lost") OBSERVED "agent" "note:1" None;
    mkFactProposal "parcel" (VStr "found") OBSERVED "carrier" "note:2" None ].

Definition demo_proposal : ActionProposal :=
  mkProposal "PROP-1" "issue_refund" (c_parameters demo_command) "CASE-1" "CUST-1" "CUST-1"
    "refund_request" "1" "PKG-1" "KEY-1" (Some "order") (Some "ORD-1") (Some 1%Z)
    None None None None None [] P_PENDING None None 0 900000000 0 None None.

Definition demo_handoff : HandoffRow :=
  mkHandoff "HO-1" "CONV-1" "CASE-1" [] "requested" None 0 0.

(** The demo database with a pending proposal and a requested handoff. *)
Definition demo_db_open : core_db :=
  tbl_set handoffs [demo_handoff] (tbl_set action_proposals [demo_proposal] demo_db).
Definition demo_open : World unit := demo_world tt demo_db_open.

Lemma demo_db_open_inv : db_inv demo_db_open.
Proof.
  split; try (apply (decide_by_eval (NoDup _)); vm_compute; reflexivity); intros ? ?%not_elem_of_nil; done.
Qed.
