(* ===== verification/KernelProps.v ===== *)
(** * Properties of the case kernel and its store *)

From S2P Require Import Prelude PyValue Prog RelyGuarantee Table ActionSpecs KernelData World KernelStore KernelInv CaseKernel Fixtures.

Section authorize.
Context `{Oracle} {Ext : Type}.
Implicit Types w : World Ext.

(** [insert_action] alone: all of it, or nothing. *)
Lemma run_insert_action record v w w' r :
  run (insert_action record v) w = (w', r) →
  (r = inr record ∧ rowcount (at_version (c_case_id (a_command record)) v)
                      (t_cases (w_core w)) = 1 ∧
   (insert_action_tx record v (w_core w) (w_sys w)).2
     = inr (tt, action_inserted record v (w_sys w) (w_core w)) ∧
   w_core w' = action_inserted record v (w_sys w) (w_core w)) ∨
  (is_ok r = false ∧ w_core w' = w_core w).
Proof.
  unfold insert_action. rewrite run_bind, run_commit.
  destruct (insert_action_tx _ _ _ _) as [s [e|[[] d]]] eqn:E; cbn.
  - intros [= <- <-]. by right.
  - apply insert_action_tx_inr in E as (Hn & _ & _ & _ & _ & _ & -> & ->).
    intros [= <- <-]. by left.
Qed.

(** C10: an action is authorized under a fresh idempotency key only if the
    catalog knows it, all its required parameters, consent and approval are
    present, every authoritative parameter is backed by a committed fact of
    sufficient authority and equal value, and the case is still at the version
    the caller saw; then, in one transaction, the action, its two events, its
    outbox row and the case's next version are stored, and nothing else. *)
Theorem authorize_action_guards command v w w' a :
  db_inv (w_core w) →
  tget action_idem (c_idempotency_key command) (t_actions (w_core w)) = None →
  run (authorize_action command v) w = (w', inr a) →
  command_admissible command ∧
  (∀ parameter fact_ref, (parameter, fact_ref) ∈ c_parameter_fact_refs command →
     fact_verified command parameter fact_ref (w_core w)) ∧
  (∃ case, tget case_key (c_case_id command) (t_cases (w_core w)) = Some case ∧
           case_version (cr_case case) = v) ∧
  a = authorized_record command (w_sys w) ∧
  w_core w' = action_inserted a v (mkSys (S (n_clock (w_sys w))) (S (n_uuid (w_sys w))))
                (w_core w) ∧
  db_inv (w_core w').
Proof.
  intros Hinv Hkey Hrun. pose proof Hrun as Hrun0. rewrite run_authorize_action, Hkey in Hrun.
  destruct (check_command command) as [e|[]] eqn:Hc; [done|].
  destruct (facts_check _ _ _) as [e|[]] eqn:Hf; [done|].
  apply run_insert_action in Hrun as [([= ->] & Hn & _ & Hw')|[[=] _]].
  apply check_command_ok in Hc. rewrite facts_check_ok in Hf. cbn in Hn.
  split_and!; [done|done| |done|exact Hw'|].
  - by eapply rowcount_version, Hn; apply inv_cases.
  - pose proof (steps_run _ _ w (authorize_action_calm command v)) as [Hg _].
    rewrite Hrun0 in Hg. by apply Hg.
Qed.

(** Repeating an authorized command returns the stored action and changes
    nothing; another command under the same key is refused, and changes
    nothing either. *)
Theorem authorize_action_idempotent command v w w' a v' command' :
  command_eqb command command = true →
  run (authorize_action command v) w = (w', inr a) →
  tget action_idem (c_idempotency_key command) (t_actions (w_core w)) = None →
  c_idempotency_key command' = c_idempotency_key command →
  run (authorize_action command v') w' = (w', inr a) ∧
  (command_eqb command command' = false →
   run (authorize_action command' v') w' =
   (w', inl (ValueError "Idempotency key is already bound to a different action command"))).
Proof.
  intros Hrefl Hrun Hkey Hk. rewrite run_authorize_action, Hkey in Hrun.
  destruct (check_command command) as [e|[]] eqn:Hc; [done|].
  destruct (facts_check _ _ _) as [e|[]] eqn:Hf; [done|].
  apply run_insert_action in Hrun as [([= ->] & _ & _ & Hw')|[[=] _]].
  assert (tget action_idem (c_idempotency_key command) (t_actions (w_core w'))
          = Some (authorized_record command (w_sys w))) as Hget.
  { rewrite Hw'. cbn. rewrite tget_snoc, Hkey. by rewrite bool_decide_true. }
  rewrite !run_authorize_action, Hk, Hget. cbn. rewrite Hrefl. split; [done|].
  by intros ->.
Qed.

(** C12: an authorization that raises stores nothing: whatever check, conflict or
    constraint stopped it, the database is the one it started from and no
    provider was called. *)
Theorem authorize_action_all_or_nothing command v w w' e :
  run (authorize_action command v) w = (w', inl e) →
  w_core w' = w_core w ∧ w_trace w' = w_trace w.
Proof.
  intros Hrun. split.
  - rewrite run_authorize_action in Hrun.
    destruct (tget _ _ _); [by case_match; injection Hrun as <- _|].
    destruct (check_command command) as [?|[]]; [by injection Hrun as <- _|].
    destruct (facts_check _ _ _) as [?|[]]; [by injection Hrun as <- _|].
    by apply run_insert_action in Hrun as [([=] & _)|[_ Hw']].
  - pose proof (steps_run _ _ w (authorize_action_calm command v)) as [_ Ht].
    by rewrite Hrun in Ht.
Qed.
End authorize.

Example authorize_action_guards_witness : command_admissible demo_command.
Proof.
  refine (proj1 (authorize_action_guards demo_command 5 demo demo_authorized demo_action
                   demo_db_inv _ _)); vm_compute; reflexivity.
Defined.

Example authorize_action_idempotent_witness :
  run (authorize_action demo_command 5) demo_authorized = (demo_authorized, inr demo_action).
Proof.
  refine (proj1 (authorize_action_idempotent demo_command 5 demo demo_authorized demo_action
                   5 demo_command' _ _ _ _)); vm_compute; reflexivity.
Defined.

Example authorize_action_all_or_nothing_witness :
  w_core (run (authorize_action demo_command 4) demo).1 = demo_db.
Proof.
  refine (proj1 (authorize_action_all_or_nothing demo_command 4 demo
                   (run (authorize_action demo_command 4) demo).1
                   (CaseConflict "Case CASE-1 version conflict") _)); vm_compute; reflexivity.
Defined.

(** A fact's own [expires_at] is stored but never read: a refund is authorized
    on facts that expired long before. *)
Definition demo_expired_db : core_db :=
  tbl_set case_facts
    (map (λ f, let p := fact_proposal f in
               mkFact (mkFactProposal (fact_name p) (fact_value p) (fact_authority p) (fact_source p)
                         (fact_evidence_ref p) (Some (-1)%Z))
                 (fact_case_id f) (fact_committed_at f) (fact_superseded_at f))
       (t_facts demo_db)) demo_db.

Example expired_facts_authorize :
  forallb (λ f, bool_decide (fact_expires_at (fact_proposal f) = Some (-1)%Z))
    (t_facts demo_expired_db) = true ∧
  (run (authorize_action demo_command 5) (demo_world tt demo_expired_db)).2 = inr demo_action.
Proof. split; vm_compute; reflexivity. Qed.
