(* ===== verification/KernelRaces.v ===== *)
(** * Races on the store

    Coroutines that compete to move the same row: which of them wins, and what
    the others see. *)

From S2P Require Import Prelude PyValue Prog RelyGuarantee Table ActionSpecs KernelData World KernelStore KernelInv CaseKernel Fixtures.

Section races.
Context `{Oracle} {Ext : Type}.
Abbreviation World := (World Ext).

Definition inv_w (w : World) : Prop := db_inv (w_core w).
Definition evolves_w (w w' : World) : Prop := evolves (w_core w) (w_core w').

#[export] Instance evolves_w_preorder : PreOrder evolves_w.
Proof. split; [intros w|intros w1 w2 w3]; unfold evolves_w; [reflexivity|apply transitivity]. Qed.

(** A step that leaves the database alone leaves every race alone. *)
Lemma race_idle (is_open : core_db → Prop) g (w w' : World) :
  w_core w' = w_core w → race_guar inv_w evolves_w (λ w, is_open (w_core w)) g w g w'.
Proof.
  intros He Hw. unfold inv_w, evolves_w. rewrite He. split_and!; [done|reflexivity|]. by left.
Qed.

(** The step of a race: the transaction either takes the row while it is open,
    leaving a database of which [K] is known, or raises [e] and changes nothing
    once it is closed. *)
Definition takes {A} (is_open K : core_db → Prop) (e : exn) (t : tx A) : Prop :=
  ∀ d s, db_inv d →
    match t d s with
    | (_, inr (_, d')) => good d d' ∧ is_open d ∧ ¬ is_open d' ∧ K d'
    | (_, inl e') => ¬ is_open d ∧ e' = e
    end.

(** A transaction that takes the row, then a query of it. *)
Lemma rg_take {A B} (is_open K : core_db → Prop) e (t : tx A) (k : A → prog World B) wins fine
    (w0 : World) :
  takes is_open K e t → wins (inl e) = false → fine (inl e) →
  (∀ a w, K (w_core w) → rg inv_w (race_rely evolves_w (λ w, is_open (w_core w)))
            (race_guar inv_w evolves_w (λ w, is_open (w_core w))) w true (k a)
            (race_post (λ w, is_open (w_core w)) wins fine)) →
  rg inv_w (race_rely evolves_w (λ w, is_open (w_core w)))
    (race_guar inv_w evolves_w (λ w, is_open (w_core w))) w0 false (commit t ≫= k)
    (race_post (λ w, is_open (w_core w)) wins fine).
Proof.
  intros Ht Hwe Hfe Hk.
  apply (rg_bind _ _ _ _ _ _ _ (λ w g r, match r with
     | inr _ => g = true ∧ K (w_core w) | inl e' => e' = e ∧ g = false ∧ ¬ is_open (w_core w) end)).
  - apply rg_atomically. intros w Hw _. specialize (Ht (w_core w) (w_sys w) Hw).
    destruct (t (w_core w) (w_sys w)) as [s [e'|[a d]]]; cbn.
    + destruct Ht as [Hcl ->]. exists false. split; [by apply race_idle|done].
    + destruct Ht as (Hg & Ho & Hc & HK). exists true. split; [|done]. intros _.
      destruct (Hg Hw) as [? ?]. split_and!; [done..|]. by right.
  - intros w g a [-> HK]. by apply Hk.
  - intros w g e' (-> & -> & ?). unfold race_post. by rewrite Hwe.
Qed.

(** A query changes nothing. *)
Lemma rg_query {R B} (is_open : core_db → Prop) (t : table R) p g (k : option R → prog World B)
    (Q : World → bool → result B → Prop) (w0 : World) :
  (∀ w, inv_w w → race_rely evolves_w (λ w, is_open (w_core w)) w0 w →
     rg inv_w (race_rely evolves_w (λ w, is_open (w_core w)))
       (race_guar inv_w evolves_w (λ w, is_open (w_core w)))
       (set_core (w_core w) (w_sys w) w) g (k (select_one p (tbl_get t (w_core w)))) Q) →
  rg inv_w (race_rely evolves_w (λ w, is_open (w_core w)))
    (race_guar inv_w evolves_w (λ w, is_open (w_core w))) w0 g (query t p ≫= k) Q.
Proof.
  intros Hk. cbn. intros w Hw H0. exists g. split; [by apply race_idle|]. by apply Hk.
Qed.

(** A case stays, once it exists. *)
Lemma case_stays cid d d' :
  evolves d d' → is_Some (tget case_key cid (t_cases d)) → is_Some (tget case_key cid (t_cases d')).
Proof. intros Hev [c Hc]. destruct (ev_cases d d' Hev cid c Hc) as (c' & ? & _). by exists c'. Qed.

(** The case stands at the version the writers saw. *)
Definition case_at (cid : string) (v : Z) (d : core_db) : Prop :=
  ∃ c, tget case_key cid (t_cases d) = Some c ∧ case_version (cr_case c) = v.

Definition conflict (cid : string) : exn := CaseConflict ("Case " +:+ cid +:+ " version conflict").

Lemma append_fact_takes cid proposal v :
  takes (case_at cid v) (λ d, is_Some (tget case_key cid (t_cases d))) (conflict cid)
    (append_fact_tx cid proposal v).
Proof.
  intros d s Hd. destruct (append_fact_tx cid proposal v d s) as [s' [e|[[] d']]] eqn:Ht.
  - unfold append_fact_tx, mbind, tx_bind, sql_update in Ht. cbn in Ht.
    destruct (Nat.eqb _ 1) eqn:Hn; cbn in Ht; [done|]. injection Ht as _ <-. split; [|done].
    intros (c & Hc & Hv). rewrite (rowcount_key case_key cid), Hc in Hn;
      [|apply Hd|by intros r [? _]%at_version_true].
    unfold at_version in Hn. rewrite Hv, Z.eqb_refl, andb_true_r in Hn.
    apply tget_key in Hc as [Hk _]. by rewrite bool_decide_true in Hn.
  - pose proof (append_fact_keeps cid proposal v d s s' tt d' Ht) as Hgood.
    apply append_fact_tx_inr in Ht as [Hn ->].
    destruct (rowcount_version cid v _ (inv_cases d Hd) Hn) as (c0 & Hc0 & Hv0).
    assert (tget case_key cid (t_cases (fact_appended cid proposal v (now_at (n_clock s)) d))
            = Some (bump_version c0)) as Hc'.
    { cbn. rewrite tget_bump, Hc0. cbn. unfold at_version. rewrite Hv0, Z.eqb_refl.
      by rewrite bool_decide_true by apply (tget_key _ _ _ _ Hc0). }
    split_and!; [done|by exists c0| |by rewrite Hc'].
    intros (c & Hc & Hv). rewrite Hc' in Hc. injection Hc as <-. cbn in Hv. lia.
Qed.

(** Writers that append facts to a case from the same version: however they
    interleave, at most one commits, every other gets the version conflict, and
    once all have finished exactly one has committed. *)
Theorem append_fact_one_winner cid v proposals (w w' : World) ps' :
  db_inv (w_core w) → case_at cid v (w_core w) →
  star pool_step (w, map (λ p, append_fact cid p v) proposals) (w', ps') →
  (∀ i r, ps' !! i = Some (Done r) → is_ok r = true ∨ r = inl (conflict cid)) ∧
  (∀ i j r r', ps' !! i = Some (Done r) → ps' !! j = Some (Done r') →
     is_ok r = true → is_ok r' = true → i = j) ∧
  (proposals ≠ [] → (∀ p, p ∈ ps' → is_Some (finished p)) →
   ∃ i r, ps' !! i = Some (Done r) ∧ is_ok r = true).
Proof.
  intros Hw Hat Hstar.
  edestruct (race_one_winner inv_w evolves_w (λ w, case_at cid v (w_core w)) (@is_ok CaseRecord)
              (λ r, is_ok r = true ∨ r = inl (conflict cid))) as (H1 & H2 & H3);
    [exact Hw|exact Hat| |exact Hstar|].
  - intros p (proposal & -> & _)%list_elem_of_fmap.
    eapply rg_take; [apply append_fact_takes|done|by right|].
    intros _ w1 Hc1. unfold get_case, query. cbn. intros w2 Hw2 [Hev _].
    exists true. split; [by apply race_idle|]. cbn.
    destruct (case_stays cid _ _ Hev Hc1) as [c Hc]. unfold tget in Hc. rewrite Hc. cbn.
    split; [by left|done].
  - split_and!; [done..|]. intros Hne. apply H3. by destruct proposals.
Qed.

(** A compare-and-set on one row: the UPDATE names the row's key and the state
    it must be in; [f] moves it out of that state. *)
Lemma cas_takes {R K} `{EqDecision K} (t : table R) (key : R → K) (k : K) (p : R → bool)
    (f : sys → R → R) (e : exn) (tx0 : tx unit) :
  (∀ r, p r = true → key r = k) → (∀ s r, key (f s r) = key r) → (∀ s r, p (f s r) = false) →
  (∀ l d, tbl_get t (tbl_set t l d) = l) →
  (∀ d, db_inv d → unique key (tbl_get t d)) →
  (∀ d s, (tx0 d s).2 =
     if Nat.eqb (rowcount p (tbl_get t d)) 1
     then inr (tt, tbl_set t (update_where p (f s) (tbl_get t d)) d)
     else inl e) →
  tx_preserves good tx0 →
  takes (λ d, ∃ r, tget key k (tbl_get t d) = Some r ∧ p r = true)
    (λ d, is_Some (tget key k (tbl_get t d))) e tx0.
Proof.
  intros Hpk Hfk Hpf Hset Hu Heq Hgood d s Hd.
  pose proof (rowcount_key key k p (tbl_get t d) (Hu d Hd) Hpk) as Hn.
  specialize (Heq d s).
  destruct (tx0 d s) as [s' [e'|[[] d']]] eqn:Ht; cbn in Heq.
  - destruct (Nat.eqb _ 1) eqn:E in Heq; [done|].
    injection Heq as ->. split; [|done]. intros (r & Hr & Hp).
    rewrite Hr, Hp in Hn. by rewrite Hn in E.
  - pose proof (Hgood d s s' tt d' Ht) as Hg.
    destruct (Nat.eqb _ 1) eqn:E in Heq; [|done]. injection Heq as ->.
    apply Nat.eqb_eq in E. rewrite E in Hn.
    destruct (tget key k (tbl_get t d)) as [r|] eqn:Hr; [|done].
    destruct (p r) eqn:Hp; [|done].
    assert (tget key k (update_where p (f s) (tbl_get t d)) = Some (f s r)) as Hr'.
    { rewrite tget_update by (by apply keeps_key_all). by rewrite Hr; cbn; rewrite Hp. }
    split_and!; [done|by exists r| |by rewrite Hset, Hr'].
    intros (r' & Hr1 & Hp1). rewrite Hset, Hr' in Hr1. injection Hr1 as <-.
    by rewrite Hpf in Hp1.
Qed.

(** The row that was taken is still there when it is read back. *)
Lemma rg_read_back {R K} `{EqDecision K} (is_open : core_db → Prop) (t : table R) (key : R → K)
    (k : K) (e : exn) fine (w0 : World) :
  (∀ d d', evolves d d' → is_Some (tget key k (tbl_get t d)) → is_Some (tget key k (tbl_get t d'))) →
  (∀ r : R, fine (inr r)) →
  is_Some (tget key k (tbl_get t (w_core w0))) →
  rg inv_w (race_rely evolves_w (λ w, is_open (w_core w)))
    (race_guar inv_w evolves_w (λ w, is_open (w_core w))) w0 true
    (row ← query t (λ r, bool_decide (key r = k));
     match row with Some r => mret r | None => mthrow e end)
    (race_post (λ w, is_open (w_core w)) is_ok fine).
Proof.
  intros Hst Hf H0. apply rg_query. intros w Hw [Hev _].
  destruct (Hst _ _ Hev H0) as [r Hr]. unfold tget in Hr. rewrite Hr. cbn. by split.
Qed.

(** The proposal is still pending. *)
Definition pending (pid : string) (d : core_db) : Prop :=
  ∃ p, tget p_proposal_id pid (t_proposals d) = Some p ∧ proposal_in pid P_PENDING p = true.

Definition proposal_conflict (pid : string) : exn :=
  ActionConflict ("Action proposal " +:+ pid +:+ " transition conflict from pending").

(** One decision on a proposal: the new status, the evidence and the action. *)
Definition decision : Type := ActionProposalStatus * option string * option string.

Definition decide_proposal (pid : string) (x : decision) : prog World ActionProposal :=
  transition_action_proposal pid P_PENDING x.1.1 x.1.2 x.2.

Lemma decide_takes pid status evidence aid now :
  status ≠ P_PENDING →
  takes (pending pid) (λ d, is_Some (tget p_proposal_id pid (t_proposals d)))
    (proposal_conflict pid)
    (n ← sql_update action_proposals (proposal_in pid P_PENDING)
           (set_proposal_status status evidence aid now);
     tx_require (Nat.eqb n 1) (proposal_conflict pid)).
Proof.
  intros Hne. apply (cas_takes action_proposals p_proposal_id pid) with
    (f := λ _, set_proposal_status status evidence aid now); try done.
  - intros r Hr. unfold proposal_in in Hr. by reflect_bools.
  - intros s r. unfold proposal_in. cbn. by rewrite (bool_decide_false (status = _)), andb_false_r.
  - intros d Hd. apply Hd.
  - intros d s. unfold mbind, tx_bind, sql_update. by destruct (Nat.eqb _ 1).
  - apply keeps_bind; [auto with wf|intros n; auto with wf typeclass_instances].
Qed.

(** C22: decisions on one pending proposal (confirm, cancel, expire): however they
    interleave, at most one takes effect and every other gets the conflict; once
    all have finished exactly one has. *)
Theorem proposal_decided_once pid (ds : list decision) (w w' : World) ps' :
  db_inv (w_core w) → pending pid (w_core w) → (∀ x, x ∈ ds → x.1.1 ≠ P_PENDING) →
  star pool_step (w, map (decide_proposal pid) ds) (w', ps') →
  (∀ i r, ps' !! i = Some (Done r) → is_ok r = true ∨ r = inl (proposal_conflict pid)) ∧
  (∀ i j r r', ps' !! i = Some (Done r) → ps' !! j = Some (Done r') →
     is_ok r = true → is_ok r' = true → i = j) ∧
  (ds ≠ [] → (∀ p, p ∈ ps' → is_Some (finished p)) →
   ∃ i r, ps' !! i = Some (Done r) ∧ is_ok r = true).
Proof.
  intros Hw Hp Hds Hstar.
  edestruct (race_one_winner inv_w evolves_w (λ w, pending pid (w_core w)) (@is_ok ActionProposal)
              (λ r, is_ok r = true ∨ r = inl (proposal_conflict pid))) as (H1 & H2 & H3);
    [exact Hw|exact Hp| |exact Hstar|].
  - intros p ([[st ev] aid] & -> & Hx)%list_elem_of_fmap. specialize (Hds _ Hx). cbn in Hds.
    unfold decide_proposal, transition_action_proposal, read_clock. cbn [fst snd].
    intros w1 Hw1 _. exists false. split; [by apply race_idle|].
    eapply rg_take; [by apply decide_takes|done|by right|].
    intros _ w2 Hk. unfold get_action_proposal.
    apply (rg_read_back _ action_proposals p_proposal_id pid); [|by left|exact Hk].
    intros d d' Hev [r Hr]. destruct (ev_proposals d d' Hev pid r Hr) as (r' & ? & _). by exists r'.
  - split_and!; [done..|]. intros Hne. apply H3. by destruct ds.
Qed.

(** The handoff is still in the state the agents saw. *)
Definition handoff_in (hid expected : string) (d : core_db) : Prop :=
  ∃ h, tget h_handoff_id hid (t_handoffs d) = Some h ∧
       (bool_decide (h_handoff_id h = hid) && String.eqb (h_status h) expected) = true.

Definition handoff_conflict (hid expected : string) : exn :=
  HandoffConflict ("Handoff " +:+ hid +:+ " transition conflict from " +:+ expected).

Lemma handoff_takes hid expected status agent :
  status ≠ expected →
  takes (handoff_in hid expected) (λ d, is_Some (tget h_handoff_id hid (t_handoffs d)))
    (handoff_conflict hid expected)
    (now ← tx_now;
     n ← sql_update handoffs
           (λ r, bool_decide (h_handoff_id r = hid) && String.eqb (h_status r) expected)
           (set_handoff status agent now);
     tx_require (Nat.eqb n 1) (handoff_conflict hid expected)).
Proof.
  intros Hne. apply (cas_takes handoffs h_handoff_id hid) with
    (f := λ s, set_handoff status agent (now_at (n_clock s))); try done.
  - intros r Hr. by reflect_bools.
  - intros s r. cbn. apply String.eqb_neq in Hne. by rewrite Hne, andb_false_r.
  - intros d Hd. apply Hd.
  - intros d s. unfold mbind, tx_bind, tx_now, sql_update. by destruct (Nat.eqb _ 1).
  - apply keeps_bind; [auto with wf typeclass_instances|intros now].
    apply keeps_bind; [auto with wf|intros n; auto with wf typeclass_instances].
Qed.

(** Agents moving one handoff out of the same state: at most one succeeds,
    every other gets the conflict, and once all have finished exactly one has. *)
Theorem handoff_moved_once hid expected (moves : list (string * option string)) (w w' : World) ps' :
  db_inv (w_core w) → handoff_in hid expected (w_core w) →
  (∀ m, m ∈ moves → m.1 ≠ expected) →
  star pool_step
    (w, map (λ m, store_transition_handoff hid expected m.1 m.2) moves) (w', ps') →
  (∀ i r, ps' !! i = Some (Done r) → is_ok r = true ∨ r = inl (handoff_conflict hid expected)) ∧
  (∀ i j r r', ps' !! i = Some (Done r) → ps' !! j = Some (Done r') →
     is_ok r = true → is_ok r' = true → i = j) ∧
  (moves ≠ [] → (∀ p, p ∈ ps' → is_Some (finished p)) →
   ∃ i r, ps' !! i = Some (Done r) ∧ is_ok r = true).
Proof.
  intros Hw Hp Hms Hstar.
  edestruct (race_one_winner inv_w evolves_w (λ w, handoff_in hid expected (w_core w))
              (@is_ok HandoffRow)
              (λ r, is_ok r = true ∨ r = inl (handoff_conflict hid expected))) as (H1 & H2 & H3);
    [exact Hw|exact Hp| |exact Hstar|].
  - intros p ([st agent] & -> & Hx)%list_elem_of_fmap. specialize (Hms _ Hx). cbn in Hms.
    unfold store_transition_handoff. cbn [fst snd].
    eapply rg_take; [by apply handoff_takes|done|by right|].
    intros _ w2 Hk. unfold get_handoff.
    apply (rg_read_back _ handoffs h_handoff_id hid); [|by left|exact Hk].
    intros d d' Hev [r Hr]. destruct (ev_handoffs d d' Hev hid r Hr) as (r' & ? & _). by exists r'.
  - split_and!; [done..|]. intros Hne. apply H3. by destruct moves.
Qed.
End races.

(** A schedule that alternates between two coroutines. *)
Definition alternate : list nat := [0; 1; 1; 0; 0; 1; 0; 1; 0; 1].

Example append_fact_one_winner_witness :
  ∃ i r,
    (schedule alternate demo (map (λ p, append_fact "CASE-1" p 5) demo_observations)).2 !! i
      = Some (Done r) ∧ is_ok r = true.
Proof.
  refine (proj2 (proj2 (append_fact_one_winner "CASE-1" 5 demo_observations demo _ _ demo_db_inv _
                          (schedule_reaches alternate _ _))) _ _).
  - eexists. split; vm_compute; reflexivity.
  - done.
  - apply all_finished_spec. vm_compute. reflexivity.
Defined.

Definition demo_decisions : list decision :=
  [(P_CONFIRMED, Some "MSG-2", Some "ACT-0"); (P_CANCELLED, None, None)].

Example proposal_decided_once_witness :
  ∃ i r,
    (schedule alternate demo_open (map (decide_proposal "PROP-1") demo_decisions)).2 !! i
      = Some (Done r) ∧ is_ok r = true.
Proof.
  refine (proj2 (proj2 (proposal_decided_once "PROP-1" demo_decisions demo_open _ _
                          demo_db_open_inv _ _ (schedule_reaches alternate _ _))) _ _).
  - eexists. split; vm_compute; reflexivity.
  - intros x Hx. repeat (apply elem_of_cons in Hx as [->|Hx]; [done|]).
    by apply not_elem_of_nil in Hx.
  - done.
  - apply all_finished_spec. vm_compute. reflexivity.
Defined.

Definition demo_moves : list (string * option string) :=
  [("accepted", Some "AGENT-1"); ("accepted", Some "AGENT-2")].

Example handoff_moved_once_witness :
  ∃ i r,
    (schedule alternate demo_open
       (map (λ m, store_transition_handoff "HO-1" "requested" m.1 m.2) demo_moves)).2 !! i
      = Some (Done r) ∧ is_ok r = true.
Proof.
  refine (proj2 (proj2 (handoff_moved_once "HO-1" "requested" demo_moves demo_open _ _
                          demo_db_open_inv _ _ (schedule_reaches alternate _ _))) _ _).
  - eexists. split; vm_compute; reflexivity.
  - intros x Hx. repeat (apply elem_of_cons in Hx as [->|Hx]; [done|]).
    by apply not_elem_of_nil in Hx.
  - done.
  - apply all_finished_spec. vm_compute. reflexivity.
Defined.
