(* ===== verification/KernelSerial.v ===== *)
(** * Authorization under concurrency

    The facts [authorize_action] checks are read in queries of their own, before
    the transaction that stores the action.  The version check of that
    transaction makes the whole as good as atomic. *)

From S2P Require Import Prelude PyValue Prog RelyGuarantee Table ActionSpecs KernelData World KernelStore KernelInv CaseKernel Fixtures KernelRaces.

Section serial.
Context `{Oracle} {Ext : Type}.
Abbreviation World := (World Ext).

(** Every coroutine guarantees calm steps. *)
Definition calm_guar (_ : unit) (w : World) (_ : unit) (w' : World) : Prop := calm w w'.

#[export] Instance calm_laws : GuaranteeLaws inv_w evolves_w calm_guar.
Proof.
  split; intros [] w [] w' [Hg _] Hw; by apply Hg.
Qed.

Abbreviation triple := (rg inv_w evolves_w calm_guar).

(** A verified fact was read from a database on the way to the present one. *)
Definition seen (command : ActionCommand) (p f : string) (w0 w : World) : Prop :=
  ∃ d, evolves (w_core w0) d ∧ evolves d (w_core w) ∧ db_inv d ∧ fact_verified command p f d.

Lemma seen_later command p f w0 w w' :
  evolves_w w w' → seen command p f w0 w → seen command p f w0 w'.
Proof. intros Hev (d & ? & ? & ? & ?). exists d. split_and!; [done|by etrans|done..]. Qed.

Lemma seen_earlier command p f w0 w1 w :
  evolves_w w0 w1 → seen command p f w1 w → seen command p f w0 w.
Proof. intros Hev (d & ? & ? & ? & ?). exists d. split_and!; [by etrans|done..]. Qed.

Lemma rg_check_facts command refs w0 :
  triple w0 tt
    (for_each refs tt (λ _ ref,
       fact ← get_fact (c_case_id command) ref.2;
       lift_result (check_fact command ref.1 ref.2 fact)))
    (λ w _ r, evolves_w w0 w ∧
       (r = inr tt → ∀ p f, (p, f) ∈ refs → seen command p f w0 w)).
Proof.
  revert w0; induction refs as [|[p f] refs IH]; intros w0.
  - cbn. split; [reflexivity|]. by intros _ p f ?%not_elem_of_nil.
  - cbn [for_each fst snd]. unfold get_fact, query. cbn. intros w1 Hw1 H01.
    exists tt. split; [by apply calm_idle|]. rewrite set_core_id.
    destruct (check_fact command p f _) as [e|[]] eqn:Hc; cbn; [by split|].
    eapply rg_conseq; [|apply IH]. intros w2 [] r [H12 Hr]. split; [by etrans|].
    intros -> p' f' [[= -> ->]|Hin]%elem_of_cons.
    + exists (w_core w1). split_and!; [done|done|done|by apply check_fact_ok].
    + eapply seen_earlier; [exact H01|auto].
Qed.

(** The state at which an authorization took effect. *)
Definition authorized_at (command : ActionCommand) (v : Z) (a : ActionRecord) (w0 w : World) :
    Prop :=
  ∃ d s, evolves (w_core w0) d ∧ db_inv d ∧ case_at (c_case_id command) v d ∧
    (∀ p f, (p, f) ∈ c_parameter_fact_refs command → fact_verified command p f d) ∧
    a_command a = command ∧
    evolves (action_inserted a v s d) (w_core w).

(** The stored action an authorization found under its key. *)
Definition repeated_at (command : ActionCommand) (a : ActionRecord) (w0 w : World) : Prop :=
  ∃ d, evolves (w_core w0) d ∧
    tget action_idem (c_idempotency_key command) (t_actions d) = Some a ∧
    command_eqb (a_command a) command = true ∧ evolves d (w_core w).

Lemma current_fact_tget cid f d :
  db_inv d →
  current_fact cid f d =
  match tget fact_key (cid, f) (t_facts d) with
  | Some r => if bool_decide (fact_superseded_at r = None) then Some r else None
  | None => None
  end.
Proof. intros Hd. apply select_one_key, Hd. Qed.

(** The version check of the final transaction catches every change of facts. *)
Lemma seen_current command p f v c w0 w :
  db_inv (w_core w) →
  tget case_key (c_case_id command) (t_cases (w_core w0)) = Some c →
  (v ≤ case_version (cr_case c))%Z →
  case_at (c_case_id command) v (w_core w) →
  seen command p f w0 w → fact_verified command p f (w_core w).
Proof.
  intros Hw Hc Hv (c2 & Hc2 & Hv2) (d & H0 & H2 & Hd & Hf).
  destruct (ev_cases _ _ H0 _ _ Hc) as (c1 & Hc1 & Hr1).
  destruct (ev_cases _ _ H2 _ _ Hc1) as (c2' & Hc2' & Hr2).
  rewrite Hc2 in Hc2'. injection Hc2' as <-.
  assert (case_version (cr_case c2) = case_version (cr_case c1)) as Heq.
  { destruct Hr1 as (_&_&_&_&?), Hr2 as (_&_&_&_&?). lia. }
  pose proof (ev_pinned _ _ H2 _ c1 c2 Hc1 Hc2 Heq f) as Hp.
  destruct Hf as (fact & required & Hcur & ?). exists fact, required. split; [|done].
  rewrite current_fact_tget in * by done. by rewrite Hp.
Qed.

(** What [authorize_action] guarantees when it runs among calm coroutines. *)
Definition authorized_post command v w0 (w : World) (_ : unit) (r : result ActionRecord) : Prop :=
  match r with
  | inr a => authorized_at command v a w0 w ∨ repeated_at command a w0 w
  | inl _ => True
  end.

Lemma authorized_post_stable command v w0 : stable evolves_w (authorized_post command v w0).
Proof.
  intros w w' g [e|a] Hev; [done|]. intros [(d & s & ? & ? & ? & ? & ? & ?)|(d & ? & ? & ? & ?)].
  - left. exists d, s. split_and!; [done..|]. by etrans.
  - right. exists d. split_and!; [done..|]. by etrans.
Qed.

Lemma rg_authorize_action command v c (w0 : World) :
  tget case_key (c_case_id command) (t_cases (w_core w0)) = Some c →
  (v ≤ case_version (cr_case c))%Z →
  triple w0 tt (authorize_action command v) (authorized_post command v w0).
Proof.
  intros Hc Hv. unfold authorize_action, get_action_by_key, query. cbn.
  intros w1 Hw1 H01. exists tt. split; [by apply calm_idle|]. rewrite set_core_id.
  change (select_one _ _) with
    (tget action_idem (c_idempotency_key command) (t_actions (w_core w1))).
  destruct (tget action_idem _ _) as [dup|] eqn:Hdup.
  { destruct (command_eqb _ _) eqn:Heq; cbn; [|done]. right.
    exists (w_core w1). by split_and!. }
  destruct (check_command command) as [e|[]]; cbn; [done|].
  eapply rg_bind; [apply rg_check_facts| |done].
  intros w2 [] [] [H12 Hseen]. specialize (Hseen eq_refl).
  intros w3 Hw3 H23. exists tt. split; [by apply calm_idle|].
  intros w4 Hw4 H34. exists tt. split; [by apply calm_idle|].
  intros w5 Hw5 H45.
  set (a := mkAction _ _ _ _ _ _).
  destruct (insert_action_tx a v (w_core w5) (w_sys w5)) as [s [e|[[] d']]] eqn:Ht; cbn.
  { exists tt. split; [by apply calm_idle|done]. }
  exists tt. split.
  { split; [|done]. exact (insert_action_keeps a v eq_refl _ _ _ _ _ Ht). }
  left. apply insert_action_tx_inr in Ht as (Hn & _ & _ & _ & _ & _ & _ & ->).
  assert (evolves_w w2 w5) as H25 by (etrans; [exact H23|]; etrans; [exact H34|exact H45]).
  assert (case_at (c_case_id command) v (w_core w5)) as Hat.
  { by eapply rowcount_version; [apply Hw5|]. }
  assert (evolves_w w0 w5) as H05 by (etrans; [exact H01|]; etrans; [exact H12|exact H25]).
  exists (w_core w5), (w_sys w5). split_and!; try done.
  intros p f Hin. eapply seen_current; [exact Hw5|exact Hc|exact Hv|exact Hat|].
  eapply seen_later; [exact H25|]. eapply seen_earlier; [exact H01|]. by apply Hseen.
Qed.

(** C11: however an authorization interleaves with coroutines that only commit
    store transactions, a success means that at one single moment the case
    stood at the caller's version and every fact reference was verified, and
    the action was stored at that moment; or the key had already been used for
    an equal command. *)
Theorem authorize_action_serializable command v c (w w' : World) others ps' a :
  db_inv (w_core w) →
  tget case_key (c_case_id command) (t_cases (w_core w)) = Some c →
  (v ≤ case_version (cr_case c))%Z →
  Forall (steps calm) others →
  star pool_step (w, authorize_action command v :: others) (w', ps') →
  ps' !! 0 = Some (Done (inr a)) →
  authorized_at command v a w w' ∨ repeated_at command a w w'.
Proof.
  intros Hw Hc Hv Hothers Hstar Ha.
  set (Q := λ i : nat, match i with 0 => authorized_post command v w | S _ => λ _ _ _, True end).
  assert (∀ i, stable evolves_w (Q i)) as Hstable.
  { intros [|i]; [apply authorized_post_stable|by intros ?????]. }
  destruct (pool_rg inv_w evolves_w calm_guar (λ _ _, True) (λ _ _ _ _ _ _ _ _ _ _, I) Q Hstable
              _ _ (replicate (S (length others)) tt) Hstar) as (gs' & Hok & _).
  - split_and!; cbn; [done|done|by rewrite length_replicate|].
    intros [|i] p Hp; cbn in *.
    + injection Hp as <-. exists tt. split; [done|]. by eapply rg_authorize_action.
    + exists tt. split; [by apply lookup_replicate, conj, (lookup_lt_Some _ _ _ Hp)|].
      eapply rg_conseq; [done|]. apply (rg_frame inv_w evolves_w calm_guar calm); [done|].
      by eapply Forall_lookup.
  - by destruct (pool_result _ _ _ _ _ _ _ _ _ _ Hok Ha) as (g & HQ).
Qed.
End serial.

(** A clerk appends a fact to the case while the refund is being authorized: the
    authorization that started from version 5 loses, whatever it has read. *)
Definition demo_clerk : prog (World unit) ActionRecord :=
  _ ← append_fact "CASE-1" (mkFactProposal "refund_amount" (VInt 10) VERIFIED "svc" "ref" None) 5;
  mthrow AssertionError.

Example authorize_action_serializable_witness :
  authorized_at demo_command 5 demo_action demo
    (schedule (replicate 9 0 ++ [1; 1]) demo [authorize_action demo_command 5; demo_clerk]).1 ∨
  repeated_at demo_command demo_action demo
    (schedule (replicate 9 0 ++ [1; 1]) demo [authorize_action demo_command 5; demo_clerk]).1.
Proof.
  eapply (authorize_action_serializable demo_command 5) with (others := [demo_clerk]).
  - exact demo_db_inv.
  - vm_compute. reflexivity.
  - cbn. lia.
  - constructor; [unfold demo_clerk; step_through|constructor].
  - apply schedule_reaches.
  - vm_compute. reflexivity.
Defined.
