(* ===== verification/PolicyStore.v ===== *)
(** * Persistent policies ([core/policy_store.py])

    [SQLitePolicyRepository] keeps one row per package, with a partial unique
    index that allows one active package per procedure and jurisdiction;
    [PolicyService] moves packages through their lifecycle and keeps the
    in-process registry in step. *)

From S2P Require Import Prelude PyValue PyString Prog Table ActionSpecs Policy KernelData World CaseKernel.

(** [create_policy_repository]: the scheme of the URL picks the repository. *)
Definition create_policy_repository (database_url : string) (adapters : list string) :
    result store_choice :=
  let scheme := before "+" (before ":" database_url) in
  if String.eqb scheme "sqlite" then
    inr (SQLite match after "///" database_url with Some p => p | None => database_url end)
  else if bool_decide (scheme ∈ adapters) then inr (Adapter scheme database_url)
  else inl (ValueError ("No policy repository adapter configured for database scheme '"
                          +:+ scheme +:+ "'")).

(** ** The table *)

Definition row_of (p : PolicyPackage) : policy_row :=
  mkPolicyRow (pk_package_id p) (pk_procedure_id p) (pk_version p) (pk_jurisdiction p)
    (pk_lifecycle p) p.

(** [DO UPDATE SET lifecycle, package_json]: the other columns stay. *)
Definition set_package (p : PolicyPackage) (r : policy_row) : policy_row :=
  mkPolicyRow (pr_package_id r) (pr_procedure_id r) (pr_version r) (pr_jurisdiction r)
    (pk_lifecycle p) p.

Definition is_active (r : policy_row) : bool := bool_decide (pr_lifecycle r = ACTIVE).
Definition scope (r : policy_row) : string * string := (pr_procedure_id r, pr_jurisdiction r).

(** [idx_one_active_policy] *)
Definition one_active (t : list policy_row) : Prop := NoDup (map scope (select_where is_active t)).
#[export] Instance one_active_dec t : Decision (one_active t).
Proof. unfold one_active. apply _. Defined.

Definition upsert_package (p : PolicyPackage) (t : list policy_row) : result (list policy_row) :=
  let t' := tupsert pr_package_id (row_of p) (set_package p) t in
  if bool_decide (one_active t') then inr t'
  else inl (IntegrityError "idx_one_active_policy").

(** The UPDATE of one prior package: the row leaves the index. *)
Definition retire_row (p : PolicyPackage) (t : list policy_row) : list policy_row :=
  update_where (λ r, bool_decide (pr_package_id r = pk_package_id p))
    (λ r, mkPolicyRow (pr_package_id r) (pr_procedure_id r) (pr_version r) (pr_jurisdiction r)
            RETIRED p) t.

Definition replace_active_rows (active : PolicyPackage) (retired : list PolicyPackage)
    (t : list policy_row) : result (list policy_row) :=
  upsert_package active (fold_left (λ t p, retire_row p t) retired t).

(** [ORDER BY procedure_id, version] *)
Definition row_le (r r' : policy_row) : bool :=
  if String.eqb (pr_procedure_id r) (pr_procedure_id r')
  then String.leb (pr_version r) (pr_version r')
  else String.leb (pr_procedure_id r) (pr_procedure_id r').

Section repository.
Context {Ext : Type}.
Abbreviation prog := (prog (World Ext)).

(** One transaction on the policy table. *)
Definition policy_commit {A} (op : list policy_row → result (A * list policy_row)) : prog A :=
  atomically (λ w,
    match op (w_policies w) with
    | inl e => (w, inl e)
    | inr (a, t) => (set_policies t w, inr a)
    end).

Definition repo_save (p : PolicyPackage) : prog unit :=
  policy_commit (λ t, let? t' := upsert_package p t in inr (tt, t'))%wf.

Definition replace_active (active : PolicyPackage) (retired : list PolicyPackage) : prog unit :=
  policy_commit (λ t, let? t' := replace_active_rows active retired t in inr (tt, t'))%wf.

Definition repo_get (package_id : string) : prog (option PolicyPackage) :=
  policy_commit (λ t, inr (option_map pr_package (tget pr_package_id package_id t), t)).

Definition repo_list (lifecycle : option PolicyLifecycle) : prog (list PolicyPackage) :=
  policy_commit (λ t,
    inr (map pr_package (order_le row_le
           match lifecycle with
           | None => t
           | Some l => select_where (λ r, bool_decide (pr_lifecycle r = l)) t
           end), t)).

(** A call on the in-process registry. *)
Definition registry_call (f : PolicyRegistry → result PolicyRegistry) : prog unit :=
  atomically (λ w,
    match f (w_registry w) with
    | inl e => (w, inl e)
    | inr rg => (set_registry rg w, inr tt)
    end).
End repository.

(** ** The service *)
Section service.
Context `{Hmac} (sg : PolicySigner) {Ext : Type}.
Abbreviation prog := (prog (World Ext)).

Definition hydrate : prog unit :=
  packages ← repo_list None;
  for_each packages tt (λ _ p,
    if bool_decide (pk_lifecycle p ∈ [ACTIVE; RETIRED])
    then registry_call (registry_load_history sg p) else mret tt).

Definition _require (package_id : string) : prog PolicyPackage :=
  package ← repo_get package_id;
  match package with Some p => mret p | None => mthrow (KeyError package_id) end.

Definition service_require_active (package_id : string) : prog PolicyPackage :=
  package ← _require package_id;
  _ ← require (bool_decide (pk_lifecycle package = ACTIVE) && verify sg package)
        (ValueError ("Policy package is not active: " +:+ package_id));
  _ ← registry_call (registry_load_history sg package);
  mret package.

Definition service_require_authorization_snapshot (package_id activation_signature : string) :
    prog PolicyPackage :=
  package ← _require package_id;
  _ ← require (bool_decide (pk_lifecycle package ∈ [ACTIVE; RETIRED]))
        (ValueError "Policy package is not executable history");
  _ ← require (verify sg package) (ValueError "Policy history signature is invalid");
  _ ← require (ostr_eqb (pk_activation_signature package) (Some activation_signature))
        (ValueError "Action policy activation snapshot does not match history");
  _ ← registry_call (registry_load_history sg package);
  mret package.

Definition value_str (v : value) : option string :=
  match v with VStr s => Some s | _ => None end.

(** The check of [rules["allowed_actions"]]. *)
Definition check_allowed_actions (p : PolicyPackage) : result unit :=
  match dget_or "allowed_actions" (VList []) (pk_rules p) with
  | VList allowed =>
      match mapM value_str allowed with
      | None => inl (ValueError "allowed_actions must be a list of action names")
      | Some names =>
          let unknown := list_to_set names ∖ dkeyset ACTION_SPECIFICATIONS in
          if bool_decide (unknown = ∅) then inr tt
          else inl (ValueError ("Policy contains unknown actions: "
                                  +:+ join ", " (sorted_set unknown)))
      end
  | _ => inl (ValueError "allowed_actions must be a list of action names")
  end.

Definition create_draft (p : PolicyPackage) : prog PolicyPackage :=
  _ ← require (bool_decide (pk_lifecycle p = DRAFT))
        (ValueError "New policy packages must begin as drafts");
  existing ← repo_get (pk_package_id p);
  _ ← require (bool_decide (existing = None))
        (ValueError ("Policy package already exists: " +:+ pk_package_id p));
  _ ← lift_result (check_allowed_actions p);
  _ ← repo_save p;
  mret p.

Definition service_approve (package_id approver : string) : prog PolicyPackage :=
  package ← _require package_id;
  _ ← require (bool_decide (pk_lifecycle package = DRAFT))
        (ValueError "Only draft policies can be approved");
  approved ← lift_result (approve sg package approver);
  _ ← repo_save approved;
  mret approved.

Definition mapM_result {A B} (f : A → result B) : list A → result (list B) :=
  fix go l :=
    match l with
    | [] => inr []
    | x :: l' => rbind (f x) (λ y, rbind (go l') (λ ys, inr (y :: ys)))
    end.

(** The packages an activation replaces. *)
Definition replaced_by (active : PolicyPackage) (p : PolicyPackage) : bool :=
  String.eqb (pk_procedure_id p) (pk_procedure_id active) &&
  String.eqb (pk_jurisdiction p) (pk_jurisdiction active) &&
  negb (String.eqb (pk_package_id p) (pk_package_id active)).

Definition service_activate (package_id : string) : prog PolicyPackage :=
  package ← _require package_id;
  active ← lift_result (activate sg package);
  current ← repo_list (Some ACTIVE);
  let prior := select_where (replaced_by active) current in
  retired ← lift_result (mapM_result (retire sg) prior);
  _ ← replace_active active retired;
  _ ← for_each retired tt (λ _ p,
        registry_call (λ rg, inr (registry_retire (pk_package_id p) rg)));
  _ ← registry_call (registry_load sg active);
  mret active.

Definition service_retire (package_id : string) : prog PolicyPackage :=
  package ← _require package_id;
  retired ← lift_result (retire sg package);
  _ ← repo_save retired;
  _ ← registry_call (λ rg, inr (registry_retire package_id rg));
  mret retired.
End service.
