(* ===== verification/PolicyProps.v ===== *)
(** * Properties of governed policies *)

From S2P Require Import Prelude PyValue Prog RelyGuarantee Table ActionSpecs Policy KernelData World CaseKernel PolicyStore.

(** [hexdigest()] is never the empty string. *)
Class HmacLaws `{Hmac} := hmac_nonempty k v : hmac_hex k v ≠ "".

(** A signer verifies with the key it signs with: what [__init__] establishes. *)
Definition signer_wf (sg : PolicySigner) : Prop :=
  dget (sg_key_id sg) (sg_verification_keys sg) = Some (sg_key sg).

Lemma init_signer_wf key key_id keys sg :
  PolicySigner_init key key_id keys = inr sg → signer_wf sg.
Proof.
  unfold PolicySigner_init. case_match; [done|]. intros [= <-].
  unfold signer_wf. cbn. apply dget_dset_eq.
Qed.

Section signer.
Context `{HmacLaws} (sg : PolicySigner) (Hsg : signer_wf sg).

Lemma str_truthy_hmac k v : str_truthy (Some (hmac_hex k v)) = true.
Proof. pose proof (hmac_nonempty k v). unfold str_truthy. by destruct (hmac_hex k v). Qed.

(** A package signed now verifies. *)
Lemma verify_signed p :
  pk_lifecycle p ∈ [APPROVED; ACTIVE; RETIRED] → pk_signing_key_id p = Some (sg_key_id sg) →
  pk_signature p = Some (hmac_hex (sg_key sg) (canonical_payload p)) → verify sg p = true.
Proof.
  intros Hl Hk Hs. unfold verify. rewrite Hs, str_truthy_hmac, bool_decide_true by done. cbn.
  rewrite Hk, Hsg. apply String.eqb_refl.
Qed.

Lemma approve_spec p approver q :
  approve sg p approver = inr q →
  approver ≠ pk_author p ∧ verify sg q = true ∧ pk_lifecycle q = APPROVED ∧
  pk_approver q = Some approver ∧ pk_author q = pk_author p ∧ pk_rules q = pk_rules p ∧
  pk_package_id q = pk_package_id p.
Proof.
  unfold approve. destruct (String.eqb_spec approver (pk_author p)); [done|]. intros [= <-].
  split_and!; [done| |done..]. apply verify_signed; [by left|done|done].
Qed.

Lemma activate_spec p q :
  activate sg p = inr q →
  pk_lifecycle p = APPROVED ∧ verify sg p = true ∧ verify sg q = true ∧ pk_lifecycle q = ACTIVE ∧
  pk_activation_signature q = pk_signature q ∧ pk_approver q = pk_approver p ∧
  pk_author q = pk_author p ∧ pk_rules q = pk_rules p ∧ pk_package_id q = pk_package_id p.
Proof.
  unfold activate. case_bool_decide as Hl; [|done]. destruct (verify sg p) eqn:Hv; [|done].
  intros [= <-]. split_and!; [done|done| |done..].
  apply verify_signed; [right; by left|done|done].
Qed.

Lemma retire_spec p q :
  retire sg p = inr q →
  pk_lifecycle p = ACTIVE ∧ verify sg p = true ∧ verify sg q = true ∧ pk_lifecycle q = RETIRED ∧
  pk_activation_signature q = pk_activation_signature p ∧ pk_approver q = pk_approver p ∧
  pk_author q = pk_author p ∧ pk_rules q = pk_rules p ∧ pk_package_id q = pk_package_id p.
Proof.
  unfold retire. case_bool_decide as Hl; [|done]. destruct (verify sg p) eqn:Hv; [|done].
  intros [= <-]. split_and!; [done|done| |done..].
  apply verify_signed; [right; right; by left|done|done].
Qed.
End signer.

(** ** What a signature binds *)

(** The signed fields, in the order of the canonical text. *)
Lemma canonical_payload_eq p :
  canonical_payload p = VDict
    [ ("approver", ostr_value (pk_approver p)); ("author", VStr (pk_author p));
      ("jurisdiction", VStr (pk_jurisdiction p));
      ("lifecycle", VStr (lifecycle_value (pk_lifecycle p)));
      ("package_id", VStr (pk_package_id p)); ("procedure_id", VStr (pk_procedure_id p));
      ("rules", canonical_json (VDict (pk_rules p)));
      ("signing_key_id", ostr_value (pk_signing_key_id p)); ("version", VStr (pk_version p)) ].
Proof.
  unfold canonical_payload. cbn [canonical_json map fst snd].
  fold (canonical_json (VDict (pk_rules p))).
  assert (∀ o, canonical_json (ostr_value o) = ostr_value o) as Ho by by intros [].
  rewrite !Ho. reflexivity.
Qed.

Lemma ostr_value_inj o o' : ostr_value o = ostr_value o' → o = o'.
Proof. destruct o, o'; cbn; congruence. Qed.

Lemma lifecycle_value_inj l l' : lifecycle_value l = lifecycle_value l' → l = l'.
Proof. by destruct l, l'. Qed.

(** No field that is signed can be changed under a signature: two packages
    that verify with the same signature and key agree on every signed field,
    unless the MAC collides on their texts; only the activation snapshot, which
    is outside the signed text, may differ. *)
Theorem signature_binds_package `{Hmac} sg p q :
  verify sg p = true → verify sg q = true →
  pk_signature p = pk_signature q → pk_signing_key_id p = pk_signing_key_id q →
  (∀ k, hmac_hex k (canonical_payload p) = hmac_hex k (canonical_payload q) →
        canonical_payload p = canonical_payload q) →
  pk_package_id p = pk_package_id q ∧ pk_procedure_id p = pk_procedure_id q ∧
  pk_version p = pk_version q ∧ pk_jurisdiction p = pk_jurisdiction q ∧
  pk_author p = pk_author q ∧ pk_approver p = pk_approver q ∧
  pk_lifecycle p = pk_lifecycle q ∧
  canonical_json (VDict (pk_rules p)) = canonical_json (VDict (pk_rules q)).
Proof.
  intros Hp Hq Hs Hk Hcr. unfold verify in Hp, Hq. rewrite Hs, Hk in Hp.
  destruct (negb (str_truthy _) || _); [done|]. destruct (negb (str_truthy _) || _); [done|].
  destruct (pk_signing_key_id q) as [kid|]; [|done].
  destruct (dget kid _) as [key|]; [|done].
  destruct (pk_signature q) as [sig|]; [|done]. unfold ostr_eqb, opt_eqb in Hp, Hq.
  apply String.eqb_eq in Hp, Hq. subst sig.
  specialize (Hcr key Hq). rewrite !canonical_payload_eq in Hcr.
  injection Hcr as Happ Haut Hjur Hlif Hid Hproc Hrules _ Hver.
  apply ostr_value_inj in Happ. apply lifecycle_value_inj in Hlif. split_and!; try done.
  exact (f_equal VDict Hrules).
Qed.

(** ** The lifecycle *)

(** What identifies a package. *)
Definition same_package (p q : PolicyPackage) : Prop :=
  pk_package_id q = pk_package_id p ∧ pk_procedure_id q = pk_procedure_id p ∧
  pk_version q = pk_version p ∧ pk_jurisdiction q = pk_jurisdiction p ∧
  pk_author q = pk_author p ∧ pk_rules q = pk_rules p.

Lemma approve_same `{Hmac} sg p a q : approve sg p a = inr q → same_package p q.
Proof. unfold approve. destruct (String.eqb _ _); [done|]. by intros [= <-]. Qed.
Lemma activate_same `{Hmac} sg p q : activate sg p = inr q → same_package p q.
Proof. unfold activate. destruct (_ || _); [done|]. by intros [= <-]. Qed.
Lemma retire_same `{Hmac} sg p q : retire sg p = inr q → same_package p q.
Proof. unfold retire. destruct (_ || _); [done|]. by intros [= <-]. Qed.

(** [p] carries the signature of [q]. *)
Definition carries_signature_of (q p : PolicyPackage) : Prop :=
  pk_signature p = pk_signature q ∧ pk_signing_key_id p = pk_signing_key_id q.

(** C29: the signer's lifecycle, for any package, however it came about.  A draft
    never verifies.  A package is approved exactly by somebody other than its
    author; activated exactly when it is an approved one whose signature verifies;
    retired exactly when it is an active one whose signature verifies.  What each
    step returns verifies at its stage, and is the same package: id, procedure,
    version, jurisdiction, author, rules, and after the approval the approver; an
    activation's signature is kept by the retirement.  And a signature given to an
    approval activates nothing else: a package that carries it is activated only
    with the approver, another than the author, and the rules of that approval,
    unless the MAC of the two texts collides. *)
Theorem policy_lifecycle `{HmacLaws} sg p :
  signer_wf sg →
  (pk_lifecycle p = DRAFT → verify sg p = false) ∧
  (∀ approver, is_ok (approve sg p approver) = true ↔ approver ≠ pk_author p) ∧
  (is_ok (activate sg p) = true ↔ pk_lifecycle p = APPROVED ∧ verify sg p = true) ∧
  (is_ok (retire sg p) = true ↔ pk_lifecycle p = ACTIVE ∧ verify sg p = true) ∧
  (∀ approver q, approve sg p approver = inr q →
     verify sg q = true ∧ pk_lifecycle q = APPROVED ∧ same_package p q ∧ pk_approver q = Some approver) ∧
  (∀ q, activate sg p = inr q →
     verify sg q = true ∧ pk_lifecycle q = ACTIVE ∧ same_package p q ∧ pk_approver q = pk_approver p ∧
     pk_activation_signature q = pk_signature q) ∧
  (∀ q, retire sg p = inr q →
     verify sg q = true ∧ pk_lifecycle q = RETIRED ∧ same_package p q ∧ pk_approver q = pk_approver p ∧
     pk_activation_signature q = pk_activation_signature p) ∧
  (∀ draft approver approved active,
     approve sg draft approver = inr approved → carries_signature_of approved p →
     (∀ k, hmac_hex k (canonical_payload p) = hmac_hex k (canonical_payload approved) →
           canonical_payload p = canonical_payload approved) →
     activate sg p = inr active →
     pk_approver active = Some approver ∧ pk_author active = pk_author draft ∧
     approver ≠ pk_author active ∧ pk_package_id active = pk_package_id draft ∧
     canonical_json (VDict (pk_rules active)) = canonical_json (VDict (pk_rules draft))).
Proof.
  intros Hsg. split_and!.
  - intros Hd. unfold verify. rewrite Hd. by rewrite orb_true_r.
  - intros approver. unfold approve. by destruct (String.eqb_spec approver (pk_author p)).
  - unfold activate. case_bool_decide; cbn [negb orb]; [|by split; [done|intros []]].
    destruct (verify sg p); cbn; [done|by split; [done|intros []]].
  - unfold retire. case_bool_decide; cbn [negb orb]; [|by split; [done|intros []]].
    destruct (verify sg p); cbn; [done|by split; [done|intros []]].
  - intros approver q Hq. pose proof (approve_same _ _ _ _ Hq).
    apply (approve_spec sg Hsg) in Hq as (_ & ? & ? & ? & _). by split_and!.
  - intros q Hq. pose proof (activate_same _ _ _ Hq).
    apply (activate_spec sg Hsg) in Hq as (_ & _ & ? & ? & ? & ? & _). by split_and!.
  - intros q Hq. pose proof (retire_same _ _ _ Hq).
    apply (retire_spec sg Hsg) in Hq as (_ & _ & ? & ? & ? & ? & _). by split_and!.
  - intros draft approver approved active Hap [Hs Hk] Hcol Hac.
    pose proof (approve_same _ _ _ _ Hap) as (_ & _ & _ & _ & Haut & Hrules).
    apply (approve_spec sg Hsg) in Hap as (Hne & Hv & _ & Happ & _ & _ & Hid).
    apply (activate_spec sg Hsg) in Hac as (_ & Hvp & _ & _ & _ & Hapq & Haq & Hrq & Hiq).
    destruct (signature_binds_package sg p approved Hvp Hv Hs Hk Hcol)
      as (Hi & _ & _ & _ & Ha & Hp & _ & Hr).
    split_and!; congruence.
Qed.

(** ** One active policy per scope *)

(** The columns an upsert writes agree with the package: the key and the lifecycle. *)
Definition row_ok (r : policy_row) : Prop :=
  pr_package_id r = pk_package_id (pr_package r) ∧ pr_lifecycle r = pk_lifecycle (pr_package r).

Record policies_ok (t : list policy_row) : Prop := {
  pol_ids : unique pr_package_id t;
  pol_active : one_active t;
  pol_rows r : r ∈ t → row_ok r
}.

Definition keeps_policies {Ext} (w w' : World Ext) : Prop :=
  policies_ok (w_policies w) → policies_ok (w_policies w').

#[export] Instance keeps_policies_preorder {Ext} : PreOrder (@keeps_policies Ext).
Proof. split; [intros w|intros w1 w2 w3]; unfold keeps_policies; auto. Qed.

Lemma upsert_package_ok p t t' :
  upsert_package p t = inr t' → unique pr_package_id t → (∀ r, r ∈ t → row_ok r) → policies_ok t'.
Proof.
  unfold upsert_package. case_bool_decide as Ha; [|done]. intros [= <-] Hu Hr. split.
  - by apply unique_upsert; [intros r Hk|].
  - done.
  - intros r Hin. unfold tupsert in Hin.
    destruct (tget pr_package_id _ t) eqn:E.
    + apply elem_of_update_where in Hin as (r0 & Hr0 & ->). case_bool_decide as Hk; [|auto].
      by split.
    + apply elem_of_app in Hin as [?| ->%list_elem_of_singleton]; [auto|by split].
Qed.

Lemma retire_row_ok p t :
  unique pr_package_id t → (∀ r, r ∈ t → row_ok r) → pk_lifecycle p = RETIRED →
  unique pr_package_id (retire_row p t) ∧ (∀ r, r ∈ retire_row p t → row_ok r).
Proof.
  intros Hu Hr Hl. split; [by apply unique_update; [apply keeps_key_all|]|].
  intros r (r0 & Hr0 & ->)%elem_of_update_where. case_bool_decide; [by split|auto].
Qed.

Lemma retire_rows_ok ps t :
  unique pr_package_id t → (∀ r, r ∈ t → row_ok r) → (∀ p, p ∈ ps → pk_lifecycle p = RETIRED) →
  let t' := fold_left (λ t p, retire_row p t) ps t in
  unique pr_package_id t' ∧ (∀ r, r ∈ t' → row_ok r).
Proof.
  revert t; induction ps as [|p ps IH]; intros t Hu Hr Hl; cbn; [done|].
  destruct (retire_row_ok p t) as [??]; [done..|apply Hl; by left|].
  apply IH; [done..|]. intros q Hq. apply Hl. by right.
Qed.

Lemma replace_active_ok active retired t t' :
  (∀ p, p ∈ retired → pk_lifecycle p = RETIRED) →
  replace_active_rows active retired t = inr t' → policies_ok t → policies_ok t'.
Proof.
  intros Hl Ht [Hu _ Hr]. destruct (retire_rows_ok retired t Hu Hr Hl) as [??].
  by eapply upsert_package_ok.
Qed.

Section service.
Context `{HmacLaws} (sg : PolicySigner) {Ext : Type}.
Abbreviation keeps := (steps (@keeps_policies Ext)).

Lemma repo_get_keeps i : keeps (repo_get i).
Proof. apply steps_atomically. intros w Hw. exact Hw. Qed.
Lemma repo_list_keeps l : keeps (repo_list l).
Proof. apply steps_atomically. intros w Hw. exact Hw. Qed.
Lemma repo_save_keeps p : keeps (repo_save p).
Proof.
  apply steps_atomically. intros w. destruct (upsert_package p _) as [e|t] eqn:E; cbn; [done|].
  intros [Hu _ Hr]. cbn. by eapply upsert_package_ok.
Qed.
Lemma replace_active_keeps active retired :
  (∀ p, p ∈ retired → pk_lifecycle p = RETIRED) → keeps (replace_active active retired).
Proof.
  intros Hl. apply steps_atomically. intros w.
  destruct (replace_active_rows _ _ _) as [e|t] eqn:E; cbn; [done|].
  intros Hok. cbn. by eapply replace_active_ok.
Qed.
Lemma registry_call_keeps f : keeps (registry_call f).
Proof. apply steps_atomically. intros w. unfold keeps_policies. by destruct (f _). Qed.

Hint Resolve repo_get_keeps repo_list_keeps repo_save_keeps replace_active_keeps
  registry_call_keeps : wf.

Lemma _require_keeps i : keeps (_require i).
Proof. unfold _require. step_through. Qed.
Hint Resolve _require_keeps : wf.

Lemma mapM_result_elem {A B} (f : A → result B) l ys y :
  mapM_result f l = inr ys → y ∈ ys → ∃ x, x ∈ l ∧ f x = inr y.
Proof.
  revert ys; induction l as [|x l IH]; intros ys; cbn.
  - by intros [= <-] ?%not_elem_of_nil.
  - destruct (f x) as [e|y0] eqn:Hf; cbn; [done|].
    destruct (mapM_result f l) as [e|ys0]; cbn; [done|].
    intros [= <-] [->|Hy]%elem_of_cons; [exists x; by split; [left|]|].
    destruct (IH ys0 eq_refl Hy) as (x' & ? & ?). exists x'. by split; [right|].
Qed.

Lemma service_activate_keeps i : signer_wf sg → keeps (service_activate sg i).
Proof.
  intros Hsg. unfold service_activate. apply steps_bind; [auto with wf|intros p].
  apply steps_bind; [auto with wf|intros active]. apply steps_bind; [auto with wf|intros current].
  destruct (mapM_result (retire sg) _) as [e|retired] eqn:Hm; [done|].
  change (lift_result (inr retired)) with (mret retired : prog (World Ext) (list PolicyPackage)).
  cbn [mbind prog_bind mret prog_ret].
  assert (∀ q, q ∈ retired → pk_lifecycle q = RETIRED) as Hl.
  { intros q Hq. destruct (mapM_result_elem _ _ _ _ Hm Hq) as (x & _ & Hx).
    by apply (retire_spec sg Hsg) in Hx as (_&_&_&?&_). }
  step_through.
Qed.

Lemma service_retire_keeps i : keeps (service_retire sg i).
Proof. unfold service_retire. step_through. Qed.
Lemma service_approve_keeps i a : keeps (service_approve sg i a).
Proof. unfold service_approve. step_through. Qed.
Lemma create_draft_keeps p : keeps (create_draft p).
Proof. unfold create_draft. step_through. Qed.
Lemma service_require_active_keeps i : keeps (service_require_active sg i).
Proof. unfold service_require_active. step_through. Qed.
Lemma service_snapshot_keeps i s : keeps (service_require_authorization_snapshot sg i s).
Proof. unfold service_require_authorization_snapshot. step_through. Qed.
Lemma hydrate_keeps : keeps (hydrate sg).
Proof. unfold hydrate. step_through. Qed.

Hint Resolve service_activate_keeps service_retire_keeps service_approve_keeps create_draft_keeps
  service_require_active_keeps service_snapshot_keeps hydrate_keeps : wf.

(** The calls of the service's clients. *)
Inductive policy_call :=
  | Hydrate | RequireActive (package_id : string) | RequireSnapshot (package_id signature : string)
  | CreateDraft (p : PolicyPackage) | Approve (package_id approver : string)
  | Activate (package_id : string) | Retire (package_id : string).

Definition policy_program (c : policy_call) : prog (World Ext) unit :=
  match c with
  | Hydrate => hydrate sg
  | RequireActive i => _ ← service_require_active sg i; mret tt
  | RequireSnapshot i s => _ ← service_require_authorization_snapshot sg i s; mret tt
  | CreateDraft p => _ ← create_draft p; mret tt
  | Approve i a => _ ← service_approve sg i a; mret tt
  | Activate i => _ ← service_activate sg i; mret tt
  | Retire i => _ ← service_retire sg i; mret tt
  end.

Lemma policy_program_keeps c : signer_wf sg → keeps (policy_program c).
Proof. intros Hsg. destruct c; cbn [policy_program]; step_through. Qed.

(** ** The columns an upsert leaves alone

    [ON CONFLICT] updates neither the procedure, nor the version, nor the
    jurisdiction of a row.  They are the stored package's as long as a package id is
    drafted for one procedure, version and jurisdiction only: [identity] says which. *)
Section identity.
Context (identity : string → string * string * string).

Definition identified (p : PolicyPackage) : Prop :=
  (pk_procedure_id p, pk_version p, pk_jurisdiction p) = identity (pk_package_id p).

Record row_identified (r : policy_row) : Prop := {
  ri_columns : (pr_procedure_id r, pr_version r, pr_jurisdiction r) = identity (pr_package_id r);
  ri_key : pr_package_id r = pk_package_id (pr_package r);
  ri_package : identified (pr_package r)
}.
Definition rows_identified (w : World Ext) : Prop := ∀ r, r ∈ w_policies w → row_identified r.

Lemma same_identified p q : same_package p q → identified p → identified q.
Proof. intros (Hi & Hp & Hv & Hj & _) Hid. unfold identified in *. by rewrite Hi, Hp, Hv, Hj. Qed.

(** A program that keeps the rows identified, whatever others do to the registry
    and to identified rows in between; its result satisfies [P]. *)
Definition anything (_ _ : World Ext) : Prop := True.
#[local] Instance anything_preorder : PreOrder anything.
Proof. by split. Qed.
Definition keeps_rows (_ : unit) (w : World Ext) (_ : unit) (w' : World Ext) : Prop :=
  rows_identified w → rows_identified w'.
#[local] Instance keeps_rows_laws : GuaranteeLaws rows_identified anything keeps_rows.
Proof. split; [by intros g w g' w' Hk Hw; apply Hk|done]. Qed.

Definition yields {A} (P : A → Prop) (_ : World Ext) (_ : unit) (r : result A) : Prop :=
  match r with inr a => P a | inl _ => True end.
Definition rows_kept {A} (p : prog (World Ext) A) (P : A → Prop) : Prop :=
  ∀ w, rg rows_identified anything keeps_rows w tt p (yields P).

Lemma kept_ret {A} (a : A) (P : A → Prop) : P a → rows_kept (mret a) P.
Proof. intros Ha w. exact Ha. Qed.
Lemma kept_throw {A} (e : exn) (P : A → Prop) : rows_kept (mthrow e) P.
Proof. by intros w. Qed.
Lemma kept_lift {A} (r : result A) (P : A → Prop) : (∀ a, r = inr a → P a) → rows_kept (lift_result r) P.
Proof. intros Hr w. destruct r; [done|by apply Hr]. Qed.
Lemma kept_bind {A B} (p : prog (World Ext) A) (k : A → prog (World Ext) B) P Q :
  rows_kept p P → (∀ a, P a → rows_kept (k a) Q) → rows_kept (p ≫= k) Q.
Proof.
  intros Hp Hk w. eapply rg_bind; [apply Hp| |done]. intros w' [] a Ha. by apply Hk.
Qed.
Lemma kept_require {A} b e (k : unit → prog (World Ext) A) P :
  (b = true → rows_kept (k tt) P) → rows_kept (require b e ≫= k) P.
Proof. destruct b; [by intros Hk; apply Hk|done]. Qed.
Lemma kept_for_each {A S} (l : list A) (acc : S) body (P : A → Prop) :
  (∀ x, x ∈ l → P x) → (∀ acc x, P x → rows_kept (body acc x) (λ _, True)) →
  rows_kept (for_each l acc body) (λ _, True).
Proof.
  intros Hl Hb. revert acc; induction l as [|x l IH]; intros acc; [by apply kept_ret|].
  eapply kept_bind; [apply Hb, Hl; by left|]. intros acc' _. apply IH. intros y Hy. apply Hl. by right.
Qed.
Lemma kept_step {A} (op : World Ext → World Ext * result A) (P : A → Prop) :
  (∀ w, rows_identified w → rows_identified (op w).1 ∧ yields P w tt (op w).2) →
  rows_kept (atomically op) P.
Proof.
  intros Hop w0. apply rg_atomically. intros w Hw _. exists tt. destruct (Hop w Hw) as [Hw' Hr].
  split; [by intros _|]. exact Hr.
Qed.

Lemma repo_get_rows i : rows_kept (repo_get i) (λ o, ∀ p, o = Some p → identified p).
Proof.
  apply kept_step. intros w Hw. split; [exact Hw|]. cbn. intros p Hp.
  destruct (tget pr_package_id i (w_policies w)) as [r|] eqn:Hr; [|done]. injection Hp as <-.
  apply tget_key in Hr as [_ Hin]. apply (Hw r Hin).
Qed.
Lemma repo_list_rows l : rows_kept (repo_list l) (λ ps, ∀ p, p ∈ ps → identified p).
Proof.
  apply kept_step. intros w Hw. split; [exact Hw|]. cbn.
  intros p (r & -> & Hr)%list_elem_of_fmap. apply elem_of_order_le in Hr.
  apply (ri_package r), Hw. destruct l; [by apply elem_of_select_where in Hr as [? _]|done].
Qed.

Lemma set_package_identified p r :
  pr_package_id r = pk_package_id p → identified p → row_identified r →
  row_identified (set_package p r).
Proof. intros Hk Hp []. by split. Qed.

Lemma upsert_rows p t t' :
  identified p → upsert_package p t = inr t' → (∀ r, r ∈ t → row_identified r) →
  ∀ r, r ∈ t' → row_identified r.
Proof.
  unfold upsert_package. case_bool_decide; [|done]. intros Hp [= <-] Ht r Hin. unfold tupsert in Hin.
  destruct (tget pr_package_id _ t) eqn:E.
  - apply elem_of_update_where in Hin as (r0 & Hr0 & ->). case_bool_decide; [|auto].
    apply set_package_identified; auto.
  - apply elem_of_app in Hin as [?| ->%list_elem_of_singleton]; [auto|by split].
Qed.

Lemma retire_rows ps t :
  (∀ p, p ∈ ps → identified p) → (∀ r, r ∈ t → row_identified r) →
  ∀ r, r ∈ fold_left (λ t p, retire_row p t) ps t → row_identified r.
Proof.
  revert t; induction ps as [|p ps IH]; intros t Hps Ht; cbn; [done|]. apply IH.
  - intros q Hq. apply Hps. by right.
  - intros r (r0 & Hr0 & ->)%elem_of_update_where. specialize (Ht r0 Hr0).
    case_bool_decide as Hk; [|done]. destruct Ht as [Hc Hid Hpk]. split; [exact Hc|exact Hk|].
    apply Hps. by left.
Qed.

Lemma repo_save_rows p : identified p → rows_kept (repo_save p) (λ _, True).
Proof.
  intros Hp. apply kept_step. intros w Hw. destruct (upsert_package p _) as [e|t] eqn:E; cbn; [done|].
  split; [|done]. exact (upsert_rows p _ t Hp E Hw).
Qed.
Lemma replace_active_rows_kept active retired :
  identified active → (∀ p, p ∈ retired → identified p) →
  rows_kept (replace_active active retired) (λ _, True).
Proof.
  intros Ha Hr. apply kept_step. intros w Hw.
  destruct (replace_active_rows _ _ _) as [e|t] eqn:E; cbn; [done|]. split; [|done].
  unfold replace_active_rows in E. exact (upsert_rows active _ t Ha E (retire_rows retired _ Hr Hw)).
Qed.
Lemma registry_rows f : rows_kept (registry_call f) (λ _, True).
Proof. apply kept_step. intros w Hw. by destruct (f _). Qed.
Lemma _require_rows i : rows_kept (_require i) identified.
Proof.
  eapply kept_bind; [apply repo_get_rows|]. intros [p|] Hp; [apply kept_ret; auto|apply kept_throw].
Qed.

Lemma policy_program_rows c :
  match c with CreateDraft p => identified p | _ => True end → rows_kept (policy_program c) (λ _, True).
Proof.
  destruct c as [|i|i sig|p|i a|i|i]; intros Hc; cbn [policy_program].
  - eapply kept_bind; [apply repo_list_rows|]. intros ps Hps. eapply kept_for_each; [exact Hps|].
    intros _ p _. case_match; [apply registry_rows|by apply kept_ret].
  - eapply kept_bind; [|intros; by apply kept_ret]. eapply kept_bind; [apply _require_rows|].
    intros p Hp. apply kept_require. intros _. eapply kept_bind; [apply registry_rows|].
    intros _ _. by apply (kept_ret p (λ _, True)).
  - eapply kept_bind; [|intros; by apply kept_ret]. eapply kept_bind; [apply _require_rows|].
    intros p Hp. do 3 (apply kept_require; intros _). eapply kept_bind; [apply registry_rows|].
    intros _ _. by apply (kept_ret p (λ _, True)).
  - eapply kept_bind; [|intros; by apply kept_ret]. apply kept_require. intros _.
    eapply kept_bind; [apply repo_get_rows|]. intros o _. apply kept_require. intros _.
    eapply (kept_bind _ _ (λ _, True)); [by apply kept_lift|]. intros _ _.
    eapply kept_bind; [by apply repo_save_rows|]. intros _ _. by apply (kept_ret p (λ _, True)).
  - eapply kept_bind; [|intros; by apply kept_ret]. eapply kept_bind; [apply _require_rows|].
    intros p Hp. apply kept_require. intros _.
    eapply (kept_bind _ _ identified).
    { apply kept_lift. intros q Hq. by eapply same_identified; [eapply approve_same|]. }
    intros q Hq. eapply kept_bind; [by apply repo_save_rows|]. intros _ _.
    by apply (kept_ret q (λ _, True)).
  - eapply kept_bind; [|intros; by apply kept_ret]. eapply kept_bind; [apply _require_rows|].
    intros p Hp. eapply (kept_bind _ _ identified).
    { apply kept_lift. intros q Hq. by eapply same_identified; [eapply activate_same|]. }
    intros active Ha. eapply kept_bind; [apply repo_list_rows|]. intros current Hcur.
    eapply (kept_bind _ _ (λ qs, ∀ q, q ∈ qs → identified q)).
    { apply kept_lift. intros qs Hqs q Hq. destruct (mapM_result_elem _ _ _ _ Hqs Hq) as (x & Hx & Hr).
      eapply same_identified; [by eapply retire_same|]. apply Hcur.
      by apply elem_of_select_where in Hx as [? _]. }
    intros retired Hret. eapply kept_bind; [by apply replace_active_rows_kept|]. intros _ _.
    eapply kept_bind; [eapply kept_for_each; [exact Hret|intros; apply registry_rows]|]. intros _ _.
    eapply kept_bind; [apply registry_rows|]. intros _ _. by apply (kept_ret active (λ _, True)).
  - eapply kept_bind; [|intros; by apply kept_ret]. eapply kept_bind; [apply _require_rows|].
    intros p Hp. eapply (kept_bind _ _ identified).
    { apply kept_lift. intros q Hq. by eapply same_identified; [eapply retire_same|]. }
    intros q Hq. eapply kept_bind; [by apply repo_save_rows|]. intros _ _.
    eapply kept_bind; [apply registry_rows|]. intros _ _. by apply (kept_ret q (λ _, True)).
Qed.

Lemma pool_rows_identified calls (w w' : World Ext) ps' :
  (∀ p, CreateDraft p ∈ calls → identified p) → rows_identified w →
  star pool_step (w, map policy_program calls) (w', ps') → rows_identified w'.
Proof.
  intros Hd Hw Hstar.
  destruct (pool_rg rows_identified anything keeps_rows (λ _ _, True) (λ _ _ _ _ _ _ _ _ _ _, I)
              (λ _, yields (λ _, True)) (λ _ _ _ _ _ _ H, H) _ _
              (replicate (length calls) tt) Hstar) as (gs' & (Hw' & _) & _); [|exact Hw'].
  split_and!; cbn; [done..|by rewrite length_replicate, length_map|].
  intros i p Hi. exists tt.
  change (map policy_program calls) with (policy_program <$> calls) in Hi.
  rewrite list_lookup_fmap in Hi.
  destruct (calls !! i) as [c|] eqn:Hc; [|done]. injection Hi as <-.
  split; [apply lookup_replicate; split; [done|by eapply lookup_lt_Some]|].
  apply policy_program_rows. destruct c; try done. apply Hd. by eapply list_elem_of_lookup_2.
Qed.
End identity.

(** The stored packages that are active, one for each row. *)
Definition active_package_in (t : list policy_row) (p : PolicyPackage) : Prop :=
  ∃ r, r ∈ t ∧ pr_package r = p ∧ pk_lifecycle p = ACTIVE.

(** C30: however calls of the policy service interleave, package ids stay unique,
    the key and the lifecycle of each row are its stored package's, and the index
    holds: at most one active row for each pair of its columns procedure and
    jurisdiction.  Those columns are written once, when the id is first saved: as
    long as a package id is drafted for one procedure, version and jurisdiction
    only, they too are the stored package's, and at every moment each procedure has
    at most one active package per jurisdiction. *)
Theorem one_active_policy (calls : list policy_call) (w w' : World Ext) ps' :
  signer_wf sg → policies_ok (w_policies w) →
  star pool_step (w, map policy_program calls) (w', ps') →
  policies_ok (w_policies w') ∧
  (∀ r r', r ∈ w_policies w' → r' ∈ w_policies w' →
     pr_lifecycle r = ACTIVE → pr_lifecycle r' = ACTIVE → scope r = scope r' → r = r') ∧
  ∀ identity,
    (∀ p, CreateDraft p ∈ calls → identified identity p) → rows_identified identity w →
    (∀ r, r ∈ w_policies w' → r = row_of (pr_package r)) ∧
    (∀ p p', active_package_in (w_policies w') p → active_package_in (w_policies w') p' →
       pk_procedure_id p = pk_procedure_id p' → pk_jurisdiction p = pk_jurisdiction p' → p = p').
Proof.
  intros Hsg Hw Hstar. pose proof Hstar as Hok.
  apply (pool_star_steps keeps_policies) in Hok as [Hok _].
  2: { apply Forall_forall. intros p (c & -> & _)%list_elem_of_fmap. by apply policy_program_keeps. }
  specialize (Hok Hw). cbn in Hok. split; [done|].
  assert (∀ r r', r ∈ w_policies w' → r' ∈ w_policies w' →
     pr_lifecycle r = ACTIVE → pr_lifecycle r' = ACTIVE → scope r = scope r' → r = r') as Huniq.
  { intros r r' Hr Hr' Ha Ha' Hs. destruct Hok as [_ Hone _]. unfold one_active in Hone.
    assert (r ∈ select_where is_active (w_policies w')) as Hin.
    { apply elem_of_select_where. split; [done|]. by apply bool_decide_eq_true. }
    assert (r' ∈ select_where is_active (w_policies w')) as Hin'.
    { apply elem_of_select_where. split; [done|]. by apply bool_decide_eq_true. }
    apply list_elem_of_lookup in Hin as [i Hi], Hin' as [j Hj].
    assert (i = j) as ->; [|congruence].
    change (map scope ?l) with (scope <$> l) in Hone.
    eapply NoDup_lookup; [exact Hone|rewrite list_lookup_fmap, Hi; done|].
    rewrite list_lookup_fmap, Hj. cbn. by rewrite Hs. }
  split; [exact Huniq|]. intros identity Hd Hid.
  pose proof (pool_rows_identified identity calls w w' ps' Hd Hid Hstar) as Hid'.
  assert (∀ r, r ∈ w_policies w' → r = row_of (pr_package r)) as Hrow.
  { intros r Hr. destruct (Hid' r Hr) as [Hc Hk Hp]. destruct (pol_rows _ Hok r Hr) as [_ Hl].
    unfold identified in Hp. rewrite <- Hk, <- Hc in Hp. destruct r. cbn in *. unfold row_of.
    by simplify_eq. }
  split; [exact Hrow|].
  intros p p' (r & Hr & <- & Ha) (r' & Hr' & <- & Ha') Hp Hj.
  assert (∀ x, x ∈ w_policies w' → scope x = (pk_procedure_id (pr_package x), pk_jurisdiction (pr_package x)))
    as Hscope by (intros x Hx; pose proof (f_equal scope (Hrow x Hx)) as Hsc; exact Hsc).
  assert (r = r') as ->; [|done]. apply Huniq; [exact Hr|exact Hr'| | |].
  - rewrite <- Ha. apply (pol_rows _ Hok r Hr).
  - rewrite <- Ha'. apply (pol_rows _ Hok r' Hr').
  - rewrite (Hscope r Hr), (Hscope r' Hr'), Hp, Hj. reflexivity.
Qed.

(** ** What a stored policy is good for *)

Lemma run_repo_get i (w : World Ext) :
  run (repo_get i) w = (w, inr (option_map pr_package (tget pr_package_id i (w_policies w)))).
Proof. unfold repo_get, policy_commit. rewrite run_atomically. by destruct w. Qed.

Lemma run_require_package i (w : World Ext) r :
  tget pr_package_id i (w_policies w) = Some r →
  run (_require i) w = (w, inr (pr_package r)).
Proof. intros Hr. unfold _require. by rewrite run_bind, run_repo_get, Hr. Qed.

Lemma run_history p (w : World Ext) :
  pk_lifecycle p ∈ [ACTIVE; RETIRED] → verify sg p = true →
  ∃ rg, run (registry_call (registry_load_history sg p)) w = (set_registry rg w, inr tt) ∧
        dget (pk_package_id p) (rg_packages rg) = Some p.
Proof.
  intros Hl Hv. unfold registry_call. rewrite run_atomically. unfold registry_load_history.
  rewrite bool_decide_true, Hv by done. cbn. eexists. split; [done|]. apply dget_dset_eq.
Qed.

(** Retiring a policy ends new authorizations but not those already made:
    the stored package is retired, nobody can require it as active any more,
    and an action stamped with its activation signature still finds it, verified,
    as its authorization snapshot. *)
Theorem retirement_keeps_snapshots package_id (w w1 : World Ext) r sig q :
  signer_wf sg → unique pr_package_id (w_policies w) →
  (∀ r, r ∈ w_policies w → row_ok r) →
  tget pr_package_id package_id (w_policies w) = Some r →
  pk_activation_signature (pr_package r) = Some sig →
  run (service_retire sg package_id) w = (w1, inr q) →
  pk_lifecycle q = RETIRED ∧ verify sg q = true ∧
  option_map pr_package (tget pr_package_id package_id (w_policies w1)) = Some q ∧
  (run (service_require_active sg package_id) w1).2
    = inl (ValueError ("Policy package is not active: " +:+ package_id)) ∧
  (run (service_require_authorization_snapshot sg package_id sig) w1).2 = inr q ∧
  dget package_id (rg_active (w_registry w1)) = None.
Proof.
  intros Hsg Hu Hrows Hr Hsig Hrun. unfold service_retire in Hrun.
  rewrite run_bind, (run_require_package _ _ _ Hr), run_bind, run_lift in Hrun.
  destruct (retire sg (pr_package r)) as [e|q'] eqn:Hre; [done|].
  pose proof Hre as Hre'.
  apply (retire_spec sg Hsg) in Hre' as (_ & _ & Hv & Hl & Hact & _ & _ & _ & Hid).
  assert (pk_package_id q' = package_id) as Hq.
  { rewrite Hid. destruct (tget_key _ _ _ _ Hr) as [<- Hin]. symmetry. apply (Hrows r Hin). }
  rewrite run_bind in Hrun. unfold repo_save, policy_commit in Hrun. rewrite run_atomically in Hrun.
  destruct (upsert_package q' (w_policies w)) as [e|t] eqn:Hup; [done|]. cbn in Hrun.
  injection Hrun as <- <-.
  assert (option_map pr_package (tget pr_package_id package_id t) = Some q') as Hget.
  { unfold upsert_package in Hup. case_bool_decide; [|done]. injection Hup as <-.
    rewrite tget_upsert by (by intros r' Hk). cbn. rewrite bool_decide_true, Hr by done. done. }
  destruct (tget pr_package_id package_id t) as [r'|] eqn:Hr'; [|done]. injection Hget as Hget.
  set (w1 := set_registry _ _).
  assert (run (_require package_id) w1 = (w1, inr q')) as Hreq.
  { rewrite (run_require_package _ _ r'); [by rewrite Hget|]. exact Hr'. }
  split_and!; [done|done|cbn; by rewrite Hr', <- Hget| | |].
  - unfold service_require_active. rewrite run_bind, Hreq, run_bind, run_require.
    by rewrite bool_decide_false by congruence.
  - unfold service_require_authorization_snapshot.
    rewrite run_bind, Hreq, run_bind, run_require. rewrite Hl. cbn [bool_decide].
    rewrite bool_decide_true by (right; by left). rewrite run_bind, run_require, Hv.
    rewrite run_bind, run_require, Hact, Hsig. unfold ostr_eqb, opt_eqb. rewrite String.eqb_refl.
    destruct (run_history q' w1) as (rg & Hrg & _); [rewrite Hl; right; by left|done|].
    by rewrite run_bind, Hrg.
  - cbn. apply dget_ddel_eq.
Qed.
End service.

(** ** Witnesses *)

(** A MAC that spells out its payload: enough to evaluate the definitions. *)
#[export] Instance demo_hmac : Hmac := λ k v,
  match v with
  | VDict d =>
      k +:+ ":" +:+ join "," (map (λ e, match e.2 with VStr s => s | _ => "?" end) d)
  | _ => "none"
  end.

#[export] Instance demo_hmac_laws : HmacLaws.
Proof. intros k [| | | | |l|d] Heq; try done. cbn in Heq. by destruct k. Qed.

Definition demo_signer : PolicySigner := mkSigner "signing-key" "K1" [("K1", "signing-key")].

Definition demo_draft : PolicyPackage :=
  mkPackage "PKG-1" "refund_request" "1" "US" "alice"
    [("allowed_actions", VList [VStr "issue_refund"; VStr "add_case_note"])] DRAFT
    None None None None.

Definition or_else {A} (d : A) (r : result A) : A := match r with inr a => a | inl _ => d end.
Definition demo_approved : PolicyPackage := or_else demo_draft (approve demo_signer demo_draft "bob").
Definition demo_active : PolicyPackage := or_else demo_draft (activate demo_signer demo_approved).
Definition demo_retired : PolicyPackage := or_else demo_draft (retire demo_signer demo_active).

Example policy_lifecycle_witness :
  is_ok (activate demo_signer demo_draft) = false ∧ is_ok (activate demo_signer demo_approved) = true.
Proof.
  assert (signer_wf demo_signer) as Hsg by (vm_compute; reflexivity). split.
  - destruct (is_ok (activate demo_signer demo_draft)) eqn:E; [|reflexivity].
    destruct (policy_lifecycle demo_signer demo_draft Hsg) as (_ & _ & [Hac _] & _).
    destruct (Hac E) as [Hl _]. discriminate Hl.
  - destruct (policy_lifecycle demo_signer demo_approved Hsg) as (_ & _ & [_ Hac] & _).
    apply Hac. split; vm_compute; reflexivity.
Defined.

(** The active package with its activation snapshot removed. *)
Definition demo_active' : PolicyPackage :=
  mkPackage "PKG-1" "refund_request" "1" "US" "alice" (pk_rules demo_draft) ACTIVE
    (pk_approver demo_active) (pk_signing_key_id demo_active) None (pk_signature demo_active).

Example signature_binds_package_witness : pk_author demo_active = pk_author demo_active'.
Proof.
  refine (proj1 (proj2 (proj2 (proj2 (proj2 (signature_binds_package demo_signer demo_active
    demo_active' _ _ _ _ _)))))); vm_compute; reflexivity.
Defined.

Definition demo_policies : World unit :=
  mkWorld empty_core_db (mkSys 0 0) [row_of demo_active] empty_registry [] tt.

Lemma demo_policies_ok : policies_ok (w_policies demo_policies).
Proof.
  split; [apply NoDup_singleton| |intros r ->%list_elem_of_singleton; by split].
  apply (decide_by_eval (one_active _)). vm_compute. reflexivity.
Qed.

(** A second version, approved and ready to replace the first. *)
Definition demo_next : PolicyPackage :=
  or_else demo_draft (approve demo_signer
    (mkPackage "PKG-2" "refund_request" "2" "US" "alice" (pk_rules demo_draft) DRAFT
       None None None None) "bob").

Definition demo_calls : list policy_call := [CreateDraft demo_draft; Activate "PKG-2"; Retire "PKG-1"].

Definition demo_two : World unit :=
  mkWorld empty_core_db (mkSys 0 0) [row_of demo_active; row_of demo_next] empty_registry [] tt.

Definition demo_identity (package_id : string) : string * string * string :=
  ("refund_request", if String.eqb package_id "PKG-2" then "2" else "1", "US").
Definition demo_schedule : World unit * list (prog (World unit) unit) :=
  schedule [1; 2; 1; 2; 1; 0; 1; 2; 2; 1] demo_two (map (policy_program demo_signer) demo_calls).

Example one_active_policy_witness :
  policies_ok (w_policies demo_schedule.1) ∧
  (∀ r, r ∈ w_policies demo_schedule.1 → r = row_of (pr_package r)).
Proof.
  destruct (one_active_policy demo_signer demo_calls demo_two demo_schedule.1 demo_schedule.2)
    as (Hok & _ & Hid).
  - vm_compute. reflexivity.
  - split; [| |intros r [->| ->%list_elem_of_singleton]%elem_of_cons; by split];
      apply (decide_by_eval (NoDup _)); vm_compute; reflexivity.
  - apply schedule_reaches.
  - split; [exact Hok|]. apply (Hid demo_identity).
    + intros p Hp. repeat (apply elem_of_cons in Hp as [Hp|Hp]; [try discriminate Hp|]);
        [injection Hp as ->; reflexivity|by apply not_elem_of_nil in Hp].
    + intros r [->| ->%list_elem_of_singleton]%elem_of_cons; split; vm_compute; reflexivity.
Defined.

(** Two drafts of one id that race, for two procedures: both are saved, and the row
    keeps the columns of the first with the package of the second.  The index does
    not see the second's procedure: activated together with another package of that
    procedure, there are two active ones. *)
Definition fraud_draft (package_id : string) : PolicyPackage :=
  mkPackage package_id "fraud_alert" "1" "US" "alice" (pk_rules demo_draft) DRAFT None None None None.
Definition raced_drafts : World unit :=
  (schedule [0; 1; 0; 1] (mkWorld empty_core_db (mkSys 0 0) [] empty_registry [] tt)
     (map (policy_program demo_signer) [CreateDraft demo_draft; CreateDraft (fraud_draft "PKG-1")])).1.
Definition approved_both : World unit :=
  (run (_ ← create_draft (fraud_draft "PKG-2"); _ ← service_approve demo_signer "PKG-1" "bob";
        service_approve demo_signer "PKG-2" "bob") raced_drafts).1.
Definition activated_both : World unit :=
  (schedule [0; 0; 1; 1; 0; 1; 0; 1] approved_both
     (map (policy_program demo_signer) [Activate "PKG-1"; Activate "PKG-2"])).1.

Example stale_columns_admit_two_active :
  map (λ r, (pr_procedure_id r, pk_procedure_id (pr_package r))) (w_policies raced_drafts)
    = [("refund_request", "fraud_alert")] ∧
  map (λ r, (pk_procedure_id (pr_package r), pk_lifecycle (pr_package r))) (w_policies activated_both)
    = [("fraud_alert", ACTIVE); ("fraud_alert", ACTIVE)].
Proof. vm_compute. by split. Qed.

Example retirement_keeps_snapshots_witness :
  (run (service_require_authorization_snapshot demo_signer "PKG-1"
          (default "" (pk_signature demo_active)))
     (run (service_retire demo_signer "PKG-1") demo_policies).1).2 = inr demo_retired.
Proof.
  refine (proj1 (proj2 (proj2 (proj2 (proj2 (retirement_keeps_snapshots demo_signer "PKG-1"
    demo_policies _ (row_of demo_active) (default "" (pk_signature demo_active)) demo_retired
    _ _ _ _ _ _)))))).
  - vm_compute. reflexivity.
  - apply demo_policies_ok.
  - apply demo_policies_ok.
  - vm_compute. reflexivity.
  - vm_compute. reflexivity.
  - vm_compute. reflexivity.
Defined.

(** Loading the history of a retired package leaves the active copy in place: the
    registry goes on offering a package that its own history says is retired. *)
Example retired_history_stays_active :
  match registry_load demo_signer demo_active empty_registry with
  | inr rg =>
      match registry_load_history demo_signer demo_retired rg with
      | inr rg' => is_ok (registry_require_active "PKG-1" rg') = true ∧
                   pk_lifecycle demo_retired = RETIRED
      | inl _ => False
      end
  | inl _ => False
  end.
Proof. vm_compute. done. Qed.
