(* ===== verification/Errors.v ===== *)
(** * The error hierarchy ([errors.py]) and the HTTP error handlers
    ([middleware/error_handler.py])

    What an exception raised by a handler becomes: a status and a JSON body.  The
    exceptions themselves are the values of [exn]; [workflow_error] says which of
    them belong to the repository's hierarchy and with what code, status and
    details. *)

From S2P Require Import Prelude PyValue Prog RateLimiter.

Inductive ErrorCode :=
  | INTERNAL_ERROR | VALIDATION_ERROR | NOT_FOUND | CONFLICT | TIMEOUT
  | AUTHENTICATION_REQUIRED | AUTHORIZATION_DENIED | TOKEN_EXPIRED | INVALID_TOKEN
  | RATE_LIMITED
  | ORDER_NOT_FOUND | CUSTOMER_NOT_FOUND | ALERT_NOT_FOUND | REFUND_INELIGIBLE
  | ACCOUNT_ALREADY_FLAGGED | SESSION_NOT_FOUND
  | PROCEDURE_NOT_FOUND | INVALID_PROCEDURE | INVALID_STEP_TRANSITION | PROCEDURE_ALREADY_ACTIVE
  | TOOL_EXECUTION_ERROR | TOOL_VALIDATION_ERROR
  | EXTERNAL_SERVICE_ERROR | LLM_ERROR.
#[export] Instance ErrorCode_eq_dec : EqDecision ErrorCode.
Proof. solve_decision. Defined.

Definition error_code_value (c : ErrorCode) : string :=
  match c with
  | INTERNAL_ERROR => "INTERNAL_ERROR" | VALIDATION_ERROR => "VALIDATION_ERROR"
  | NOT_FOUND => "NOT_FOUND" | CONFLICT => "CONFLICT" | TIMEOUT => "TIMEOUT"
  | AUTHENTICATION_REQUIRED => "AUTHENTICATION_REQUIRED"
  | AUTHORIZATION_DENIED => "AUTHORIZATION_DENIED"
  | TOKEN_EXPIRED => "TOKEN_EXPIRED" | INVALID_TOKEN => "INVALID_TOKEN"
  | RATE_LIMITED => "RATE_LIMITED"
  | ORDER_NOT_FOUND => "ORDER_NOT_FOUND" | CUSTOMER_NOT_FOUND => "CUSTOMER_NOT_FOUND"
  | ALERT_NOT_FOUND => "ALERT_NOT_FOUND" | REFUND_INELIGIBLE => "REFUND_INELIGIBLE"
  | ACCOUNT_ALREADY_FLAGGED => "ACCOUNT_ALREADY_FLAGGED"
  | SESSION_NOT_FOUND => "SESSION_NOT_FOUND"
  | PROCEDURE_NOT_FOUND => "PROCEDURE_NOT_FOUND" | INVALID_PROCEDURE => "INVALID_PROCEDURE"
  | INVALID_STEP_TRANSITION => "INVALID_STEP_TRANSITION"
  | PROCEDURE_ALREADY_ACTIVE => "PROCEDURE_ALREADY_ACTIVE"
  | TOOL_EXECUTION_ERROR => "TOOL_EXECUTION_ERROR"
  | TOOL_VALIDATION_ERROR => "TOOL_VALIDATION_ERROR"
  | EXTERNAL_SERVICE_ERROR => "EXTERNAL_SERVICE_ERROR" | LLM_ERROR => "LLM_ERROR"
  end.

Record WorkflowEngineError := mkError {
  we_message : string; we_code : string; we_status_code : Z; we_details : dict value
}.

(** The [error] object; empty details are left out. *)
Definition to_dict (e : WorkflowEngineError) : dict value :=
  [("error", VDict
     ([("code", VStr (we_code e)); ("message", VStr (we_message e))] ++
      match we_details e with [] => [] | d => [("details", VDict d)] end))].

(** ** The classes *)

Definition not_found_error (resource identifier : string) : WorkflowEngineError :=
  mkError (resource +:+ " '" +:+ identifier +:+ "' not found") (error_code_value NOT_FOUND) 404
    [("resource", VStr resource); ("identifier", VStr identifier)].

(** [details] is [{"allowed": ...}] where the code gives one. *)
Definition validation_error (message : string) (field : option string) (allowed : list string) :
    WorkflowEngineError :=
  let d := match allowed with [] => [] | _ => [("allowed", VList (map VStr allowed))] end in
  mkError message (error_code_value VALIDATION_ERROR) 422
    (if str_truthy field then dset "field" (VStr (default "" field)) d else d).

Definition authentication_error (message code : string) : WorkflowEngineError :=
  mkError message code 401 [].

Definition authorization_error (message : string) (required_permission : option string) :
    WorkflowEngineError :=
  mkError message (error_code_value AUTHORIZATION_DENIED) 403
    (if str_truthy required_permission
     then [("required_permission", VStr (default "" required_permission))] else []).

Definition rate_limit_error (retry_after : Z) : WorkflowEngineError :=
  mkError "Rate limit exceeded" (error_code_value RATE_LIMITED) 429
    [("retry_after_seconds", VInt retry_after)].

Definition tool_execution_error (tool_name message : string) (details : dict value) :
    WorkflowEngineError :=
  mkError ("Tool '" +:+ tool_name +:+ "' failed: " +:+ message)
    (error_code_value TOOL_EXECUTION_ERROR) 500 (dupdate [("tool", VStr tool_name)] details).

Definition external_service_error (service message : string) : WorkflowEngineError :=
  mkError ("External service '" +:+ service +:+ "' error: " +:+ message)
    (error_code_value EXTERNAL_SERVICE_ERROR) 502 [("service", VStr service)].

Definition procedure_error (message code : string) : WorkflowEngineError :=
  mkError message code 400 [].

(** The exceptions of the hierarchy. *)
Definition workflow_error (e : exn) : option WorkflowEngineError :=
  match e with
  | NotFoundError r i => Some (not_found_error r i)
  | ValidationError m f a => Some (validation_error m f a)
  | AuthenticationError m c => Some (authentication_error m c)
  | AuthorizationError m p => Some (authorization_error m p)
  | ProcedureError m c => Some (procedure_error m c)
  | _ => None
  end.

(** ** The handlers *)

Record JSONResponse := mkResponse { rp_status_code : Z; rp_content : dict value }.

Definition workflow_error_handler (e : WorkflowEngineError) : JSONResponse :=
  mkResponse (we_status_code e) (to_dict e).

Definition generic_error_handler (e : exn) : JSONResponse :=
  mkResponse 500 (to_dict (mkError "An internal error occurred" (error_code_value INTERNAL_ERROR) 500 [])).

(** Which handler answers an exception of an endpoint; an [HTTPException] is
    answered by the framework. *)
Definition respond (e : exn) : JSONResponse :=
  match workflow_error e with
  | Some w => workflow_error_handler w
  | None =>
      match e with
      | HTTPException status detail =>
          mkResponse status [("detail", VList (map VStr detail))]
      | _ => generic_error_handler e
      end
  end.

Definition status_of {A} (r : result A) : Z :=
  match r with inr _ => 200 | inl e => rp_status_code (respond e) end.

(** The response of the rate limiter carries the status of its error. *)
Lemma limited_is_rate_limit_error s :
  limited s = Limited (we_status_code (rate_limit_error (rate_limit_window_seconds s)))
                (rate_limit_window_seconds s).
Proof. done. Qed.
