(* ===== verification/Auth.v ===== *)
(** * Authentication and authorization ([auth/], [middleware/auth.py])

    Roles and permissions, access tokens, the separation of the acting user
    from the serviced customer, and the HTTP authentication middleware.  The
    JWT library and the settings object are parameters. *)

From S2P Require Import Prelude PyValue Prog.

(** ** [auth/models.py] *)

Inductive Role :=
  | ADMIN | SUPERVISOR | CUSTOMER_SERVICE_REP | FRAUD_ANALYST | READONLY | CUSTOMER | INTEGRATION.
#[export] Instance Role_eq_dec : EqDecision Role.
Proof. solve_decision. Defined.

Definition role_value (r : Role) : string :=
  match r with
  | ADMIN => "admin" | SUPERVISOR => "supervisor"
  | CUSTOMER_SERVICE_REP => "customer_service_rep" | FRAUD_ANALYST => "fraud_analyst"
  | READONLY => "readonly" | CUSTOMER => "customer" | INTEGRATION => "integration"
  end.

Definition all_roles : list Role :=
  [ADMIN; SUPERVISOR; CUSTOMER_SERVICE_REP; FRAUD_ANALYST; READONLY; CUSTOMER; INTEGRATION].

(** [Role(value)] *)
Definition role_of (v : string) : result Role :=
  match select_first (λ r, String.eqb (role_value r) v) all_roles with
  | Some r => inr r
  | None => inl (ValueError ("'" +:+ v +:+ "' is not a valid Role"))
  end.

Inductive Permission :=
  | ORDER_READ | ORDER_WRITE | REFUND_READ | REFUND_WRITE | CUSTOMER_READ | CUSTOMER_WRITE
  | CASE_READ | CASE_WRITE | ESCALATION_CREATE
  | FRAUD_ALERT_READ | FRAUD_ALERT_WRITE | ACCOUNT_FLAG | SAR_SUBMIT | TRANSACTION_READ
  | DEVICE_READ
  | ADMIN_READ | ADMIN_WRITE | TABLE_BROWSE | SESSION_READ | PROCEDURE_READ
  | CHANNEL_INGEST | CHANNEL_DELIVERY | PROVIDER_CALLBACK.
#[export] Instance Permission_eq_dec : EqDecision Permission.
Proof. solve_decision. Defined.

Definition permission_value (p : Permission) : string :=
  match p with
  | ORDER_READ => "order:read" | ORDER_WRITE => "order:write"
  | REFUND_READ => "refund:read" | REFUND_WRITE => "refund:write"
  | CUSTOMER_READ => "customer:read" | CUSTOMER_WRITE => "customer:write"
  | CASE_READ => "case:read" | CASE_WRITE => "case:write"
  | ESCALATION_CREATE => "escalation:create"
  | FRAUD_ALERT_READ => "fraud_alert:read" | FRAUD_ALERT_WRITE => "fraud_alert:write"
  | ACCOUNT_FLAG => "account:flag" | SAR_SUBMIT => "sar:submit"
  | TRANSACTION_READ => "transaction:read" | DEVICE_READ => "device:read"
  | ADMIN_READ => "admin:read" | ADMIN_WRITE => "admin:write" | TABLE_BROWSE => "table:browse"
  | SESSION_READ => "session:read" | PROCEDURE_READ => "procedure:read"
  | CHANNEL_INGEST => "channel:ingest" | CHANNEL_DELIVERY => "channel:delivery"
  | PROVIDER_CALLBACK => "provider:callback"
  end.

Definition all_permissions : list Permission :=
  [ ORDER_READ; ORDER_WRITE; REFUND_READ; REFUND_WRITE; CUSTOMER_READ; CUSTOMER_WRITE;
    CASE_READ; CASE_WRITE; ESCALATION_CREATE; FRAUD_ALERT_READ; FRAUD_ALERT_WRITE;
    ACCOUNT_FLAG; SAR_SUBMIT; TRANSACTION_READ; DEVICE_READ; ADMIN_READ; ADMIN_WRITE;
    TABLE_BROWSE; SESSION_READ; PROCEDURE_READ; CHANNEL_INGEST; CHANNEL_DELIVERY;
    PROVIDER_CALLBACK ].

Record UserContext := mkUser {
  user_id : string; user_role : Role; user_permissions : gset string;
  token_issued_at : option Z
}.

Definition has_permission (u : UserContext) (p : Permission) : bool :=
  bool_decide (permission_value p ∈ user_permissions u).

Definition has_any_permission (u : UserContext) (ps : list Permission) : bool :=
  existsb (has_permission u) ps.

(** ** [auth/rbac.py] *)

Definition ROLE_PERMISSIONS (r : Role) : list Permission :=
  match r with
  | ADMIN => all_permissions
  | SUPERVISOR =>
      [ ORDER_READ; ORDER_WRITE; REFUND_READ; REFUND_WRITE; CUSTOMER_READ; CUSTOMER_WRITE;
        CASE_READ; CASE_WRITE; ESCALATION_CREATE; FRAUD_ALERT_READ; FRAUD_ALERT_WRITE;
        ACCOUNT_FLAG; SAR_SUBMIT; TRANSACTION_READ; DEVICE_READ; ADMIN_READ; TABLE_BROWSE;
        SESSION_READ; PROCEDURE_READ ]
  | CUSTOMER_SERVICE_REP =>
      [ ORDER_READ; REFUND_READ; REFUND_WRITE; CUSTOMER_READ; CASE_READ; CASE_WRITE;
        ESCALATION_CREATE; SESSION_READ; PROCEDURE_READ ]
  | FRAUD_ANALYST =>
      [ FRAUD_ALERT_READ; FRAUD_ALERT_WRITE; ACCOUNT_FLAG; SAR_SUBMIT; TRANSACTION_READ;
        DEVICE_READ; CASE_READ; CASE_WRITE; ESCALATION_CREATE; SESSION_READ; PROCEDURE_READ ]
  | READONLY =>
      [ ORDER_READ; CUSTOMER_READ; CASE_READ; REFUND_READ; FRAUD_ALERT_READ; TRANSACTION_READ;
        SESSION_READ; PROCEDURE_READ ]
  | CUSTOMER => []
  | INTEGRATION =>
      [ CUSTOMER_READ; CASE_READ; CHANNEL_INGEST; CHANNEL_DELIVERY; PROVIDER_CALLBACK ]
  end.

Definition get_permissions_for_role (r : Role) : gset string :=
  list_to_set (map permission_value (ROLE_PERMISSIONS r)).

Definition build_user_context (uid : string) (r : Role) (extra : option (list string)) :
    UserContext :=
  mkUser uid r (get_permissions_for_role r ∪ list_to_set (default [] extra)) None.

(** The wrapper of [@require_permission(p)]: the guard before the function. *)
Definition require_permission {A} (p : Permission) (user : option UserContext) (func : result A) :
    result A :=
  match user with
  | None => inl (AuthorizationError "No user context available" None)
  | Some u =>
      if has_permission u p then func
      else inl (AuthorizationError ("Permission '" +:+ permission_value p +:+ "' required")
                  (Some (permission_value p)))
  end.

Definition require_role {A} (roles : list Role) (user : option UserContext) (func : result A) :
    result A :=
  match user with
  | None => inl (AuthorizationError "No user context available" None)
  | Some u =>
      if bool_decide (user_role u ∈ roles) then func
      else inl (AuthorizationError ("One of roles [" +:+ join ", " (map role_value roles)
                                      +:+ "] required") None)
  end.

(** ** [auth/context.py] *)

Record CustomerContext := mkCustomerContext {
  cc_actor_id : string; cc_customer_id : string; cc_delegated : bool
}.

Definition resolve_customer_context (actor : UserContext) (customer_id : string) :
    result CustomerContext :=
  if decide (user_role actor = CUSTOMER) then
    if String.eqb (user_id actor) customer_id then
      inr (mkCustomerContext (user_id actor) customer_id false)
    else inl (AuthorizationError "Customer identity does not match authenticated subject" None)
  else if has_permission actor CUSTOMER_READ then
    inr (mkCustomerContext (user_id actor) customer_id true)
  else inl (AuthorizationError "Customer delegation requires customer read permission"
              (Some (permission_value CUSTOMER_READ))).

Definition session_owner_id (actor_id customer_id : string) : string :=
  "actor:" +:+ actor_id +:+ ":customer:" +:+ customer_id.

(** ** [auth/jwt_handler.py]; [jwt.encode] and [jwt.decode] are parameters *)

Record token_claims := mkClaims {
  tk_sub : string; tk_role : string; tk_iat : Z; tk_exp : Z; tk_iss : string;
  tk_permissions : option (list string)
}.

(** The library's two kinds of refusal. *)
Inductive jwt_error := ExpiredSignatureError | InvalidTokenError (msg : string).

Class Jwt := {
  jwt_encode : token_claims → string → string → string;
  jwt_decode : string → string → string → string → Z → jwt_error + token_claims
}.

Record auth_settings := mkAuthSettings {
  auth_enabled : bool; auth_secret_key : string; auth_algorithm : string; auth_issuer : string;
  auth_token_expire_minutes : Z
}.

Section tokens.
Context `{Jwt} (settings : auth_settings).

(** The claims [create_access_token] signs; an empty list of extra permissions
    is left out. *)
Definition access_claims (uid : string) (r : Role) (extra : option (list string))
    (expires_delta : option Z) (now : Z) : token_claims :=
  mkClaims uid (role_value r) now
    (now + match expires_delta with
           | Some d => if (d =? 0)%Z then 60000000 * auth_token_expire_minutes settings else d
           | None => 60000000 * auth_token_expire_minutes settings
           end)%Z
    (auth_issuer settings)
    (match extra with Some (_ :: _) => extra | _ => None end).

Definition create_access_token (uid : string) (r : Role) (extra : option (list string))
    (expires_delta : option Z) (now : Z) : string :=
  jwt_encode (access_claims uid r extra expires_delta now) (auth_secret_key settings)
    (auth_algorithm settings).

Definition decode_access_token (token : string) (now : Z) : result UserContext :=
  match jwt_decode token (auth_secret_key settings) (auth_algorithm settings)
          (auth_issuer settings) now with
  | inl ExpiredSignatureError => inl (AuthenticationError "Token has expired" "TOKEN_EXPIRED")
  | inl (InvalidTokenError e) => inl (AuthenticationError ("Invalid token: " +:+ e) "INVALID_TOKEN")
  | inr payload =>
      rbind (role_of (tk_role payload)) (λ role,
        inr (mkUser (tk_sub payload) role
               (get_permissions_for_role role ∪ list_to_set (default [] (tk_permissions payload)))
               (Some (tk_iat payload))))
  end.

(** ** [middleware/auth.py] *)

Record request := mkRequest {
  rq_path : string; rq_authorization : option string; rq_user : option UserContext;
  rq_client_host : option string
}.

Definition PUBLIC_PATHS : list string := ["/health"; "/docs"; "/openapi.json"; "/redoc"].

Definition with_user (u : UserContext) (r : request) : request :=
  mkRequest (rq_path r) (rq_authorization r) (Some u) (rq_client_host r).

(** The request the middleware passes on to [call_next], or the exception. *)
Definition auth_dispatch (r : request) (now : Z) : result request :=
  if bool_decide (rq_path r ∈ PUBLIC_PATHS) then inr r
  else if negb (auth_enabled settings) then
    inr (with_user (build_user_context "dev-user" ADMIN None) r)
  else
    match rq_authorization r with
    | Some header =>
        if starts_with "Bearer " header then
          rbind (decode_access_token (String.substring 7 (String.length header) header) now)
            (λ u, inr (with_user u r))
        else inl (AuthenticationError "Missing or invalid Authorization header" "AUTHENTICATION_REQUIRED")
    | None => inl (AuthenticationError "Missing or invalid Authorization header" "AUTHENTICATION_REQUIRED")
    end.

Definition get_current_user (r : request) : result UserContext :=
  match rq_user r with
  | Some u => inr u
  | None => inl (AuthenticationError "No authenticated user" "AUTHENTICATION_REQUIRED")
  end.
End tokens.

(** ** Facts *)

Lemma role_of_value r : role_of (role_value r) = inr r.
Proof. by destruct r. Qed.

Lemma permission_value_inj p q : permission_value p = permission_value q → p = q.
Proof. destruct p, q; first [done|intros [=]]. Qed.

Lemma has_role_permission uid r extra p :
  p ∈ ROLE_PERMISSIONS r → has_permission (build_user_context uid r extra) p = true.
Proof.
  intros Hp. apply bool_decide_eq_true. cbn. apply elem_of_union_l, elem_of_list_to_set.
  apply list_elem_of_fmap. by exists p.
Qed.
