(* ===== verification/Settings.v ===== *)
(** * Settings ([settings.py], [config.py])

    The validated settings and what is derived from them.  Fields that only
    libraries read (host names, pool sizes) are left out; the fields of one group
    are one record; a path is a string.  [validate] is the construction of
    [Settings]: field constraints, then the model validator, check by check.  The
    last part is the settings of the language model and what is built from them;
    the targets of logging are in [Middleware]. *)

From S2P Require Import Prelude PyValue PyString RateLimiter Auth.

Inductive Environment := DEV | STAGING | PRODUCTION.
#[export] Instance Environment_eq_dec : EqDecision Environment.
Proof. solve_decision. Defined.

Inductive UpstreamMode := UP_DISABLED | UP_SANDBOX | UP_PROVIDER.
#[export] Instance UpstreamMode_eq_dec : EqDecision UpstreamMode.
Proof. solve_decision. Defined.

(** The settings of the language model. *)
Record LlmSettings := mkLlm {
  google_api_key : option string; google_genai_use_vertexai : bool; llm_model : string;
  llm_temperature : option float; llm_top_p : option float; llm_top_k : option Z;
  llm_max_output_tokens : option Z
}.

Record Settings := mkSettings {
  environment : Environment;
  cors_origins : list string;
  database_url : string;
  reference_data_database_url : string;
  seed_reference_data : option bool;
  policy_database_url : option string;
  auth : auth_settings;
  jurisdiction_enforce : option bool;
  policy_signing_key : string;
  policy_author : string;
  policy_approver : string;
  upstream_mode : option UpstreamMode;
  sandbox_database_url : string;
  provider_bundle_factory : option string;
  action_worker_lease_seconds : Z;
  action_reconciliation_delay_seconds : Z;
  rate_limits : RateSettings;
  log_level : string;
  reasoning_max_iterations : Z;
  reasoning_enabled : bool;
  compliance_enabled : bool;
  jurisdiction_profile : string;
  policy_signing_key_id : string;
  policy_verification_keys : list (string * string);
  app_name : string;
  llm : LlmSettings
}.

Definition is_production (s : Settings) : bool := bool_decide (environment s = PRODUCTION).
Definition is_dev (s : Settings) : bool := bool_decide (environment s = DEV).

Definition effective_seed_reference_data (s : Settings) : bool :=
  match seed_reference_data s with Some b => b | None => is_dev s end.

Definition effective_upstream_mode (s : Settings) : UpstreamMode :=
  match upstream_mode s with
  | Some m => m
  | None => if is_dev s then UP_SANDBOX else UP_DISABLED
  end.

Definition effective_jurisdiction_enforcement (s : Settings) : bool :=
  match jurisdiction_enforce s with Some b => b | None => negb (is_dev s) end.

Definition effective_policy_database_url (s : Settings) : string :=
  match policy_database_url s with
  | Some u => if String.eqb u "" then database_url s else u
  | None => database_url s
  end.

(** [url.split("///", 1)[-1]] *)
Definition path_of (url : string) : string := default url (after "///" url).

(** [url.split("///")[-1]] *)
Definition sqlite_path (s : Settings) : option string :=
  if str_contains "sqlite" (database_url s)
  then Some (split_end (String.length (database_url s)) "///" (database_url s)) else None.

Definition reference_data_sqlite_path (s : Settings) : result string :=
  if starts_with "sqlite" (reference_data_database_url s)
  then inr (path_of (reference_data_database_url s))
  else inl (ValueError "The built-in reference-data repository requires SQLite").

Definition sandbox_sqlite_path (s : Settings) : result string :=
  if starts_with "sqlite" (sandbox_database_url s) then inr (path_of (sandbox_database_url s))
  else inl (ValueError "The built-in sandbox adapter requires a SQLite database URL").

(** ** Validation *)

Definition log_levels : list string := ["DEBUG"; "INFO"; "WARNING"; "ERROR"; "CRITICAL"].

Definition validate_log_level (v : string) : result string :=
  if bool_decide (str_upper v ∈ log_levels) then inr (str_upper v)
  else inl (ValueError "log_level must be one of {'CRITICAL', 'DEBUG', 'ERROR', 'INFO', 'WARNING'}").

Definition in_range (lo hi x : Z) : bool := ((lo <=? x) && (x <=? hi))%Z.

(** The constraints of the fields: an optional one is bounded when it is given. *)
Definition optionally {A} (p : A → bool) (x : option A) : bool :=
  match x with Some x => p x | None => true end.
Definition llm_valid (s : LlmSettings) : bool :=
  optionally (λ t, f_leb (f_of_Z 0) t && f_leb t (f_of_Z 2)) (llm_temperature s) &&
  optionally (λ t, f_leb (f_of_Z 0) t && f_leb t (f_of_Z 1)) (llm_top_p s) &&
  optionally (Z.leb 1) (llm_top_k s) && optionally (Z.leb 1) (llm_max_output_tokens s).

Definition fields_valid (s : Settings) : bool :=
  in_range 5 3600 (action_worker_lease_seconds s) &&
  in_range 0 86400 (action_reconciliation_delay_seconds s) &&
  in_range 0 5 (reasoning_max_iterations s) && llm_valid (llm s).

Definition validate_production_secrets (s : Settings) : result unit :=
  (ensure negb (is_production s && String.eqb (policy_signing_key s) "dev-policy-signing-key") else
     (ValueError "POLICY_SIGNING_KEY must be changed in production") in
   ensure negb (is_production s && auth_enabled (auth s) &&
                String.eqb (auth_secret_key (auth s)) "dev-secret-key-change-in-production") else
     (ValueError "AUTH_SECRET_KEY must be changed when production auth is enabled") in
   ensure negb (String.eqb (policy_author s) (policy_approver s)) else
     (ValueError "Policy author and approver must be different") in
   ensure negb (is_production s && bool_decide (upstream_mode s = Some UP_SANDBOX)) else
     (ValueError "UPSTREAM_MODE=sandbox is forbidden in production") in
   ensure negb (bool_decide (upstream_mode s = Some UP_PROVIDER) &&
                negb (str_truthy (provider_bundle_factory s))) else
     (ValueError "PROVIDER_BUNDLE_FACTORY is required for UPSTREAM_MODE=provider") in
   ensure negb (is_production s && bool_decide ("*" ∈ cors_origins s)) else
     (ValueError "Wildcard CORS origins are forbidden in production") in
   ensure bool_decide (auth_algorithm (auth s) ∈ ["HS256"; "HS384"; "HS512"]) else
     (ValueError "AUTH_ALGORITHM must be an approved HMAC JWT algorithm") in
   ensure negb (is_production s && negb (auth_enabled (auth s))) else
     (ValueError "AUTH_ENABLED must be true in production") in
   ensure negb (is_production s && effective_seed_reference_data s) else
     (ValueError "SEED_REFERENCE_DATA must be false in production") in
   inr tt)%wf.

Definition set_log_level (l : string) (s : Settings) : Settings :=
  mkSettings (environment s) (cors_origins s) (database_url s) (reference_data_database_url s)
    (seed_reference_data s) (policy_database_url s) (auth s) (jurisdiction_enforce s) (policy_signing_key s) (policy_author s)
    (policy_approver s) (upstream_mode s) (sandbox_database_url s) (provider_bundle_factory s)
    (action_worker_lease_seconds s) (action_reconciliation_delay_seconds s) (rate_limits s) l
    (reasoning_max_iterations s) (reasoning_enabled s) (compliance_enabled s)
    (jurisdiction_profile s) (policy_signing_key_id s) (policy_verification_keys s) (app_name s) (llm s).

(** [Settings(...)]; the errors of the validators reach the caller inside a
    [ValidationError]. *)
Definition validate (s : Settings) : result Settings :=
  rbind (validate_log_level (log_level s)) (λ l,
    if fields_valid s then
      rbind (validate_production_secrets s) (λ _, inr (set_log_level l s))
    else inl (OtherError "ValidationError")).

(** ** What validation guarantees *)

(** The rules a deployment must satisfy. *)
Record hardened (s : Settings) : Prop := {
  hd_signing_key : policy_signing_key s ≠ "dev-policy-signing-key";
  hd_auth : auth_enabled (auth s) = true;
  hd_secret : auth_secret_key (auth s) ≠ "dev-secret-key-change-in-production";
  hd_upstream : effective_upstream_mode s ≠ UP_SANDBOX;
  hd_cors : "*" ∉ cors_origins s;
  hd_seed : effective_seed_reference_data s = false
}.

Record well_formed (s : Settings) : Prop := {
  wf_duties : policy_author s ≠ policy_approver s;
  wf_provider : effective_upstream_mode s = UP_PROVIDER →
    str_truthy (provider_bundle_factory s) = true;
  wf_algorithm : auth_algorithm (auth s) ∈ ["HS256"; "HS384"; "HS512"];
  wf_lease : (5 ≤ action_worker_lease_seconds s ≤ 3600)%Z;
  wf_delay : (0 ≤ action_reconciliation_delay_seconds s ≤ 86400)%Z;
  wf_iterations : (0 ≤ reasoning_max_iterations s ≤ 5)%Z;
  wf_temperature : ∀ t, llm_temperature (llm s) = Some t →
    f_leb (f_of_Z 0) t = true ∧ f_leb t (f_of_Z 2) = true;
  wf_top_p : ∀ t, llm_top_p (llm s) = Some t →
    f_leb (f_of_Z 0) t = true ∧ f_leb t (f_of_Z 1) = true;
  wf_top_k : ∀ k, llm_top_k (llm s) = Some k → (1 ≤ k)%Z;
  wf_max_output_tokens : ∀ k, llm_max_output_tokens (llm s) = Some k → (1 ≤ k)%Z;
  wf_log_level : str_upper (log_level s) ∈ log_levels
}.

Lemma effective_provider s :
  effective_upstream_mode s = UP_PROVIDER ↔ upstream_mode s = Some UP_PROVIDER.
Proof.
  unfold effective_upstream_mode. destruct (upstream_mode s) as [m|]; [by split; intros [= ->]|].
  by destruct (is_dev s).
Qed.

Lemma effective_sandbox s :
  is_production s = true →
  effective_upstream_mode s = UP_SANDBOX ↔ upstream_mode s = Some UP_SANDBOX.
Proof.
  unfold is_production, effective_upstream_mode, is_dev. intros Hp%bool_decide_eq_true.
  rewrite Hp. destruct (upstream_mode s) as [m|]; [by split; intros [= ->]|done].
Qed.

Lemma secrets_ok s :
  is_production s = true →
  validate_production_secrets s = inr tt ↔
    hardened s ∧ policy_author s ≠ policy_approver s ∧
    (effective_upstream_mode s = UP_PROVIDER → str_truthy (provider_bundle_factory s) = true) ∧
    auth_algorithm (auth s) ∈ ["HS256"; "HS384"; "HS512"].
Proof.
  intros Hp. unfold validate_production_secrets. rewrite Hp, effective_provider. cbn [andb].
  pose proof (effective_sandbox s Hp) as Hsb.
  split.
  - destruct (String.eqb_spec (policy_signing_key s) "dev-policy-signing-key") as [|H1];
      cbn; [discriminate|].
    destruct (auth_enabled (auth s)) eqn:H2; cbn; [|by repeat (case_match; try discriminate)].
    destruct (String.eqb_spec (auth_secret_key (auth s)) "dev-secret-key-change-in-production")
      as [|H3]; cbn; [discriminate|].
    destruct (String.eqb_spec (policy_author s) (policy_approver s)) as [|H4]; cbn; [discriminate|].
    case_bool_decide as H5; cbn; [discriminate|].
    destruct (bool_decide (upstream_mode s = Some UP_PROVIDER) && _) eqn:H6; cbn; [discriminate|].
    destruct (decide ("*" ∈ cors_origins s)) as [H7|H7];
      [rewrite (bool_decide_true _ H7); discriminate|rewrite (bool_decide_false _ H7); cbn].
    destruct (decide (auth_algorithm (auth s) ∈ ["HS256"; "HS384"; "HS512"])) as [H8|H8];
      [rewrite (bool_decide_true _ H8); cbn|rewrite (bool_decide_false _ H8); discriminate].
    destruct (effective_seed_reference_data s) eqn:H9; cbn; [discriminate|].
    intros _. split; [split; try done; by rewrite Hsb|]. split_and!; [done| |done].
    intros Hup. rewrite (bool_decide_true _ Hup) in H6. by destruct (str_truthy _).
  - intros ([H1 H2 H3 H4 H5 H6] & H7 & H8 & H9). rewrite Hsb in H4. rewrite H2, H6.
    apply String.eqb_neq in H1 as ->. apply String.eqb_neq in H3 as ->.
    apply String.eqb_neq in H7 as ->. rewrite !(bool_decide_false _ H4), !(bool_decide_false _ H5).
    rewrite (bool_decide_true _ H9). cbn. case_bool_decide as Hup; [by rewrite H8|done].
Qed.

(** The bounds of the fields are those of a well-formed deployment. *)
Lemma optionally_spec {A} (p : A → bool) (x : option A) :
  optionally p x = true ↔ ∀ a, x = Some a → p a = true.
Proof.
  destruct x as [a|]; cbn; [|by split]. split; [by intros ? ? [= <-]|intros Ha; by apply Ha].
Qed.

Lemma in_range_spec lo hi x : in_range lo hi x = true ↔ (lo ≤ x ≤ hi)%Z.
Proof. unfold in_range. rewrite andb_true_iff, !Z.leb_le. done. Qed.

Lemma fields_valid_spec s :
  fields_valid s = true ↔
  (5 ≤ action_worker_lease_seconds s ≤ 3600)%Z ∧
  (0 ≤ action_reconciliation_delay_seconds s ≤ 86400)%Z ∧
  (0 ≤ reasoning_max_iterations s ≤ 5)%Z ∧
  (∀ t, llm_temperature (llm s) = Some t →
     f_leb (f_of_Z 0) t = true ∧ f_leb t (f_of_Z 2) = true) ∧
  (∀ t, llm_top_p (llm s) = Some t → f_leb (f_of_Z 0) t = true ∧ f_leb t (f_of_Z 1) = true) ∧
  (∀ k, llm_top_k (llm s) = Some k → (1 ≤ k)%Z) ∧
  (∀ k, llm_max_output_tokens (llm s) = Some k → (1 ≤ k)%Z).
Proof.
  unfold fields_valid, llm_valid. rewrite !andb_true_iff, !in_range_spec, !optionally_spec.
  setoid_rewrite andb_true_iff. setoid_rewrite Z.leb_le. tauto.
Qed.

(** C37: production settings are hardened, exactly: in production, settings are
    accepted if and only if no development secret is left, authentication is on,
    the upstream systems are not the sandbox, no wildcard origin is allowed and
    no demonstration data is seeded, besides the rules of every environment
    (distinct author and approver, a provider bundle for the provider mode, an
    approved algorithm, a known log level, and each of the seven bounded fields
    within its bounds: lease, reconciliation delay, iterations, and the model's
    temperature, top-p, top-k and output tokens where they are given); and what is
    accepted is the given settings, the log level in upper case. *)
Theorem production_settings_hardened s :
  is_production s = true →
  (is_ok (validate s) = true ↔ hardened s ∧ well_formed s) ∧
  (∀ s', validate s = inr s' → s' = set_log_level (str_upper (log_level s)) s).
Proof.
  intros Hp. pose proof (secrets_ok s Hp) as Hs. pose proof (fields_valid_spec s) as Hf.
  unfold validate, validate_log_level. case_bool_decide as Hl; cbn [rbind].
  2: { split; [split; [done|by intros [_ []]]|done]. }
  destruct (fields_valid s).
  - destruct (proj1 Hf eq_refl) as (?&?&?&?&?&?&?).
    destruct (validate_production_secrets s) as [e|[]]; cbn [rbind].
    + split; [|done]. split; [done|]. intros [Hh []].
      assert (@inl exn unit e = inr tt) by (apply Hs; by split_and!). done.
    + split; [|by intros s' [= <-]]. split; [|done]. intros _.
      destruct (proj1 Hs eq_refl) as (? & ? & ? & ?). split; [done|]. by split.
  - split; [|done]. split; [done|]. intros [_ []].
    assert (false = true) by (apply Hf; tauto). done.
Qed.

(** What the fields default to. *)
Definition default_llm : LlmSettings := mkLlm None false "gemini-2.5-flash" None None None None.

(** A production deployment, and the same one with a wildcard origin. *)
Definition demo_settings (origins : list string) : Settings :=
  mkSettings PRODUCTION origins "postgresql://db/core" "sqlite+aiosqlite:///data/workflow.db"
    None None (mkAuthSettings true "a-real-secret" "HS256" "workflow-engine" 480) None
    "a-real-signing-key" "operations-author" "risk-approver" (Some UP_PROVIDER)
    "sqlite+aiosqlite:///data/upstream_sandbox.db" (Some "acme.bundle:create") 30 30
    (mkRateSettings true 100 60) "info" 2 true true "NAM" "primary" [] "workflow_engine" default_llm.

Example production_settings_hardened_witness :
  hardened (demo_settings ["https://app.example"]) ∧ is_ok (validate (demo_settings ["*"])) = false.
Proof.
  split; [|by vm_compute].
  refine (proj1 (proj1 (proj1 (production_settings_hardened (demo_settings ["https://app.example"])
                                 _)) _)); vm_compute; reflexivity.
Defined.

(** The environment alone decides what is not set. *)
Example development_defaults :
  effective_upstream_mode (mkSettings DEV [] "" "" None None (mkAuthSettings false "" "HS256" "" 480)
    None "" "a" "b" None "" None 30 30 (mkRateSettings false 100 60) "INFO" 2 true true
    "NAM" "primary" [] "workflow_engine" default_llm) = UP_SANDBOX.
Proof. reflexivity. Qed.

(** ** The model service ([config.py])

    What is built of the settings of the language model.  The client of the service
    is a parameter. *)

Definition get_model_name (s : LlmSettings) : string := llm_model s.

Record GenerateContentConfig := mkGenerate {
  gc_temperature : option float; gc_top_p : option float; gc_top_k : option Z;
  gc_max_output_tokens : option Z
}.

Definition get_generate_content_config (s : LlmSettings) : option GenerateContentConfig :=
  match llm_temperature s, llm_top_p s, llm_top_k s, llm_max_output_tokens s with
  | None, None, None, None => None
  | temperature, top_p, top_k, max_output_tokens =>
      Some (mkGenerate temperature top_p top_k max_output_tokens)
  end.

Section model.
Context {C : Type} (Client : option string → bool → result C).

Definition get_genai_client (s : LlmSettings) : result C :=
  Client (if google_genai_use_vertexai s then None else google_api_key s)
    (google_genai_use_vertexai s).

Record Gemini := mkGemini { gm_model : string; gm_api_client : option C }.

(** Without credentials the model keeps the client it makes for itself. *)
Definition create_model (s : LlmSettings) : result Gemini :=
  match get_genai_client s with
  | inr client => inr (mkGemini (get_model_name s) (Some client))
  | inl (ValueError _) => inr (mkGemini (get_model_name s) None)
  | inl e => inl e
  end.
End model.

(** No configuration exactly when nothing is configured. *)
Lemma no_content_config s :
  get_generate_content_config s = None ↔
  llm_temperature s = None ∧ llm_top_p s = None ∧ llm_top_k s = None ∧
  llm_max_output_tokens s = None.
Proof.
  unfold get_generate_content_config.
  destruct (llm_temperature s), (llm_top_p s), (llm_top_k s), (llm_max_output_tokens s);
    (split; [done|by intros (?&?&?&?)]).
Qed.
