(* ===== verification/Reasoning.v ===== *)
(** * Reasoning over a response ([agents/reasoning.py])

    The claims a text makes (amounts, days, a refund approved or denied), the rules
    a procedure implies, and the check of the one against the other.  Z3 and SymPy
    are the classes [Z3] and [Sympy]: the formulas handed to the solver are terms
    here, its verdict on them is the solver's. *)

From S2P Require Import Prelude PyValue PyString Numerals Regex Dates.

From Stdlib Require Import Strings.Ascii.
From stdpp Require Import pretty.


Local Open Scope wf_scope.

(** ** Data *)

Inductive Severity := ERROR | WARNING | INFO.
#[export] Instance Severity_eq_dec : EqDecision Severity.
Proof. solve_decision. Defined.

Record Finding := mkFinding {
  fi_rule_id : string; fi_description : string; fi_severity : Severity;
  fi_actual_value : option string; fi_expected_constraint : option string
}.
Definition is_error (f : Finding) : bool := bool_decide (fi_severity f = ERROR).
Definition is_warning (f : Finding) : bool := bool_decide (fi_severity f = WARNING).

Inductive Verdict := VALID | INVALID | SATISFIABLE | NOT_APPLICABLE.
#[export] Instance Verdict_eq_dec : EqDecision Verdict.
Proof. solve_decision. Defined.
Definition verdict_value (v : Verdict) : string :=
  match v with
  | VALID => "VALID" | INVALID => "INVALID" | SATISFIABLE => "SATISFIABLE"
  | NOT_APPLICABLE => "NOT_APPLICABLE"
  end.

Record VerificationResult := mkResult {
  vr_verdict : Verdict; vr_findings : list Finding; vr_cited_rules : list string;
  vr_explanation : string; vr_rewrite_hint : option string
}.
Definition is_valid (r : VerificationResult) : bool := bool_decide (vr_verdict r = VALID).

(** ** Claims *)

Definition _AMOUNT_PATTERN : re := re_of "\$\s?([\d,]+\.?\d*)".
Definition _DAYS_PATTERN : re :=
  re_of "(\d+)\s*(?:[-–]\s*(\d+)\s*)?(?:business\s+)?days?".
Definition _REFUND_APPROVED_PATTERN : re :=
  re_of "(?i)\brefund\b.*?\b(?:approved|processed|issued|credited)\b".
Definition _REFUND_DENIED_PATTERN : re :=
  re_of "(?i)\b(?:not\s+eligible|cannot\s+process|outside.*window|denied)\b".
Definition _STORE_CREDIT_PATTERN : re := re_of "(?i)\bstore\s+credit\b".
Definition _ESCALATION_PATTERN : re :=
  re_of "(?i)\b(?:escalat|supervisor|senior\s+representative)\b".

(** The dict of claims: a list that is present is not empty. *)
Record Claims := mkClaims {
  mentioned_amounts : list float; mentioned_days : list Z;
  claims_refund_approved : bool; claims_refund_denied : bool;
  claims_store_credit : bool; claims_escalation : bool
}.
Definition no_claims (c : Claims) : bool :=
  match mentioned_amounts c, mentioned_days c with
  | [], [] => negb (claims_refund_approved c || claims_refund_denied c || claims_store_credit c ||
                    claims_escalation c)
  | _, _ => false
  end.

(** [s.replace(",", "")] *)
Fixpoint without_commas (s : string) : string :=
  match s with
  | EmptyString => ""
  | String a s' => if Ascii.eqb a ","%char then without_commas s' else String a (without_commas s')
  end.

(** [float(a.replace(",", ""))] *)
Definition amount_of (a : string) : result float := py_float (VStr (without_commas a)).

(** [_AMOUNT_PATTERN.findall(text)] *)
Definition amounts_in (text : string) : list string := map (group 1) (re_findall _AMOUNT_PATTERN text).

Definition days_of_match (acc : list Z) (m : mstate) : result (list Z) :=
  let? first := py_int (VStr (group 1 m)) in
  if String.eqb (group 2 m) "" then inr (acc ++ [first])
  else let? second := py_int (VStr (group 2 m)) in inr (acc ++ [first; second]).

Definition extract_claims (response_text : string) : result Claims :=
  let? amounts := fold_result (λ acc a, let? x := amount_of a in inr (acc ++ [x])) []
                    (amounts_in response_text) in
  let? days := fold_result days_of_match [] (re_findall _DAYS_PATTERN response_text) in
  inr (mkClaims amounts days
         (re_search _REFUND_APPROVED_PATTERN response_text)
         (re_search _REFUND_DENIED_PATTERN response_text)
         (re_search _STORE_CREDIT_PATTERN response_text)
         (re_search _ESCALATION_PATTERN response_text)).

(** ** The solver *)

(** The expressions the rules are built of. *)
Inductive z3term :=
  | ZVar (name : string)
  | ZInt (z : Z)
  | ZReal (text : string)
  | ZString (s : string)
  | ZBool (b : bool).
Inductive z3expr :=
  | ZIs (t : z3term)
  | ZLe (a b : z3term)
  | ZGt (a b : z3term)
  | ZEq (a b : z3term)
  | ZAnd (l : list z3expr)
  | ZOr (l : list z3expr)
  | ZNot (e : z3expr).
Inductive CheckSatResult := sat | unsat | unknown.
#[export] Instance CheckSatResult_eq_dec : EqDecision CheckSatResult.
Proof. solve_decision. Defined.

(** [solver.check()] on the asserted formulas, [z3.StringVal(v)], [z3.RealVal(s)],
    and [x == v] for a Boolean constant and a Python value. *)
Class Z3 := {
  z3_check : list z3expr → CheckSatResult;
  StringVal : value → result z3term;
  RealVal : string → result z3term;
  eq_value : z3term → value → result z3expr
}.

(** [sympy.Rational(str(v))] and the order of rationals. *)
Class Sympy := {
  rational : Type;
  Rational : value → result rational;
  rat_gt : rational → rational → bool;
  rat_le : rational → rational → bool;
  rat_eq : rational → rational → bool
}.

(** ** The policy of a procedure *)

Record ReasoningRule := mkRule {
  ru_rule_id : string; ru_description : string; ru_constraint : z3expr; ru_source_step : value
}.
Record ReasoningPolicy := mkPolicy {
  po_procedure_id : string; po_rules : list ReasoningRule; po_source_document : string
}.

Definition order_age_days : z3term := ZVar "order_age_days".
Definition order_total : z3term := ZVar "order_total".
Definition refund_amount : z3term := ZVar "refund_amount".
Definition order_status : z3term := ZVar "order_status".
Definition is_refundable_category : z3term := ZVar "is_refundable_category".

Definition _parse_condition_to_z3 (condition_text next_step : value) : result (option z3expr) :=
  let? cond_lower := py_lower condition_text in
  inr (if str_contains "within 30 days" cond_lower && py_eqb next_step (VStr "process_refund") then
         Some (ZAnd [ZLe order_age_days (ZInt 30);
                     ZOr [ZEq order_status (ZString "delivered");
                          ZEq order_status (ZString "shipped")];
                     ZIs is_refundable_category])
       else if str_contains "outside 30 days" cond_lower then Some (ZGt order_age_days (ZInt 30))
       else if str_contains "processing" cond_lower then
         Some (ZEq order_status (ZString "processing"))
       else None).

Definition universal_rules (procedure_id : string) : list ReasoningRule :=
  [ mkRule (procedure_id +:+ ":universal:refund_lte_total")
      "Refund amount must not exceed order total" (ZLe refund_amount order_total) (VStr "*");
    mkRule (procedure_id +:+ ":universal:refund_positive")
      "Refund amount must be positive" (ZGt refund_amount (ZReal "0")) (VStr "*");
    mkRule (procedure_id +:+ ":universal:order_total_positive")
      "Order total must be positive" (ZGt order_total (ZReal "0")) (VStr "*") ].

Section reasoning.
Context `{Render, Z3, Sympy}.

(** One condition of a step; [acc] is the rules so far and the next index. *)
Definition condition_rule (proc_id : string) (step_id : value) (acc : list ReasoningRule * nat)
    (cond : value) : result (list ReasoningRule * nat) :=
  let? cond_text := py_get "if" (VStr "") cond in
  let? next_step := py_get "next_step" (VStr "") cond in
  let rule_id := proc_id +:+ ":" +:+ py_str step_id +:+ ":cond_" +:+ pretty acc.2 in
  let? constraint := _parse_condition_to_z3 cond_text next_step in
  inr (match constraint with
       | Some c =>
           acc.1 ++ [mkRule rule_id
                       ("Condition: " +:+ py_str cond_text +:+ " -> " +:+ py_str next_step) c step_id]
       | None => acc.1
       end, S acc.2).

Definition step_rules (proc_id : string) (rules : list ReasoningRule) (step : value) :
    result (list ReasoningRule) :=
  let? step_id := py_get "id" (VStr "") step in
  let? conditions := py_get "conditions" (VList []) step in
  if truthy conditions then
    let? conditions := py_list conditions in
    let? acc := fold_result (condition_rule proc_id step_id) (rules, 0) conditions in
    inr acc.1
  else inr rules.

Definition build_policy_from_procedure (procedure : dict value) : result ReasoningPolicy :=
  let proc_id := py_str (dget_or "id" (VStr "unknown") procedure) in
  let? steps := py_list (dget_or "steps" (VList []) procedure) in
  let? rules := fold_result (step_rules proc_id) [] steps in
  inr (mkPolicy proc_id (rules ++ universal_rules proc_id) ("procedures/" +:+ proc_id +:+ ".yaml")).

(** ** Verification *)

Definition order_formats : list format := [FDate; FIso; FSpace].

(** The formats are tried in turn; [now] is [datetime.now(timezone.utc)]. *)
Definition _get_order_age_days (now : Z) (session_state : dict value) : option Z :=
  let order_date_str := dget_none "order_date" session_state in
  if truthy order_date_str then
    match order_date_str with
    | VStr s =>
        match omap (λ f, strptime f s) order_formats with
        | order_date :: _ => Some (days_of (now - order_date))
        | [] => None
        end
    | _ => None
    end
  else None.

Definition eligible_rules (policy : ReasoningPolicy) : list ReasoningRule :=
  List.filter (λ r, py_eqb (ru_source_step r) (VStr "check_eligibility") &&
               str_contains "process_refund" (ru_description r)) (po_rules policy).

Definition eligibility_finding (what : string) (r : ReasoningRule) (order_age : Z)
    (order_status_val : value) : Finding :=
  mkFinding (ru_rule_id r)
    ("Response claims refund " +:+ what +:+ " eligible: order_age=" +:+ pretty order_age
       +:+ " days, status=" +:+ py_str order_status_val)
    ERROR
    (Some ("age=" +:+ pretty order_age +:+ ", status=" +:+ py_str order_status_val))
    (Some "age <= 30 AND status in [delivered, shipped]").

Definition rule_findings (claims : Claims) (facts : list z3expr) (order_age : Z)
    (order_status_val : value) (r : ReasoningRule) : list Finding :=
  let is_eligible := bool_decide (z3_check (facts ++ [ru_constraint r]) = sat) in
  (if claims_refund_approved claims && negb is_eligible
   then [eligibility_finding "approved but order is NOT" r order_age order_status_val] else []) ++
  (if claims_refund_denied claims && is_eligible
   then [eligibility_finding "denied but order IS" r order_age order_status_val] else []).

(** The findings, and the rules cited. *)
Definition _verify_eligibility_claims (now : Z) (claims : Claims) (policy : ReasoningPolicy)
    (session_state : dict value) (cited : list string) : result (list Finding * list string) :=
  if negb (claims_refund_approved claims) && negb (claims_refund_denied claims) then inr ([], cited)
  else
    let order_age := _get_order_age_days now session_state in
    let order_status_val := dget_or "order_status" (VStr "") session_state in
    match order_age with
    | Some order_age =>
        if truthy order_status_val then
          let? status := StringVal order_status_val in
          let? category :=
            eq_value is_refundable_category
              (dget_or "is_refundable_category" (VBool true) session_state) in
          let facts := [ZEq order_age_days (ZInt order_age); ZEq order_status status; category] in
          let rules := eligible_rules policy in
          inr (flat_map (rule_findings claims facts order_age order_status_val) rules,
               cited ++ map ru_rule_id rules)
        else inr ([], cited)
    | None => inr ([], cited)
    end.

(** The rules on amounts the solver finds violated are cited once. *)
Definition cite_violated (facts : list z3expr) (cited : list string) (r : ReasoningRule) : list string :=
  if bool_decide (z3_check (facts ++ [ZNot (ru_constraint r)]) = sat) &&
     negb (bool_decide (ru_rule_id r ∈ cited))
  then cited ++ [ru_rule_id r] else cited.

Definition amount_claim (policy : ReasoningPolicy) (total : float) (order_sym : rational)
    (acc : list Finding * list string) (amount : float) : result (list Finding * list string) :=
  let? amount_sym := Rational (VFloat amount) in
  let rule_id := po_procedure_id policy +:+ ":universal:refund_lte_total" in
  let acc :=
    if rat_gt amount_sym order_sym then
      (acc.1 ++ [mkFinding rule_id
                   ("Mentioned amount $" +:+ fmt2 amount +:+ " exceeds order total $" +:+ fmt2 total)
                   ERROR (Some ("$" +:+ fmt2 amount)) (Some ("<= $" +:+ fmt2 total))],
       acc.2 ++ [rule_id])
    else acc in
  let? total_val := RealVal (py_str (VFloat total)) in
  let? amount_val := RealVal (py_str (VFloat amount)) in
  let facts := [ZEq order_total total_val; ZEq refund_amount amount_val] in
  inr (acc.1,
       fold_left (cite_violated facts)
         (List.filter (λ r, str_contains "refund_lte_total" (ru_rule_id r)) (po_rules policy)) acc.2).

(** [float(v)], where a [ValueError] or a [TypeError] ends the check. *)
Definition float_or_none (v : value) : result (option float) :=
  match py_float v with
  | inr x => inr (Some x)
  | inl (ValueError _) | inl (TypeError _) => inr None
  | inl e => inl e
  end.

Definition _verify_amount_claims (claims : Claims) (policy : ReasoningPolicy)
    (session_state : dict value) (cited : list string) : result (list Finding * list string) :=
  match mentioned_amounts claims, dget_none "order_total" session_state with
  | [], _ | _, VNone => inr ([], cited)
  | amounts, total =>
      let? total := float_or_none total in
      match total with
      | None => inr ([], cited)
      | Some total =>
          let? order_sym := Rational (VFloat total) in
          fold_result (amount_claim policy total order_sym) ([], cited) amounts
      end
  end.

Definition _verify_step_claims (claims : Claims) (current_step : option string) : list Finding :=
  match current_step with
  | Some step =>
      if String.eqb step "" then [] else
      (if claims_refund_approved claims && negb (bool_decide (step ∈ ["process_refund"; "cancel_order"]))
       then [mkFinding "step_compliance:refund_at_wrong_step"
               ("Response claims refund approved at step '" +:+ step +:+
                "', but refunds should only be issued at 'process_refund' or 'cancel_order' step")
               WARNING (Some step) (Some "process_refund or cancel_order")] else []) ++
      (if claims_store_credit claims &&
          negb (bool_decide (step ∈ ["deny_refund_window"; "offer_store_credit"]))
       then [mkFinding "step_compliance:store_credit_at_wrong_step"
               ("Response mentions store credit at step '" +:+ step +:+
                "', but store credit should only be offered at 'deny_refund_window' or "
                +:+ "'offer_store_credit' step")
               WARNING (Some step) (Some "deny_refund_window or offer_store_credit")] else [])
  | None => []
  end.

(** One line of a hint per error. *)
Definition hint_line (err : Finding) : string :=
  match fi_expected_constraint err with
  | Some c => if String.eqb c "" then "- " +:+ fi_description err
              else "- " +:+ fi_description err +:+ ". Expected: " +:+ c
  | None => "- " +:+ fi_description err
  end.

Definition _build_rewrite_hint (errors : list Finding) : string :=
  "The response contains factual errors that violate verified business rules. "
    +:+ "Please correct the following:" +:+ line_feed +:+ PyValue.join line_feed (map hint_line errors).

(** The verdict on a list of findings; [explanation] is that of no problem at all. *)
Definition judge (hint : list Finding → string) (explanation : string) (findings : list Finding)
    (cited : list string) : VerificationResult :=
  let errors := List.filter is_error findings in
  let warnings := List.filter is_warning findings in
  match errors, warnings with
  | _ :: _, _ =>
      mkResult INVALID findings cited
        ("Found " +:+ pretty (length errors) +:+ " error(s): " +:+
           PyValue.join "; " (map fi_description errors))
        (Some (hint errors))
  | [], _ :: _ =>
      mkResult SATISFIABLE findings cited
        ("Response is plausible but has " +:+ pretty (length warnings) +:+ " warning(s).") None
  | [], [] => mkResult VALID findings cited explanation None
  end.

Definition reasoning_verify (now : Z) (response_text : string) (policy : ReasoningPolicy)
    (session_state : dict value) (current_step : option string) : result VerificationResult :=
  if bool_decide (po_rules policy = []) then
    inr (mkResult NOT_APPLICABLE [] [] "No reasoning rules available for this procedure." None)
  else
    let? claims := extract_claims response_text in
    if no_claims claims then
      inr (mkResult NOT_APPLICABLE [] [] "No verifiable claims found in the response." None)
    else
      let? eligibility := _verify_eligibility_claims now claims policy session_state [] in
      let? amounts := _verify_amount_claims claims policy session_state eligibility.2 in
      inr (judge _build_rewrite_hint "All claims verified against formal rules."
             (eligibility.1 ++ amounts.1 ++ _verify_step_claims claims current_step) amounts.2).
End reasoning.
