(* ===== verification/Compliance.v ===== *)
(** * Compliance checks of a response ([agents/compliance.py])

    The disclosures each step requires, the content no response may have, and the
    amounts a response may mention, in the session a response belongs to. *)

From S2P Require Import Prelude PyValue PyString Numerals Regex Reasoning.

Local Open Scope wf_scope.

Record ComplianceViolation := mkCompliance {
  cv_rule_id : string; cv_description : string; cv_severity : Severity;
  cv_actual_value : option string; cv_expected : option string
}.

Definition _REQUIRED_DISCLOSURES : dict (list (string * re)) :=
  [ ("process_refund",
      [("timeline_disclosure", re_of "(?i)\b\d+[\s-]+\d*\s*(?:business\s+)?days?\b");
       ("reference_number_disclosure",
         re_of "(?i)\b(?:reference|ref|confirmation)\s*(?:number|#|no)?\b")]);
    ("offer_store_credit", [("credit_amount_disclosure", re_of "(?i)\$\s?[\d,]+\.?\d*")]);
    ("escalate_case",
      [("case_reference_disclosure",
         re_of "(?i)\b(?:case|reference|ticket)\s*(?:number|#|no|id)?\b")]);
    ("file_dispute",
      [("dispute_reference_number",
         re_of ("(?i)\b(?:dispute|reference|ref|confirmation)\s*(?:number|#|no|id)?\s*[:.]?\s*"
                  +:+ "(?:DISP[-\s]?\w+|\w+-\w+)"));
       ("investigation_timeline", re_of "(?i)\b(?:10\s+business\s+days?|investigate\s+within)\b");
       ("provisional_credit_notice", re_of "(?i)\b(?:provisional|temporary)\s+credit\b");
       ("written_acknowledgment",
         re_of "(?i)\b(?:written\s+(?:acknowledgment|confirmation)|1\s+business\s+day)\b")]);
    ("assess_provisional_credit",
      [("credit_amount_disclosure", re_of "(?i)\$\s?[\d,]+\.?\d*");
       ("credit_condition_disclosure", re_of "(?i)\b(?:unless|until|remain|investigation)\b")]);
    ("close_dispute",
      [("dispute_summary", re_of "(?i)\b(?:dispute|filed|reference)\b");
       ("next_steps_disclosure", re_of "(?i)\b(?:next\s+steps?|investigation|results?|monitor)\b")]);
    ("deny_late_dispute",
      [("timeframe_explanation", re_of "(?i)\b(?:60\s+days?|timeframe|window|regulation)\b");
       ("alternative_options",
         re_of "(?i)\b(?:alternative|option|courtesy|escalat|supervisor)\b")]) ].

Definition _PROHIBITED_PATTERNS : list (string * re * string) :=
  [ ("no_investment_advice",
      re_of "(?i)\b(?:you\s+should|i\s+recommend)\s+(?:invest|buy\s+stock|sell\s+stock)",
      "Response contains investment advice");
    ("no_legal_advice",
      re_of "(?i)\byou\s+(?:should|could)\s+(?:sue|file\s+a\s+lawsuit|take\s+legal\s+action)\b",
      "Response contains legal advice");
    ("no_competitor_referral", re_of "(?i)\b(?:try|use|switch\s+to)\s+(?:our\s+)?competitor",
      "Response refers customer to competitor") ].

Definition tier_exposure_pattern : re := re_of "(?i)\b(?:tier\s*[123]|liability\s+tier|tier_[123])\b".
Definition wrong_timeline : re := re_of "(?i)\b(?:30|60|90)\s+business\s+days?\b".

Section compliance.
Context `{Sympy}.

(** ** Amounts *)

(** The amounts of a text, one by one: the violations [check] finds in each. *)
Definition each_amount (check : float → rational → list ComplianceViolation) (response : string) :
    result (list ComplianceViolation) :=
  fold_result (λ acc a,
    let? amount := amount_of a in
    let? amount_sym := Rational (VFloat amount) in
    inr (acc ++ check amount amount_sym)) [] (amounts_in response).

Definition amount_violations (total : float) (order_sym zero : rational) (amount : float)
    (amount_sym : rational) : list ComplianceViolation :=
  (if rat_gt amount_sym order_sym
   then [mkCompliance "financial:amount_exceeds_total"
           ("Mentioned amount $" +:+ fmt2 amount +:+ " exceeds order total $" +:+ fmt2 total)
           ERROR (Some ("$" +:+ fmt2 amount)) (Some ("<= $" +:+ fmt2 total))] else []) ++
  (if rat_le amount_sym zero
   then [mkCompliance "financial:non_positive_amount"
           ("Mentioned amount $" +:+ fmt2 amount +:+ " is not positive")
           ERROR (Some ("$" +:+ fmt2 amount)) (Some "> $0.00")] else []).

Definition check_financial_compliance (response : string) (session_state : dict value) :
    result (list ComplianceViolation) :=
  match amounts_in response, dget_none "order_total" session_state with
  | [], _ | _, VNone => inr []
  | _, order_total =>
      let? total := float_or_none order_total in
      match total with
      | None => inr []
      | Some total =>
          let? order_sym := Rational (VFloat total) in
          let? zero := Rational (VInt 0) in
          each_amount (amount_violations total order_sym zero) response
      end
  end.

(** ** Regulation E *)

(** A provisional credit must not exceed the disputed amount. *)
Definition credit_violations (current_step : option string) (disputed : float)
    (disputed_sym : rational) (amount : float) (amount_sym : rational) : list ComplianceViolation :=
  if ostr_eqb current_step (Some "assess_provisional_credit") && rat_gt amount_sym disputed_sym
  then [mkCompliance "reg_e:provisional_credit_exceeds_dispute"
          ("Provisional credit $" +:+ fmt2 amount +:+ " exceeds disputed amount $" +:+ fmt2 disputed)
          ERROR (Some ("$" +:+ fmt2 amount)) (Some ("<= $" +:+ fmt2 disputed))]
  else [].

(** The credit on record must be the disputed amount less the liability. *)
Definition recorded_credit (session_state : dict value) (liability disputed : float) :
    result (list ComplianceViolation) :=
  let prov_credit := dget_or "provisional_credit" (VDict []) session_state in
  if truthy prov_credit then
    let? issued := py_get "provisional_credit_issued" VNone prov_credit in
    if truthy issued then
      let expected_credit := f_max0 (f_sub disputed liability) in
      let? actual_credit := py_get "provisional_credit_amount" (VInt 0) prov_credit in
      let? expected_sym := Rational (VFloat expected_credit) in
      let? actual_sym := Rational actual_credit in
      if rat_eq actual_sym expected_sym then inr []
      else
        let? actual_text := fmt2_value actual_credit in
        inr [mkCompliance "reg_e:provisional_credit_miscalculated"
               ("Provisional credit $" +:+ actual_text +:+ " != disputed $" +:+ fmt2 disputed
                  +:+ " - liability $" +:+ fmt2 liability +:+ " = $" +:+ fmt2 expected_credit)
               ERROR (Some ("$" +:+ actual_text)) (Some ("$" +:+ fmt2 expected_credit))]
    else inr []
  else inr [].

(** [float] of both amounts, or neither. *)
Definition both_floats (u v : value) : result (option (float * float)) :=
  let? x := float_or_none u in
  match x with
  | None => inr None
  | Some x => let? y := float_or_none v in inr (option_map (λ y, (x, y)) y)
  end.

Definition check_liability (response : string) (session_state : dict value)
    (current_step : option string) (max_liability disputed_amount : value) :
    result (list ComplianceViolation) :=
  match max_liability, disputed_amount with
  | VNone, _ | _, VNone => inr []
  | _, _ =>
      let? amounts := both_floats max_liability disputed_amount in
      match amounts with
      | None => inr []
      | Some (liability, disputed) =>
          let? mentioned :=
            fold_result (λ acc a,
              let? amount := amount_of a in
              let? amount_sym := Rational (VFloat amount) in
              let? disputed_sym := Rational (VFloat disputed) in
              inr (acc ++ credit_violations current_step disputed disputed_sym amount amount_sym))
              [] (amounts_in response) in
          let? recorded := recorded_credit session_state liability disputed in
          inr (mentioned ++ recorded)
      end
  end.

Definition check_reg_e_compliance (response : string) (session_state : dict value)
    (current_step : option string) : result (list ComplianceViolation) :=
  let dispute_data := dget_or "dispute_data" (VDict []) session_state in
  let eligibility := dget_or "dispute_eligibility" (VDict []) session_state in
  if negb (truthy dispute_data) && negb (truthy eligibility) then inr []
  else
    let? tier_liability := py_get "max_liability" VNone eligibility in
    let? max_liability :=
      if truthy tier_liability then inr tier_liability
      else py_get "max_liability" VNone dispute_data in
    let? disputed_amount := py_get "amount" VNone dispute_data in
    let? liability := check_liability response session_state current_step max_liability disputed_amount in
    inr (liability ++
      (if re_search tier_exposure_pattern response
       then [mkCompliance "reg_e:internal_tier_exposed"
               "Response exposes internal liability tier system to customer" ERROR None None]
       else []) ++
      (if bool_decide (current_step ∈ [Some "file_dispute"; Some "close_dispute"]) &&
          re_search wrong_timeline response
       then [mkCompliance "reg_e:incorrect_timeline_units"
               ("Investigation timeline uses wrong units. "
                  +:+ "10 business days for initial; 45/90 calendar days for final.") WARNING None None]
       else [])).

(** ** Procedures *)

Definition missing_disclosures (step response : string) (disclosures : list (string * re)) :
    list ComplianceViolation :=
  flat_map (λ d : string * re,
    if re_search d.2 response then []
    else [mkCompliance ("disclosure:" +:+ d.1)
            ("Required disclosure '" +:+ d.1 +:+ "' missing at step '" +:+ step +:+ "'")
            WARNING None (Some ("Disclosure pattern: " +:+ d.1))]) disclosures.

Definition prohibited_content (response : string) : list ComplianceViolation :=
  flat_map (λ p : string * re * string,
    let '(rule_id, pattern, desc) := p in
    if re_search pattern response
    then [mkCompliance ("prohibited:" +:+ rule_id) desc ERROR None None] else [])
    _PROHIBITED_PATTERNS.

Definition check_procedure_compliance (response : string) (current_step : option string) :
    list ComplianceViolation :=
  match current_step with
  | Some step => missing_disclosures step response (dget_or step [] _REQUIRED_DISCLOSURES)
  | None => []
  end ++ prohibited_content response.

Definition check_all (response : string) (session_state : dict value)
    (current_step procedure_id : option string) : result (list ComplianceViolation) :=
  let? financial := check_financial_compliance response session_state in
  let procedural := check_procedure_compliance response current_step in
  let? reg_e :=
    if ostr_eqb procedure_id (Some "cs_eft_dispute") ||
       truthy (dget_none "dispute_data" session_state) ||
       truthy (dget_none "dispute_eligibility" session_state)
    then check_reg_e_compliance response session_state current_step else inr [] in
  inr (financial ++ procedural ++ reg_e).
End compliance.

(** The disclosures are found where a text makes them. *)
Example refund_disclosures :
  check_procedure_compliance "Your refund, reference number 12, arrives in 5-7 business days."
    (Some "process_refund") = [].
Proof. vm_compute. reflexivity. Qed.
Example refund_disclosure_missing :
  map cv_rule_id (check_procedure_compliance "Your refund is on its way." (Some "process_refund")) =
  ["disclosure:timeline_disclosure"; "disclosure:reference_number_disclosure"].
Proof. vm_compute. reflexivity. Qed.
