(* ===== verification/Guardrails.v ===== *)
(** * Guardrails of a response ([agents/guardrails.py])

    The pattern rails (internal data is redacted), the check of tool arguments, and
    the steering of a response: verification, rewriting by the model, a safe
    fallback.  Writing the audit trail and generating a rewrite are programs of the
    caller. *)

From S2P Require Import Prelude Prog PyValue PyString Numerals Regex Settings AuditTrail Reasoning Compliance.

From stdpp Require Import pretty.
From Stdlib Require Import Floats.SpecFloat.

Inductive GuardSeverity := WARN | BLOCK | REDACT.
#[export] Instance GuardSeverity_eq_dec : EqDecision GuardSeverity.
Proof. solve_decision. Defined.

Record GuardrailViolation := mkViolation {
  gv_rule : string; gv_description : string; gv_severity : GuardSeverity
}.

(** ** Pattern rails *)

Definition pattern_table := list (string * string * string).

Definition _INTERNAL_DATA_PATTERNS : pattern_table :=
  [ ("(?i)\bstep[_ ]?id\b.*?:", "internal_step_id", "Agent is exposing internal step IDs");
    ("(?i)\bprocedure[_ ]?id\b.*?:", "internal_procedure_id",
      "Agent is exposing internal procedure IDs");
    ("(?i)\b(sql|query|database|db_path|sqlite)\b", "internal_db_reference",
      "Agent is referencing internal database details");
    ("(?i)\btool_context\b", "internal_tool_context",
      "Agent is referencing internal tool context");
    ("(?i)\bsession[_ ]?state\b", "internal_session_state",
      "Agent is referencing session state internals");
    ("(?i)\b(api_key|secret_key|password|credential)\b", "sensitive_credential",
      "Agent is mentioning credentials") ].

Definition _UNAUTHORIZED_PROMISE_PATTERNS : pattern_table :=
  [ ("(?i)\bi\s+(?:guarantee|promise|assure)\s+(?:you|that)", "unauthorized_promise",
      "Agent is making unauthorized guarantees");
    ("(?i)\b100%\s+(?:guaranteed|certain|sure)\b", "false_certainty",
      "Agent is expressing false certainty") ].

Definition _COMPLIANCE_PATTERNS : pattern_table :=
  [ ("(?i)\b(?:legal|financial)\s+advice\b", "unauthorized_advice",
      "Agent may be providing unauthorized financial/legal advice");
    ("(?i)\b(?:you\s+should|i\s+recommend)\s+(?:invest|buy\s+stock|sell\s+stock)",
      "investment_advice", "Agent is providing investment advice") ].

(** The rules of a table whose pattern occurs. *)
Definition detected (severity : GuardSeverity) (table : pattern_table) (text : string) :
    list GuardrailViolation :=
  flat_map (λ p : string * string * string,
    let '(pattern, rule, desc) := p in
    if re_search (re_of pattern) text then [mkViolation rule desc severity] else []) table.

Definition check_response (text : string) : list GuardrailViolation :=
  detected REDACT _INTERNAL_DATA_PATTERNS text
  ++ detected WARN _UNAUTHORIZED_PROMISE_PATTERNS text
  ++ detected WARN _COMPLIANCE_PATTERNS text.

Definition redact_pattern (p : string * string * string) (text : string) : string :=
  re_sub (re_of p.1.1) "[REDACTED]" text.

(** The patterns of one rule are replaced. *)
Definition redact_rule (rule : string) (text : string) : string :=
  fold_left (λ text p, if String.eqb p.1.2 rule then redact_pattern p text else text)
    _INTERNAL_DATA_PATTERNS text.

Definition redact_violation (text : string) (v : GuardrailViolation) : string :=
  if bool_decide (gv_severity v = REDACT) then redact_rule (gv_rule v) text else text.

Definition filter_response (text : string) : string * list GuardrailViolation :=
  let violations := check_response text in
  (fold_left redact_violation violations text, violations).

(** ** Tool arguments *)

Definition id_patterns : list (string * string) :=
  [ ("order_id", "^ORD-\d+$"); ("customer_id", "^CUST-\d+$"); ("alert_id", "^FA-\d+$");
    ("account_id", "^ACCT-\d+$") ].
Definition max_lengths : list (string * Z) :=
  [ ("reason", 1000); ("notes", 2000); ("note", 2000); ("findings", 5000); ("query", 500) ]%Z.

Section validate.
Context `{Render}.

(** A [ValueError] or a [TypeError] of [float] is passed over. *)
Definition negative_amount (tool_name : string) (args : dict value) (field : string) :
    result (list GuardrailViolation) :=
  match dget field args with
  | None | Some VNone => inr []
  | Some v =>
      (let? val := float_or_none v in
       inr match val with
           | Some val =>
               if f_ltb val (S754_zero false)
               then [mkViolation "negative_amount"
                       ("Tool '" +:+ tool_name +:+ "' received negative " +:+ field +:+ ": "
                          +:+ py_str (VFloat val)) BLOCK]
               else []
           | None => []
           end)%wf
  end.

(** [re.match] refuses what is not a string. *)
Definition malformed_id (tool_name : string) (args : dict value) (p : string * string) :
    result (list GuardrailViolation) :=
  match dget p.1 args with
  | Some v =>
      if truthy v then
        match v with
        | VStr s =>
            inr (if re_match (re_of p.2) s then []
                 else [mkViolation ("invalid_" +:+ p.1 +:+ "_format")
                         ("Tool '" +:+ tool_name +:+ "' received malformed " +:+ p.1 +:+ ": " +:+ s)
                         WARN])
        | _ => inl (TypeError "expected string or bytes-like object")
        end
      else inr []
  | None => inr []
  end.

Definition too_long (tool_name : string) (args : dict value) (p : string * Z) : list GuardrailViolation :=
  match dget p.1 args with
  | Some (VStr s) =>
      let n := Z.of_nat (String.length s) in
      if (p.2 <? n)%Z
      then [mkViolation "input_too_long"
              ("Tool '" +:+ tool_name +:+ "' field '" +:+ p.1 +:+ "' exceeds max length ("
                 +:+ pretty n +:+ " > " +:+ pretty p.2 +:+ ")") BLOCK]
      else []
  | _ => []
  end.

Definition validate_tool_args (tool_name : string) (args : dict value) :
    result (list GuardrailViolation) :=
  (let? negative := fold_result (λ acc f, let? v := negative_amount tool_name args f in inr (acc ++ v))
                      [] ["amount"; "total"] in
   let? malformed := fold_result (λ acc p, let? v := malformed_id tool_name args p in inr (acc ++ v))
                       [] id_patterns in
   inr (negative ++ malformed ++ flat_map (too_long tool_name args) max_lengths))%wf.
End validate.

(** ** Steering *)

Definition _SAFE_FALLBACK : string :=
  "I apologize, but I'm unable to provide accurate information about your "
    +:+ "request at this time. Let me connect you with a specialist who can help. "
    +:+ "Please hold while I transfer your case.".

Definition finding_of (cv : ComplianceViolation) : Finding :=
  mkFinding (cv_rule_id cv) (cv_description cv) (cv_severity cv) (cv_actual_value cv) (cv_expected cv).

Definition _build_combined_rewrite_hint (errors : list Finding) : string :=
  PyValue.join line_feed (map hint_line errors).

Definition relevant_keys : list string :=
  [ "order_id"; "order_total"; "order_date"; "order_status"; "customer_id"; "customer_name";
    "refund_amount"; "current_step"; "current_procedure" ].

(** [self._db_write(entry)] *)
Definition db_writer (W : Type) := dict value → prog W unit.

Section steering.
Context `{Render, Z3, Sympy}.
Context {W : Type}.

(** What [AuditEntry.__init__] reads: an identifier, the clock, the correlation id;
    and the clock of [verify]. *)
Record Surroundings := mkSurroundings {
  su_settings : Settings;
  su_stamp : prog W (string * string * option string);
  su_now : prog W Z;
  su_db_write : option (db_writer W)
}.
Context (env : Surroundings).

(** [AuditLogger.log]: a failed write is logged and passed over. *)
Definition audit_log (action : AuditAction) (actor resource_type resource_id : string)
    (session_id procedure_id step_id : option string)
    (before_state after_state : option (dict value)) (metadata : dict value) : prog W string :=
  stamp ← su_stamp env;
  let '(entry_id, timestamp, correlation) := stamp in
  let entry := mkAuditEntry entry_id timestamp correlation action actor resource_type resource_id
                 session_id procedure_id step_id before_state after_state metadata in
  _ ← match su_db_write env with
      | Some write => try_except (write (to_dict entry)) (λ _, mret tt)
      | None => mret tt
      end;
  mret entry_id.

Definition _extract_session_facts (session_state : dict value) : string :=
  let facts := flat_map (λ key,
    match dget_none key session_state with
    | VNone => []
    | v => [key +:+ "=" +:+ py_str v]
    end) relevant_keys in
  match facts with [] => "no session facts available" | _ => PyValue.join ", " facts end.

Definition or_unknown (s : option string) : string :=
  if str_truthy s then default "" s else "unknown".

Definition rewrite_prompt (v : VerificationResult) (hint : string) (procedure_id current_step : option string)
    (session_state : dict value) : string :=
  PyValue.join line_feed
    [ "The previous response was found to contain errors by our automated verification system.";
      "";
      "Verification verdict: " +:+ verdict_value (vr_verdict v);
      "Explanation: " +:+ vr_explanation v;
      "";
      "Specific issues:";
      hint;
      "";
      "Original customer question context: The customer is in a " +:+ or_unknown procedure_id
        +:+ " workflow at step '" +:+ or_unknown current_step +:+ "'.";
      "Session facts: " +:+ _extract_session_facts session_state;
      "";
      "Please generate a corrected response that:";
      "1. Addresses the customer's needs accurately";
      "2. Does NOT violate the rules cited above";
      "3. Uses the actual order/session data provided";
      "" ].

Definition _run_verification (now : Z) (text : string) (session_state : dict value)
    (procedure_id current_step : option string) (policy : option ReasoningPolicy) :
    result VerificationResult :=
  (let? reasoned :=
     match policy with
     | Some policy =>
         let? r := reasoning_verify now text policy session_state current_step in
         inr (vr_findings r, vr_cited_rules r)
     | None => inr ([], [])
     end in
   let? violations :=
     if compliance_enabled (su_settings env) then check_all text session_state current_step procedure_id
     else inr [] in
   let findings := reasoned.1 ++ map finding_of violations in
   let cited := reasoned.2 ++ map cv_rule_id violations in
   inr match findings with
       | [] =>
           mkResult NOT_APPLICABLE [] [] "No verifiable claims or applicable rules." None
       | _ => judge _build_combined_rewrite_hint "All claims verified." findings cited
       end)%wf.

(** What the audit entries of a response share. *)
Definition log_response (action : AuditAction) (procedure_id current_step : option string)
    (session_state : dict value) (metadata : dict value) : prog W string :=
  audit_log action "guardrails" "response" (or_unknown procedure_id)
    match dget_none "_session_id" session_state with VStr s => Some s | _ => None end
    procedure_id current_step None None metadata.

Definition strings (l : list string) : value := VList (map VStr l).

(** A clean verification ends the loop, a valid one is recorded. *)
Definition verification_settled (v : VerificationResult) : bool :=
  is_valid v || bool_decide (vr_verdict v = NOT_APPLICABLE).

Section loop.
Context (session_state : dict value) (procedure_id current_step : option string).
Context (policy : option ReasoningPolicy) (generate_fn : option (string → prog W string)).
Context (max_iterations : Z).

(** [text = await generate_fn(prompt)], its filtering and its audit entry; the text
    and the violations stand even when the last of these fails. *)
Definition rewrite (generate : string → prog W string) (prompt : string) (iteration : Z) (text : string)
    (violations : list GuardrailViolation) : prog W (string * list GuardrailViolation * bool) :=
  answer ← try_except (generate prompt ≫= λ a, mret (Some a)) (λ _, mret None);
  match answer with
  | None => mret (text, violations, false)
  | Some answer =>
      let '(text, new_violations) := filter_response answer in
      logged ← try_except
                 (log_response REASONING_REWRITE procedure_id current_step session_state
                    [("iteration", VInt (iteration + 1))] ≫= λ _, mret true)
                 (λ _, mret false);
      mret (text, violations ++ new_violations, logged)
  end.

(** [for iteration in range(max_iterations + 1)], from [iteration] on; [fuel] is the
    number of iterations left. *)
Fixpoint steer_loop (fuel : nat) (iteration : Z) (text : string)
    (violations : list GuardrailViolation) (verification : option VerificationResult) :
    prog W (string * list GuardrailViolation * option VerificationResult) :=
  match fuel with
  | 0 => mret (text, violations, verification)
  | S fuel =>
      now ← su_now env;
      v ← lift_result (_run_verification now text session_state procedure_id current_step policy);
      if verification_settled v then
        _ ← (if is_valid v then
               log_response REASONING_VERIFIED procedure_id current_step session_state
                 [ ("verdict", VStr (verdict_value (vr_verdict v)));
                   ("cited_rules", strings (vr_cited_rules v)); ("iteration", VInt iteration) ]
             else mret "");
        mret (text, violations, Some v)
      else
        _ ← log_response REASONING_VIOLATION procedure_id current_step session_state
              [ ("verdict", VStr (verdict_value (vr_verdict v)));
                ("explanation", VStr (vr_explanation v));
                ("findings_count", VInt (Z.of_nat (length (vr_findings v))));
                ("cited_rules", strings (vr_cited_rules v)); ("iteration", VInt iteration) ];
        match generate_fn, vr_rewrite_hint v with
        | Some generate, Some hint =>
            if (iteration <? max_iterations)%Z && negb (String.eqb hint "") then
              let prompt := rewrite_prompt v hint procedure_id current_step session_state in
              r ← rewrite generate prompt iteration text violations;
              let '(text, violations, goes_on) := r in
              if goes_on : bool then steer_loop fuel (iteration + 1) text violations (Some v)
              else mret (text, violations, Some v)
            else mret (text, violations, Some v)
        | _, _ => mret (text, violations, Some v)
        end
  end.
End loop.

(** The policy of a procedure definition, if there is one. *)
Definition policy_of (procedure_def : option (dict value)) : result (option ReasoningPolicy) :=
  match procedure_def with
  | Some ((_ :: _) as d) => (let? p := build_policy_from_procedure d in inr (Some p))%wf
  | _ => inr None
  end.

(** [verification.verdict == "INVALID" and any(f.severity == "error" ...)] *)
Definition still_invalid (verification : option VerificationResult) : bool :=
  match verification with
  | Some v => bool_decide (vr_verdict v = INVALID) && existsb is_error (vr_findings v)
  | None => false
  end.

Definition steer_response (text : string) (session_state : dict value)
    (procedure_id current_step : option string) (procedure_def : option (dict value))
    (generate_fn : option (string → prog W string)) (max_iterations : option Z) :
    prog W (string * list GuardrailViolation * option VerificationResult) :=
  let max_iterations := default (reasoning_max_iterations (su_settings env)) max_iterations in
  let '(text, pattern_violations) := filter_response text in
  if negb (reasoning_enabled (su_settings env)) then mret (text, pattern_violations, None)
  else
    policy ← lift_result (policy_of procedure_def);
    r ← steer_loop session_state procedure_id current_step policy generate_fn max_iterations
          (Z.to_nat (max_iterations + 1)) 0 text pattern_violations None;
    let '(text, violations, verification) := r in
    mret (if still_invalid verification then _SAFE_FALLBACK else text, violations, verification).
End steering.
