(* ===== verification/GuardrailsProps.v ===== *)
(** * Properties of the guardrails *)

From S2P Require Import Prelude Prog PyValue PyString Numerals Regex Dates Redaction Settings AuditTrail Reasoning Compliance Guardrails.

(** ** The pattern rails *)

Lemma patterns_good : forallb (λ p, good_pattern (re_of p.1.1)) _INTERNAL_DATA_PATTERNS = true.
Proof. vm_compute. reflexivity. Qed.

Lemma pattern_good p : p ∈ _INTERNAL_DATA_PATTERNS → good_pattern (re_of p.1.1) = true.
Proof.
  pose proof patterns_good as Hall. rewrite forallb_forall in Hall. intros Hp. by apply Hall, list_elem_of_In.
Qed.

(** A text free of a pattern. *)
Definition clean (p : string * string * string) (text : string) : Prop :=
  re_search (re_of p.1.1) text = false.
#[export] Instance clean_dec p text : Decision (clean p text).
Proof. unfold clean. apply _. Defined.

Lemma redact_pattern_cleans p text : p ∈ _INTERNAL_DATA_PATTERNS → clean p (redact_pattern p text).
Proof. intros Hp. by apply redacted_clean, pattern_good. Qed.

Lemma redact_pattern_keeps p q text :
  p ∈ _INTERNAL_DATA_PATTERNS → q ∈ _INTERNAL_DATA_PATTERNS → clean q text → clean q (redact_pattern p text).
Proof. intros Hp Hq. by apply redacted_keeps_clean; apply pattern_good. Qed.

(** A fold whose steps keep a property keeps it. *)
Lemma fold_keeps {A B} (P : B → Prop) (f : B → A → B) (l : list A) b :
  (∀ b a, a ∈ l → P b → P (f b a)) → P b → P (fold_left f l b).
Proof.
  revert b; induction l as [|a l IH]; intros b Hf Hb; cbn; [done|].
  apply IH; [|apply Hf; [by left|done]]. intros b' a' Ha. apply Hf. by right.
Qed.

(** A step of the fold establishes it, the others keep it. *)
Lemma fold_establishes {A B} (P : B → Prop) (f : B → A → B) (l : list A) a b :
  a ∈ l → (∀ b, P (f b a)) → (∀ b a', a' ∈ l → P b → P (f b a')) → P (fold_left f l b).
Proof.
  revert b; induction l as [|x l IH]; intros b Ha He Hk; cbn; [by apply not_elem_of_nil in Ha|].
  apply elem_of_cons in Ha as [->|Ha].
  - apply fold_keeps; [|apply He]. intros b' a' Ha'. apply Hk. by right.
  - apply IH; [done|done|]. intros b' a' Ha'. apply Hk. by right.
Qed.

Lemma redact_rule_keeps q rule text :
  q ∈ _INTERNAL_DATA_PATTERNS → clean q text → clean q (redact_rule rule text).
Proof.
  intros Hq. unfold redact_rule. apply fold_keeps. intros t p Hp Ht. case_match; [by apply redact_pattern_keeps|done].
Qed.

Lemma redact_rule_cleans q text : q ∈ _INTERNAL_DATA_PATTERNS → clean q (redact_rule q.1.2 text).
Proof.
  intros Hq. unfold redact_rule. apply fold_establishes with (a := q); [done|..].
  - intros t. rewrite String.eqb_refl. by apply redact_pattern_cleans.
  - intros t p Hp Ht. case_match; [by apply redact_pattern_keeps|done].
Qed.

Lemma redact_violation_keeps q text v :
  q ∈ _INTERNAL_DATA_PATTERNS → clean q text → clean q (redact_violation text v).
Proof. intros Hq Ht. unfold redact_violation. case_match; [by apply redact_rule_keeps|done]. Qed.

Lemma elem_of_detected v severity table text :
  v ∈ detected severity table text ↔
  ∃ p, p ∈ table ∧ ¬ clean p text ∧ v = mkViolation p.1.2 p.2 severity.
Proof.
  unfold detected, clean. rewrite list_elem_of_In, in_flat_map. split.
  - intros ([[pat rule] desc] & Hp & Hv). apply list_elem_of_In in Hp. exists (pat, rule, desc).
    cbn. destruct (re_search _ text); [|done]. destruct Hv as [<-|[]]. done.
  - intros ([[pat rule] desc] & Hp & Hc & ->). exists (pat, rule, desc).
    split; [by apply list_elem_of_In|]. cbn in *. destruct (re_search _ text); [by left|done].
Qed.

(** A text free of all of them. *)
Definition all_clean (text : string) : Prop := ∀ p, p ∈ _INTERNAL_DATA_PATTERNS → clean p text.

Lemma filter_response_clean text : all_clean (filter_response text).1.
Proof.
  intros p Hp. unfold filter_response, check_response. cbn [fst snd]. destruct (decide (clean p text)) as [E|E].
  - apply fold_keeps; [|done]. intros t v _. by apply redact_violation_keeps.
  - apply fold_establishes with (a := mkViolation p.1.2 p.2 REDACT).
    + apply elem_of_app. left. apply elem_of_detected. by exists p.
    + intros t. unfold redact_violation. cbn [gv_severity gv_rule].
      rewrite bool_decide_eq_true_2 by done. by apply redact_rule_cleans.
    + intros t v _. by apply redact_violation_keeps.
Qed.

(** C15: What leaves the pattern rails: whatever the model wrote, the filtered text
    contains none of the patterns of internal data (redacting one never uncovers or
    assembles another); a text that contains none is not changed; and what was
    redacted is reported. *)
Theorem filtered_text_is_clean text :
  all_clean (filter_response text).1 ∧
  (all_clean text → (filter_response text).1 = text) ∧
  (∀ p, p ∈ _INTERNAL_DATA_PATTERNS → ¬ clean p text →
     mkViolation p.1.2 p.2 REDACT ∈ (filter_response text).2).
Proof.
  split; [apply filter_response_clean|]. unfold filter_response, check_response. cbn [fst snd]. split.
  - intros Hall. apply (fold_keeps (λ t, t = text)); [|done]. intros t v Hv ->.
    unfold redact_violation. case_bool_decide as Hs; [|done]. exfalso.
    apply elem_of_app in Hv as [Hv|Hv].
    + apply elem_of_detected in Hv as (p & Hp & Hc & _). by apply Hc, Hall.
    + apply elem_of_app in Hv as [Hv|Hv]; apply elem_of_detected in Hv as (p & _ & _ & ->); done.
  - intros p Hp Hc. apply elem_of_app. left. apply elem_of_detected. by exists p.
Qed.

(** ** Steering makes the steps of what it is given *)
Section steer.
Context `{Render} `{Reasoning.Z3, Reasoning.Sympy} {W : Type} (R : W → W → Prop).
Context (env : Surroundings (W := W)).

Record surroundings_keep : Prop := {
  stamp_keeps : steps R (su_stamp env);
  now_keeps : steps R (su_now env);
  write_keeps write e : su_db_write env = Some write → steps R (write e)
}.
Context (Henv : surroundings_keep).

Lemma audit_log_steps action actor resource_type resource_id session_id procedure_id step_id before
    after metadata :
  steps R (audit_log env action actor resource_type resource_id session_id procedure_id step_id
             before after metadata).
Proof.
  unfold audit_log. apply steps_bind; [apply Henv|]. intros [[id t] c].
  apply steps_bind; [|intros; apply steps_ret].
  destruct (su_db_write env) as [write|] eqn:Hw; [|apply steps_ret].
  apply steps_try; [by apply (write_keeps Henv)|intros; apply steps_ret].
Qed.

Lemma log_response_steps action proc step state metadata :
  steps R (log_response env action proc step state metadata).
Proof. apply audit_log_steps. Qed.

Context (gen : option (string → prog W string)).
Context (Hgen : ∀ generate prompt, gen = Some generate → steps R (generate prompt)).

Lemma rewrite_steps state proc step generate prompt i text vs :
  gen = Some generate → steps R (rewrite env state proc step generate prompt i text vs).
Proof.
  intros Hg. unfold rewrite. apply steps_bind.
  - apply steps_try; [|intros; apply steps_ret].
    apply steps_bind; [by apply Hgen|intros; apply steps_ret].
  - intros [a|]; [|apply steps_ret]. destruct (filter_response a) as [t new].
    apply steps_bind; [|intros; apply steps_ret]. apply steps_try; [|intros; apply steps_ret].
    apply steps_bind; [apply log_response_steps|intros; apply steps_ret].
Qed.

(** An iteration after its reading of the clock, and all of them. *)
Definition after_reading (loop : nat → Z → string → list GuardrailViolation →
      option VerificationResult → prog W (string * list GuardrailViolation * option VerificationResult))
    state proc step policy maxit fuel i text vs now :=
  v ← lift_result (_run_verification env now text state proc step policy);
  if verification_settled v then
    _ ← (if is_valid v then
           log_response env REASONING_VERIFIED proc step state
             [ ("verdict", VStr (verdict_value (vr_verdict v)));
               ("cited_rules", strings (vr_cited_rules v)); ("iteration", VInt i) ]
         else mret "");
    mret (text, vs, Some v)
  else
    _ ← log_response env REASONING_VIOLATION proc step state
          [ ("verdict", VStr (verdict_value (vr_verdict v)));
            ("explanation", VStr (vr_explanation v));
            ("findings_count", VInt (Z.of_nat (length (vr_findings v))));
            ("cited_rules", strings (vr_cited_rules v)); ("iteration", VInt i) ];
    match gen, vr_rewrite_hint v with
    | Some generate, Some hint =>
        if (i <? maxit)%Z && negb (String.eqb hint "") then
          r ← rewrite env state proc step generate (rewrite_prompt v hint proc step state) i text vs;
          let '(text, vs, goes_on) := r in
          if goes_on : bool then loop fuel (i + 1)%Z text vs (Some v) else mret (text, vs, Some v)
        else mret (text, vs, Some v)
    | _, _ => mret (text, vs, Some v)
    end.

Lemma steer_loop_eq state proc step policy maxit fuel i text vs v :
  steer_loop env state proc step policy gen maxit (S fuel) i text vs v =
  (su_now env ≫= after_reading (steer_loop env state proc step policy gen maxit)
                   state proc step policy maxit fuel i text vs).
Proof. reflexivity. Qed.

Lemma after_reading_steps loop state proc step policy maxit fuel i text vs now :
  (∀ i text vs v, steps R (loop fuel i text vs v)) →
  steps R (after_reading loop state proc step policy maxit fuel i text vs now).
Proof.
  intros Hloop. unfold after_reading. apply steps_bind; [apply steps_lift|]. intros r.
  destruct (verification_settled r).
  { apply steps_bind; [|intros; apply steps_ret].
    destruct (is_valid r); [apply log_response_steps|apply steps_ret]. }
  apply steps_bind; [apply log_response_steps|]. intros _.
  assert (∀ generate, gen = Some generate → ∀ prompt, steps R (rewrite env state proc step generate prompt i text vs))
    as Hrew by (intros; by apply rewrite_steps).
  destruct gen as [generate|]; [|apply steps_ret].
  destruct (vr_rewrite_hint r) as [hint|]; [|apply steps_ret].
  destruct (_ && _); [|apply steps_ret].
  apply steps_bind; [by apply Hrew|]. intros [[t1 vs1] []]; [apply Hloop|apply steps_ret].
Qed.

Lemma steer_loop_steps state proc step policy maxit fuel i text vs v :
  steps R (steer_loop env state proc step policy gen maxit fuel i text vs v).
Proof.
  revert i text vs v; induction fuel as [|fuel IH]; intros i text vs v; [apply steps_ret|].
  rewrite steer_loop_eq. apply steps_bind; [apply Henv|]. intros now. by apply after_reading_steps.
Qed.

Lemma steering_steps text state proc step def maxit :
  steps R (steer_response env text state proc step def gen maxit).
Proof.
  unfold steer_response. destruct (filter_response text) as [t vs].
  destruct (negb _); [apply steps_ret|]. apply steps_bind; [apply steps_lift|]. intros policy.
  apply steps_bind; [apply steer_loop_steps|]. intros [[? ?] ?]. apply steps_ret.
Qed.
End steer.

(** Without a model to ask. *)
Lemma steer_response_steps `{Render} `{Reasoning.Z3, Reasoning.Sympy} {W : Type} (R : W → W → Prop)
    (env : Surroundings (W := W)) (Henv : surroundings_keep R env) text state proc step def maxit :
  steps R (steer_response env text state proc step def None maxit).
Proof. by apply steering_steps. Qed.

(** ** Steering *)

Section steering.
Context `{Render, Z3, Sympy} {W : Type} (env : @Surroundings W).

Lemma fallback_clean : all_clean _SAFE_FALLBACK.
Proof.
  assert (forallb (λ p : string * string * string, negb (re_search (re_of p.1.1) _SAFE_FALLBACK))
            _INTERNAL_DATA_PATTERNS = true) as Hall by (vm_compute; reflexivity).
  rewrite forallb_forall in Hall. intros p Hp%list_elem_of_In. by apply Hall, negb_true_iff in Hp.
Qed.

(** Where the run from [w] to [w'] read the clock as [now]: [reach] relates the worlds
    the steps of a run go through. *)
Definition read_between (reach : W → W → Prop) (w w' : W) (now : Z) : Prop :=
  ∃ wa wb, reach w wa ∧ run (su_now env) wa = (wb, inr now) ∧ reach wb w'.

(** What the result of the loop can be: a text whose last verification is its own, or
    one verified invalid. *)
Definition verified_or_invalid (reach : W → W → Prop) (w w' : W) (session_state : dict value)
    (procedure_id current_step : option string)
    (policy : option ReasoningPolicy) (text : string) (verification : option VerificationResult) : Prop :=
  ∃ v, verification = Some v ∧
    ((∃ now, read_between reach w w' now ∧
        _run_verification env now text session_state procedure_id current_step policy = inr v) ∨
     (vr_verdict v = INVALID ∧ existsb is_error (vr_findings v) = true)).

(** An invalid verdict comes from an error. *)
Lemma judge_invalid hint expl fs cited :
  vr_verdict (judge hint expl fs cited) = INVALID ↔ existsb is_error fs = true.
Proof.
  unfold judge. rewrite existsb_exists. destruct (List.filter is_error fs) as [|e l] eqn:E.
  - split; [by destruct (List.filter is_warning fs)|]. intros (x & Hx & He).
    assert (In x (List.filter is_error fs)) as Hin by (by apply filter_In). by rewrite E in Hin.
  - split; [intros _|done]. exists e. apply filter_In. rewrite E. by left.
Qed.

Lemma judge_findings hint expl fs cited : vr_findings (judge hint expl fs cited) = fs.
Proof. unfold judge. by destruct (List.filter is_error fs), (List.filter is_warning fs). Qed.

Lemma run_verification_invalid now text state proc step policy v :
  _run_verification env now text state proc step policy = inr v →
  vr_verdict v = INVALID ↔ existsb is_error (vr_findings v) = true.
Proof.
  unfold _run_verification. destruct (match policy with Some _ => _ | None => _ end) as [e|reasoned]; [done|].
  cbn [rbind]. destruct (if compliance_enabled _ then _ else _) as [e|vs]; [done|]. cbn [rbind].
  destruct (reasoned.1 ++ map finding_of vs) as [|f fs] eqn:E; intros [= <-]; [done|].
  by rewrite judge_invalid, judge_findings.
Qed.
Lemma judge_hint hint expl fs cited h :
  vr_rewrite_hint (judge hint expl fs cited) = Some h → vr_verdict (judge hint expl fs cited) = INVALID.
Proof. unfold judge. by destruct (List.filter is_error fs), (List.filter is_warning fs). Qed.

Lemma run_verification_hint now text state proc step policy v h :
  _run_verification env now text state proc step policy = inr v →
  vr_rewrite_hint v = Some h → vr_verdict v = INVALID.
Proof.
  unfold _run_verification. destruct (match policy with Some _ => _ | None => _ end) as [e|reasoned]; [done|].
  cbn [rbind]. destruct (if compliance_enabled _ then _ else _) as [e|vs]; [done|]. cbn [rbind].
  destruct (reasoned.1 ++ map finding_of vs) as [|f fs]; intros [= <-]; [done|]. apply judge_hint.
Qed.

Section loop.
Context (state : dict value) (proc step : option string).
Context (policy : option ReasoningPolicy) (gen : option (string → prog W string)) (maxit : Z).

Abbreviation loop := (steer_loop env state proc step policy gen maxit).
Context (reach : W → W → Prop) `{!PreOrder reach} (Henv : surroundings_keep reach env).
Context (Hgen : ∀ generate prompt, gen = Some generate → steps reach (generate prompt)).
Abbreviation outcome w w' := (verified_or_invalid reach w w' state proc step policy).

Lemma run_rewrite generate prompt i text vs w w' text' vs' go :
  run (rewrite env state proc step generate prompt i text vs) w = (w', inr (text', vs', go)) →
  all_clean text → all_clean text'.
Proof.
  unfold rewrite. intros Hr Hc.
  apply run_bind_cases in Hr as [(e & _ & ?)|(w1 & answer & _ & Hr)]; [done|].
  destruct answer as [a|]; [|rewrite run_ret in Hr; by injection Hr as <- <- <- <-].
  destruct (filter_response a) as [t new] eqn:E.
  apply run_bind_cases in Hr as [(e & _ & ?)|(w2 & logged & _ & Hr)]; [done|].
  rewrite run_ret in Hr. injection Hr as <- <- <- <-.
  pose proof (filter_response_clean a) as Ha. by rewrite E in Ha.
Qed.

Lemma loop_outcome fuel i text vs v w w' text' vs' v' :
  (0 <= i)%Z → Z.of_nat fuel = (maxit + 1 - i)%Z → (0 < fuel) →
  run (loop fuel i text vs v) w = (w', inr (text', vs', v')) → all_clean text →
  all_clean text' ∧ outcome w w' text' v'.
Proof.
  revert i text vs v w; induction fuel as [|fuel IH]; intros i text vs v w Hi Hf Hpos; [lia|].
  rewrite steer_loop_eq. intros Hr Hc.
  apply run_bind_cases in Hr as [(e & _ & ?)|(w1 & now & Hnow & Hr)]; [done|].
  assert (reach w1 w') as Hw1.
  { pose proof (steps_run reach _ w1 (after_reading_steps reach env Henv gen Hgen loop state proc step
      policy maxit fuel i text vs now
      (λ i t vs v, steer_loop_steps reach env Henv gen Hgen state proc step policy maxit fuel i t vs v)))
      as Hs. by rewrite Hr in Hs. }
  assert (reach w w1) as Hw0.
  { pose proof (steps_run reach _ w (now_keeps _ _ Henv)) as Hs. by rewrite Hnow in Hs. }
  unfold after_reading in Hr. rewrite run_bind, run_lift in Hr.
  destruct (_run_verification env now text state proc step policy) as [e|v0] eqn:Ev; [done|].
  assert (outcome w w' text (Some v0)) as Hown.
  { exists v0. split; [done|]. left. exists now. split; [|done]. exists w, w1. by split_and!. }
  destruct (verification_settled v0).
  { apply run_bind_cases in Hr as [(e & _ & ?)|(w2 & x & _ & Hr)]; [done|].
    rewrite run_ret in Hr. by injection Hr as <- <- <- <-. }
  apply run_bind_cases in Hr as [(e & _ & ?)|(w2 & x & Hlog & Hr)]; [done|].
  assert (reach w1 w2) as Hw2.
  { match type of Hlog with run ?p _ = _ =>
      pose proof (steps_run reach p w1 (log_response_steps reach env Henv _ _ _ _ _)) as Hs end.
    by rewrite Hlog in Hs. }
  destruct gen as [generate|] eqn:Eg; [|rewrite run_ret in Hr; by injection Hr as <- <- <- <-].
  destruct (vr_rewrite_hint v0) as [hint|] eqn:Eh; [|rewrite run_ret in Hr; by injection Hr as <- <- <- <-].
  destruct ((i <? maxit)%Z && _) eqn:Elt; [|rewrite run_ret in Hr; by injection Hr as <- <- <- <-].
  apply andb_true_iff in Elt as [Elt%Z.ltb_lt _].
  apply run_bind_cases in Hr as [(e & _ & ?)|(w3 & [[t1 vs1] go] & Hrew & Hr)]; [done|].
  assert (reach w2 w3) as Hw3.
  { pose proof (steps_run reach _ w2 (rewrite_steps reach env Henv (Some generate) Hgen state proc step
      generate (rewrite_prompt v0 hint proc step state) i text vs eq_refl)) as Hs. by rewrite Hrew in Hs. }
  apply run_rewrite in Hrew as Hc1; [|done].
  destruct go.
  - eapply IH in Hr as [Hc' (v1 & -> & Hv1)]; [|lia|lia|lia|done]. split; [done|]. exists v1. split; [done|].
    destruct Hv1 as [(now' & (wa & wb & Ha & Hb & Hb') & Hv1)|?]; [left|by right].
    exists now'. split; [|done]. exists wa, wb. split_and!; [|done..]. by do 3 (etrans; [done|]).
  - rewrite run_ret in Hr. injection Hr as <- <- <- <-. split; [done|]. exists v0. split; [done|]. right.
    assert (vr_verdict v0 = INVALID) as Hinv by (by eapply run_verification_hint).
    split; [done|]. by eapply run_verification_invalid.
Qed.
End loop.

Section outcome.
Context (reach : W → W → Prop) `{!PreOrder reach} (Henv : surroundings_keep reach env).

Lemma steer_outcome text state proc step def gen maxit w w' out vs v :
  (∀ generate prompt, gen = Some generate → steps reach (generate prompt)) →
  run (steer_response env text state proc step def gen maxit) w = (w', inr (out, vs, v)) →
  all_clean out ∧
  (reasoning_enabled (su_settings env) = true →
   (0 <= default (reasoning_max_iterations (su_settings env)) maxit)%Z →
   out = _SAFE_FALLBACK ∨
   ∃ policy now r, policy_of def = inr policy ∧ v = Some r ∧ read_between reach w w' now ∧
     _run_verification env now out state proc step policy = inr r ∧
     existsb is_error (vr_findings r) = false).
Proof.
  intros Hgen. unfold steer_response. set (n := default _ maxit).
  destruct (filter_response text) as [t0 vs0] eqn:Ef.
  assert (all_clean t0) as Hc0 by (pose proof (filter_response_clean text) as Hc; by rewrite Ef in Hc).
  destruct (reasoning_enabled _) eqn:Een; cbn [negb].
  2: { rewrite run_ret. intros [= <- <- <- <-]. by split. }
  rewrite run_bind, run_lift. destruct (policy_of def) as [e|policy] eqn:Ep; [done|].
  intros Hr. apply run_bind_cases in Hr as [(e & _ & ?)|(w1 & [[t1 vs1] v1] & Hloop & Hr)]; [done|].
  rewrite run_ret in Hr. injection Hr as <- <- <- <-.
  destruct (decide (0 <= n)%Z) as [Hn|Hn].
  2: { replace (Z.to_nat (n + 1)) with 0 in Hloop by lia. cbn in Hloop. injection Hloop as <- <- <- <-.
       split; [done|]. intros _ ?. lia. }
  eapply (loop_outcome state proc step policy gen n reach Henv Hgen) in Hloop
    as [Hc1 (r & -> & Hown)]; [|lia|lia|lia|done].
  split.
  - destruct (still_invalid (Some r)); [apply fallback_clean|done].
  - intros _ _. unfold still_invalid.
    destruct (bool_decide (vr_verdict r = INVALID) && existsb is_error (vr_findings r)) eqn:Einv; [by left|].
    destruct Hown as [(now & Hbetween & Hown)|[Hinv He]].
    + right. exists policy, now, r. split_and!; [done..|].
      destruct (existsb is_error (vr_findings r)) eqn:Ex; [|done].
      apply (run_verification_invalid _ _ _ _ _ _ _ Hown) in Ex. by rewrite bool_decide_eq_true_2 in Einv.
    + by rewrite bool_decide_eq_true_2, He in Einv by done.
Qed.
End outcome.

(** C17: The response a customer receives: whatever the model wrote and rewrote, it
    holds no internal data; and when reasoning is on it is the safe fallback, or it
    is a text whose own verification, with the policy of the procedure, found no
    error. *)
Theorem steered_response_is_safe text state proc step def gen maxit w w' out vs v :
  run (steer_response env text state proc step def gen maxit) w = (w', inr (out, vs, v)) →
  all_clean out ∧
  (reasoning_enabled (su_settings env) = true →
   (0 <= default (reasoning_max_iterations (su_settings env)) maxit)%Z →
   out = _SAFE_FALLBACK ∨
   ∃ policy now r, policy_of def = inr policy ∧ v = Some r ∧
     _run_verification env now out state proc step policy = inr r ∧
     existsb is_error (vr_findings r) = false).
Proof.
  intros Hr.
  assert (∀ A (p : prog W A), steps (λ _ _, True) p) as Hany
    by (intros A p; induction p as [|f k IH]; [done|intros w0; by split]).
  assert (PreOrder (λ _ _ : W, True)) as Hpre by by split.
  eapply (steer_outcome (λ _ _, True)) in Hr as [Hc Hsafe];
    [|by split; intros; apply Hany|by intros; apply Hany].
  split; [exact Hc|]. intros Hen Hmax. destruct (Hsafe Hen Hmax) as [?|(p & now & r & ? & ? & _ & ? & ?)];
    [by left|right; by exists p, now, r].
Qed.

(** ** How often the model is asked *)

Section cost.
Context (cost : W → Z).

(** A program raises the cost by at most [n]. *)
Definition costs {A} (n : Z) (p : prog W A) : Prop := ∀ w, (cost (run p w).1 <= cost w + n)%Z.

Lemma costs_bind {A B} n m (p : prog W A) (k : A → prog W B) :
  (0 <= m)%Z → costs n p → (∀ a, costs m (k a)) → costs (n + m) (p ≫= k).
Proof.
  intros Hm Hp Hk w. rewrite run_bind. specialize (Hp w). destruct (run p w) as [w1 [e|a]]; cbn in *; [lia|].
  specialize (Hk a w1). lia.
Qed.
Lemma costs_free {A B} n (p : prog W A) (k : A → prog W B) :
  (0 <= n)%Z → costs 0 p → (∀ a, costs n (k a)) → costs n (p ≫= k).
Proof. intros Hn Hp Hk. replace n with (0 + n)%Z by lia. by apply costs_bind. Qed.
Lemma costs_try {A} n m (p : prog W A) h :
  (0 <= m)%Z → costs n p → (∀ e, costs m (h e)) → costs (n + m) (try_except p h).
Proof.
  intros Hm Hp Hh w. rewrite run_try. specialize (Hp w). destruct (run p w) as [w1 [e|a]]; cbn in *; [|lia].
  specialize (Hh e w1). lia.
Qed.
Lemma costs_done {A} n (r : result A) : (0 <= n)%Z → costs n (Done r).
Proof. intros Hn w. cbn. lia. Qed.

(** Only the model is paid for: what surrounds a response costs nothing. *)
Record free_surroundings : Prop := {
  fr_stamp : costs 0 (su_stamp env);
  fr_now : costs 0 (su_now env);
  fr_write : ∀ write e, su_db_write env = Some write → costs 0 (write e)
}.

Lemma log_costs action proc step state md :
  free_surroundings → costs 0 (log_response env action proc step state md).
Proof.
  intros [Hs _ Hw]. unfold log_response, audit_log. apply costs_free; [lia|done|].
  intros [[entry_id ts] corr]. apply costs_free; [lia| |intros; by apply costs_done].
  destruct (su_db_write env) as [write|] eqn:E; [|by apply costs_done].
  apply (costs_try 0 0); [lia|by apply Hw|intros; by apply costs_done].
Qed.

Lemma rewrite_costs proc step state generate prompt i text vs :
  free_surroundings → costs 1 (generate prompt) →
  costs 1 (rewrite env state proc step generate prompt i text vs).
Proof.
  intros Hf Hg. unfold rewrite. apply (costs_bind 1 0); [lia| |].
  - apply (costs_try 1 0); [lia| |intros; by apply costs_done].
    apply (costs_bind 1 0); [lia|done|intros; by apply costs_done].
  - intros [a|]; [|by apply costs_done]. destruct (filter_response a) as [t new].
    apply costs_free; [lia| |intros; by apply costs_done].
    apply (costs_try 0 0); [lia| |intros; by apply costs_done].
    apply costs_free; [lia|by apply log_costs|intros; by apply costs_done].
Qed.

Lemma loop_costs state proc step policy gen maxit fuel i text vs v :
  free_surroundings → (∀ g prompt, gen = Some g → costs 1 (g prompt)) →
  costs (Z.max 0 (maxit - i)) (steer_loop env state proc step policy gen maxit fuel i text vs v).
Proof.
  intros Hf Hg. revert i text vs v; induction fuel as [|fuel IH]; intros i text vs v; cbn [steer_loop];
    [apply costs_done; lia|].
  apply costs_free; [lia|apply Hf|]. intros now. apply costs_free; [lia|by apply costs_done|].
  intros v0. destruct (verification_settled v0).
  { apply costs_free; [lia| |intros; apply costs_done; lia].
    destruct (is_valid v0); [by apply log_costs|by apply costs_done]. }
  apply costs_free; [lia|by apply log_costs|]. intros _.
  destruct gen as [generate|]; [|apply costs_done; lia].
  destruct (vr_rewrite_hint v0) as [hint|]; [|apply costs_done; lia].
  destruct ((i <? maxit)%Z && _) eqn:Elt; [|apply costs_done; lia].
  apply andb_true_iff in Elt as [Elt%Z.ltb_lt _].
  replace (Z.max 0 (maxit - i))%Z with (1 + Z.max 0 (maxit - (i + 1)))%Z by lia.
  apply costs_bind; [lia|apply rewrite_costs; [done|by apply Hg]|].
  intros [[t1 vs1] go]. destruct go; [apply IH|apply costs_done; lia].
Qed.

(** The model is asked for a rewrite at most [max_iterations] times for one
    response: for any measure that one request raises by at most one and that
    auditing does not raise, steering raises it by at most [max_iterations]. *)
Theorem rewrites_are_bounded text state proc step def gen maxit :
  free_surroundings → (∀ g prompt, gen = Some g → costs 1 (g prompt)) →
  costs (Z.max 0 (default (reasoning_max_iterations (su_settings env)) maxit))
    (steer_response env text state proc step def gen maxit).
Proof.
  intros Hf Hg. unfold steer_response. set (n := default _ maxit).
  destruct (filter_response text) as [t0 vs0]. destruct (negb _); [apply costs_done; lia|].
  apply costs_free; [lia|by apply costs_done|]. intros policy.
  replace (Z.max 0 n) with (Z.max 0 (n - 0) + 0)%Z by lia.
  apply costs_bind; [lia|by apply loop_costs|]. intros [[t1 vs1] v1]. by apply costs_done.
Qed.
End cost.
End steering.

(** ** Refund claims *)

(** The meaning of the expressions handed to the solver. *)
Inductive zval := IntV (z : Z) | RealV (text : string) | StrV (s : string) | BoolV (b : bool).
Definition zmodel := string → zval.

Definition well_sorted (m : zmodel) : Prop :=
  (∃ z, m "order_age_days" = IntV z) ∧ (∃ q, m "order_total" = RealV q) ∧
  (∃ q, m "refund_amount" = RealV q) ∧ (∃ s, m "order_status" = StrV s) ∧
  (∃ b, m "is_refundable_category" = BoolV b).

Section semantics.
Context (real_le : string → string → bool) (m : zmodel).

Definition term_value (t : z3term) : zval :=
  match t with
  | ZVar x => m x | ZInt z => IntV z | ZReal q => RealV q | ZString s => StrV s | ZBool b => BoolV b
  end.
Definition zle (u v : zval) : bool :=
  match u, v with IntV x, IntV y => (x <=? y)%Z | RealV x, RealV y => real_le x y | _, _ => false end.
Definition zeq (u v : zval) : bool :=
  match u, v with
  | IntV x, IntV y => (x =? y)%Z
  | RealV x, RealV y => real_le x y && real_le y x
  | StrV x, StrV y => String.eqb x y
  | BoolV x, BoolV y => eqb x y
  | _, _ => false
  end.
Definition zgt (u v : zval) : bool :=
  match u, v with
  | IntV x, IntV y => (y <? x)%Z | RealV x, RealV y => negb (real_le x y) | _, _ => false
  end.
Fixpoint holds (e : z3expr) : bool :=
  match e with
  | ZIs t => zeq (term_value t) (BoolV true)
  | ZLe a b => zle (term_value a) (term_value b)
  | ZGt a b => zgt (term_value a) (term_value b)
  | ZEq a b => zeq (term_value a) (term_value b)
  | ZAnd l => forallb holds l
  | ZOr l => existsb holds l
  | ZNot e => negb (holds e)
  end.
End semantics.

(** What the engine relies on: the solver's [sat] has a model and its [unsat] has
    none (it may answer [unknown]); constants of the language are themselves. *)
Class Z3Laws `{Z3} := {
  real_le : string → string → bool;
  check_sat fs : z3_check fs = sat → ∃ m, well_sorted m ∧ forallb (holds real_le m) fs = true;
  check_unsat fs m : z3_check fs = unsat → well_sorted m → forallb (holds real_le m) fs = false;
  string_val s : StringVal (VStr s) = inr (ZString s);
  bool_val x b : eq_value x (VBool b) = inr (ZEq x (ZBool b))
}.

(** The rule of the refund procedure. *)
Definition thirty_days : z3expr :=
  ZAnd [ZLe order_age_days (ZInt 30);
        ZOr [ZEq order_status (ZString "delivered"); ZEq order_status (ZString "shipped")];
        ZIs is_refundable_category].

(** An order is eligible: at most 30 days old, delivered or shipped, of a category
    that can be refunded. *)
Definition eligible (age : Z) (status : string) (category : bool) : bool :=
  (age <=? 30)%Z && (String.eqb status "delivered" || String.eqb status "shipped") && category.

Definition order_facts (age : Z) (status : string) (category : bool) : list z3expr :=
  [ZEq order_age_days (ZInt age); ZEq order_status (ZString status);
   ZEq is_refundable_category (ZBool category)].

Section refund_claims.
Context `{Render, Z3, !Z3Laws, Sympy} {W : Type} (env : @Surroundings W).

Definition order_model (age : Z) (status : string) (category : bool) : zmodel :=
  λ x, if String.eqb x "order_age_days" then IntV age
       else if String.eqb x "order_status" then StrV status
       else if String.eqb x "is_refundable_category" then BoolV category else RealV "0".

(** The solver decides eligibility, unless it gives up. *)
Lemma check_eligible age status category :
  z3_check (order_facts age status category ++ [thirty_days]) = sat → eligible age status category = true.
Proof.
  intros (m & _ & Hm)%check_sat. cbn in Hm.
  apply andb_true_iff in Hm as [Hage Hm]. apply andb_true_iff in Hm as [Hst Hm].
  apply andb_true_iff in Hm as [Hcat Hm].
  destruct (m "order_age_days") as [z|?|?|?]; try done. apply Z.eqb_eq in Hage as ->.
  destruct (m "order_status") as [?|?|u|?]; try done. apply String.eqb_eq in Hst as ->.
  destruct (m "is_refundable_category") as [?|?|?|b]; try done. apply eqb_prop in Hcat as ->.
  unfold eligible. rewrite orb_false_r, !andb_true_r in Hm. destruct category; [|by rewrite !andb_false_r in Hm].
  by rewrite !andb_true_r in *.
Qed.

Lemma check_ineligible age status category :
  z3_check (order_facts age status category ++ [thirty_days]) = unsat → eligible age status category = false.
Proof.
  intros Hu. assert (well_sorted (order_model age status category)) as Hw by (repeat split; by eexists).
  pose proof (check_unsat _ _ Hu Hw) as Hm. cbn in Hm.
  rewrite Z.eqb_refl, String.eqb_refl, eqb_reflx, orb_false_r, !andb_true_r in Hm. cbn in Hm.
  unfold eligible. by destruct category; rewrite ?andb_true_r, ?andb_false_r in *.
Qed.

(** What the session says of the order, where the rails look for it: a date in one
    of the accepted formats, a status, whether the category can be refunded. *)
Record order_known (state : dict value) (date : Z) (status : string) (category : bool) : Prop := {
  ok_date : ∃ text rest, dget "order_date" state = Some (VStr text) ∧ text ≠ "" ∧
              omap (λ f, strptime f text) order_formats = date :: rest;
  ok_status : dget "order_status" state = Some (VStr status);
  ok_nonempty : status ≠ "";
  ok_category : dget_or "is_refundable_category" (VBool true) state = VBool category
}.

(** The age of an order of a date, in whole days. *)
Definition age_on (date now : Z) : Z := ((now - date) / 86400000000)%Z.

Lemma order_age now state date status category :
  order_known state date status category → _get_order_age_days now state = Some (age_on date now).
Proof.
  intros [(text & rest & Hd & Hne & Hf) _ _ _]. unfold _get_order_age_days.
  replace (dget_none "order_date" state) with (VStr text) by (unfold dget_none, dget_or; by rewrite Hd).
  cbn [truthy]. destruct (String.eqb_spec text ""); [done|]. cbn [negb]. by rewrite Hf.
Qed.

(** The rule [build_policy_from_procedure] makes of the first condition of the
    procedure's [check_eligibility] step. *)
Definition refund_rule (r : ReasoningRule) : Prop :=
  ru_constraint r = thirty_days ∧ ru_source_step r = VStr "check_eligibility" ∧
  str_contains "process_refund" (ru_description r) = true.

Lemma eligibility_findings now claims policy state cited fs cited' date status category r age :
  order_known state date status category → r ∈ po_rules policy → refund_rule r →
  _get_order_age_days now state = Some age →
  _verify_eligibility_claims now claims policy state cited = inr (fs, cited') →
  existsb is_error fs = false →
  (claims_refund_approved claims = true → eligible age status category = true) ∧
  (claims_refund_denied claims = true →
     eligible age status category = false ∨
     z3_check (order_facts age status category ++ [thirty_days]) = unknown).
Proof.
  intros [_ Hst Hne Hcat] Hr (Hc & Hstep & Hdesc) Hage He Hfs. unfold _verify_eligibility_claims in He.
  destruct (negb (claims_refund_approved claims) && _) eqn:Eno.
  { apply andb_true_iff in Eno as [Ha%negb_true_iff Hd%negb_true_iff]. rewrite Ha, Hd. by split. }
  assert (dget_or "order_status" (VStr "") state = VStr status) as Hst' by (unfold dget_or; by rewrite Hst).
  cbv zeta in He. rewrite Hage, Hst', Hcat in He.
  assert (truthy (VStr status) = true) as Ht by (cbn; by destruct (String.eqb_spec status "")).
  rewrite Ht, string_val in He. cbn [rbind] in He. rewrite bool_val in He. cbn [rbind] in He.
  injection He as <- <-.
  assert (existsb is_error (rule_findings claims (order_facts age status category) age (VStr status) r) = false) as Hrule.
  { destruct (existsb is_error (rule_findings _ _ _ _ r)) eqn:E; [|done].
    rewrite <- not_true_iff_false, existsb_exists in Hfs. exfalso. apply Hfs.
    apply existsb_exists in E as (f & Hf & ?). exists f. split; [|done]. apply in_flat_map. exists r.
    split; [|done]. apply filter_In. split; [by apply list_elem_of_In|]. by rewrite Hstep. }
  unfold rule_findings in Hrule. rewrite Hc in Hrule.
  destruct (z3_check _) eqn:Ez.
  - apply check_eligible in Ez as Hel. split; [done|]. intros Hd. by rewrite Hd, andb_false_r in Hrule.
  - apply check_ineligible in Ez as Hel. split; [|by left]. intros Ha. by rewrite Ha in Hrule.
  - split; [|by right]. intros Ha. by rewrite Ha in Hrule.
Qed.

Lemma judge_error hint expl fs cited :
  existsb is_error (vr_findings (judge hint expl fs cited)) = existsb is_error fs.
Proof. by rewrite judge_findings. Qed.

Lemma no_claims_refund c :
  no_claims c = true → claims_refund_approved c = false ∧ claims_refund_denied c = false.
Proof.
  unfold no_claims. destruct (mentioned_amounts c), (mentioned_days c); try done.
  intros [[[Ha Hd]%orb_false_iff _]%orb_false_iff _]%negb_true_iff%orb_false_iff. done.
Qed.

Lemma reasoning_refund_claims now text policy state step res date status category r age :
  order_known state date status category → r ∈ po_rules policy → refund_rule r →
  _get_order_age_days now state = Some age →
  reasoning_verify now text policy state step = inr res → existsb is_error (vr_findings res) = false →
  (re_search _REFUND_APPROVED_PATTERN text = true → eligible age status category = true) ∧
  (re_search _REFUND_DENIED_PATTERN text = true →
     eligible age status category = false ∨
     z3_check (order_facts age status category ++ [thirty_days]) = unknown).
Proof.
  intros Hk Hr Hrule Hage Hv He. unfold reasoning_verify in Hv.
  rewrite bool_decide_eq_false_2 in Hv by (intros E; rewrite E in Hr; by apply not_elem_of_nil in Hr).
  unfold extract_claims in Hv. destruct (fold_result _ [] (amounts_in text)) as [e|amounts]; [done|].
  cbn [rbind] in Hv. destruct (fold_result days_of_match [] _) as [e|days]; [done|]. cbn [rbind] in Hv.
  set (claims := mkClaims _ _ _ _ _ _) in Hv.
  destruct (no_claims claims) eqn:Eno.
  { apply no_claims_refund in Eno as [Ha Hd]. subst claims. cbn [claims_refund_approved claims_refund_denied] in Ha, Hd.
    rewrite Ha, Hd. by split. }
  destruct (_verify_eligibility_claims now claims policy state []) as [e|[fs cited]] eqn:Eel; [done|].
  cbn [rbind] in Hv. destruct (_verify_amount_claims _ _ _ _) as [e|am]; [done|]. cbn [rbind] in Hv.
  injection Hv as <-. rewrite judge_error, existsb_app in He. apply orb_false_iff in He as [He _].
  exact (eligibility_findings _ _ _ _ _ _ _ _ _ _ _ _ Hk Hr Hrule Hage Eel He).
Qed.
(** The clock the steering reads never goes back, and a reading lies between the
    times before and after it. *)
Record timed (clock : W → Z) : Prop := {
  ti_keep : surroundings_keep (λ w w', clock w <= clock w')%Z env;
  ti_now w w' t : run (su_now env) w = (w', inr t) → (clock w <= t <= clock w')%Z
}.

(** C16: Where a session holds the order under the keys the rails read -- its date, its
    status, whether its category can be refunded; no tool of the program puts them
    there, see the findings -- and the procedure has the refund rule: whatever the
    model answers, the text that leaves the guardrails claims a refund approved only
    of an order that is, at a moment of this very turn, at most 30 days old,
    delivered or shipped, of a refundable category; and claims one denied of such an
    order only when the solver gave up. *)
Theorem no_false_refund_claim clock text state proc step def gen maxit w w' out vs v policy r
    date status category :
  timed clock →
  (∀ generate prompt, gen = Some generate → steps (λ w w', clock w <= clock w')%Z (generate prompt)) →
  run (steer_response env text state proc step def gen maxit) w = (w', inr (out, vs, v)) →
  reasoning_enabled (su_settings env) = true →
  (0 <= default (reasoning_max_iterations (su_settings env)) maxit)%Z →
  policy_of def = inr (Some policy) → r ∈ po_rules policy → refund_rule r →
  order_known state date status category →
  ∃ now, (clock w <= now <= clock w')%Z ∧
    (re_search _REFUND_APPROVED_PATTERN out = true → eligible (age_on date now) status category = true) ∧
    (re_search _REFUND_DENIED_PATTERN out = true →
       eligible (age_on date now) status category = false ∨
       z3_check (order_facts (age_on date now) status category ++ [thirty_days]) = unknown).
Proof.
  intros [Hkeep Hnow] Hgen Hrun Hen Hmax Hpol Hr Hrule Hk.
  assert (PreOrder (λ w w' : W, clock w <= clock w')%Z) as Hpre
    by (split; [intros ?; lia|intros ???; lia]).
  pose proof (steps_run _ _ w (steering_steps _ env Hkeep gen Hgen text state proc step def maxit)) as Hle.
  rewrite Hrun in Hle. cbn in Hle.
  eapply (steer_outcome _ _ Hkeep) in Hrun as [_ Hsafe]; [|exact Hgen].
  destruct (Hsafe Hen Hmax) as [->|(policy' & now & res & Hp & -> & (wa & wb & Ha & Hb & Hc) & Hv & He)].
  { exists (clock w). split; [lia|]. split; intros Habs; vm_compute in Habs; discriminate. }
  rewrite Hpol in Hp. injection Hp as <-. apply Hnow in Hb. exists now. split; [lia|].
  unfold _run_verification in Hv.
  destruct (reasoning_verify now out policy state step) as [e|rr] eqn:Err; [done|]. cbn [rbind] in Hv.
  destruct (if compliance_enabled _ then _ else _) as [e|cvs]; [done|]. cbn [rbind fst snd] in Hv.
  eapply reasoning_refund_claims; [done..|by eapply order_age|done|].
  destruct (vr_findings rr ++ map finding_of cvs) as [|f fs] eqn:Ef; injection Hv as <-.
  - by apply app_nil in Ef as [-> _].
  - rewrite judge_error, <- Ef, existsb_app in He. by apply orb_false_iff in He as [? _].
Qed.
End refund_claims.

(** ** A concrete solver and a concrete session *)

(** The constants a list of equations gives the variables, at their sorts. *)
Definition assigned (fs : list z3expr) (x : string) : option zval :=
  hd_error (omap (λ e, match e with
                   | ZEq (ZVar y) t => if String.eqb x y then Some (term_value (λ _, IntV 0) t) else None
                   | _ => None
                   end) fs).
Definition assignment (fs : list z3expr) : zmodel := λ x,
  if String.eqb x "order_age_days" then match assigned fs x with Some (IntV z) => IntV z | _ => IntV 0 end
  else if String.eqb x "order_status" then match assigned fs x with Some (StrV s) => StrV s | _ => StrV "" end
  else if String.eqb x "is_refundable_category" then
    match assigned fs x with Some (BoolV b) => BoolV b | _ => BoolV false end
  else match assigned fs x with Some (RealV q) => RealV q | _ => RealV "0" end.

(** It tries the assignment the equations suggest, and knows no more. *)
#[local] Instance demo_z3 : Z3 := {
  z3_check fs := if forallb (holds String.leb (assignment fs)) fs then sat else unknown;
  StringVal v := match v with VStr s => inr (ZString s) | _ => inl (TypeError "not a string") end;
  RealVal q := inr (ZReal q);
  eq_value x v := match v with VBool b => inr (ZEq x (ZBool b)) | _ => inl (OtherError "Z3Exception") end
}.

Lemma assignment_sorted fs : well_sorted (assignment fs).
Proof.
  unfold well_sorted, assignment. cbn [String.eqb Ascii.eqb Bool.eqb].
  repeat split; destruct (assigned fs _) as [[]|]; by eexists.
Qed.

#[local] Instance demo_z3_laws : Z3Laws.
Proof.
  refine {| real_le := String.leb |}; try done; cbn.
  - intros fs. destruct (forallb _ fs) eqn:E; [|done]. intros _.
    exists (assignment fs). split; [apply assignment_sorted|done].
  - intros fs m. by destruct (forallb _ fs).
Defined.

#[local] Instance demo_sympy : Sympy := {
  rational := float;
  Rational v := match v with
                | VFloat x => inr x | VInt z => inr (f_of_Z z) | _ => inl (TypeError "not a number") end;
  rat_gt x y := f_ltb y x; rat_le := f_leb; rat_eq := f_eqb
}.
#[local] Instance demo_render : Render := λ _, "".

(** The step of the refund procedure its conditions belong to. *)
Definition refund_procedure : dict value :=
  [("id", VStr "cs_refund");
   ("steps", VList [VDict [("id", VStr "check_eligibility");
     ("conditions", VList
       [VDict [("if", VStr "order_date within 30 days AND order_status in [delivered, shipped] AND category not in non_refundable_list");
               ("next_step", VStr "process_refund")];
        VDict [("if", VStr "order_date outside 30 days"); ("next_step", VStr "deny_refund_window")];
        VDict [("if", VStr "order_status == processing"); ("next_step", VStr "cancel_order")]])]])].

(** A world that counts the requests to the model, and a model that insists [n]
    times before it corrects itself. *)
Definition demo_generate (n : nat) (prompt : string) : prog nat string :=
  atomically (λ w, (S w, inr (if Nat.ltb w n then "I guarantee that the refund was approved."
                              else "I am sorry: this order is not eligible, the step_id: 7 says so."))).

Definition demo_env : @Surroundings nat :=
  mkSurroundings (demo_settings []) (mret ("entry", "now", None)) (mret (45 * day_us)%Z)
    (Some (λ _, mthrow (OtherError "OperationalError"))).

(** Ordered on 1970-01-01, 45 days ago. *)
Definition demo_state (order_status : string) : dict value :=
  [("order_date", VStr "1970-01-01"); ("order_status", VStr order_status);
   ("order_total", VStr "79.99")].

Definition demo_response : string := "Your refund of $79.99 has been approved.".
Definition demo_steer (n : nat) :=
  run (steer_response demo_env demo_response (demo_state "delivered") (Some "cs_refund") (Some "check_eligibility")
         (Some refund_procedure) (Some (demo_generate n)) None) 0.

Definition steered (r : nat * result (string * list GuardrailViolation * option VerificationResult)) :
    option (nat * string) :=
  match r.2 with inr (out, _, _) => Some (r.1, out) | inl _ => None end.

(** The model corrects itself at its second rewrite, or is given up. *)
Example demo_corrected :
  steered (demo_steer 1) = Some (2, "I am sorry: this order is not eligible, the [REDACTED] 7 says so.").
Proof. vm_compute. reflexivity. Qed.
Example demo_given_up : steered (demo_steer 5) = Some (2, _SAFE_FALLBACK).
Proof. vm_compute. reflexivity. Qed.

Definition demo_result := demo_steer 1.
Definition demo_out := match demo_result.2 with inr (out, _, _) => out | inl _ => "" end.
Definition demo_vs := match demo_result.2 with inr (_, vs, _) => vs | inl _ => [] end.
Definition demo_v := match demo_result.2 with inr (_, _, v) => v | inl _ => None end.

Example steered_response_is_safe_witness :
  all_clean demo_out ∧ demo_out ≠ _SAFE_FALLBACK.
Proof.
  split; [|vm_compute; discriminate].
  refine (proj1 (steered_response_is_safe demo_env demo_response (demo_state "delivered") (Some "cs_refund")
            (Some "check_eligibility") (Some refund_procedure) (Some (demo_generate 1)) None 0 demo_result.1
            demo_out demo_vs demo_v _)).
  vm_compute. reflexivity.
Defined.

Example rewrites_are_bounded_witness :
  (Z.of_nat demo_result.1 <= 0 + 2)%Z.
Proof.
  refine (rewrites_are_bounded demo_env Z.of_nat demo_response (demo_state "delivered") (Some "cs_refund")
            (Some "check_eligibility") (Some refund_procedure) (Some (demo_generate 1)) None _ _ 0).
  - split; [intros w; cbn; lia|intros w; cbn; lia|]. intros write e [= <-] w. cbn. lia.
  - intros g prompt [= <-] w. unfold demo_generate. rewrite run_atomically. cbn [fst]. lia.
Defined.

Definition demo_policy : ReasoningPolicy :=
  match policy_of (Some refund_procedure) with
  | inr (Some p) => p | _ => mkPolicy "" [] "" end.
Definition demo_rule : ReasoningRule :=
  match po_rules demo_policy with r :: _ => r | [] => mkRule "" "" (ZIs (ZBool true)) VNone end.

Lemma demo_known s : s ≠ "" → order_known (demo_state s) 0 s true.
Proof.
  intros Hs. split; [|done|done|done]. exists "1970-01-01".
  assert (strptime FDate "1970-01-01" = Some 0%Z) as Hd by (vm_compute; reflexivity).
  eexists. split; [reflexivity|]. split; [done|]. cbn [order_formats omap list_omap].
  by rewrite Hd.
Qed.

(** The clock of the demonstration stands still, 45 days after the order. *)
Definition demo_clock (_ : nat) : Z := 45 * day_us.

(** The order is 45 days old: no text that claims the refund approved can leave. *)
Example no_false_refund_claim_witness :
  re_search _REFUND_APPROVED_PATTERN demo_out = false ∧
  ∃ now, (demo_clock 0 <= now <= demo_clock demo_result.1)%Z ∧
    (re_search _REFUND_APPROVED_PATTERN demo_out = true → eligible (age_on 0 now) "delivered" true = true).
Proof.
  destruct (no_false_refund_claim demo_env demo_clock demo_response (demo_state "delivered") (Some "cs_refund")
            (Some "check_eligibility") (Some refund_procedure) (Some (demo_generate 1)) None 0 demo_result.1
            demo_out demo_vs demo_v demo_policy demo_rule 0 "delivered" true) as (now & Hnow & Happ & _).
  - split; [|by intros w w' t [= _ <-]]. split; [done|done|]. by intros write e [= <-].
  - intros generate prompt [= <-]. intros w. split; [done|]. done.
  - vm_compute. reflexivity.
  - reflexivity.
  - vm_compute. discriminate.
  - vm_compute. reflexivity.
  - apply list_elem_of_In. vm_compute. by left.
  - split; [vm_compute; reflexivity|]. split; vm_compute; reflexivity.
  - by apply demo_known.
  - split; [|by exists now].
    destruct (re_search _REFUND_APPROVED_PATTERN demo_out) eqn:E; [|reflexivity]. exfalso.
    assert (now = 45 * day_us)%Z as -> by (unfold demo_clock in Hnow; lia).
    specialize (Happ eq_refl). vm_compute in Happ. discriminate Happ.
Defined.

(** ** What the checks do not see *)

(** The rails read the order under keys of their own; the tools put it under
    [order_data], so in a session they filled an approval is never checked. *)
Definition tool_state : dict value :=
  [("customer_id", VStr "CUST-1");
   ("order_data", VDict [("order_date", VStr "1970-01-01"); ("status", VStr "delivered"); ("total", VStr "79.99")])].
Example approval_unchecked :
  steered (run (steer_response demo_env demo_response tool_state (Some "cs_refund") (Some "process_refund")
                  (Some refund_procedure) (Some (demo_generate 1)) None) 0) = Some (0, demo_response).
Proof. vm_compute. reflexivity. Qed.

(** A dollar sign before a lone comma ends the turn with an exception. *)
Example stray_amount_raises :
  (run (steer_response demo_env "Prices in $, not euros." tool_state (Some "cs_refund") None
          (Some refund_procedure) None None) 0).2 =
  inl (ValueError "could not convert string to float").
Proof. vm_compute. reflexivity. Qed.
