(* ===== verification/WorkflowState.v ===== *)
(** * Workflow state and the registry of procedures
      ([state/workflow_state.py], [procedures/registry.py], the tool check of
      [procedures/executor.py])

    The progress of a procedure in a session state, the index of the loaded
    procedures, and the check of a tool call at a step. *)

From S2P Require Import Prelude PyValue PyString Procedures Guardrails.

Local Open Scope wf_scope.

(** ** [state/workflow_state.py]: functions of a session state *)

(** [datetime.now().isoformat()] is the argument [now]. *)
Definition initialize_workflow (procedure_id procedure_name now : string) (state : dict value) : dict value :=
  dset "workflow_completed_at" VNone
  (dset "workflow_resolution" VNone
  (dset "workflow_started_at" (VStr now)
  (dset "workflow_status" (VStr "in_progress")
  (dset "steps_completed" (VList [])
  (dset "current_step" VNone
  (dset "current_procedure_name" (VStr procedure_name)
  (dset "current_procedure" (VStr procedure_id) state))))))).

(** [x in v], [v.append(x)] *)
Definition py_contains (x v : value) : result bool :=
  match v with
  | VList l => inr (existsb (py_eqb x) l)
  | VStr t => match x with VStr s => inr (str_contains s t)
              | _ => inl (TypeError "'in <string>' requires string as left operand") end
  | VDict d => match x with
               | VStr s => inr (dhas s d)
               | VList _ | VDict _ => inl (TypeError "unhashable type")
               | _ => inr false
               end
  | _ => inl (TypeError "argument is not iterable")
  end.
Definition py_append (x v : value) : result value :=
  match v with VList l => inr (VList (l ++ [x])) | _ => inl (OtherError "AttributeError") end.

(** The step left behind joins the completed ones, once. *)
Definition complete_current (state : dict value) : result (dict value) :=
  let previous_step := dget_none "current_step" state in
  let steps := dget_or "steps_completed" (VList []) state in
  if truthy previous_step then
    let? known := py_contains previous_step steps in
    if known : bool then inr state
    else let? steps := py_append previous_step steps in inr (dset "steps_completed" steps state)
  else inr state.

Definition set_current_step (step_id : string) (state : dict value) : result (dict value) :=
  let? state := complete_current state in inr (dset "current_step" (VStr step_id) state).

Definition workflow_current_step (state : dict value) : value := dget_none "current_step" state.

Definition get_workflow_progress (state : dict value) : dict value :=
  [ ("current_procedure", dget_none "current_procedure" state);
    ("current_procedure_name", dget_none "current_procedure_name" state);
    ("current_step", dget_none "current_step" state);
    ("steps_completed", dget_or "steps_completed" (VList []) state);
    ("workflow_status", dget_none "workflow_status" state);
    ("started_at", dget_none "workflow_started_at" state);
    ("resolution", dget_none "workflow_resolution" state);
    ("completed_at", dget_none "workflow_completed_at" state) ].

Definition record_tool_result (tool_name : string) (r : value) (state : dict value) : dict value :=
  dset ("tool_result:" +:+ tool_name) r state.

Definition complete_workflow (resolution now : string) (state : dict value) : result (dict value) :=
  let? state := complete_current state in
  inr (dset "current_step" VNone
      (dset "workflow_completed_at" (VStr now)
      (dset "workflow_resolution" (VStr resolution)
      (dset "workflow_status" (VStr "completed") state)))).

Definition escalate_workflow (reason now : string) (state : dict value) : dict value :=
  dset "escalated_at" (VStr now)
  (dset "escalation_reason" (VStr reason)
  (dset "workflow_status" (VStr "escalated") state)).

(** ** [ProcedureExecutor.validate_step_tools] *)
Definition validate_step_tools `{Render} (x : ProcedureExecutor) (step_id tool_name : string)
    (args : dict value) : result (list GuardrailViolation) :=
  let? violations := validate_tool_args tool_name args in
  let allowed := get_allowed_tools x in
  inr (violations ++
    match allowed with
    | [] => []
    | _ =>
        if bool_decide (tool_name ∈ allowed) then []
        else [mkViolation "tool_not_allowed_for_step"
                ("Tool '" +:+ tool_name +:+ "' is not permitted at step '" +:+ step_id
                   +:+ "'. Allowed tools: [" +:+
                   PyValue.join ", " (map (λ t, "'" +:+ t +:+ "'") allowed) +:+ "]") BLOCK]
    end).

(** ** Progress of a workflow *)

Fixpoint walk (steps : list string) (state : dict value) : result (dict value) :=
  match steps with
  | [] => inr state
  | s :: steps => let? state := set_current_step s state in walk steps state
  end.

(** The steps in the order of their first visit. *)
Fixpoint first_visits (seen steps : list string) : list string :=
  match steps with
  | [] => seen
  | s :: steps => first_visits (if bool_decide (s ∈ seen) then seen else seen ++ [s]) steps
  end.

Lemma existsb_strings s l : existsb (py_eqb (VStr s)) (map VStr l) = bool_decide (s ∈ l).
Proof.
  induction l as [|x l IH]; [by rewrite bool_decide_eq_false_2 by apply not_elem_of_nil|].
  change (String.eqb s x || existsb (py_eqb (VStr s)) (map VStr l) = bool_decide (s ∈ x :: l)). rewrite IH. destruct (String.eqb_spec s x) as [->|Hne]; cbn [orb].
  - by rewrite bool_decide_eq_true_2 by left.
  - apply bool_decide_ext. rewrite elem_of_cons. by split; [right|intros [|]].
Qed.

(** The state after some steps: the completed steps and the current one. *)
Record progress (state : dict value) (completed : list string) (current : string) : Prop := {
  pg_steps : dget "steps_completed" state = Some (VList (map VStr completed));
  pg_current : dget "current_step" state = Some (VStr current)
}.

Lemma set_current_step_progress state completed current s :
  progress state completed current → current ≠ "" →
  ∃ state', set_current_step s state = inr state' ∧ progress state' (first_visits completed [current]) s.
Proof.
  intros [Hs Hc] Hne. unfold set_current_step, complete_current, dget_none, dget_or. rewrite Hs, Hc. cbn [truthy].
  rewrite (proj2 (String.eqb_neq _ _) Hne). cbn [negb py_contains rbind]. rewrite existsb_strings. cbn [first_visits].
  case_bool_decide; cbn [rbind py_append].
  - eexists. split; [done|]. split; [by rewrite dget_dset_ne|apply dget_dset_eq].
  - eexists. split; [done|]. split; [|apply dget_dset_eq].
    rewrite dget_dset_ne, dget_dset_eq by done. by rewrite map_app.
Qed.

Lemma first_visits_app seen l m : first_visits seen (l ++ m) = first_visits (first_visits seen l) m.
Proof. revert seen; induction l as [|s l IH]; intros seen; cbn; [done|]. apply IH. Qed.

Lemma walk_progress steps state completed current :
  progress state completed current → Forall (λ s, s ≠ "") (current :: steps) →
  ∃ state', walk steps state = inr state' ∧
    progress state' (first_visits completed (removelast (current :: steps)))
      (default "" (last (current :: steps))).
Proof.
  revert state completed current; induction steps as [|s steps IH]; intros state completed current Hp Hf.
  - by exists state.
  - inversion Hf as [|? ? Hc Hrest]; subst.
    destruct (set_current_step_progress state completed current s Hp Hc) as (st1 & Hset & Hp1).
    destruct (IH st1 _ s Hp1 Hrest) as (st2 & Hw & Hp2).
    exists st2. cbn [walk]. rewrite Hset. split; [done|].
    rewrite <- first_visits_app in Hp2. exact Hp2.
Qed.

(** A workflow's progress: from its initialization, whatever steps it goes
    through, the session state lists the steps left behind in the order of their
    first visit, each once, and names the step it is at; completing the workflow
    adds that step and leaves none. *)
Theorem workflow_progress_tracked procedure_id procedure_name now now' resolution s steps state :
  Forall (λ s, s ≠ "") (s :: steps) →
  ∃ state1 state2,
    walk (s :: steps) (initialize_workflow procedure_id procedure_name now state) = inr state1 ∧
    progress state1 (first_visits [] (removelast (s :: steps))) (default "" (last (s :: steps))) ∧
    complete_workflow resolution now' state1 = inr state2 ∧
    dget "steps_completed" state2 = Some (VList (map VStr (first_visits [] (s :: steps)))) ∧
    dget "current_step" state2 = Some VNone ∧
    dget "workflow_status" state2 = Some (VStr "completed").
Proof.
  intros Hf. set (state0 := initialize_workflow _ _ _ _).
  assert (dget "current_step" state0 = Some VNone) as Hc0
    by (unfold state0, initialize_workflow; repeat (rewrite dget_dset_ne by done); apply dget_dset_eq).
  assert (dget "steps_completed" state0 = Some (VList [])) as Hs0
    by (unfold state0, initialize_workflow; repeat (rewrite dget_dset_ne by done); apply dget_dset_eq).
  cbn [walk]. unfold set_current_step at 1, complete_current at 1. unfold dget_none, dget_or at 1.
  rewrite Hc0. cbn [truthy rbind].
  destruct (walk_progress steps (dset "current_step" (VStr s) state0) [] s) as (st1 & Hw & Hp); [|done|].
  { split; [by rewrite dget_dset_ne|apply dget_dset_eq]. }
  exists st1. rewrite Hw. pose proof Hp as [Hst Hcur].
  assert (default "" (last (s :: steps)) ≠ "") as Hne.
  { destruct (last (s :: steps)) as [x|] eqn:E; [|by apply last_None in E].
    apply last_Some_elem_of in E. cbn. by eapply (proj1 (Forall_forall _ _) Hf). }
  destruct (set_current_step_progress st1 _ _ "x" Hp Hne) as (st2 & Hset & [Hst2 _]).
  unfold set_current_step in Hset. destruct (complete_current st1) as [e|st3] eqn:E3; [done|].
  cbn in Hset. injection Hset as <-. rewrite dget_dset_ne in Hst2 by done.
  eexists. split; [done|]. split; [done|]. unfold complete_workflow. rewrite E3. cbn [rbind].
  split; [done|]. split; [|split; [apply dget_dset_eq|]].
  2: { do 3 (rewrite dget_dset_ne by done). apply dget_dset_eq. }
  do 4 (rewrite dget_dset_ne by done).
  rewrite Hst2. rewrite <- first_visits_app. do 3 f_equal.
  destruct (last (s :: steps)) as [x|] eqn:E; [|by apply last_None in E].
  apply last_Some in E as [l E]. rewrite E, removelast_last. done.
Qed.

Example workflow_progress_tracked_witness :
  ∃ state1 state2,
    walk ["a"; "b"; "a"; "c"] (initialize_workflow "cs_refund" "Refund" "t0" []) = inr state1 ∧
    progress state1 ["a"; "b"] "c" ∧
    complete_workflow "done" "t1" state1 = inr state2 ∧
    dget "steps_completed" state2 = Some (VList [VStr "a"; VStr "b"; VStr "c"]) ∧
    dget "current_step" state2 = Some VNone ∧
    dget "workflow_status" state2 = Some (VStr "completed").
Proof.
  refine (workflow_progress_tracked "cs_refund" "Refund" "t0" "t1" "done" "a" ["b"; "a"; "c"] [] _).
  repeat constructor; done.
Defined.
