(* ===== verification/Conversation.v ===== *)
(** * Conversations ([conversation/runtime.py], [contracts.py], [service.py])

    Message acceptance, the human-handoff state machine, the response contract
    and the single turn pipeline. *)

From S2P Require Import Prelude PyValue Prog Table KernelData World KernelStore KernelInv.

(** ** [conversation/runtime.py] *)

Inductive ChannelKind := CHAT | IVR.
#[export] Instance ChannelKind_eq_dec : EqDecision ChannelKind.
Proof. solve_decision. Defined.
Definition channel_value (c : ChannelKind) : string := match c with CHAT => "chat" | IVR => "ivr" end.

Record MessageEnvelope := mkEnvelope {
  me_provider_id : string; me_message_id : string; me_conversation_id : string;
  me_customer_id : string; me_channel : ChannelKind; me_text : string; me_locale : string;
  me_timezone : string; me_sequence : option Z; me_correlation_id : string;
  me_causation_id : option string; me_consent_snapshot : dict value;
  me_capabilities : dict value
}.

(** [envelope.model_dump(mode="json")] *)
Definition envelope_dump (e : MessageEnvelope) : dict value :=
  [ ("provider_id", VStr (me_provider_id e)); ("message_id", VStr (me_message_id e));
    ("conversation_id", VStr (me_conversation_id e)); ("customer_id", VStr (me_customer_id e));
    ("channel", VStr (channel_value (me_channel e))); ("text", VStr (me_text e));
    ("locale", VStr (me_locale e)); ("timezone", VStr (me_timezone e));
    ("sequence", match me_sequence e with Some q => VInt q | None => VNone end);
    ("correlation_id", VStr (me_correlation_id e));
    ("causation_id", match me_causation_id e with Some s => VStr s | None => VNone end);
    ("consent_snapshot", VDict (me_consent_snapshot e));
    ("capabilities", VDict (me_capabilities e)) ].

Inductive HandoffStatus :=
  | H_REQUESTED | H_QUEUED | H_ACCEPTED | H_REJECTED | H_TIMED_OUT | H_FAILED | H_REASSIGNED
  | H_CONNECTED | H_RESOLVED | H_BOT_REENTRY.
#[export] Instance HandoffStatus_eq_dec : EqDecision HandoffStatus.
Proof. solve_decision. Defined.

Definition handoff_value (s : HandoffStatus) : string :=
  match s with
  | H_REQUESTED => "requested" | H_QUEUED => "queued" | H_ACCEPTED => "accepted"
  | H_REJECTED => "rejected" | H_TIMED_OUT => "timed_out" | H_FAILED => "failed"
  | H_REASSIGNED => "reassigned" | H_CONNECTED => "connected" | H_RESOLVED => "resolved"
  | H_BOT_REENTRY => "bot_reentry"
  end.

Definition all_handoffs : list HandoffStatus :=
  [ H_REQUESTED; H_QUEUED; H_ACCEPTED; H_REJECTED; H_TIMED_OUT; H_FAILED; H_REASSIGNED;
    H_CONNECTED; H_RESOLVED; H_BOT_REENTRY ].

(** [HandoffStatus(value)] *)
Definition handoff_of (v : string) : result HandoffStatus :=
  match select_first (λ s, String.eqb (handoff_value s) v) all_handoffs with
  | Some s => inr s
  | None => inl (ValueError ("'" +:+ v +:+ "' is not a valid HandoffStatus"))
  end.

(** The [allowed] table of [transition_handoff]. *)
Definition allowed_handoffs (current : HandoffStatus) : list HandoffStatus :=
  match current with
  | H_REQUESTED => [H_QUEUED; H_ACCEPTED; H_REJECTED; H_FAILED]
  | H_QUEUED => [H_ACCEPTED; H_TIMED_OUT; H_REASSIGNED; H_FAILED]
  | H_REASSIGNED => [H_ACCEPTED; H_TIMED_OUT; H_FAILED]
  | H_ACCEPTED => [H_CONNECTED; H_REASSIGNED; H_FAILED]
  | H_CONNECTED => [H_RESOLVED; H_BOT_REENTRY; H_FAILED]
  | H_RESOLVED => [H_BOT_REENTRY]
  | H_TIMED_OUT => [H_REASSIGNED; H_BOT_REENTRY]
  | H_REJECTED => [H_BOT_REENTRY]
  | H_FAILED => [H_REASSIGNED; H_BOT_REENTRY]
  | H_BOT_REENTRY => []
  end.

Section runtime.
Context `{Oracle} {Ext : Type}.
Abbreviation prog := (prog (World Ext)).

Definition accept (e : MessageEnvelope) : prog bool := accept_message (envelope_dump e).
Definition accept_result (e : MessageEnvelope) : prog acceptance :=
  accept_message_result (envelope_dump e).

Definition request_handoff (conversation_id cid : string) (context : dict value) :
    prog HandoffRow :=
  now ← read_clock;
  hid ← new_uuid "HO-";
  let record := mkHandoff hid conversation_id cid context (handoff_value H_REQUESTED) None now now in
  _ ← create_handoff record;
  mret record.

Definition accept_handoff (hid agent_id : string) : prog HandoffRow :=
  current ← get_handoff hid;
  match current with
  | None => mthrow (KeyError hid)
  | Some current =>
      _ ← require (String.eqb (h_status current) (handoff_value H_REQUESTED))
            (ValueError "Only requested handoffs can be accepted");
      store_transition_handoff hid (handoff_value H_REQUESTED) (handoff_value H_ACCEPTED)
        (Some agent_id)
  end.

Definition transition_handoff (hid : string) (status : HandoffStatus) (agent_id : option string) :
    prog HandoffRow :=
  current ← get_handoff hid;
  match current with
  | None => mthrow (KeyError hid)
  | Some current =>
      current_status ← lift_result (handoff_of (h_status current));
      _ ← require (bool_decide (status ∈ allowed_handoffs current_status))
            (ValueError ("Invalid handoff transition: " +:+ handoff_value current_status
               +:+ " -> " +:+ handoff_value status));
      store_transition_handoff hid (handoff_value current_status) (handoff_value status) agent_id
  end.
End runtime.

(** ** [conversation/contracts.py] *)

Inductive RiskLevel := INFORMATIONAL | CONSEQUENTIAL | REGULATED.
#[export] Instance RiskLevel_eq_dec : EqDecision RiskLevel.
Proof. solve_decision. Defined.

Record ResponseDecision := mkDecision {
  may_stream : bool; may_claim_success : bool; requires_approved_content : bool;
  requires_readback : bool
}.

Definition evaluate_response (channel : ChannelKind) (risk : RiskLevel)
    (authoritative_status : option string) : ResponseDecision :=
  let consequential := bool_decide (risk ∈ [CONSEQUENTIAL; REGULATED]) in
  let succeeded := bool_decide (authoritative_status ∈ [Some "succeeded"; Some "reconciled"]) in
  mkDecision (negb consequential) succeeded (bool_decide (risk = REGULATED))
    (bool_decide (channel = IVR) && consequential).

(** ** [conversation/service.py] *)

Record TurnContext := mkTurnContext {
  tc_actor_id : string; tc_actor_role : string; tc_actor_permissions : list string;
  tc_customer_id : string; tc_owner_id : string; tc_conversation_id : string;
  tc_message_id : string; tc_channel : ChannelKind; tc_locale : string; tc_timezone : string
}.

Record GeneratedTurn := mkGenerated {
  gt_text : string; gt_risk : RiskLevel; gt_authoritative_status : option string;
  gt_action_proposals : list (dict value)
}.

Record TurnResult := mkTurnResult {
  tr_accepted : bool; tr_duplicate : bool; tr_quarantined : bool; tr_acceptance_status : string;
  tr_conversation_id : string; tr_message_id : string; tr_response : option string;
  tr_risk : RiskLevel; tr_authoritative_status : option string; tr_may_stream : bool;
  tr_may_claim_success : bool; tr_requires_approved_content : bool; tr_requires_readback : bool;
  tr_action_proposals : list (dict value)
}.

Section service.
Context `{Oracle} {Ext : Type}.
(** [TurnProcessor]: a protocol, given by the deployment. *)
Context (processor : TurnContext → string → prog (World Ext) GeneratedTurn).
Abbreviation prog := (prog (World Ext)).

Definition process_turn (e : MessageEnvelope) (actor_id actor_role : string)
    (actor_permissions : list string) (owner_id : string) : prog TurnResult :=
  acc ← accept_result e;
  if negb (acc_accepted acc) then
    mret (mkTurnResult false (String.eqb (acc_status acc) "duplicate")
            (String.eqb (acc_status acc) "quarantined") (acc_status acc)
            (me_conversation_id e) (me_message_id e) None INFORMATIONAL None
            false false false false [])
  else
    let context :=
      mkTurnContext actor_id actor_role (sorted_strs actor_permissions) (me_customer_id e)
        owner_id (me_conversation_id e) (me_message_id e) (me_channel e) (me_locale e)
        (me_timezone e) in
    generated ← processor context (me_text e);
    let decision := evaluate_response (me_channel e) (gt_risk generated)
                      (gt_authoritative_status generated) in
    let input_requires_readback :=
      truthy (dget_none "requires_readback" (me_capabilities e)) in
    mret (mkTurnResult true false false "accepted" (me_conversation_id e) (me_message_id e)
            (Some (gt_text generated)) (gt_risk generated) (gt_authoritative_status generated)
            (may_stream decision) (may_claim_success decision)
            (requires_approved_content decision)
            (requires_readback decision || input_requires_readback)
            (gt_action_proposals generated)).
End service.

(** ** Facts *)

(** Every move of the runtime leaves the state it starts from. *)
Lemma allowed_handoffs_move s s' : s' ∈ allowed_handoffs s → handoff_value s' ≠ handoff_value s.
Proof.
  intros Hs. destruct s; cbn in Hs; repeat (apply elem_of_cons in Hs as [->|Hs]; [done|]);
    by apply not_elem_of_nil in Hs.
Qed.

Lemma handoff_of_value s : handoff_of (handoff_value s) = inr s.
Proof. by destruct s. Qed.

Section calm.
Context `{Oracle} {Ext : Type}.

Lemma accept_calm e : steps (@calm Ext) (accept e).
Proof. unfold accept. auto with wf. Qed.
Lemma request_handoff_calm c cid ctx : steps (@calm Ext) (request_handoff c cid ctx).
Proof. unfold request_handoff. step_through. Qed.
Lemma accept_handoff_calm hid a : steps (@calm Ext) (accept_handoff hid a).
Proof. unfold accept_handoff. step_through. Qed.
Lemma transition_handoff_calm hid s a : steps (@calm Ext) (transition_handoff hid s a).
Proof. unfold transition_handoff. step_through. Qed.
End calm.
