(* ===== verification/Gateway.v ===== *)
(** * The action gateway ([core/gateway.py])

    Authorization against the governing policy, dispatch to a provider
    connector, and reconciliation of unknown outcomes.  Connectors, connector
    resolvers and policy resolvers are the protocols of the source: records of
    operations, with what the gateway relies on as a class of laws. *)

From S2P Require Import Prelude PyValue Prog Table ActionSpecs Policy KernelData World KernelStore KernelInv CaseKernel PolicyStore.

Record ConnectorOutcome := mkOutcome { oc_status : ActionStatus; oc_details : dict value }.

Definition outcome_succeeded (details : dict value) : ConnectorOutcome := mkOutcome SUCCEEDED details.
Definition outcome_failed (details : dict value) : ConnectorOutcome := mkOutcome FAILED details.
Definition outcome_unknown (details : dict value) : ConnectorOutcome := mkOutcome UNKNOWN details.

(** [ActionConnector]: provider code, acting on the outside world. *)
Record ActionConnector (Ext : Type) := mkConnector {
  cn_dispatch : ActionCommand → Ext → Ext * result ConnectorOutcome;
  cn_reconcile : ActionCommand → option (dict value) → Ext → Ext * result ConnectorOutcome
}.
Arguments mkConnector {Ext}.
Arguments cn_dispatch {Ext}.
Arguments cn_reconcile {Ext}.

Record ResolvedActionConnector (Ext : Type) := mkResolved {
  rc_action_name : string; rc_binding_id : string; rc_binding_version : string;
  rc_contract_version : string; rc_connector : ActionConnector Ext
}.
Arguments mkResolved {Ext}.
Arguments rc_action_name {Ext}.
Arguments rc_binding_id {Ext}.
Arguments rc_binding_version {Ext}.
Arguments rc_contract_version {Ext}.
Arguments rc_connector {Ext}.

(** The [connectors] argument: a resolver, or a plain mapping. *)
Inductive connectors (Ext : Type) :=
  | Resolver (resolve : string → option string → option string → option string →
                        result (ResolvedActionConnector Ext))
  | Mapping (m : dict (ActionConnector Ext)).
Arguments Resolver {Ext}.
Arguments Mapping {Ext}.

(** [PolicyResolver] *)
Record PolicyResolver (Ext : Type) := mkPolicyResolver {
  pv_require_active : string → prog (World Ext) PolicyPackage;
  pv_require_authorization_snapshot : string → string → prog (World Ext) PolicyPackage
}.
Arguments mkPolicyResolver {Ext}.
Arguments pv_require_active {Ext}.
Arguments pv_require_authorization_snapshot {Ext}.

(** A step that concerns neither the core database nor the outside world. *)
Definition offline {Ext} (w w' : World Ext) : Prop :=
  w_core w' = w_core w ∧ w_trace w' = w_trace w ∧ w_ext w' = w_ext w.

Lemma offline_calm {Ext A} (p : prog (World Ext) A) : steps offline p → steps calm p.
Proof. apply steps_impl. intros w w' (? & ? & _). by apply calm_idle. Qed.

(** What the gateway relies on: resolving a policy commits nothing to the core
    database and calls no provider. *)
Class PolicyResolverLaws {Ext} (pv : PolicyResolver Ext) := {
  pv_active_offline i : steps offline (pv_require_active pv i);
  pv_snapshot_offline i s : steps offline (pv_require_authorization_snapshot pv i s)
}.

Record ActionGateway (Ext : Type) := mkGateway {
  gw_connectors : connectors Ext;
  (** whether a [PolicyRegistry] was given, and the resolver if one was *)
  gw_policy_registry : bool;
  gw_policy_resolver : option (PolicyResolver Ext)
}.
Arguments mkGateway {Ext}.
Arguments gw_connectors {Ext}.
Arguments gw_policy_registry {Ext}.
Arguments gw_policy_resolver {Ext}.

(** [command.model_copy(update=...)] *)
Definition with_binding (binding_id binding_version contract_version : string)
    (c : ActionCommand) : ActionCommand :=
  mkCommand (c_action c) (c_case_id c) (c_policy_package_id c) (c_actor_id c)
    (c_idempotency_key c) (c_parameters c) (c_parameter_fact_refs c)
    (c_required_fact_authority c) (c_consent_evidence_ref c) (c_approval_evidence_ref c)
    (c_policy_activation_signature c) (Some binding_id) (Some binding_version)
    (Some contract_version).

Definition with_policy_signature (sig : option string) (c : ActionCommand) : ActionCommand :=
  mkCommand (c_action c) (c_case_id c) (c_policy_package_id c) (c_actor_id c)
    (c_idempotency_key c) (c_parameters c) (c_parameter_fact_refs c)
    (c_required_fact_authority c) (c_consent_evidence_ref c) (c_approval_evidence_ref c)
    sig (c_connector_binding_id c) (c_connector_binding_version c) (c_contract_version c).

Section gateway.
Context `{Hmac} (sg : PolicySigner) `{Oracle} {Ext : Type} (gw : ActionGateway Ext).
Abbreviation prog := (prog (World Ext)).

Definition _resolve_connector (command : ActionCommand) (use_pinned_binding : bool) :
    result (ResolvedActionConnector Ext) :=
  let pinned (x : option string) := if use_pinned_binding then x else None in
  match gw_connectors gw with
  | Resolver resolve =>
      resolve (c_action command) (pinned (c_connector_binding_id command))
        (pinned (c_connector_binding_version command)) (pinned (c_contract_version command))
  | Mapping m =>
      match dget (c_action command) m with
      | None => inl (ValueError ("Unknown action connector: " +:+ c_action command))
      | Some connector => inr (mkResolved (c_action command) "legacy" "1" "1" connector)
      end
  end.

(** A read of the in-process registry. *)
Definition registry_read {A} (f : PolicyRegistry → result A) : prog A :=
  atomically (λ w, (w, f (w_registry w))).

Definition governed : bool :=
  gw_policy_registry gw || match gw_policy_resolver gw with Some _ => true | None => false end.

(** The package under which a new action is authorized. *)
Definition active_package (package_id : string) : prog PolicyPackage :=
  match gw_policy_resolver gw with
  | Some pv => pv_require_active pv package_id
  | None => registry_read (registry_require_active package_id)
  end.

Definition snapshot_package (package_id sig : string) : prog PolicyPackage :=
  match gw_policy_resolver gw with
  | Some pv => pv_require_authorization_snapshot pv package_id sig
  | None => registry_read (registry_require_authorization_snapshot sg package_id sig)
  end.

(** [allowed is not None and action not in allowed] is an error. *)
Definition check_allowed (package : PolicyPackage) (action : string) : result unit :=
  match dget_none "allowed_actions" (pk_rules package) with
  | VNone => inr tt
  | allowed =>
      match py_in action allowed with
      | inl e => inl e
      | inr true => inr tt
      | inr false => inl (ValueError ("Policy package " +:+ pk_package_id package
                                        +:+ " does not allow " +:+ action))
      end
  end.

Definition authorize (command : ActionCommand) (expected_version : Z) : prog ActionRecord :=
  resolved ← lift_result (_resolve_connector command false);
  let command := with_binding (rc_binding_id resolved) (rc_binding_version resolved)
                   (rc_contract_version resolved) command in
  if negb governed then authorize_action command expected_version
  else
    package ← active_package (c_policy_package_id command);
    case ← get_case (c_case_id command);
    match case with
    | None => mthrow (ValueError ("Action case does not exist: " +:+ c_case_id command))
    | Some case =>
        _ ← require (String.eqb (pk_procedure_id package) (case_procedure_id case))
              (ValueError "Policy package procedure does not match the action case procedure");
        _ ← lift_result (check_allowed package (c_action command));
        authorize_action (with_policy_signature (pk_activation_signature package) command)
          expected_version
    end.

(** The policy check of [dispatch]. *)
Definition dispatch_policy (action : ActionRecord) : prog unit :=
  if negb governed then mret tt
  else
    package ←
      match c_policy_activation_signature (a_command action) with
      | Some sig =>
          if String.eqb sig "" then active_package (c_policy_package_id (a_command action))
          else snapshot_package (c_policy_package_id (a_command action)) sig
      | None => active_package (c_policy_package_id (a_command action))
      end;
    lift_result (check_allowed package (c_action (a_command action))).

(** The call of a provider: outside the engine's control, and logged. *)
Definition provider_dispatch (cn : ActionConnector Ext) (c : ActionCommand) : prog ConnectorOutcome :=
  atomically (λ w,
    let r := cn_dispatch cn c (w_ext w) in (log_effect (EffDispatch c) r.1 w, r.2)).

Definition provider_reconcile (cn : ActionConnector Ext) (c : ActionCommand)
    (prior : option (dict value)) : prog ConnectorOutcome :=
  atomically (λ w,
    let r := cn_reconcile cn c prior (w_ext w) in (log_effect (EffReconcile c) r.1 w, r.2)).

Definition dispatch (action : ActionRecord) : prog ActionRecord :=
  if negb (bool_decide (a_status action = AUTHORIZED)) then mret action
  else
    _ ← dispatch_policy action;
    resolved ← lift_result (_resolve_connector (a_command action) true);
    r ← claim_action (a_action_id action);
    let '(claimed_action, claimed) := r in
    if negb claimed then mret claimed_action
    else
      outcome ← try_except (provider_dispatch (rc_connector resolved) (a_command action))
        (λ exc, mret (outcome_unknown
           [("reason", VStr "connector_exception"); ("error_type", VStr (exn_name exc))]));
      record_outcome (a_action_id action) (oc_status outcome) (Some (oc_details outcome)).

Definition outcome_value (o : option (dict value)) : value :=
  match o with Some d => VDict d | None => VNone end.

Definition reconcile (action : ActionRecord) : prog ActionRecord :=
  action ←
    (if bool_decide (a_status action = DISPATCHED) then
       record_outcome (a_action_id action) UNKNOWN
         (Some [("reason", VStr "dispatch_lease_expired_before_outcome_recorded");
                ("prior", outcome_value (a_outcome action))])
     else mret action);
  if negb (bool_decide (a_status action = UNKNOWN)) then mret action
  else
    resolved ← lift_result (_resolve_connector (a_command action) true);
    outcome ← provider_reconcile (rc_connector resolved) (a_command action) (a_outcome action);
    record_outcome (a_action_id action)
      (if bool_decide (oc_status outcome = SUCCEEDED) then RECONCILED else oc_status outcome)
      (Some (oc_details outcome)).
End gateway.

(** [PolicyService] is a policy resolver. *)
Section service_resolver.
Context `{Hmac} (sg : PolicySigner) {Ext : Type}.

Definition policy_service_resolver : PolicyResolver Ext :=
  mkPolicyResolver (service_require_active sg) (service_require_authorization_snapshot sg).

Lemma offline_policy_commit {A} (op : list policy_row → result (A * list policy_row)) :
  steps (@offline Ext) (policy_commit op).
Proof. apply steps_atomically. intros w. by destruct (op _) as [e|[a t]]. Qed.

Lemma offline_registry_call f : steps (@offline Ext) (registry_call f).
Proof. apply steps_atomically. intros w. by destruct (f _). Qed.

Hint Resolve offline_policy_commit offline_registry_call : wf.

#[export] Instance policy_service_laws : PolicyResolverLaws policy_service_resolver.
Proof.
  split; [intros i|intros i s]; cbn [pv_require_active pv_require_authorization_snapshot
    policy_service_resolver];
    unfold service_require_active, service_require_authorization_snapshot, _require, repo_get;
    step_through.
Qed.
End service_resolver.
