(* ===== verification/Outside.v ===== *)
(** * What the outside world has applied

    The engine reaches providers only through its connectors and its resource
    provider.  What it may rely on is stated here once, over any outside world
    in which it makes sense to say that an idempotency key [k] has been applied:
    connectors report a success only of a key that is applied, and nothing the
    engine calls takes an applied key back.  A step is steady when it keeps to
    that without declaring any action successful. *)

From S2P Require Import Prelude PyValue Prog RelyGuarantee Table ActionSpecs Policy KernelData World KernelStore KernelInv CaseKernel PolicyStore Gateway Conversation.

Class Outside (Ext : Type) := applied : string → Ext → Prop.

(** The statuses that tell a customer the action took place. *)
Definition successful (s : ActionStatus) : Prop := s = SUCCEEDED ∨ s = RECONCILED.

Section outside.
Context {Ext : Type} `{Outside Ext}.
Abbreviation World := (World Ext).

(** Nothing applied is taken back. *)
Definition keeps_applied (x x' : Ext) : Prop := ∀ k, applied k x → applied k x'.

#[export] Instance keeps_applied_preorder : PreOrder keeps_applied.
Proof. split; [by intros x k|]. intros x1 x2 x3 H1 H2 k ?. by apply H2, H1. Qed.

(** An honest connector: it reports a success only when the key is applied. *)
Class ConnectorLaws (cn : ActionConnector Ext) := {
  dispatch_applied c x :
    keeps_applied x (cn_dispatch cn c x).1 ∧
    ∀ o, (cn_dispatch cn c x).2 = inr o → successful (oc_status o) →
      applied (c_idempotency_key c) (cn_dispatch cn c x).1;
  reconcile_applied c prior x :
    keeps_applied x (cn_reconcile cn c prior x).1 ∧
    ∀ o, (cn_reconcile cn c prior x).2 = inr o → successful (oc_status o) →
      applied (c_idempotency_key c) (cn_reconcile cn c prior x).1
}.

(** Every connector the gateway can resolve is honest. *)
Class GatewayLaws (gw : ActionGateway Ext) :=
  resolved_laws c pinned rc : _resolve_connector gw c pinned = inr rc → ConnectorLaws (rc_connector rc).

(** No action becomes successful. *)
Definition no_success (d d' : core_db) : Prop :=
  ∀ a', a' ∈ t_actions d' → successful (a_status a') →
    ∃ a, a ∈ t_actions d ∧ successful (a_status a) ∧ action_idem a = action_idem a'.

#[export] Instance no_success_preorder : PreOrder no_success.
Proof.
  split; [by intros d a ??; exists a|]. intros d1 d2 d3 H12 H23 a3 Ha3 Hs3.
  destruct (H23 a3 Ha3 Hs3) as (a2 & Ha2 & Hs2 & <-). by apply H12.
Qed.

Lemma no_success_same d d' : t_actions d' = t_actions d → no_success d d'.
Proof. intros He a Ha Hs. exists a. by rewrite <- He. Qed.

Definition steady (w w' : World) : Prop :=
  no_success (w_core w) (w_core w') ∧ keeps_applied (w_ext w) (w_ext w').

#[export] Instance steady_preorder : PreOrder steady.
Proof.
  split; [by intros w; split|]. intros w1 w2 w3 [??] [??]. split; by etrans.
Qed.

(** Every successful action of the store is applied. *)
Definition backed_db (w : World) : Prop :=
  ∀ a, a ∈ t_actions (w_core w) → successful (a_status a) → applied (action_idem a) (w_ext w).

Lemma steady_backed w w' : steady w w' → backed_db w → backed_db w'.
Proof.
  intros [Hno Hk] Hb a' Ha' Hs'. destruct (Hno a' Ha' Hs') as (a & Ha & Hs & <-). by apply Hk, Hb.
Qed.

Lemma steady_same (w w' : World) :
  w_core w' = w_core w → w_ext w' = w_ext w → steady w w'.
Proof. intros Hc Hx. unfold steady. rewrite Hc, Hx. by split. Qed.

Lemma offline_steady {A} (p : prog World A) : steps offline p → steps steady p.
Proof. apply steps_impl. intros w w' (? & _ & ?). by apply steady_same. Qed.

(** A step that is calm and steady: the steps between the claims and the
    outcomes of actions. *)
Definition still (w w' : World) : Prop := calm w w' ∧ steady w w'.

Lemma still_steps {A} (p : prog World A) : steps calm p → steps steady p → steps still p.
Proof.
  induction p as [r|f k IH]; [done|]. intros Hc Hs w.
  destruct (Hc w), (Hs w). split; [by split|auto].
Qed.

(** ** Transactions *)
Lemma steady_commit {A} (t : tx A) : tx_preserves no_success t → steps steady (commit t).
Proof.
  intros Ht. apply steps_atomically. intros w.
  destruct (t (w_core w) (w_sys w)) as [s [e|[a d]]] eqn:E; cbn; [by split|].
  split; [|done]. by eapply Ht.
Qed.
End outside.

#[export] Hint Resolve still_steps steady_commit : wf.

(** Statements on the tables beside the actions. *)
Ltac quiet_tx :=
  repeat first
    [ match goal with |- ∀ _, _ => intro end
    | solve [auto with wf typeclass_instances]
    | match goal with
      | |- no_success _ _ => by apply no_success_same
      | |- tx_preserves _ (mbind _ _) => apply tx_preserves_bind
      | |- tx_preserves _ (tx_for _ _) => apply tx_preserves_for
      | |- tx_preserves _ (sql_insert _ _ _ _) => apply tx_preserves_insert
      | |- tx_preserves _ (sql_update _ _ _) => apply tx_preserves_update
      | |- tx_preserves _ (sql_upsert _ _ _ _) => apply tx_preserves_upsert
      | |- tx_preserves _ (match ?x with _ => _ end) => destruct x eqn:?
      end ].

Ltac steady_through :=
  step_through; try (apply steady_commit; unfold set_action_status; quiet_tx).

Section programs.
Context `{Oracle} {Ext : Type} `{Outside Ext}.
Abbreviation is_steady := (steps (@steady Ext _)).

(** ** The statements on actions *)
Lemma insert_unsuccessful r (d : core_db) :
  ¬ successful (a_status r) →
  no_success d (tbl_set action_attempts (tbl_get action_attempts d ++ [r]) d).
Proof.
  intros Hr a [Ha|Ha%list_elem_of_singleton]%elem_of_app Hs; [by exists a|by subst].
Qed.

Lemma update_unsuccessful p f (d : core_db) :
  (∀ r, p r = true → ¬ successful (a_status (f r))) →
  no_success d (tbl_set action_attempts (update_where p f (tbl_get action_attempts d)) d).
Proof.
  intros Hf a (r & Hr & ->)%elem_of_update_where Hs. destruct (p r) eqn:Hp; [|by exists r].
  by apply Hf in Hp.
Qed.

Lemma insert_event_quiet aid st details t : tx_preserves no_success (insert_event aid st details t).
Proof. unfold insert_event. quiet_tx. Qed.
Hint Resolve insert_event_quiet : wf.

Lemma insert_action_quiet r v :
  a_status r = AUTHORIZED → tx_preserves no_success (insert_action_tx r v).
Proof.
  intros Hr. unfold insert_action_tx. quiet_tx. apply insert_unsuccessful. cbn. rewrite Hr.
  by intros [[=]|[=]].
Qed.

Lemma transition_quiet aid s s' out :
  ¬ successful s' → tx_preserves no_success (transition_action_tx aid s s' out).
Proof. intros Hs. unfold transition_action_tx. quiet_tx. by apply update_unsuccessful. Qed.

Lemma claim_quiet aid : tx_preserves no_success (claim_action_tx aid).
Proof.
  unfold claim_action_tx. quiet_tx. apply update_unsuccessful. intros r _.
  by intros [[=]|[=]].
Qed.

Lemma initialize_quiet : tx_preserves no_success initialize_tx.
Proof. unfold initialize_tx. quiet_tx. Qed.
Lemma accept_message_quiet e : tx_preserves no_success (accept_message_tx e).
Proof. unfold accept_message_tx. quiet_tx. Qed.
Hint Resolve insert_action_quiet transition_quiet claim_quiet initialize_quiet
  accept_message_quiet : wf.

(** ** The store and the kernel *)
Lemma select_steady {R} (t : table R) q : is_steady (commit (sql_select t q)).
Proof. apply steady_commit. quiet_tx. Qed.
Lemma query_steady {R} (t : table R) p : is_steady (query t p).
Proof. apply steady_commit. quiet_tx. Qed.
Lemma read_clock_steady : is_steady read_clock.
Proof. apply steps_atomically. intros w. by apply steady_same. Qed.
Lemma new_uuid_steady prefix : is_steady (new_uuid prefix).
Proof. apply steps_atomically. intros w. by apply steady_same. Qed.
Hint Resolve select_steady query_steady read_clock_steady new_uuid_steady : wf.

Lemma initialize_steady : is_steady initialize.
Proof. unfold initialize. auto with wf. Qed.
Lemma get_case_steady cid : is_steady (get_case cid).
Proof. unfold get_case. steady_through. Qed.
Hint Resolve get_case_steady : wf.
Lemma create_case_steady cid c p v : is_steady (create_case cid c p v).
Proof. unfold create_case, store_create_case, create_case_tx. steady_through. Qed.
Lemma commit_fact_steady cid p v : is_steady (commit_fact cid p v).
Proof. unfold commit_fact, append_fact, append_fact_tx. steady_through. Qed.
Lemma get_fact_steady cid n : is_steady (get_fact cid n).
Proof. unfold get_fact. auto with wf. Qed.
Lemma get_action_by_key_steady k : is_steady (get_action_by_key k).
Proof. unfold get_action_by_key. auto with wf. Qed.
Lemma get_action_steady aid : is_steady (get_action aid).
Proof. unfold get_action. auto with wf. Qed.
Hint Resolve get_fact_steady get_action_by_key_steady get_action_steady : wf.
Lemma list_actions_steady s l : is_steady (list_actions s l).
Proof. unfold list_actions. auto with wf. Qed.
Lemma fetch_action_steady aid e : is_steady (fetch_action aid e).
Proof. unfold fetch_action. steady_through. Qed.
Hint Resolve fetch_action_steady : wf.
Lemma insert_action_steady r v : a_status r = AUTHORIZED → is_steady (insert_action r v).
Proof. intros. unfold insert_action. steady_through. Qed.
Lemma check_facts_steady c : is_steady (check_facts c).
Proof. unfold check_facts. steady_through. Qed.
Hint Resolve insert_action_steady check_facts_steady : wf.
Lemma authorize_action_steady c v : is_steady (authorize_action c v).
Proof. unfold authorize_action. steady_through. Qed.
Lemma claim_action_steady aid : is_steady (claim_action aid).
Proof. unfold claim_action. steady_through. Qed.
(** An outcome that is not a success. *)
Lemma record_failure_steady aid s o : ¬ successful s → is_steady (record_outcome aid s o).
Proof. intros. unfold record_outcome, transition_action. steady_through. Qed.

Lemma get_action_proposal_steady pid : is_steady (get_action_proposal pid).
Proof. unfold get_action_proposal. auto with wf. Qed.
Hint Resolve get_action_proposal_steady : wf.
Lemma create_action_proposal_steady r : is_steady (create_action_proposal r).
Proof. unfold create_action_proposal. steady_through. Qed.
Lemma list_action_proposals_steady c v s l : is_steady (list_action_proposals c v s l).
Proof. unfold list_action_proposals. auto with wf. Qed.
Lemma transition_action_proposal_steady pid s s' ev aid :
  is_steady (transition_action_proposal pid s s' ev aid).
Proof. unfold transition_action_proposal. steady_through. Qed.
Lemma enqueue_outbox_steady t a p : is_steady (enqueue_outbox t a p).
Proof. unfold enqueue_outbox. steady_through. Qed.
Lemma claim_outbox_steady o s l : is_steady (claim_outbox o s l).
Proof. unfold claim_outbox, claim_outbox_tx. steady_through. Qed.
Lemma complete_outbox_steady oid : is_steady (complete_outbox oid).
Proof. unfold complete_outbox, _update_outbox. steady_through. Qed.
Lemma fail_outbox_steady oid e t q : is_steady (fail_outbox oid e t q).
Proof. unfold fail_outbox, _update_outbox. steady_through. Qed.

(** ** The conversation runtime *)
Lemma accept_result_steady e : is_steady (accept_result e).
Proof. unfold accept_result, accept_message_result. steady_through. Qed.
Hint Resolve accept_result_steady : wf.
Lemma accept_steady e : is_steady (accept e).
Proof. unfold accept, accept_message, accept_message_result. steady_through. Qed.
Lemma get_handoff_steady hid : is_steady (get_handoff hid).
Proof. unfold get_handoff. auto with wf. Qed.
Hint Resolve get_handoff_steady : wf.
Lemma store_transition_handoff_steady hid s s' a :
  is_steady (store_transition_handoff hid s s' a).
Proof. unfold store_transition_handoff. steady_through. Qed.
Hint Resolve store_transition_handoff_steady : wf.
Lemma request_handoff_steady c cid ctx : is_steady (request_handoff c cid ctx).
Proof. unfold request_handoff, create_handoff. steady_through. Qed.
Lemma accept_handoff_steady hid a : is_steady (accept_handoff hid a).
Proof. unfold accept_handoff. steady_through. Qed.
Lemma transition_handoff_steady hid s a : is_steady (transition_handoff hid s a).
Proof. unfold transition_handoff. steady_through. Qed.
End programs.

#[export] Hint Resolve insert_action_quiet transition_quiet claim_quiet select_steady query_steady read_clock_steady new_uuid_steady
  initialize_steady get_case_steady create_case_steady commit_fact_steady get_fact_steady
  get_action_by_key_steady get_action_steady list_actions_steady fetch_action_steady
  insert_action_steady check_facts_steady authorize_action_steady claim_action_steady record_failure_steady
  get_action_proposal_steady create_action_proposal_steady list_action_proposals_steady
  transition_action_proposal_steady enqueue_outbox_steady claim_outbox_steady
  complete_outbox_steady fail_outbox_steady accept_result_steady accept_steady
  get_handoff_steady request_handoff_steady accept_handoff_steady
  transition_handoff_steady : wf.

(** ** The gateway *)
Section gateway.
Context `{Hmac} (sg : PolicySigner) `{Oracle} {Ext : Type} `{Outside Ext} (gw : ActionGateway Ext).
(** The policy resolver of the gateway, when there is one, keeps its laws. *)
Context (Hpv : ∀ pv, gw_policy_resolver gw = Some pv → PolicyResolverLaws pv).

Lemma registry_read_offline {A} (f : PolicyRegistry → result A) :
  steps (@offline Ext) (registry_read f).
Proof. apply steps_atomically. by intros w. Qed.
Hint Resolve registry_read_offline : wf.

Lemma active_package_offline i : steps (@offline Ext) (active_package gw i).
Proof.
  unfold active_package. destruct (gw_policy_resolver gw) as [pv|] eqn:E; [|auto with wf].
  apply (Hpv pv eq_refl).
Qed.

Lemma snapshot_package_offline i s : steps (@offline Ext) (snapshot_package sg gw i s).
Proof.
  unfold snapshot_package. destruct (gw_policy_resolver gw) as [pv|] eqn:E; [|auto with wf].
  apply (Hpv pv eq_refl).
Qed.
Hint Resolve active_package_offline snapshot_package_offline : wf.

Lemma dispatch_policy_offline a : steps (@offline Ext) (dispatch_policy sg gw a).
Proof. unfold dispatch_policy. step_through. Qed.

Lemma active_package_steady i : steps steady (active_package gw i).
Proof. apply offline_steady. auto with wf. Qed.
Hint Resolve active_package_steady : wf.

Lemma authorize_steady c v : steps steady (authorize gw c v).
Proof. unfold authorize. step_through. Qed.
End gateway.
