(* ===== verification/AtMostOnce.v ===== *)
(** * At most one provider dispatch per idempotency key, and honest successes

    The argument: a coroutine may call the provider for an action only after its
    own claim moved the action from authorized to dispatched; the ghost state of
    a coroutine is the list of keys it has claimed and not yet dispatched.  And a
    coroutine declares an action successful only after an honest connector told
    it so: in the outside world the key of the action is applied. *)

From S2P Require Import Prelude PyValue Prog RelyGuarantee Table ActionSpecs Policy KernelData World KernelStore KernelInv CaseKernel KernelRaces PolicyStore Gateway Outside.

(** The keys dispatched so far, in order. *)
Fixpoint dispatched_keys (l : list effect) : list string :=
  match l with
  | [] => []
  | EffDispatch c :: l' => c_idempotency_key c :: dispatched_keys l'
  | EffReconcile _ :: l' => dispatched_keys l'
  end.

Lemma dispatched_keys_app l l' : dispatched_keys (l ++ l') = dispatched_keys l ++ dispatched_keys l'.
Proof. induction l as [|[c|c] l IH]; cbn; [done|by rewrite IH|done]. Qed.

(** The action has left the authorized state for good. *)
Definition past (s : ActionStatus) : Prop := s ∉ [REQUESTED; AUTHORIZED].

Lemma past_stays s s' : rtc edge s s' → past s → past s'.
Proof.
  induction 1 as [|s1 s2 s3 Hedge _ IH]; [done|]. intros Hp. apply IH.
  destruct Hedge as [[-> _]|[[-> _]|He]].
  - destruct Hp. by left.
  - destruct Hp. right. by left.
  - intros Hs2. assert (s2 = REQUESTED ∨ s2 = AUTHORIZED) as Hor.
    { apply elem_of_cons in Hs2 as [?|?%list_elem_of_singleton]; auto. }
    destruct s1; cbn in He;
      repeat (apply elem_of_cons in He as [->|He]; [by destruct Hor|]);
      by apply not_elem_of_nil in He.
Qed.

(** The action with key [k] has been claimed. *)
Definition claimed_key (k : string) (d : core_db) : Prop :=
  ∃ a, tget action_idem k (t_actions d) = Some a ∧ past (a_status a).

(** Actions keep their key. *)
Lemma evolves_idem k d d' a :
  db_inv d → db_inv d' → evolves d d' → tget action_idem k (t_actions d) = Some a →
  ∃ a', tget action_idem k (t_actions d') = Some a' ∧ action_rel a a'.
Proof.
  intros Hd Hd' Hev Ha. apply tget_key in Ha as [Hk Hin].
  destruct (ev_actions d d' Hev (a_action_id a) a) as (a' & Ha' & Hrel).
  { apply tget_elem; [apply Hd|done]. }
  exists a'. split; [|done]. apply tget_key in Ha' as [_ Hin'].
  replace k with (action_idem a').
  - apply tget_elem; [apply Hd'|done].
  - rewrite <- Hk. unfold action_idem. by destruct Hrel as (-> & _).
Qed.

Lemma claimed_stays k d d' :
  db_inv d → db_inv d' → evolves d d' → claimed_key k d → claimed_key k d'.
Proof.
  intros Hd Hd' Hev (a & Ha & Hp). destruct (evolves_idem k d d' a) as (a' & ? & _ & _ & Hr); try done.
  exists a'. split; [done|]. by eapply past_stays.
Qed.

(** An action record that came from the store: the row is still there, with
    the same command. *)
Definition stored (a : ActionRecord) (d : core_db) : Prop :=
  ∃ a', tget a_action_id (a_action_id a) (t_actions d) = Some a' ∧ a_command a' = a_command a.

Lemma stored_stays a d d' : evolves d d' → stored a d → stored a d'.
Proof.
  intros Hev (a' & Ha & Hc). destruct (ev_actions d d' Hev _ _ Ha) as (a2 & ? & Hc2 & _).
  exists a2. split; [done|congruence].
Qed.

Section tokens.
Context `{Oracle} {Ext : Type} `{Outside Ext}.
Abbreviation World := (World Ext).

(** The invariant and the rely of the pool. *)
Definition sound (w : World) : Prop := inv_w w ∧ backed_db w.
Definition moves (w w' : World) : Prop := evolves_w w w' ∧ keeps_applied (w_ext w) (w_ext w').

#[export] Instance moves_preorder : PreOrder moves.
Proof. split; [by intros w; split|]. intros w1 w2 w3 [??] [??]. split; by etrans. Qed.

(** What one step may do with the claims of its coroutine. *)
Inductive token_step (g : list string) (w : World) : list string → World → Prop :=
  | token_calm w' : w_trace w' = w_trace w → token_step g w g w'
  | token_claim w' k a :
      w_trace w' = w_trace w →
      tget action_idem k (t_actions (w_core w)) = Some a → a_status a = AUTHORIZED →
      claimed_key k (w_core w') → token_step g w (k :: g) w'
  | token_dispatch w' c g' :
      g = c_idempotency_key c :: g' → w_trace w' = w_trace w ++ [EffDispatch c] →
      token_step g w g' w'
  | token_reconcile w' c :
      w_trace w' = w_trace w ++ [EffReconcile c] → token_step g w g w'.

Definition token_guar (g : list string) (w : World) (g' : list string) (w' : World) : Prop :=
  sound w → sound w' ∧ moves w w' ∧ token_step g w g' w'.

#[export] Instance token_laws : GuaranteeLaws sound moves token_guar.
Proof. split; intros g w g' w' Hg Hw; by apply Hg. Qed.

Lemma still_token g (w w' : World) : still w w' → token_guar g w g w'.
Proof.
  intros [[Hg Ht] Hs] [Hw Hb]. destruct (Hg Hw) as [Hw' Hev].
  split; [split; [done|by eapply steady_backed]|]. split; [by destruct Hs|by constructor].
Qed.

Lemma token_same g (w w' : World) :
  w_core w' = w_core w → w_trace w' = w_trace w → w_ext w' = w_ext w → token_guar g w g w'.
Proof. intros. apply still_token. split; [by apply calm_idle|by apply steady_same]. Qed.

Lemma still_tx {A} (t : tx A) (w : World) s a d :
  tx_preserves good t → tx_preserves no_success t →
  t (w_core w) (w_sys w) = (s, inr (a, d)) → still w (set_core d s w).
Proof.
  intros Hg Hn Ht. split; (split; [|done]); cbn; [by eapply Hg|by eapply Hn].
Qed.

Abbreviation triple := (rg sound moves token_guar).

(** ** The pool invariant *)

Definition tokens_inv (w : World) (gs : list (list string)) : Prop :=
  NoDup (concat gs ++ dispatched_keys (w_trace w)) ∧
  ∀ k, k ∈ concat gs ++ dispatched_keys (w_trace w) → claimed_key k (w_core w).

Lemma concat_insert {A} (gs : list (list A)) i g :
  gs !! i = Some g →
  ∃ l, concat gs ≡ₚ g ++ l ∧ ∀ g', concat (<[i := g']> gs) ≡ₚ g' ++ l.
Proof.
  intros Hi. exists (concat (take i gs ++ drop (S i) gs)). split.
  - rewrite <- (take_drop_middle gs i g Hi) at 1. rewrite !concat_app. cbn.
    by rewrite Permutation_app_swap_app.
  - intros g'. rewrite insert_take_drop by (by eapply lookup_lt_Some).
    rewrite !concat_app. cbn. by rewrite Permutation_app_swap_app.
Qed.

Lemma tokens_inv_step w gs i g g' w' :
  sound w → tokens_inv w gs → gs !! i = Some g → token_guar g w g' w' →
  tokens_inv w' (<[i := g']> gs).
Proof.
  intros Hsw [Hnd Hcl] Hi Hg. destruct (Hg Hsw) as ([Hw' _] & [Hev _] & Hstep).
  destruct Hsw as [Hw _].
  assert (∀ k, claimed_key k (w_core w) → claimed_key k (w_core w')) as Hmono
    by (intros k; by apply claimed_stays).
  destruct (concat_insert gs i g Hi) as (l & Hl & Hl'). unfold tokens_inv.
  destruct Hstep as [w' Ht|w' k a Ht Ha Hs Hck|w' c g' -> Ht|w' c Ht].
  - rewrite list_insert_id by done. rewrite Ht. split; [done|auto].
  - assert (k ∉ concat gs ++ dispatched_keys (w_trace w)) as Hk.
    { intros (a' & Ha' & Hp)%Hcl. rewrite Ha in Ha'. injection Ha' as <-.
      rewrite Hs in Hp. apply Hp. right. by left. }
    assert (concat (<[i:=k :: g]> gs) ≡ₚ k :: concat gs) as Hp by by rewrite Hl', Hl.
    rewrite Ht. setoid_rewrite Hp. cbn. split; [by apply NoDup_cons|].
    intros k' [->|Hin]%elem_of_cons; [done|auto].
  - assert (concat (<[i:=g']> gs) ++ dispatched_keys (w_trace w') ≡ₚ
            concat gs ++ dispatched_keys (w_trace w)) as Hp.
    { rewrite Ht, dispatched_keys_app, Hl', Hl. cbn.
      by rewrite Permutation_app_comm, <- app_assoc; cbn; rewrite <- Permutation_middle,
        Permutation_app_comm. }
    setoid_rewrite Hp. split; [done|auto].
  - rewrite list_insert_id by done. rewrite Ht, dispatched_keys_app. cbn. rewrite app_nil_r.
    split; [done|auto].
Qed.

(** ** Programs *)

(** A program that never calls a provider on a claim it does not hold. *)
Definition token_safe {A} (p : prog World A) : Prop :=
  ∀ w g, triple w g p (λ _ _ _, True).

Lemma token_safe_still {A} (p : prog World A) : steps still p → token_safe p.
Proof.
  intros Hp w g. eapply rg_conseq; [done|].
  by apply (rg_frame sound moves token_guar still); [intros; by apply still_token|].
Qed.

Lemma token_safe_bind {A B} (p : prog World A) (k : A → prog World B) :
  token_safe p → (∀ a, token_safe (k a)) → token_safe (p ≫= k).
Proof.
  intros Hp Hk w g. eapply rg_bind; [apply Hp|intros w' g' a _; apply Hk|done].
Qed.

Lemma token_safe_try {A} (p : prog World A) h :
  token_safe p → (∀ e, token_safe (h e)) → token_safe (try_except p h).
Proof.
  intros Hp Hh w g. eapply rg_try; [apply Hp|done|intros w' g' e _; apply Hh].
Qed.

Lemma token_safe_for_each {A S} (l : list A) (acc : S) body :
  (∀ acc x, token_safe (body acc x)) → token_safe (for_each l acc body).
Proof.
  intros Hb. revert acc; induction l as [|x l IH]; intros acc.
  - by intros w g.
  - cbn [for_each]. apply token_safe_bind; auto.
Qed.

Lemma token_safe_require {A} b e (k : unit → prog World A) :
  (b = true → token_safe (k tt)) → token_safe (require b e ≫= k).
Proof. intros Hk w g. destruct b; cbn; [by apply Hk|done]. Qed.

(** Reading an action gives one that is stored. *)
Lemma rg_query_action p (w0 : World) g :
  triple w0 g (query action_attempts p)
    (λ w g' r, g' = g ∧ moves w0 w ∧
       match r with inr (Some a) => stored a (w_core w) | _ => True end).
Proof.
  cbn. intros w [Hw Hb] Hm. rewrite set_core_id. exists g. split; [by apply token_same|].
  split_and!; [done|done|]. destruct (select_one p (t_actions (w_core w))) as [a|] eqn:E; [|done].
  exists a. split; [|done]. apply select_one_Some in E as [Hin _].
  apply tget_elem; [apply Hw|done].
Qed.

Lemma token_query_action {B} p (k : option ActionRecord → prog World B) :
  (∀ w g a, stored a (w_core w) → triple w g (k (Some a)) (λ _ _ _, True)) →
  token_safe (k None) → token_safe (query action_attempts p ≫= k).
Proof.
  intros Ha Hn w0 g. eapply rg_bind; [apply rg_query_action| |done].
  intros w g' [a|] (_ & _ & Hst); [by apply Ha|apply Hn].
Qed.

(** A list of actions read from the store. *)
Lemma rg_list_actions st lim (w0 : World) g :
  triple w0 g (list_actions st lim)
    (λ w g' r, match r with inr l => ∀ a, a ∈ l → stored a (w_core w) | _ => True end).
Proof.
  unfold list_actions. cbn. intros w Hw Hm. rewrite set_core_id. exists g.
  split; [by apply token_same|]. intros a Ha%elem_of_limit%elem_of_order_by.
  exists a. split; [|done]. apply tget_elem; [apply Hw|].
  destruct st; [by apply elem_of_select_where in Ha as [? _]|done].
Qed.

(** Calm steps in front of a program keep its claims. *)
Lemma rg_still_then {A B} w0 g (p : prog World A) (k : A → prog World B) Q :
  steps still p → (∀ w a, moves w0 w → triple w g (k a) Q) → (∀ w e, Q w g (inl e)) →
  triple w0 g (p ≫= k) Q.
Proof.
  intros Hp Hk He.
  eapply rg_bind.
  - by apply (rg_frame sound moves token_guar still); [intros; by apply still_token|].
  - intros w g' a [-> Hm]. by apply Hk.
  - intros w g' e [-> _]. apply He.
Qed.

(** The action an authorization returns is in the store. *)
Definition stored_post (w : World) (_ : list string) (r : result ActionRecord) : Prop :=
  match r with inr a => stored a (w_core w) | inl _ => True end.

Lemma stored_post_stable : stable moves stored_post.
Proof. intros w w' g [e|a] [Hev _]; [done|]. by apply stored_stays. Qed.

Lemma rg_insert_action record v (w0 : World) g :
  a_status record = AUTHORIZED → triple w0 g (insert_action record v) stored_post.
Proof.
  intros Hst. unfold insert_action. eapply rg_bind.
  - apply rg_atomically with (Q := λ w _ r, match r with inr _ => stored record (w_core w) | _ => True end).
    intros w Hw _.
    destruct (insert_action_tx record v (w_core w) (w_sys w)) as [s [e|[[] d']]] eqn:Ht; cbn;
      exists g; [by split; [by apply token_same|]|].
    split; [apply still_token; eapply still_tx; [| |exact Ht]; auto with wf|].
    apply insert_action_tx_inr in Ht as (_ & _ & Hid & _ & _ & _ & _ & ->).
    exists (stored_action record). split; [|done]. cbn.
    rewrite tget_snoc, Hid. by rewrite bool_decide_true.
  - intros w g' [] Hs. exact Hs.
  - done.
Qed.

Lemma rg_authorize_stored command v (w0 : World) g :
  triple w0 g (authorize_action command v) stored_post.
Proof.
  unfold authorize_action, get_action_by_key. eapply rg_bind; [apply rg_query_action| |done].
  intros w g' [dup|] (-> & _ & Hst).
  - destruct (command_eqb _ _); [exact Hst|done].
  - apply rg_still_then; [auto with wf|intros w1 [] _|done].
    apply rg_still_then; [auto with wf|intros w2 [] _|done].
    apply rg_still_then; [auto with wf|intros w3 now _|done].
    apply rg_still_then; [auto with wf|intros w4 aid _|done].
    by apply rg_insert_action.
Qed.

(** The claim: the only way to the right to dispatch. *)
Lemma rg_claim_action a (w0 : World) g :
  stored a (w_core w0) →
  triple w0 g (claim_action (a_action_id a))
    (λ w g' r, match r with
       | inr (_, true) => g' = action_idem a :: g
       | inr (_, false) => g' = g
       | inl _ => True
       end).
Proof.
  intros Hst. unfold claim_action.
  apply (rg_bind _ _ _ _ _ _ _ (λ w g' r, match r with
     | inr true => g' = action_idem a :: g | inr false => g' = g | inl _ => True end)).
  - apply rg_atomically. intros w Hw Hm.
    destruct (claim_action_tx (a_action_id a) (w_core w) (w_sys w)) as [s [e|[b d']]] eqn:Ht;
      cbn; [exists g; by split; [by apply token_same|]|].
    pose proof (still_tx _ _ _ _ _ (claim_keeps _) (claim_quiet _) Ht) as Hstill.
    destruct (still_token g _ _ Hstill Hw) as (Hw' & Hmv & _). destruct Hw as [Hw Hb].
    apply claim_action_tx_inr in Ht as [(-> & Hn & _ & ->)|(-> & _ & _)].
    + exists (action_idem a :: g). split; [|done]. intros _. split; [done|]. split; [done|].
      destruct (stored_stays _ _ _ (proj1 Hm) Hst) as (a1 & Ha1 & Hcmd).
      rewrite (rowcount_key a_action_id (a_action_id a)), Ha1 in Hn;
        [|apply Hw|by intros r [? _]%in_status_true].
      destruct (in_status _ _ a1) eqn:Hin; [|done]. pose proof Hin as Hin'.
      apply in_status_true in Hin' as [Hid Hs].
      assert (action_idem a1 = action_idem a) as Hkey by (unfold action_idem; by rewrite Hcmd).
      apply tget_key in Ha1 as [_ Hel].
      apply (token_claim g w _ (action_idem a) a1); [done| |done|].
      * rewrite <- Hkey. apply tget_elem; [apply Hw|done].
      * exists (set_action_claimed (now_at (n_clock (w_sys w))) a1). split.
        -- cbn. rewrite (tget_update action_idem) by by apply keeps_key_all.
           rewrite <- Hkey, (tget_elem action_idem _ a1) by (done || apply Hw). cbn. by rewrite Hin.
        -- cbn. unfold past. intros Hin2. repeat (apply elem_of_cons in Hin2 as [[=]|Hin2]).
           by apply not_elem_of_nil in Hin2.
    + exists g. split; [|done]. intros _. split; [done|]. split; [done|by constructor].
  - intros w g' b Hb. eapply rg_bind.
    + apply (rg_frame sound moves token_guar still); [intros; by apply still_token|].
      auto with wf.
    + intros w' g'' row [-> _]. cbn. by destruct b.
    + done.
  - done.
Qed.
(** Recording an outcome: a success only of a key that is applied. *)
Lemma transition_backed a st st' out (w : World) s u d :
  stored a (w_core w) → (successful st' → applied (action_idem a) (w_ext w)) → sound w →
  transition_action_tx (a_action_id a) st st' out (w_core w) (w_sys w) = (s, inr (u, d)) →
  backed_db (set_core d s w).
Proof.
  intros (a1 & Ha1 & Hcmd) Hst [Hw Hb] Ht. apply transition_action_tx_inr in Ht as (_ & _ & ->).
  intros r Hr. cbn in Hr |- *. apply elem_of_update_where in Hr as (r0 & Hr0 & ->).
  destruct (in_status _ st r0) eqn:Hin; [|by apply Hb]. apply in_status_true in Hin as [Hid _].
  cbn. intros Hs. assert (Some r0 = Some a1) as [= ->].
  { rewrite <- Ha1, <- Hid. symmetry. apply tget_elem; [apply Hw|done]. }
  unfold action_idem. cbn. rewrite Hcmd. by apply Hst.
Qed.

(** A row read back is stored. *)
Lemma rg_fetch_action aid e (w0 : World) g : triple w0 g (fetch_action aid e) stored_post.
Proof.
  unfold fetch_action. eapply rg_bind; [apply rg_query_action| |done].
  intros w g' [a|] (_ & _ & Hst); [exact Hst|done].
Qed.

Lemma rg_record_outcome a st out (w0 : World) g :
  stored a (w_core w0) → (successful st → applied (action_idem a) (w_ext w0)) →
  triple w0 g (record_outcome (a_action_id a) st out) stored_post.
Proof.
  intros Hst Hok. unfold record_outcome. apply rg_require; [intros _|done].
  apply rg_still_then; [auto with wf| |done]. intros w1 [cur|] Hm1; [|done].
  apply rg_require; [intros Hal|done]. unfold transition_action.
  eapply rg_bind with (Q := λ _ _ _, True); [|intros w2 g2 [] _; apply rg_fetch_action|done].
  apply rg_atomically. intros w Hw Hm. exists g.
  destruct (transition_action_tx _ _ _ _ _ _) as [s [e|[u d]]] eqn:Ht; cbn;
    (split; [|done]); [by apply token_same|].
  assert (good (w_core w) d) as Hg.
  { eapply transition_keeps; [|exact Ht]. right; right. by reflect_bools. }
  assert (moves w0 w) as [Hev Hx] by (by etrans). intros _. destruct (Hg (proj1 Hw)) as [Hd' Hev'].
  split; [split; [done|]|split; [by split|by constructor]].
  eapply transition_backed; [by eapply stored_stays| |done|exact Ht].
  intros Hs. by apply Hx, Hok.
Qed.
End tokens.

Section gateway.
Context `{Hmac} (sg : PolicySigner) `{Oracle} {Ext : Type} `{Outside Ext} (gw : ActionGateway Ext).
(** The policy resolver of the gateway, when there is one, keeps its laws. *)
Context (Hpv : ∀ pv, gw_policy_resolver gw = Some pv → PolicyResolverLaws pv).
Context `{!GatewayLaws gw}.
Abbreviation World := (World Ext).
Abbreviation triple := (rg sound moves token_guar).

Hint Resolve registry_read_offline active_package_offline snapshot_package_offline
  dispatch_policy_offline offline_calm offline_steady authorize_steady : wf.

Lemma authorize_calm c v : steps (@calm Ext) (authorize gw c v).
Proof. unfold authorize. step_through. Qed.
Hint Resolve authorize_calm : wf.

Lemma rg_authorize_gateway c v (w0 : World) g : triple w0 g (authorize gw c v) stored_post.
Proof.
  unfold authorize. apply rg_still_then; [auto with wf|intros w resolved _|done].
  destruct (negb (governed gw)); [apply rg_authorize_stored|].
  apply rg_still_then; [auto with wf|intros w1 package _|done].
  apply rg_still_then; [auto with wf|intros w2 [case|] _|done]; [|done].
  apply rg_still_then; [auto with wf|intros w3 [] _|done].
  apply rg_still_then; [auto with wf|intros w4 [] _|done].
  apply rg_authorize_stored.
Qed.

Lemma dispatch_policy_calm a : steps (@calm Ext) (dispatch_policy sg gw a).
Proof. auto with wf. Qed.

(** What the gateway relies on when it records a provider's answer. *)
Definition told (key : string) (w : World) (r : result ConnectorOutcome) : Prop :=
  ∀ o, r = inr o → successful (oc_status o) → applied key (w_ext w).

(** The call of a provider on a claim the coroutine holds. *)
Lemma rg_provider_dispatch cn c (w0 : World) g :
  ConnectorLaws cn →
  triple w0 (c_idempotency_key c :: g) (provider_dispatch cn c)
    (λ w g' r, g' = g ∧ moves w0 w ∧ told (c_idempotency_key c) w r).
Proof.
  intros Hcn. apply rg_atomically. intros w [Hw Hb] Hm. exists g.
  destruct (dispatch_applied c (w_ext w)) as [Hk Ha]. split.
  - intros _. split; [split; [done|]|split; [by split|by eapply token_dispatch]].
    intros a Hin Hs. by apply Hk, Hb.
  - split; [done|]. split; [etrans; [exact Hm|by split]|exact Ha].
Qed.

(** Dispatching an action read from the store: the provider is called on a key
    only by the coroutine whose claim succeeded, and what is recorded is what it
    answered. *)
Lemma dispatch_token a (w0 : World) g :
  stored a (w_core w0) → triple w0 g (dispatch sg gw a) (λ _ _ _, True).
Proof.
  intros Hst. unfold dispatch. destruct (negb _); [done|].
  apply rg_still_then; [auto with wf|intros w1 [] Hm1|done].
  destruct (_resolve_connector gw (a_command a) true) as [e|rc] eqn:Hrc; [done|].
  apply resolved_laws in Hrc.
  change (lift_result (inr rc)) with (mret rc : prog World _). cbn [mbind prog_bind mret prog_ret].
  assert (stored a (w_core w1)) as Hst1 by (eapply stored_stays; [apply Hm1|done]).
  eapply rg_bind; [eapply (rg_know sound moves token_guar); by apply rg_claim_action| |done].
  intros w2 g2 [row [|]] [Hg2 Hm2]; cbn [negb]; [subst g2|done].
  eapply rg_bind with (Q := λ w g' r, moves w2 w ∧ told (action_idem a) w r).
  - eapply rg_try; [by apply rg_provider_dispatch|by intros w3 g3 o (_ & ? & ?)|].
    intros w3 g3 e (_ & Hm3 & _). split; [done|]. intros o [= <-]. by intros [[=]|[=]].
  - intros w3 g3 outcome [Hm3 Ht]. eapply rg_conseq; [|apply rg_record_outcome]; [done| |].
    + eapply stored_stays; [|exact Hst1]. etrans; [apply Hm2|apply Hm3].
    + by apply Ht.
  - done.
Qed.

Lemma rg_provider_reconcile cn c prior (w0 : World) g :
  ConnectorLaws cn →
  triple w0 g (provider_reconcile cn c prior)
    (λ w _ r, moves w0 w ∧ told (c_idempotency_key c) w r).
Proof.
  intros Hcn. apply rg_atomically. intros w [Hw Hb] Hm. exists g.
  destruct (reconcile_applied c prior (w_ext w)) as [Hk Ha]. split.
  - intros _. split; [split; [done|]|split; [by split|by eapply token_reconcile]].
    intros a Hin Hs. by apply Hk, Hb.
  - split; [etrans; [exact Hm|by split]|exact Ha].
Qed.

(** Reconciling an action read from the store. *)
Lemma reconcile_token a (w0 : World) g :
  stored a (w_core w0) → triple w0 g (reconcile gw a) (λ _ _ _, True).
Proof.
  intros Hst. unfold reconcile. eapply rg_bind with (Q := stored_post); [|clear Hst|done].
  { case_match; [|exact Hst]. apply rg_record_outcome; [done|by intros [[=]|[=]]]. }
  intros w1 g1 b Hst. destruct (negb _); [done|].
  destruct (_resolve_connector gw (a_command b) true) as [e|rc] eqn:Hrc; [done|].
  apply resolved_laws in Hrc.
  change (lift_result (inr rc)) with (mret rc : prog World _). cbn [mbind prog_bind mret prog_ret].
  eapply rg_bind; [by apply rg_provider_reconcile| |done].
  intros w2 g2 outcome [Hm Ht]. eapply rg_conseq; [|apply rg_record_outcome]; [done| |].
  - eapply stored_stays; [apply Hm|exact Hst].
  - intros Hs. apply (Ht outcome eq_refl). case_bool_decide; [by left|exact Hs].
Qed.

(** A client that looks an action up and dispatches it. *)
Lemma dispatch_by_id_token aid :
  token_safe (row ← get_action aid;
              match row with Some a => dispatch sg gw a | None => mthrow (KeyError aid) end).
Proof.
  apply token_query_action; [|by intros w g].
  intros w g a Hst. by apply dispatch_token.
Qed.

(** Every interleaving of coroutines that are token-safe calls the provider at
    most once per key, and only for an action that is past authorization; and
    every action declared successful is applied. *)
Lemma token_pool {A} (w w' : World) (ps ps' : list (prog World A)) :
  sound w → w_trace w = [] → Forall token_safe ps →
  star pool_step (w, ps) (w', ps') →
  sound w' ∧ moves w w' ∧
  NoDup (dispatched_keys (w_trace w')) ∧
  ∀ k, k ∈ dispatched_keys (w_trace w') → claimed_key k (w_core w').
Proof.
  intros Hw Ht Hps Hstar.
  destruct (pool_rg sound moves token_guar tokens_inv tokens_inv_step (λ _ _ _ _, True)
              (λ _ _ _ _ _ _ _, I) _ _ (replicate (length ps) []) Hstar)
    as (gs' & (Hw' & [Hnd Hcl] & _) & Hev).
  - assert (concat (replicate (length ps) ([] : list string)) = []) as Hnil
      by (clear; by induction ps).
    split; [done|]. split; [|split]; cbn; [|by rewrite length_replicate|].
    + split; rewrite Hnil, Ht; [by apply NoDup_nil_2|by intros k ?%not_elem_of_nil].
    + intros i p Hi. exists []. split.
      * apply lookup_replicate. split; [done|]. by eapply lookup_lt_Some.
      * eapply (proj1 (Forall_lookup _ _) Hps i p Hi).
  - cbn in *. split; [done|]. split; [done|]. split.
    + by apply NoDup_app in Hnd as (_ & _ & ?).
    + intros k Hk. apply Hcl. apply elem_of_app. by right.
Qed.
End gateway.

(** Without assuming anything of the outside world, every key counts as applied. *)
Definition outside_any {Ext : Type} : Outside Ext := λ _ _, True.

Lemma any_gateway_laws {Ext} (gw : ActionGateway Ext) : @GatewayLaws Ext outside_any gw.
Proof. intros c pinned rc _. by split. Qed.

Lemma any_sound {Ext} (w : World Ext) : db_inv (w_core w) → @sound Ext outside_any w.
Proof. by split. Qed.

Lemma token_safe_any `{Oracle} {Ext A} (p : prog (World Ext) A) :
  steps calm p → @token_safe Ext outside_any A p.
Proof.
  intros Hp w g. eapply rg_conseq; [done|]. apply (rg_frame sound moves token_guar calm); [|done].
  intros w1 w2 [Hg Ht] [Hw1 _]. destruct (Hg Hw1). split; [by split|]. split; [by split|by constructor].
Qed.
