(* ===== verification/GatewayProps.v ===== *)
(** * Properties of the action gateway *)

From S2P Require Import Prelude PyValue Prog RelyGuarantee Table ActionSpecs Policy KernelData World KernelStore KernelInv CaseKernel KernelRaces Fixtures PolicyStore PolicyProps Gateway AtMostOnce.

(** Two commands that differ at most in what the server fills in. *)
Definition same_request (c c' : ActionCommand) : Prop :=
  with_policy_signature None (with_binding "" "" "" c) =
  with_policy_signature None (with_binding "" "" "" c').

Section authorize.
Context `{Hmac} `{Oracle} {Ext : Type} (gw : ActionGateway Ext).
Implicit Types w : World Ext.

(** A governed authorization is decided by the server: the connector binding
    and the policy signature a caller puts in the command are ignored, and the
    authorized command carries the binding the server resolves, unpinned, and the
    activation signature of the active package, which must be for the case's
    procedure and allow the action. *)
Theorem authorize_server_side command v w w' a :
  governed gw = true →
  run (authorize gw command v) w = (w', inr a) →
  (∀ command', same_request command command' → authorize gw command' v = authorize gw command v) ∧
  ∃ resolved package case w1,
    _resolve_connector gw command false = inr resolved ∧
    run (active_package gw (c_policy_package_id command)) w = (w1, inr package) ∧
    tget case_key (c_case_id command) (t_cases (w_core w1)) = Some case ∧
    pk_procedure_id package = case_procedure_id (cr_case case) ∧
    check_allowed package (c_action command) = inr tt ∧
    run (authorize_action
           (with_policy_signature (pk_activation_signature package)
              (with_binding (rc_binding_id resolved) (rc_binding_version resolved)
                 (rc_contract_version resolved) command)) v) w1 = (w', inr a).
Proof.
  intros Hgov Hrun. split.
  - intros command' Heq. unfold same_request, with_policy_signature, with_binding in Heq.
    destruct command, command'. cbn in Heq. injection Heq as -> -> -> -> -> -> -> -> -> ->.
    unfold authorize, _resolve_connector. cbn. destruct (gw_connectors gw) as [resolve|m]; by rewrite Hgov.
  - unfold authorize in Hrun. rewrite run_bind, run_lift in Hrun.
    destruct (_resolve_connector gw command false) as [e|resolved]; [done|].
    rewrite Hgov in Hrun. cbn [negb] in Hrun. rewrite run_bind in Hrun.
    cbn [c_policy_package_id with_binding] in Hrun.
    destruct (run (active_package gw _) w) as [w1 [e|package]] eqn:Hpk; [done|].
    rewrite run_bind in Hrun. unfold get_case in Hrun. rewrite run_bind, run_query, run_ret in Hrun.
    destruct (select_one _ _) as [case|] eqn:Hcase; cbn [option_map] in Hrun; [|done].
    rewrite run_bind, run_require in Hrun.
    destruct (String.eqb_spec (pk_procedure_id package) (case_procedure_id (cr_case case)));
      [|done].
    rewrite run_bind, run_lift in Hrun. cbn [c_action with_binding] in Hrun.
    destruct (check_allowed package (c_action command)) as [e1|[]] eqn:Hal; [done|].
    exists resolved, package, case, w1. by split_and!.
Qed.
End authorize.

Section outcomes.
Context `{Hmac} (sg : PolicySigner) `{Oracle} {Ext : Type} (gw : ActionGateway Ext).
Context (Hpv : ∀ pv, gw_policy_resolver gw = Some pv → PolicyResolverLaws pv).
Implicit Types w : World Ext.

Lemma run_fetch_action aid e w :
  run (fetch_action aid e) w =
  (w, match tget a_action_id aid (t_actions (w_core w)) with Some r => inr r | None => inl e end).
Proof.
  unfold fetch_action, get_action. rewrite run_bind, run_query. cbn [tbl_get action_attempts].
  change (select_one _ _) with (tget a_action_id aid (t_actions (w_core w))).
  by destruct (tget a_action_id aid _).
Qed.

(** What a successful [record_outcome] recorded. *)
Lemma run_record_outcome aid st out w w' r :
  db_inv (w_core w) →
  run (record_outcome aid st out) w = (w', inr r) →
  st ∈ [SUCCEEDED; FAILED; UNKNOWN; RECONCILED] ∧
  (∃ r0, tget a_action_id aid (t_actions (w_core w)) = Some r0 ∧
         st ∈ allowed_outcomes (a_status r0) ∧ a_command r = a_command r0) ∧
  a_status r = st ∧ a_outcome r = out ∧ w_ext w' = w_ext w.
Proof.
  intros Hw Hrun. unfold record_outcome in Hrun. rewrite run_bind, run_require in Hrun.
  case_bool_decide as Hst; [|done]. rewrite run_bind in Hrun. unfold get_action in Hrun.
  rewrite run_query in Hrun. cbn [tbl_get action_attempts] in Hrun.
  change (select_one _ _) with (tget a_action_id aid (t_actions (w_core w))) in Hrun.
  destruct (tget a_action_id aid _) as [r0|] eqn:Hr0; [|done].
  rewrite run_bind, run_require in Hrun. case_bool_decide as Hal; [|done].
  unfold transition_action in Hrun. rewrite run_bind in Hrun.
  destruct (run (commit _) w) as [w1 [e|[]]] eqn:Hc; [done|].
  apply run_commit_inr in Hc as (s & d & Ht & ->).
  apply transition_action_tx_inr in Ht as (Hn & _ & ->).
  rewrite run_fetch_action in Hrun. cbn [w_core set_core] in Hrun.
  cbn [advance t_actions tbl_set action_events action_attempts] in Hrun.
  rewrite (tget_update a_action_id) in Hrun by by apply keeps_key_all.
  rewrite Hr0 in Hrun. cbn [fmap option_fmap option_map] in Hrun.
  rewrite (rowcount_key a_action_id aid), Hr0 in Hn;
    [|apply Hw|by intros r1 [? _]%in_status_true].
  destruct (in_status aid (a_status r0) r0); [|done]. injection Hrun as <- <-.
  split_and!; [done| |done..]. exists r0. by split_and!.
Qed.

(** A calm program alone. *)
Lemma run_calm {A} (p : prog (World Ext) A) w w' r :
  steps calm p → db_inv (w_core w) → run p w = (w', r) →
  db_inv (w_core w') ∧ evolves (w_core w) (w_core w') ∧ w_trace w' = w_trace w.
Proof.
  intros Hp Hw Hrun. pose proof (steps_run calm p w Hp) as [Hg Ht]. rewrite Hrun in Hg, Ht.
  destruct (Hg Hw). by split_and!.
Qed.

(** What the provider's answer becomes. *)
Definition recorded_outcome (r : result ConnectorOutcome) : ActionStatus * dict value :=
  match r with
  | inr oc => (oc_status oc, oc_details oc)
  | inl e => (UNKNOWN, [("reason", VStr "connector_exception"); ("error_type", VStr (exn_name e))])
  end.

(** C20: a dispatch that returns has either called no provider, or called, exactly
    once and with the stored command, the connector the command is pinned to, and
    recorded what it answered: its status and details, or an unknown outcome
    naming the exception it raised. *)
Theorem dispatch_outcome a w w' a' :
  db_inv (w_core w) →
  run (dispatch sg gw a) w = (w', inr a') →
  (w_trace w' = w_trace w ∧ (a_status a ≠ AUTHORIZED → a' = a)) ∨
  (a_status a = AUTHORIZED ∧
   ∃ resolved x,
     _resolve_connector gw (a_command a) true = inr resolved ∧
     w_trace w' = w_trace w ++ [EffDispatch (a_command a)] ∧
     w_ext w' = (cn_dispatch (rc_connector resolved) (a_command a) x).1 ∧
     (a_status a', a_outcome a') =
       (let r := recorded_outcome (cn_dispatch (rc_connector resolved) (a_command a) x).2 in
        (r.1, Some r.2)) ∧
     a_status a' ∈ [SUCCEEDED; FAILED; UNKNOWN]).
Proof.
  intros Hw Hrun. unfold dispatch in Hrun. case_bool_decide as Hst; cbn [negb] in Hrun;
    [|injection Hrun as <- <-; by left].
  rewrite run_bind in Hrun.
  destruct (run (dispatch_policy sg gw a) w) as [w1 [e|[]]] eqn:H1; [done|].
  apply (run_calm _ _ _ _ (dispatch_policy_calm sg gw Hpv a) Hw) in H1 as (Hw1 & _ & Ht1).
  rewrite run_bind, run_lift in Hrun.
  destruct (_resolve_connector gw (a_command a) true) as [e|resolved]; [done|].
  rewrite run_bind in Hrun.
  destruct (run (claim_action (a_action_id a)) w1) as [w2 [e|[row claimed]]] eqn:H2; [done|].
  pose proof H2 as Hclaim.
  apply (run_calm _ _ _ _ (claim_action_calm _) Hw1) in H2 as (Hw2 & _ & Ht2).
  destruct claimed; cbn [negb] in Hrun; [|injection Hrun as <- <-; left; split; congruence].
  right. split; [done|]. exists resolved, (w_ext w2).
  rewrite run_bind, run_try in Hrun. unfold provider_dispatch in Hrun.
  rewrite run_atomically in Hrun. cbv zeta in Hrun.
  set (res := cn_dispatch _ _ _) in *.
  set (w3 := log_effect _ _ _) in Hrun. assert (db_inv (w_core w3)) as Hw3 by exact Hw2.
  assert (run (record_outcome (a_action_id a) (recorded_outcome res.2).1
                 (Some (recorded_outcome res.2).2)) w3 = (w', inr a')) as Hrec.
  { destruct (res.2) as [e|oc]; exact Hrun. }
  pose proof Hrec as Hrec'.
  apply (run_calm _ _ _ _ (record_outcome_calm _ _ _) Hw3) in Hrec' as (_ & _ & Ht3).
  apply (run_record_outcome _ _ _ _ _ _ Hw3) in Hrec as (Hin & (r0 & Hr0 & Hal & _) & Hs & Ho & Hx).
  cbn in Hr0, Hx, Ht3. split_and!; [done|by rewrite Ht3, Ht2, Ht1|done|by rewrite Hs, Ho|].
  (* the claimed action was dispatched, so only its three outcomes are allowed *)
  rewrite Hs. unfold claim_action in Hclaim. rewrite run_bind in Hclaim.
  destruct (run (commit _) w1) as [w1' [e|b]] eqn:Hc; [done|].
  apply run_commit_inr in Hc as (s & d & Ht & ->). rewrite run_bind, run_fetch_action in Hclaim.
  destruct (tget a_action_id _ _) as [row'|] eqn:Hrow; [|done]. cbn in Hclaim.
  injection Hclaim as <- <- ->. cbn in Hr0, Hrow. rewrite Hrow in Hr0. injection Hr0 as <-.
  apply claim_action_tx_inr in Ht as [(_ & Hn & _ & ->)|([=] & _)].
  cbn in Hrow. rewrite (tget_update a_action_id) in Hrow by by apply keeps_key_all.
  destruct (tget a_action_id (a_action_id a) (t_actions (w_core w1))) as [r1|] eqn:Hr1; [|done].
  rewrite (rowcount_key a_action_id (a_action_id a)), Hr1 in Hn;
    [|apply Hw1|by intros ? [? _]%in_status_true].
  cbn in Hrow. destruct (in_status _ _ r1); [|done]. injection Hrow as <-. exact Hal.
Qed.

(** Reconciliation asks, and never repeats the action: it makes at most one
    provider call, which is a reconcile of the stored command, never a dispatch,
    and an action it returns that it did not have to ask about is unchanged or
    marked unknown. *)
Theorem reconcile_never_dispatches a w w' r :
  db_inv (w_core w) →
  run (reconcile gw a) w = (w', r) →
  w_trace w' = w_trace w ∨
  ((a_status a = DISPATCHED ∨ a_status a = UNKNOWN) ∧
   ∃ c, w_trace w' = w_trace w ++ [EffReconcile c] ∧
     (a_status a = UNKNOWN → c = a_command a) ∧
     (∀ a', r = inr a' → a_status a' ∈ [UNKNOWN; FAILED; RECONCILED])).
Proof.
  intros Hw Hrun. unfold reconcile in Hrun. rewrite run_bind in Hrun.
  destruct (run (if bool_decide _ then _ else _) w) as [w1 r1] eqn:H1.
  assert (db_inv (w_core w1) ∧ w_trace w1 = w_trace w ∧
          match r1 with
          | inr a1 => (a_status a1 = UNKNOWN → a_status a = DISPATCHED ∨ a_status a = UNKNOWN) ∧
                      (a_status a = UNKNOWN → a1 = a)
          | inl _ => True
          end) as (Hw1 & Ht1 & Hr1).
  { case_bool_decide as Hd.
    - pose proof H1 as H1'.
      apply (run_calm _ _ _ _ (record_outcome_calm _ _ _) Hw) in H1' as (? & _ & ?).
      split_and!; [done|done|]. destruct r1 as [e|a1]; [done|].
      split; [by left|]. congruence.
    - injection H1 as <- <-. split_and!; [done|done|by right|done]. }
  destruct r1 as [e|a1]; [injection Hrun as <- _; by left|].
  destruct Hr1 as [Hst Heq].
  case_bool_decide as Hu; cbn [negb] in Hrun; [|injection Hrun as <- _; by left].
  rewrite run_bind, run_lift in Hrun.
  destruct (_resolve_connector gw (a_command a1) true) as [e|resolved];
    [injection Hrun as <- _; by left|].
  right. split; [auto|]. exists (a_command a1).
  rewrite run_bind in Hrun. unfold provider_reconcile in Hrun. rewrite run_atomically in Hrun.
  cbv zeta in Hrun. set (res := cn_reconcile _ _ _ _) in *. set (w2 := log_effect _ _ _) in *.
  assert (w_trace w2 = w_trace w ++ [EffReconcile (a_command a1)]) as Ht2
    by (cbn; by rewrite Ht1).
  assert (db_inv (w_core w2)) as Hw2 by exact Hw1.
  destruct (res.2) as [e|oc].
  { injection Hrun as <- <-. split_and!; [done|intros Hua; by rewrite (Heq Hua)|done]. }
  pose proof Hrun as Hrun'.
  apply (run_calm _ _ _ _ (record_outcome_calm _ _ _) Hw2) in Hrun' as (_ & _ & Ht3).
  split_and!; [congruence|intros Hua; by rewrite (Heq Hua)|].
  intros a' ->. apply (run_record_outcome _ _ _ _ _ _ Hw2) in Hrun as (Hin & _ & Hs & _).
  rewrite Hs. clear -Hin. case_bool_decide; [by right; right; left|].
  rewrite !elem_of_cons in *. tauto.
Qed.
End outcomes.

(** ** Witnesses *)

(** A provider that keeps the keys it executed. *)
Definition demo_provider : ActionConnector (list string) :=
  mkConnector
    (λ c x, (x ++ [c_idempotency_key c], inr (outcome_succeeded [("provider_ref", VStr "R-1")])))
    (λ c _ x, (x, inr (if bool_decide (c_idempotency_key c ∈ x)
                       then outcome_succeeded [] else outcome_unknown []))).

Definition demo_gateway : ActionGateway (list string) :=
  mkGateway (Mapping [("issue_refund", demo_provider)]) true
    (Some (policy_service_resolver demo_signer)).

Definition demo_governed : World (list string) :=
  mkWorld demo_db (mkSys 0 0) [row_of demo_active] empty_registry [] [].

Definition demo_gw_authorized : World (list string) :=
  (run (authorize demo_gateway demo_command 5) demo_governed).1.
Definition demo_gw_action : ActionRecord :=
  or_else demo_action (run (authorize demo_gateway demo_command 5) demo_governed).2.
Definition demo_gw_dispatched : World (list string) :=
  (run (dispatch demo_signer demo_gateway demo_gw_action) demo_gw_authorized).1.

Lemma demo_resolver_laws pv :
  gw_policy_resolver demo_gateway = Some pv → PolicyResolverLaws pv.
Proof. intros [= <-]. apply _. Qed.

Lemma demo_authorized_inv : db_inv (w_core demo_gw_authorized).
Proof.
  pose proof (authorize_calm demo_gateway demo_resolver_laws demo_command 5) as Hcalm.
  destruct (run_calm _ demo_governed _ _ Hcalm demo_db_inv (surjective_pairing _)) as (Hinv & _).
  exact Hinv.
Qed.

Definition demo_forged : ActionCommand :=
  with_policy_signature (Some "forged") (with_binding "other" "9" "9" demo_command).

Example authorize_server_side_witness :
  authorize demo_gateway demo_forged 5 = authorize demo_gateway demo_command 5.
Proof.
  refine (proj1 (authorize_server_side demo_gateway demo_command 5 demo_governed
                   demo_gw_authorized demo_gw_action _ _) demo_forged _);
    vm_compute; reflexivity.
Defined.

Example dispatch_outcome_witness :
  w_trace demo_gw_dispatched = [EffDispatch (a_command demo_gw_action)].
Proof.
  destruct (dispatch_outcome demo_signer demo_gateway demo_resolver_laws demo_gw_action
    demo_gw_authorized demo_gw_dispatched
    (or_else demo_action (run (dispatch demo_signer demo_gateway demo_gw_action)
                            demo_gw_authorized).2) demo_authorized_inv)
    as [[Ht _]|(_ & _ & _ & _ & Ht & _)].
  - vm_compute. reflexivity.
  - exfalso. vm_compute in Ht. discriminate Ht.
  - rewrite Ht. vm_compute. reflexivity.
Defined.

Example reconcile_never_dispatches_witness :
  dispatched_keys (w_trace (run (reconcile demo_gateway demo_gw_action) demo_gw_authorized).1) = [].
Proof.
  destruct (reconcile_never_dispatches demo_gateway demo_gw_action demo_gw_authorized
    (run (reconcile demo_gateway demo_gw_action) demo_gw_authorized).1
    (run (reconcile demo_gateway demo_gw_action) demo_gw_authorized).2
    demo_authorized_inv (surjective_pairing _)) as [Ht|[[Hs|Hs] _]].
  - rewrite Ht. vm_compute. reflexivity.
  - vm_compute in Hs. discriminate Hs.
  - vm_compute in Hs. discriminate Hs.
Defined.
