(* ===== verification/ActionService.v ===== *)
(** * Consequential actions ([core/action_service.py])

    The typed service through which every action of the catalog is requested:
    it binds the request to the system of record, records the verified facts on
    the case, and hands the command to the gateway. *)

From Stdlib Require Import SpecFloat.
From S2P Require Import Prelude PyValue Prog Table ActionSpecs Policy KernelData World KernelStore KernelInv CaseKernel Auth Gateway.

(** ** The payload models, with their field constraints *)

Inductive ActionPayload :=
  | IssueRefundPayload (order_id customer_id : string) (refund_amount : float)
      (currency payment_method reason : string)
  | StoreCreditPayload (order_id customer_id : string) (amount : float) (currency reason : string)
  | CaseStatusPayload (target_status reason : string)
  | EftDisputePayload (customer_id transaction_id : string) (amount : float) (dispute_type : string)
  | ProvisionalCreditPayload (customer_id dispute_id : string) (amount : float)
  | EscalationPayload (reason priority : string)
  | CaseNotePayload (note : string)
  | AccountRestrictionPayload (account_id reason restriction : string)
  | SarPayload (account_id alert_id narrative_ref : string)
  | CloseAlertPayload (alert_id resolution : string).

(** The discriminator. *)
Definition payload_action (p : ActionPayload) : string :=
  match p with
  | IssueRefundPayload _ _ _ _ _ _ => "issue_refund"
  | StoreCreditPayload _ _ _ _ _ => "issue_store_credit"
  | CaseStatusPayload _ _ => "update_case_status"
  | EftDisputePayload _ _ _ _ => "file_eft_dispute"
  | ProvisionalCreditPayload _ _ _ => "issue_provisional_credit"
  | EscalationPayload _ _ => "escalate_to_supervisor"
  | CaseNotePayload _ => "add_case_note"
  | AccountRestrictionPayload _ _ _ => "flag_account"
  | SarPayload _ _ _ => "submit_sar"
  | CloseAlertPayload _ _ => "close_alert"
  end.

(** [Field(gt=0)] *)
Definition positive (x : float) : bool := f_ltb (S754_zero false) x.

(** What pydantic accepts. *)
Definition payload_valid (p : ActionPayload) : bool :=
  match p with
  | IssueRefundPayload _ _ amount _ _ _ => positive amount
  | StoreCreditPayload _ _ amount _ _ => positive amount
  | EftDisputePayload _ _ amount dispute_type =>
      positive amount && bool_decide (dispute_type ∈ ["unauthorized"; "error"; "fraud"])
  | ProvisionalCreditPayload _ _ amount => positive amount
  | EscalationPayload _ priority =>
      bool_decide (priority ∈ ["low"; "normal"; "high"; "urgent"])
  | CaseNotePayload note =>
      Nat.leb 1 (String.length note) && Nat.leb (String.length note) 10000
  | AccountRestrictionPayload _ _ restriction =>
      bool_decide (restriction ∈ ["monitor"; "restrict"; "freeze"])
  | CloseAlertPayload _ resolution =>
      bool_decide (resolution ∈ ["confirmed_fraud"; "false_positive"; "escalated"])
  | CaseStatusPayload _ _ | SarPayload _ _ _ => true
  end.

(** [payload.model_dump(exclude={"action"}, mode="json")] *)
Definition model_dump (p : ActionPayload) : dict value :=
  match p with
  | IssueRefundPayload order customer amount currency payment_method reason =>
      [ ("order_id", VStr order); ("customer_id", VStr customer);
        ("refund_amount", VFloat amount); ("currency", VStr currency);
        ("payment_method", VStr payment_method); ("reason", VStr reason) ]
  | StoreCreditPayload order customer amount currency reason =>
      [ ("order_id", VStr order); ("customer_id", VStr customer); ("amount", VFloat amount);
        ("currency", VStr currency); ("reason", VStr reason) ]
  | CaseStatusPayload target_status reason =>
      [("target_status", VStr target_status); ("reason", VStr reason)]
  | EftDisputePayload customer transaction amount dispute_type =>
      [ ("customer_id", VStr customer); ("transaction_id", VStr transaction);
        ("amount", VFloat amount); ("dispute_type", VStr dispute_type) ]
  | ProvisionalCreditPayload customer dispute amount =>
      [("customer_id", VStr customer); ("dispute_id", VStr dispute); ("amount", VFloat amount)]
  | EscalationPayload reason priority => [("reason", VStr reason); ("priority", VStr priority)]
  | CaseNotePayload note => [("note", VStr note)]
  | AccountRestrictionPayload account reason restriction =>
      [("account_id", VStr account); ("reason", VStr reason); ("restriction", VStr restriction)]
  | SarPayload account alert narrative =>
      [("account_id", VStr account); ("alert_id", VStr alert); ("narrative_ref", VStr narrative)]
  | CloseAlertPayload alert resolution =>
      [("alert_id", VStr alert); ("resolution", VStr resolution)]
  end.

Definition ACTION_PERMISSIONS : dict Permission :=
  [ ("issue_refund", REFUND_WRITE); ("issue_store_credit", REFUND_WRITE);
    ("update_case_status", CASE_WRITE); ("file_eft_dispute", CASE_WRITE);
    ("issue_provisional_credit", REFUND_WRITE); ("escalate_to_supervisor", ESCALATION_CREATE);
    ("add_case_note", CASE_WRITE); ("flag_account", ACCOUNT_FLAG); ("submit_sar", SAR_SUBMIT);
    ("close_alert", FRAUD_ALERT_WRITE) ].

Record AuthoritativeResourceRef := mkResourceRef { rr_type : string; rr_id : string }.

Record ConsequentialActionRequest := mkRequestC {
  r_case_id : string; r_customer_id : string; r_procedure_id : string;
  r_procedure_version : string; r_policy_package_id : string; r_idempotency_key : string;
  r_resource : option AuthoritativeResourceRef; r_payload : ActionPayload;
  r_consent_evidence_ref : option string; r_approval_evidence_ref : option string;
  r_connector_binding_id : option string; r_connector_binding_version : option string;
  r_contract_version : option string
}.

(** What pydantic accepts of a request. *)
Definition request_valid (r : ConsequentialActionRequest) : bool :=
  Nat.leb 4 (String.length (r_idempotency_key r)) &&
  Nat.leb (String.length (r_idempotency_key r)) 300 && payload_valid (r_payload r).

(** A resource of the system of record. *)
Record Resource := mkResource { res_payload : dict value; res_version : value }.

(** [AuthoritativeResourceProvider]: a protocol. *)
Record ResourceProvider (Ext : Type) := mkResourceProvider {
  get_resource : string → string → prog (World Ext) (option Resource)
}.
Arguments mkResourceProvider {Ext}.
Arguments get_resource {Ext}.

(** A step that touches nothing the engine stores and calls no provider. *)
Definition idle {Ext} (w w' : World Ext) : Prop :=
  w_core w' = w_core w ∧ w_trace w' = w_trace w.

#[export] Instance idle_preorder {Ext} : PreOrder (@idle Ext).
Proof. split; [by intros w|]. intros w1 w2 w3 [??] [??]. split; congruence. Qed.

(** Reading the system of record changes nothing of the engine's. *)
Class ResourceProviderLaws {Ext} (rp : ResourceProvider Ext) :=
  get_resource_idle t i : steps idle (get_resource rp t i).

Lemma get_resource_calm {Ext} (rp : ResourceProvider Ext) `{!ResourceProviderLaws rp} t i :
  steps calm (get_resource rp t i).
Proof.
  eapply steps_impl; [|apply get_resource_idle]. intros w w' [??]. by apply calm_idle.
Qed.
#[export] Hint Resolve get_resource_calm get_resource_idle : wf.

Definition _normalize_resource_payload (action : string) (payload : dict value) : dict value :=
  let normalized :=
    if String.eqb action "issue_refund" then
      match dget "refund_amount" payload, dget "amount" payload with
      | None, Some amount => dset "refund_amount" amount payload
      | _, _ => payload
      end
    else payload in
  if bool_decide (action ∈ ["issue_refund"; "issue_store_credit"]) &&
     negb (dhas "currency" normalized)
  then dset "currency" (VStr "USD") normalized else normalized.

Section service.
Context `{Hmac} (sg : PolicySigner) `{Oracle} `{Render} {Ext : Type}.
Context (gw : ActionGateway Ext) (rp : ResourceProvider Ext).
Abbreviation prog := (prog (World Ext)).

(** Whether a stored action is the one this request describes. *)
Definition parameters_match (request : ConsequentialActionRequest) (duplicate : ActionRecord) :
    bool :=
  let requested := model_dump (r_payload request) in
  let stored := c_parameters (a_command duplicate) in
  if String.eqb (payload_action (r_payload request)) "issue_refund" then
    forallb (λ p, py_eqb (dget_none p.1 requested) p.2) stored
  else dict_eqb stored requested.

Definition same_action (request : ConsequentialActionRequest) (duplicate : ActionRecord) : bool :=
  let c := a_command duplicate in
  String.eqb (c_case_id c) (r_case_id request) &&
  String.eqb (c_action c) (payload_action (r_payload request)) &&
  String.eqb (c_policy_package_id c) (r_policy_package_id request) &&
  parameters_match request duplicate.

Definition resubmit (request : ConsequentialActionRequest) (duplicate : ActionRecord) :
    prog ActionRecord :=
  _ ← require (same_action request duplicate)
        (ValueError "Idempotency key is already bound to a different action request");
  case ← get_case (c_case_id (a_command duplicate));
  _ ← require match case with
              | Some c => String.eqb (case_customer_id c) (r_customer_id request)
              | None => false
              end
        (ValueError "Idempotent action does not belong to this customer");
  dispatch sg gw duplicate.

(** The comparison of one authoritative parameter with the system of record. *)
Definition check_parameter (upstream parameters : dict value) (parameter : string) : result unit :=
  match dget parameter upstream with
  | None => inl (ValueError ("Authoritative resource is missing " +:+ parameter))
  | Some v =>
      if py_eqb v (dget_none parameter parameters) then inr tt
      else inl (ValueError ("Parameter " +:+ parameter
                              +:+ " does not match the authoritative resource"))
  end.

Fixpoint check_parameters (upstream parameters : dict value) (names : list string) : result unit :=
  match names with
  | [] => inr tt
  | n :: names' =>
      rbind (check_parameter upstream parameters n)
        (λ _, check_parameters upstream parameters names')
  end.

Definition check_customer_binding (binding : option string) (upstream : dict value)
    (customer_id : string) : result unit :=
  match binding with
  | None => inr tt
  | Some b =>
      match dget b upstream with
      | None => inl (ValueError ("Authoritative resource is missing customer binding " +:+ b))
      | Some v =>
          if String.eqb (py_str v) customer_id then inr tt
          else inl (ValueError "Authoritative resource does not belong to the serviced customer")
      end
  end.

(** The binding of the request to the system of record: the normalized resource
    and the evidence reference.  A set is iterated in sorted order (Python
    leaves the order open; it decides only which error comes first). *)
Definition bind_resource (request : ConsequentialActionRequest)
    (specification : ActionSpecification) : prog (dict value * option string) :=
  let action := payload_action (r_payload request) in
  let authoritative := authoritative_parameters specification in
  if bool_decide (authoritative = ∅) then mret ([], None)
  else
    match r_resource request with
    | None => mthrow (ValueError "This action requires an authoritative resource reference")
    | Some ref =>
        resource ← get_resource rp (rr_type ref) (rr_id ref);
        match resource with
        | None => mthrow (ValueError "Authoritative resource was not found")
        | Some resource =>
            let upstream := _normalize_resource_payload action (res_payload resource) in
            _ ← lift_result (check_customer_binding (customer_binding_parameter specification)
                               upstream (r_customer_id request));
            _ ← lift_result (check_parameters upstream (model_dump (r_payload request))
                               (sorted_set authoritative));
            mret (upstream, Some ("sandbox:" +:+ rr_type ref +:+ ":" +:+ rr_id ref +:+ ":v"
                                    +:+ py_str (res_version resource)))
        end
    end.

Definition open_case (request : ConsequentialActionRequest) : prog CaseRecord :=
  case ← get_case (r_case_id request);
  match case with
  | None =>
      create_case (r_case_id request) (r_customer_id request) (r_procedure_id request)
        (r_procedure_version request)
  | Some case =>
      _ ← require (String.eqb (case_customer_id case) (r_customer_id request))
            (ValueError "Case customer does not match authenticated customer");
      _ ← require (String.eqb (case_procedure_version case) (r_procedure_version request))
            (ValueError "Active cases cannot silently switch procedure versions");
      mret case
  end.

Definition fact_name_of (action parameter : string) : string := action +:+ "." +:+ parameter.

(** One turn of the loop that commits the verified facts. *)
Definition commit_parameter (request : ConsequentialActionRequest) (upstream : dict value)
    (evidence_ref : option string) (acc : CaseRecord * list (string * string)) (parameter : string) :
    prog (CaseRecord * list (string * string)) :=
  let action := payload_action (r_payload request) in
  case ← commit_fact (r_case_id request)
           (mkFactProposal (fact_name_of action parameter) (dget_none parameter upstream) VERIFIED
              "authoritative_resource_adapter" (default "" evidence_ref) None)
           (case_version acc.1);
  mret (case, acc.2 ++ [(parameter, fact_name_of action parameter)]).

Definition command_of (request : ConsequentialActionRequest) (actor_id : string)
    (fact_refs : list (string * string)) : ActionCommand :=
  mkCommand (payload_action (r_payload request)) (r_case_id request) (r_policy_package_id request)
    actor_id (r_idempotency_key request) (model_dump (r_payload request)) fact_refs
    (map (λ r, (r.1, VERIFIED)) fact_refs)
    (r_consent_evidence_ref request) (r_approval_evidence_ref request) None
    (r_connector_binding_id request) (r_connector_binding_version request)
    (r_contract_version request).

Definition submit_new (request : ConsequentialActionRequest) (actor_id : string) :
    prog ActionRecord :=
  match dget (payload_action (r_payload request)) ACTION_SPECIFICATIONS with
  | None => mthrow (KeyError (payload_action (r_payload request)))
  | Some specification =>
      bound ← bind_resource request specification;
      case ← open_case request;
      acc ← for_each (sorted_set (authoritative_parameters specification)) (case, [])
              (commit_parameter request bound.1 bound.2);
      authorized ← authorize gw (command_of request actor_id acc.2) (case_version acc.1);
      dispatch sg gw authorized
  end.

Definition submit (request : ConsequentialActionRequest) (actor_id : string) : prog ActionRecord :=
  duplicate ← get_action_by_key (r_idempotency_key request);
  match duplicate with
  | Some duplicate => resubmit request duplicate
  | None => submit_new request actor_id
  end.
End service.

(** [ACTION_PERMISSIONS] and the payload models cover the whole catalog. *)
Lemma every_action_has_permission :
  dkeys ACTION_PERMISSIONS ≡ₚ dkeys ACTION_SPECIFICATIONS.
Proof. vm_compute. solve_Permutation. Qed.
