(* ===== verification/ToolCatalog.v ===== *)
(** * Tools a model may call ([tools/catalog.py], [tools/access.py],
      [tools/action_proposals.py])

    The inventory of tools with the control each requires, the check every tool
    makes of the session it runs in, and the proposal tools: functions that put an
    untrusted intent in the session state and nothing else.  A session state is a
    dict of values; a call returns its new state and its result. *)

From S2P Require Import Prelude PyValue ActionSpecs Auth ActionService.

(** ** The catalog *)

Inductive ToolOwner := CUSTOMER_SERVICE | FRAUD_OPERATIONS | SHARED_OPERATIONS | KNOWLEDGE.
Inductive RiskTier := LOW | MEDIUM | HIGH | REGULATED_TIER.
Inductive AuthorizationMode := READ_PERMISSION | ACTION_GATEWAY_REQUIRED | PUBLIC_KNOWLEDGE.
Inductive IdempotencyMode := NOT_APPLICABLE | NOT_IMPLEMENTED | ACTION_GATEWAY.

Record ToolControl := mkControl {
  tl_name : string; tl_owner : ToolOwner; tl_risk_tier : RiskTier; tl_consequential : bool;
  tl_required_permission : option Permission; tl_authorization_mode : AuthorizationMode;
  tl_idempotency_mode : IdempotencyMode; tl_production_model_enabled : bool;
  tl_proposal_only : bool; tl_self_service_allowed : bool
}.

Definition _read (name : string) (owner : ToolOwner) (permission : option Permission)
    (risk_tier : RiskTier) : ToolControl :=
  mkControl name owner risk_tier false permission
    match permission with Some _ => READ_PERMISSION | None => PUBLIC_KNOWLEDGE end
    NOT_APPLICABLE true false false.

Definition _action (name : string) (owner : ToolOwner) (permission : Permission)
    (risk_tier : RiskTier) (self_service : bool) : ToolControl :=
  mkControl name owner risk_tier true (Some permission) ACTION_GATEWAY_REQUIRED ACTION_GATEWAY
    true true self_service.

Definition _ENTRIES : list ToolControl :=
  [ _read "lookup_order" CUSTOMER_SERVICE (Some ORDER_READ) LOW;
    _read "get_customer_profile" CUSTOMER_SERVICE (Some CUSTOMER_READ) LOW;
    _read "search_orders" CUSTOMER_SERVICE (Some ORDER_READ) LOW;
    _read "lookup_dispute" CUSTOMER_SERVICE (Some CASE_READ) LOW;
    _read "check_dispute_eligibility" CUSTOMER_SERVICE (Some CASE_READ) MEDIUM;
    _read "get_knowledge_article" KNOWLEDGE None LOW;
    _read "get_fraud_alert" FRAUD_OPERATIONS (Some FRAUD_ALERT_READ) LOW;
    _read "get_account_transactions" FRAUD_OPERATIONS (Some TRANSACTION_READ) MEDIUM;
    _read "check_device_fingerprint" FRAUD_OPERATIONS (Some DEVICE_READ) MEDIUM;
    _action "issue_refund" CUSTOMER_SERVICE REFUND_WRITE HIGH true;
    _action "issue_store_credit" CUSTOMER_SERVICE REFUND_WRITE HIGH false;
    _action "update_case_status" CUSTOMER_SERVICE CASE_WRITE MEDIUM false;
    _action "file_eft_dispute" CUSTOMER_SERVICE CASE_WRITE REGULATED_TIER false;
    _action "issue_provisional_credit" CUSTOMER_SERVICE REFUND_WRITE REGULATED_TIER false;
    _action "escalate_to_supervisor" SHARED_OPERATIONS ESCALATION_CREATE MEDIUM false;
    _action "add_case_note" SHARED_OPERATIONS CASE_WRITE MEDIUM false;
    _action "flag_account" FRAUD_OPERATIONS ACCOUNT_FLAG HIGH false;
    _action "submit_sar" FRAUD_OPERATIONS SAR_SUBMIT REGULATED_TIER false;
    _action "close_alert" FRAUD_OPERATIONS FRAUD_ALERT_WRITE HIGH false ].

Definition TOOL_CATALOG : dict ToolControl := map (λ e, (tl_name e, e)) _ENTRIES.

(** [TOOL_CATALOG[name]] *)
Definition control_of (name : string) : result ToolControl :=
  match dget name TOOL_CATALOG with Some c => inr c | None => inl (KeyError name) end.

(** A registered function, known by its [__module__] ([""] when it has none). *)
Record Callable := mkCallable { fn_name : string; fn_module : string }.

Fixpoint select_tools (tool_map : dict Callable) (production : bool) (names : list string) :
    result (list Callable) :=
  match names with
  | [] => inr []
  | name :: names' =>
      (let? control := control_of name in
       let? tool := match dget name tool_map with
                    | Some t => inr t | None => inl (KeyError name) end in
       ensure negb (tl_proposal_only control &&
                    negb (String.eqb (fn_module tool) "workflow_engine.tools.action_proposals")) else
         (ValueError ("Consequential model tool " +:+ name +:+ " is not a proposal-only wrapper")) in
       let? rest := select_tools tool_map production names' in
       inr (if negb production || tl_production_model_enabled control then tool :: rest else rest))%wf
  end.

Definition select_model_tools (tool_map : dict Callable) (production : bool) :
    result (list Callable) :=
  select_tools tool_map production (sorted_strs (dkeys tool_map)).

(** [name for name in names if not TOOL_CATALOG[name].production_model_enabled] *)
Fixpoint frozen_actions (names : list string) : result (list string) :=
  match names with
  | [] => inr []
  | name :: names' =>
      (let? control := control_of name in
       let? rest := frozen_actions names' in
       inr (if tl_production_model_enabled control then rest else name :: rest))%wf
  end.

Definition production_safety_instruction (tool_map : dict Callable) : result string :=
  (let? frozen := frozen_actions (sorted_strs (dkeys tool_map)) in
   inr match frozen with
       | [] => ""
       | _ =>
           "PRODUCTION SAFETY FREEZE: The following actions are unavailable in this "
             +:+ "channel: " +:+ join ", " frozen +:+ ". Do not call, simulate, or imply "
             +:+ "execution of these actions. Never claim that a frozen action succeeded. "
             +:+ "You may gather information with available read tools, then clearly explain "
             +:+ "that an authorized human workflow is required to complete the action."
       end)%wf.

(** ** The check every tool makes *)


(** [set(v)], as the list of its elements. *)
Definition py_set (v : value) : result (list value) :=
  (let? l := py_list v in
   ensure forallb hashable l else (TypeError "unhashable type") in
   inr l)%wf.

Definition authorize_tool (tool_name : string) (state : dict value) (customer_id : option string) :
    result unit :=
  (let? control := control_of tool_name in
   let? permissions := py_set (dget_or "actor_permissions" (VList []) state) in
   let self_service :=
     tl_self_service_allowed control &&
     py_eqb (dget_none "actor_role" state) (VStr "customer") &&
     truthy (dget_none "customer_id" state) in
   ensure negb match tl_required_permission control with
               | Some required =>
                   negb (existsb (py_eqb (VStr (permission_value required))) permissions) &&
                   negb self_service
               | None => false
               end else
     (AuthorizationError ("Tool '" +:+ tool_name +:+ "' is not authorized for this actor")
        (option_map permission_value (tl_required_permission control))) in
   ensure negb match customer_id with
               | Some c => negb (py_eqb (dget_none "customer_id" state) (VStr c))
               | None => false
               end else
     (AuthorizationError "Tool customer does not match the authenticated session customer" None) in
   inr tt)%wf.

(** ** The proposal tools *)

Definition proposed_message : string :=
  "The action has been proposed but not executed. The application will "
    +:+ "show the customer or operator an authoritative confirmation card.".

Definition intent_of (action : string) (arguments : dict value)
    (resource : option (string * string)) : dict value :=
  [("action", VStr action); ("arguments", VDict arguments)] ++
  match resource with
  | Some (t, i) =>
      if str_truthy (Some t) && str_truthy (Some i)
      then [("resource", VDict [("resource_type", VStr t); ("resource_id", VStr i)])] else []
  | None => []
  end.

Definition _queue (action : string) (arguments : dict value) (resource : option (string * string))
    (state : dict value) : result (dict value * dict value) :=
  (let? _ := authorize_tool action state None in
   let? intents := py_list (dget_or "pending_action_intents" (VList []) state) in
   let intent := VDict (intent_of action arguments resource) in
   let intents := if existsb (λ i, py_eqb i intent) intents then intents else intents ++ [intent] in
   inr (dset "pending_action_intents" (VList intents) state,
        [("status", VStr "confirmation_required"); ("action", VStr action);
         ("message", VStr proposed_message)]))%wf.

(** [dict(v)]: a mapping, or an iterable of pairs. *)
Definition py_pair (v : value) : result (string * value) :=
  match v with
  | VList [VStr k; x] => inr (k, x)
  | _ => inl (TypeError "cannot convert dictionary update sequence element")
  end.
Fixpoint py_pairs (l : list value) (d : dict value) : result (dict value) :=
  match l with
  | [] => inr d
  | v :: l' => (let? p := py_pair v in py_pairs l' (dset p.1 p.2 d))%wf
  end.
Definition py_dict (v : value) : result (dict value) :=
  match v with
  | VDict d => inr d
  | VList l => py_pairs l []
  | VStr "" => inr []
  | _ => inl (TypeError "object is not iterable")
  end.

(** A call of a proposal tool, with its arguments. *)
Inductive ProposalTool :=
  | T_issue_refund (order_id reason : string)
  | T_issue_store_credit (order_id reason : string)
  | T_update_case_status (case_id status notes : string)
  | T_file_eft_dispute (customer_id transaction_id dispute_type : string) (amount : value)
      (merchant transaction_date reason : string) (account_id : option string)
      (payment_method : string)
  | T_issue_provisional_credit (dispute_id : string)
  | T_escalate_to_supervisor (case_id reason priority : string)
  | T_add_case_note (case_id note : string)
  | T_flag_account (account_id reason action : string)
  | T_submit_sar (account_id alert_id findings : string)
  | T_close_alert (alert_id resolution : string).

Definition tool_name (t : ProposalTool) : string :=
  match t with
  | T_issue_refund _ _ => "issue_refund" | T_issue_store_credit _ _ => "issue_store_credit"
  | T_update_case_status _ _ _ => "update_case_status"
  | T_file_eft_dispute _ _ _ _ _ _ _ _ _ => "file_eft_dispute"
  | T_issue_provisional_credit _ => "issue_provisional_credit"
  | T_escalate_to_supervisor _ _ _ => "escalate_to_supervisor"
  | T_add_case_note _ _ => "add_case_note" | T_flag_account _ _ _ => "flag_account"
  | T_submit_sar _ _ _ => "submit_sar" | T_close_alert _ _ => "close_alert"
  end.

Definition issue_refund (order_id reason : string) :=
  _queue "issue_refund" [("order_id", VStr order_id); ("reason", VStr reason)]
    (Some ("order", order_id)).
Definition issue_store_credit (order_id reason : string) :=
  _queue "issue_store_credit" [("order_id", VStr order_id); ("reason", VStr reason)]
    (Some ("order", order_id)).
Definition update_case_status (case_id status notes : string) :=
  _queue "update_case_status"
    [("case_id", VStr case_id); ("target_status", VStr status); ("reason", VStr notes)] None.
Definition file_eft_dispute (customer_id transaction_id dispute_type : string) (amount : value)
    (merchant transaction_date reason : string) (account_id : option string)
    (payment_method : string) :=
  _queue "file_eft_dispute"
    [ ("customer_id", VStr customer_id); ("transaction_id", VStr transaction_id);
      ("amount", amount); ("dispute_type", VStr dispute_type); ("merchant", VStr merchant);
      ("transaction_date", VStr transaction_date); ("reason", VStr reason);
      ("account_id", match account_id with Some a => VStr a | None => VNone end);
      ("payment_method", VStr payment_method) ]
    (Some ("transaction", transaction_id)).
Definition issue_provisional_credit (dispute_id : string) (state : dict value) :
    result (dict value * dict value) :=
  (let? dispute := py_dict (dget_or "dispute_data" (VDict []) state) in
   _queue "issue_provisional_credit"
     [ ("customer_id", dget_none "customer_id" state); ("dispute_id", VStr dispute_id);
       ("amount", dget_none "amount" dispute) ]
     (Some ("dispute", dispute_id)) state)%wf.
Definition escalate_to_supervisor (case_id reason priority : string) :=
  _queue "escalate_to_supervisor"
    [("case_id", VStr case_id); ("reason", VStr reason); ("priority", VStr priority)] None.
Definition add_case_note (case_id note : string) :=
  _queue "add_case_note" [("case_id", VStr case_id); ("note", VStr note)] None.
Definition flag_account (account_id reason action : string) :=
  _queue "flag_account"
    [("account_id", VStr account_id); ("reason", VStr reason); ("restriction", VStr action)]
    (Some ("account", account_id)).
Definition submit_sar (account_id alert_id findings : string) :=
  _queue "submit_sar"
    [ ("account_id", VStr account_id); ("alert_id", VStr alert_id);
      ("narrative_ref", VStr ("conversation-state:" +:+ alert_id +:+ ":findings")) ]
    (Some ("fraud_alert", alert_id)).
Definition close_alert (alert_id resolution : string) :=
  _queue "close_alert" [("alert_id", VStr alert_id); ("resolution", VStr resolution)]
    (Some ("fraud_alert", alert_id)).

Definition call_tool (t : ProposalTool) : dict value → result (dict value * dict value) :=
  match t with
  | T_issue_refund o r => issue_refund o r
  | T_issue_store_credit o r => issue_store_credit o r
  | T_update_case_status c s n => update_case_status c s n
  | T_file_eft_dispute c t ty a m d r acc p => file_eft_dispute c t ty a m d r acc p
  | T_issue_provisional_credit d => issue_provisional_credit d
  | T_escalate_to_supervisor c r p => escalate_to_supervisor c r p
  | T_add_case_note c n => add_case_note c n
  | T_flag_account a r x => flag_account a r x
  | T_submit_sar a al f => submit_sar a al f
  | T_close_alert a r => close_alert a r
  end.
