(* ===== verification/ToolProps.v ===== *)
(** * Properties of the tools a model may call *)

From S2P Require Import Prelude PyValue ActionSpecs Auth ActionService ToolCatalog.

(** [if len(TOOL_CATALOG) != len(_ENTRIES)]: no name is listed twice. *)
Lemma tool_names_unique : NoDup (dkeys TOOL_CATALOG).
Proof. apply (decide_by_eval (NoDup _)). vm_compute. reflexivity. Qed.

(** The tools that must only propose are the actions of the engine, under the
    permission the engine demands for them; every tool is open to the model, in
    production too. *)
Definition control_ok (p : string * ToolControl) : bool :=
  let (name, c) := p in
  eqb (tl_proposal_only c) (dhas name ACTION_SPECIFICATIONS) &&
  eqb (tl_consequential c) (tl_proposal_only c) && tl_production_model_enabled c &&
  (negb (tl_proposal_only c) ||
   bool_decide (tl_required_permission c = dget name ACTION_PERMISSIONS)).

Lemma catalog_ok : forallb control_ok TOOL_CATALOG = true.
Proof. vm_compute. reflexivity. Qed.

Lemma control_lookup name c : dget name TOOL_CATALOG = Some c → control_ok (name, c) = true.
Proof.
  intros Hc%dget_elem_of. pose proof catalog_ok as Hall. rewrite forallb_forall in Hall.
  apply Hall. by apply list_elem_of_In.
Qed.

Lemma control_facts name c :
  dget name TOOL_CATALOG = Some c →
  tl_proposal_only c = dhas name ACTION_SPECIFICATIONS ∧ tl_consequential c = tl_proposal_only c ∧
  tl_production_model_enabled c = true ∧
  (tl_proposal_only c = true → tl_required_permission c = dget name ACTION_PERMISSIONS).
Proof.
  intros Hc. pose proof (control_lookup name c Hc) as Hok. unfold control_ok in Hok.
  apply andb_true_iff in Hok as [Hok Hp]. apply andb_true_iff in Hok as [Hok Hen].
  apply andb_true_iff in Hok as [Hprop Hcons]. apply eqb_prop in Hprop, Hcons. split_and!; try done.
  intros Hpo. rewrite Hpo in Hp. by apply bool_decide_eq_true in Hp.
Qed.

Lemma every_action_has_tool : forallb (λ n, dhas n TOOL_CATALOG) (dkeys ACTION_SPECIFICATIONS) = true.
Proof. vm_compute. reflexivity. Qed.

(** The condition on one entry of a tool map. *)
Definition classified (name : string) (tool : Callable) : Prop :=
  ∃ c, dget name TOOL_CATALOG = Some c ∧
    (dhas name ACTION_SPECIFICATIONS = true →
     fn_module tool = "workflow_engine.tools.action_proposals" ∧
     tl_required_permission c = dget name ACTION_PERMISSIONS).

Lemma select_tools_spec m production names tools :
  (∀ n, n ∈ names → n ∈ dkeys m) →
  select_tools m production names = inr tools ↔
  (∀ name tool, name ∈ names → dget name m = Some tool → classified name tool) ∧
  tools = omap (λ n, dget n m) names.
Proof.
  revert tools; induction names as [|n names IH]; intros tools Hn; cbn.
  { split; [intros [= <-]; split; [|done]|intros [_ ->]; done]. by intros ? ? ?%not_elem_of_nil. }
  assert (∀ n', n' ∈ names → n' ∈ dkeys m) as Hn' by (intros n' ?; apply Hn; by right).
  assert (is_Some (dget n m)) as [t Ht] by (apply elem_of_dkeys, Hn; left). rewrite Ht. cbn.
  unfold control_of. destruct (dget n TOOL_CATALOG) as [c|] eqn:Hc; cbn.
  2: { split; [done|]. intros [Hall _]. destruct (Hall n t ltac:(left) Ht) as (c & ? & _). congruence. }
  destruct (control_facts n c Hc) as (Hprop & _ & Hen & Hperm).
  destruct (negb (tl_proposal_only c && _)) eqn:Hm; cbn.
  - assert (classified n t) as Hcl.
    { exists c. split; [done|]. intros Ha. apply negb_true_iff, andb_false_iff in Hm as [Hm|Hm];
        [congruence|]. apply negb_false_iff, String.eqb_eq in Hm. split; [done|].
      apply Hperm. congruence. }
    destruct (select_tools m production names) as [e|rest] eqn:E; cbn.
    + split; [done|]. intros [Hall ->].
      assert ((inl e : result (list Callable)) = inr (omap (λ n, dget n m) names)) as Hd; [|done].
      apply IH; [done|]. split; [|done]. intros n' t' Hin. apply Hall. by right.
    + destruct (proj1 (IH rest Hn') eq_refl) as [Hall Hrest].
      rewrite Hen, orb_true_r.
      split.
      * intros [= <-]. split; [|by rewrite Hrest].
        intros n' t' [->|Hin]%elem_of_cons Hget; [by rewrite Ht in Hget; injection Hget as <-|].
        by apply Hall.
      * intros [_ ->]. by rewrite Hrest.
  - split; [done|]. intros [Hall _]. destruct (Hall n t ltac:(left) Ht) as (c' & Hc' & Hact).
    rewrite Hc in Hc'. injection Hc' as <-. apply negb_false_iff, andb_true_iff in Hm as [Hp Hm].
    destruct Hact as [Hmod _]; [congruence|]. rewrite Hmod in Hm. done.
Qed.

(** The tools given to a model: the selection succeeds exactly when every
    registered name is classified in the catalog and every consequential action
    of the engine is registered as its proposal-only wrapper, under the permission
    the engine demands; it then gives the registered tools, in the order of their
    names, in production as elsewhere. *)
Theorem model_tools_only_propose m production tools :
  select_model_tools m production = inr tools ↔
  (∀ name tool, dget name m = Some tool → classified name tool) ∧
  tools = omap (λ n, dget n m) (sorted_strs (dkeys m)).
Proof.
  unfold select_model_tools. assert (sorted_strs (dkeys m) ≡ₚ dkeys m) as Hp
    by apply merge_sort_Permutation.
  rewrite select_tools_spec by (intros n; by rewrite Hp). split; intros [Hall ->]; split; try done.
  - intros n t Ht. apply (Hall n t); [|done]. rewrite Hp, elem_of_dkeys. by exists t.
  - intros n t _. apply Hall.
Qed.

(** ** The check every tool makes *)

Definition holds_permission (p : Permission) (state : dict value) : Prop :=
  ∃ permissions, py_set (dget_or "actor_permissions" (VList []) state) = inr permissions ∧
    existsb (py_eqb (VStr (permission_value p))) permissions = true.

(** A customer acting on their own behalf. *)
Definition is_customer (state : dict value) : Prop :=
  py_eqb (dget_none "actor_role" state) (VStr "customer") = true ∧
  truthy (dget_none "customer_id" state) = true.

Lemma authorize_tool_ok name state customer_id :
  authorize_tool name state customer_id = inr tt →
  ∃ c, dget name TOOL_CATALOG = Some c ∧
    (∀ p, tl_required_permission c = Some p →
       holds_permission p state ∨ (tl_self_service_allowed c = true ∧ is_customer state)) ∧
    (∀ i, customer_id = Some i → py_eqb (dget_none "customer_id" state) (VStr i) = true).
Proof.
  unfold authorize_tool, control_of. destruct (dget name TOOL_CATALOG) as [c|]; [|done]. cbn [rbind].
  destruct (py_set _) as [e|ps] eqn:Hps; [done|]. cbn [rbind].
  destruct (negb match tl_required_permission c with Some _ => _ | None => _ end) eqn:Hp; [|done].
  destruct (negb match customer_id with Some _ => _ | None => _ end) eqn:Hc; [|done]. intros _.
  exists c. split; [done|]. split.
  - intros p Hreq. rewrite Hreq in Hp. apply negb_true_iff, andb_false_iff in Hp as [Hp|Hp];
      apply negb_false_iff in Hp; [left; by exists ps|right]. by reflect_bools.
  - intros i ->. by apply negb_true_iff, negb_false_iff in Hc.
Qed.

(** Only the refund is open to a customer's own session. *)
Lemma self_service_refund name c :
  dget name TOOL_CATALOG = Some c → tl_self_service_allowed c = true → name = "issue_refund".
Proof.
  intros Hc Hs. apply dget_elem_of in Hc.
  assert (forallb (λ p : string * ToolControl,
    negb (tl_self_service_allowed p.2) || String.eqb p.1 "issue_refund") TOOL_CATALOG = true) as Hall
    by (vm_compute; reflexivity).
  rewrite forallb_forall in Hall. specialize (Hall _ (proj1 (list_elem_of_In _ _) Hc)). cbn in Hall.
  rewrite Hs in Hall. by apply String.eqb_eq.
Qed.

(** ** The proposal tools *)

Definition queue_key : string := "pending_action_intents".

(** What a call of a proposal tool amounts to. *)
Lemma call_tool_queue t state r :
  call_tool t state = inr r →
  ∃ arguments resource, _queue (tool_name t) arguments resource state = inr r.
Proof.
  destruct t; cbn [call_tool tool_name]; try (by eauto).
  unfold issue_provisional_credit. destruct (py_dict _) as [e|d]; [done|]. cbn. eauto.
Qed.

(** A proposal tool never executes: it changes nothing of the session but the
    queue of pending intents, adds at most one intent to its end (none when an
    equal one waits), for the action the tool is named after, answers that
    confirmation is required, and does so only in a session whose actor holds the
    permission the engine demands for the action, or a customer's own session
    asking for a refund. *)
Theorem proposal_tools_only_queue t state state' reply :
  call_tool t state = inr (state', reply) →
  (∀ k, k ≠ queue_key → dget k state' = dget k state) ∧
  (∃ waiting arguments resource,
     let intent := VDict (intent_of (tool_name t) arguments resource) in
     py_list (dget_or queue_key (VList []) state) = inr waiting ∧
     (dget queue_key state' = Some (VList (waiting ++ [intent])) ∨
      dget queue_key state' = Some (VList waiting) ∧
      existsb (λ i, py_eqb i intent) waiting = true)) ∧
  dget "status" reply = Some (VStr "confirmation_required") ∧
  (∃ p, dget (tool_name t) ACTION_PERMISSIONS = Some p ∧
     (holds_permission p state ∨ (tool_name t = "issue_refund" ∧ is_customer state))).
Proof.
  intros (arguments & resource & Hq)%call_tool_queue. unfold _queue in Hq.
  destruct (authorize_tool _ _ _) as [e|[]] eqn:Ha; [done|]. cbn [rbind] in Hq.
  destruct (py_list _) as [e|waiting] eqn:Hl; [done|]. cbn [rbind] in Hq. injection Hq as <- <-.
  split; [intros k Hk; by apply dget_dset_ne|]. split.
  { exists waiting, arguments, resource. split; [done|]. rewrite dget_dset_eq.
    destruct (existsb _ waiting) eqn:E; [by right|by left]. }
  split; [done|].
  apply authorize_tool_ok in Ha as (c & Hc & Hp & _).
  assert (is_Some (dget (tool_name t) ACTION_PERMISSIONS)) as [p Hperm] by (destruct t; vm_compute; eauto).
  exists p. split; [done|].
destruct (control_facts _ _ Hc) as (Hprop & _ & _ & Hreq).
  assert (tl_proposal_only c = true) as Hpo by (rewrite Hprop; destruct t; vm_compute; reflexivity).
  destruct (Hp p) as [?|[Hs ?]]; [by rewrite Hreq|by left|].
  right. split; [|done]. by eapply self_service_refund.
Qed.

(** ** Witnesses *)

Definition demo_tools : dict Callable :=
  [ ("lookup_order", mkCallable "lookup_order" "workflow_engine.tools.crm_tools");
    ("issue_refund", mkCallable "issue_refund" "workflow_engine.tools.action_proposals") ].

(** The direct implementation of the refund is refused. *)
Example direct_refund_refused :
  select_model_tools
    [("issue_refund", mkCallable "issue_refund" "workflow_engine.tools.crm_tools")] true =
  inl (ValueError "Consequential model tool issue_refund is not a proposal-only wrapper").
Proof. vm_compute. reflexivity. Qed.

Definition demo_session : dict value :=
  [("customer_id", VStr "CUST-1"); ("actor_role", VStr "customer")].
Definition demo_asked : dict value * dict value :=
  match call_tool (T_issue_refund "ORD-1" "damaged") demo_session with
  | inr r => r | inl _ => ([], []) end.

Example proposal_tools_only_queue_witness :
  dget "status" demo_asked.2 = Some (VStr "confirmation_required") ∧
  length demo_asked.1 = 3.
Proof.
  split; [|vm_compute; reflexivity].
  refine (proj1 (proj2 (proj2 (proposal_tools_only_queue (T_issue_refund "ORD-1" "damaged")
            demo_session demo_asked.1 demo_asked.2 _)))).
  vm_compute. reflexivity.
Defined.
