(* ===== verification/ProcedureFiles.v ===== *)
(** * The files of procedures ([procedures/loader.py], [procedures/registry.py])

    What [yaml.safe_load] returns is any value, and the loader checks little of it:
    which keys there are, and that references name steps.  Here the loader, the
    instruction builder, the tool names and the registry work on values, with the
    exceptions Python raises at those of another type.  Parsing is a parameter: a
    file is the value it parses to, or the exception; a value is of one of JSON's
    types, so no date, and the keys of a mapping are texts.  [Procedures] types the
    procedures whose values are those of the schema.  Then: which tools a procedure
    names, what the loader guarantees of what it lets through and what it does not,
    the schema under which nothing raises later, and that the loader does with the
    procedures of [Procedures] what it does there. *)

From Stdlib Require Import SpecFloat Strings.Ascii.
From stdpp Require Import pretty.
From S2P Require Import Prelude PyValue PyString AuditTrail Procedures.

Local Open Scope wf_scope.

(** ** Python on values of unknown type *)

Definition raises_attribute {A} : result A := inl (OtherError "AttributeError").

(** [v.strip()], [v.lower()], [v.startswith(p)] *)
Definition py_strip (v : value) : result string :=
  match v with VStr s => inr (str_strip s) | _ => raises_attribute end.
Definition py_starts (p : string) (v : value) : result bool :=
  match v with VStr s => inr (starts_with p s) | _ => raises_attribute end.

(** [sep.join(v)] *)
Definition str_item (v : value) : result string :=
  match v with VStr s => inr s | _ => inl (TypeError "sequence item: expected str instance") end.
Definition py_join (sep : string) (v : value) : result string :=
  let? l := py_list v in let? l := mapr str_item l in inr (PyValue.join sep l).

(** [u < v], numbers by their exact values *)
Definition float_num (f : float) : option (Z * Z) :=   (* f = fst / snd *)
  match f with
  | S754_zero _ => Some (0, 1)%Z
  | S754_finite s m e =>
      let v := if s then Zneg m else Zpos m in
      Some (if (0 <=? e)%Z then (v * 2 ^ e, 1)%Z else (v, 2 ^ (- e))%Z)
  | _ => None
  end.
Definition zf_ltb (z : Z) (f : float) : bool :=
  match float_num f with
  | Some (n, d) => (z * d <? n)%Z
  | None => match f with S754_infinity false => true | _ => false end
  end.
Definition fz_ltb (f : float) (z : Z) : bool :=
  match float_num f with
  | Some (n, d) => (n <? z * d)%Z
  | None => match f with S754_infinity true => true | _ => false end
  end.
Definition py_ltb (u v : value) : result bool :=
  match u, v with
  | VStr s, VStr t => inr (negb (String.leb t s))
  | VFloat f, VFloat g => inr (f_ltb f g)
  | VFloat f, _ =>
      match as_int v with
      | Some z => inr (fz_ltb f z) | None => inl (TypeError "'<' not supported") end
  | _, VFloat g =>
      match as_int u with
      | Some z => inr (zf_ltb z g) | None => inl (TypeError "'<' not supported") end
  | _, _ =>
      match as_int u, as_int v with
      | Some x, Some y => inr (x <? y)%Z
      | _, _ => inl (TypeError "'<' not supported")
      end
  end.

(** [sorted(s)] of hashable values: a text and a number, or [None] and anything,
    cannot be compared, and any order of comparisons meets such a pair. *)
Fixpoint py_insert (x : value) (l : list value) : result (list value) :=
  match l with
  | [] => inr [x]
  | y :: l' =>
      let? later := py_ltb y x in
      if later : bool then let? l' := py_insert x l' in inr (y :: l') else inr (x :: y :: l')
  end.
Definition py_sorted (l : list value) : result (list value) :=
  fold_result (λ acc x, py_insert x acc) [] l.

(** A set of values: [s.add(v)], [s.update(l)], [v in s] *)
Definition set_add (s : list value) (v : value) : result (list value) :=
  ensure hashable v else (TypeError "unhashable type") in
  inr (if existsb (py_eqb v) s then s else s ++ [v]).
Definition set_update (s : list value) (l : list value) : result (list value) := fold_result set_add s l.
Definition set_has (v : value) (s : list value) : result bool :=
  ensure hashable v else (TypeError "unhashable type") in inr (existsb (py_eqb v) s).

Fixpoint each {A} (f : A → result unit) (l : list A) : result unit :=
  match l with [] => inr tt | x :: l' => let? _ := f x in each f l' end.

(** [if k in v: f(v[k])] *)
Definition if_in {A} (k : string) (v : value) (otherwise : A) (f : value → result A) : result A :=
  let? there := py_in k v in
  if there : bool then let? x := py_item k v in f x else inr otherwise.

Section loader.
Context `{Render}.

(** ** [validate_procedure] *)

Definition check_target (valid_targets : list value) (sid : value) (what : string) (target : value) :
    result unit :=
  let? known := set_has target valid_targets in
  ensure known else (ValueError ("Step '" +:+ py_str sid +:+ "' has " +:+ what +:+ "='" +:+ py_str target
                                   +:+ "' which is not a valid step ID or 'end'")) in
  inr tt.

(** [if key in step and step[key]: for b in step[key]: if "next_step" in b: ...] *)
Definition check_branches (valid_targets : list value) (sid : value) (key kind : string) (step : value) :
    result unit :=
  if_in key step tt (λ branches,
    if truthy branches then
      let? l := py_list branches in
      each (λ b, if_in "next_step" b tt
        (check_target valid_targets sid (kind +:+ " with next_step"))) l
    else inr tt).

Definition needs (key : string) (message : string) (v : value) : result unit :=
  let? there := py_in key v in ensure there else (ValueError message) in inr tt.

Definition validate_step (valid_targets : list value) (step : value) : result unit :=
  let? _ := needs "id" "Step missing 'id' field" step in
  let? sid := py_item "id" step in
  let? _ := needs "instruction" ("Step '" +:+ py_str sid +:+ "' missing 'instruction' field") step in
  let? _ := needs "action" ("Step '" +:+ py_str sid +:+ "' missing 'action' field") step in
  let? action := py_item "action" step in
  let? _ := if py_eqb action (VStr "tool_call") then
              needs "tool" ("Step '" +:+ py_str sid +:+ "' has action 'tool_call' but no 'tool' field") step
            else inr tt in
  let? _ := each (λ field, if_in field step tt (check_target valid_targets sid field))
              ["next_step"; "on_success"; "on_failure"] in
  let? _ := check_branches valid_targets sid "conditions" "condition" step in
  check_branches valid_targets sid "options" "option" step.

(** [{step["id"] for step in steps}] *)
Definition add_step_id (ids : list value) (step : value) : result (list value) :=
  let? i := py_item "id" step in set_add ids i.

Definition validate_procedure (procedure : dict value) : result bool :=
  let? steps := py_item "steps" (VDict procedure) in
  let? l := py_list steps in
  let? step_ids := fold_result add_step_id [] l in
  let? _ := each (validate_step (step_ids ++ [VStr "end"])) l in
  inr true.

(** ** [load_procedure], after the file was parsed *)
Definition load_procedure (data : value) : result (dict value) :=
  let missing := ValueError "Invalid procedure file: missing 'procedure' key" in
  ensure truthy data else missing in
  let? there := py_in "procedure" data in
  ensure there else missing in
  let? procedure := py_item "procedure" data in
  let? _ := each (λ field, needs field ("Procedure missing required field '" +:+ field +:+ "'") procedure)
              ["id"; "name"; "description"; "steps"] in
  let? steps := py_item "steps" procedure in
  ensure truthy steps else (ValueError "Procedure has no steps") in
  let? n := py_len steps in
  ensure negb (Nat.eqb n 0) else (ValueError "Procedure has no steps") in
  match procedure with
  | VDict procedure => let? _ := validate_procedure procedure in inr procedure
  | _ => inl (TypeError "indices must be integers or slices")
  end.

(** ** [build_agent_instructions] *)

Definition arrow : string := "  → ".

(** [cond.get("if", cond.get("condition", ""))], [opt.get("label", "")] *)
Definition condition_text (b : value) : result value :=
  let? condition := py_get "condition" (VStr "") b in py_get "if" condition b.
Definition option_label (b : value) : result value := py_get "label" (VStr "") b.

Definition branch_line (text : value → result value) (prefix : string) (b : value) : result string :=
  let? t := text b in
  let? target := py_get "next_step" (VStr "end") b in
  inr ("    - " +:+ prefix +:+ py_str t +:+ " → go to " +:+ py_str target).

(** [if key in step and step[key]: heading, and a line for each branch] *)
Definition branch_lines (key heading prefix : string) (text : value → result value) (step : value) :
    result (list string) :=
  if_in key step [] (λ branches,
    if truthy branches then
      let? l := py_list branches in
      let? lines := mapr (branch_line text prefix) l in
      inr ((arrow +:+ heading) :: lines)
    else inr []).

Definition target_line (key text : string) (step : value) : result (list string) :=
  if_in key step [] (λ target, inr [arrow +:+ text +:+ py_str target]).

Definition step_lines (i : nat) (step : value) : result (list string) :=
  let? sid := py_item "id" step in
  let? instruction := py_item "instruction" step in
  let? instruction := py_strip instruction in
  let? action := py_item "action" step in
  let acts a := py_eqb action (VStr a) in
  let? tool :=
    if acts "tool_call" then
      if_in "tool" step [] (λ tool,
        let? success := target_line "on_success" "If successful, proceed to: " step in
        let? failure := target_line "on_failure" "If it fails, go to: " step in
        inr ((arrow +:+ "Use the `" +:+ py_str tool +:+ "` tool to complete this step.")
               :: success ++ failure))
    else inr [] in
  let? collect :=
    if acts "collect_info" then
      if_in "required_info" step [] (λ info,
        let? info_list := py_join ", " info in
        inr [ arrow +:+ "You must collect: " +:+ info_list;
              arrow +:+ "IMPORTANT: If this information is already present in the user's message, "
                +:+ "skip collection and immediately proceed to the next step." ])
    else inr [] in
  let? conditions :=
    if acts "evaluate" then
      branch_lines "conditions" "Evaluate the following conditions:" "If " condition_text step
    else inr [] in
  let? options := branch_lines "options" "Present these options to the user:" "" option_label step in
  let? next :=
    if_in "next_step" step [] (λ target,
      inr (if acts "tool_call" || acts "evaluate" then []
           else if py_eqb target (VStr "end")
           then [arrow +:+ "This is the final step. End the conversation."]
           else [arrow +:+ "Next step: " +:+ py_str target])) in
  inr ([ "### Step " +:+ pretty i +:+ ": " +:+ py_str sid; instruction ]
         ++ tool ++ collect ++ conditions ++ options ++ next ++ [""]).

Fixpoint steps_lines (i : nat) (steps : list value) : result (list string) :=
  match steps with
  | [] => inr []
  | s :: steps' =>
      let? lines := step_lines i s in
      let? rest := steps_lines (S i) steps' in
      inr (lines ++ rest)
  end.

Definition state_tracking : list string :=
  [ "## State Tracking"; "As you progress through the procedure:";
    "- Store relevant data from tool calls in the conversation state";
    "- Keep track of which steps you have completed";
    "- Reference previously gathered information when needed"; "" ].

Definition build_agent_instructions (procedure : dict value) (persona : string) : result string :=
  let? name := py_item "name" (VDict procedure) in
  let? description := py_item "description" (VDict procedure) in
  let? steps := py_item "steps" (VDict procedure) in
  let? steps := py_list steps in
  let? lines := steps_lines 1 steps in
  inr (PyValue.join line_feed
    ([ persona; ""; "## Procedure: " +:+ py_str name; py_str description; ""; "## Steps to Follow";
       "Follow these steps in order, using the branching logic described:"; "" ]
     ++ lines ++ state_tracking)).
End loader.

(** ** [get_procedure_tools] *)

Definition add_step_tools (tools : list value) (step : value) : result (list value) :=
  let? tools := if_in "tool" step tools (set_add tools) in
  if_in "tools" step tools (λ more,
    match more with VList l => set_update tools l | _ => inr tools end).

Definition get_procedure_tools (procedure : dict value) : result (list value) :=
  let? steps := py_list (dget_or "steps" (VList []) procedure) in
  let? tools := fold_result add_step_tools [] steps in
  py_sorted tools.

(** ** [ProcedureRegistry] *)

Record ProcedureRegistry := mkRegistry {
  pr_procedures : list (value * dict value); pr_intent_map : dict value
}.

(** [for intent in ...: self._intent_map[intent.lower()] = proc_id], up to the one
    that raises *)
Fixpoint index_intents (proc_id : value) (intents : list value) (m : dict value) : dict value :=
  match intents with
  | VStr intent :: intents' => index_intents proc_id intents' (dset (str_lower intent) proc_id m)
  | _ => m
  end.

(** One file.  Whatever is raised is reported and caught: a procedure is entered
    before its intents are. *)
Definition load_file `{Render} (rg : ProcedureRegistry) (file : result value) : ProcedureRegistry :=
  match rbind file load_procedure with
  | inl _ => rg
  | inr procedure =>
      let proc_id := dget_none "id" procedure in
      if hashable proc_id then
        mkRegistry (vset proc_id procedure (pr_procedures rg))
          (match py_list (dget_or "trigger_intents" (VList []) procedure) with
           | inr intents => index_intents proc_id intents (pr_intent_map rg)
           | inl _ => pr_intent_map rg
           end)
      else rg
  end.

(** [load_all], over the files of the directory in the order of their names. *)
Definition load_all `{Render} (files : list (result value)) : ProcedureRegistry :=
  fold_left load_file files (mkRegistry [] []).

Definition get_procedure (procedure_id : string) (rg : ProcedureRegistry) : option (dict value) :=
  vget (VStr procedure_id) (pr_procedures rg).

(** [[proc for proc_id, proc in ... if proc_id.startswith(domain)]] *)
Fixpoint of_domain (domain : string) (l : list (value * dict value)) : result (list (dict value)) :=
  match l with
  | [] => inr []
  | (proc_id, procedure) :: l' =>
      let? mine := py_starts domain proc_id in
      let? rest := of_domain domain l' in
      inr (if mine : bool then procedure :: rest else rest)
  end.
Definition get_procedures_for_domain (domain : string) (rg : ProcedureRegistry) :
    result (list (dict value)) := of_domain domain (pr_procedures rg).

Definition get_all_trigger_intents (rg : ProcedureRegistry) : dict value := pr_intent_map rg.

Definition get_procedure_tool_names (procedure_id : string) (rg : ProcedureRegistry) :
    result (list value) :=
  match get_procedure procedure_id rg with Some p => get_procedure_tools p | None => inr [] end.

(** ** Folds and sets *)

Lemma rbind_inr {A B} (r : result A) (k : A → result B) y :
  rbind r k = inr y → ∃ x, r = inr x ∧ k x = inr y.
Proof. destruct r as [e|x]; [done|]. cbn. by exists x. Qed.

Lemma each_ok {A} (f : A → result unit) l : each f l = inr tt ↔ ∀ x, x ∈ l → f x = inr tt.
Proof.
  induction l as [|x l IH]; cbn.
  - by split; [intros _ ? ?%not_elem_of_nil|].
  - destruct (f x) as [e|[]] eqn:Hx; cbn.
    + split; [done|]. intros Hall. rewrite <- Hx. apply Hall. by left.
    + rewrite IH. split; [intros Hall y [->|?]%elem_of_cons; auto|]. intros Hall y ?. apply Hall. by right.
Qed.

(** A fold that succeeds step by step under an invariant *)
Lemma fold_result_ok {A S} (f : S → A → result S) (I : S → Prop) acc l :
  I acc → (∀ s x, x ∈ l → I s → ∃ s', f s x = inr s' ∧ I s') →
  ∃ s', fold_result f acc l = inr s' ∧ I s'.
Proof.
  revert acc; induction l as [|x l IH]; intros acc Hacc Hf; [by exists acc|]. cbn.
  destruct (Hf acc x ltac:(left) Hacc) as (s1 & -> & H1). cbn. apply IH; [done|].
  intros s y Hy. apply Hf. by right.
Qed.

Lemma text_eqb n v : py_eqb (VStr n) v = true ↔ v = VStr n.
Proof.
  split; [|intros ->; cbn; apply String.eqb_refl].
  destruct v; cbn; try done. by intros ->%String.eqb_eq.
Qed.

Lemma set_add_texts s v s' n : set_add s v = inr s' → VStr n ∈ s' ↔ VStr n ∈ s ∨ v = VStr n.
Proof.
  unfold set_add. destruct (hashable v); [|done]. intros [= <-].
  destruct (existsb (py_eqb v) s) eqn:He.
  - split; [by left|]. intros [?| ->]; [done|]. apply existsb_exists in He as (x & Hx & E).
    apply text_eqb in E as ->. by apply list_elem_of_In.
  - rewrite elem_of_app, list_elem_of_singleton. by split; intros [?|?]; auto.
Qed.

Lemma set_update_texts l s s' n : set_update s l = inr s' → VStr n ∈ s' ↔ VStr n ∈ s ∨ VStr n ∈ l.
Proof.
  unfold set_update. revert s; induction l as [|v l IH]; intros s; cbn.
  - intros [= <-]. split; [by left|]. by intros [?|?%not_elem_of_nil].
  - intros (s1 & H1 & H2)%rbind_inr. rewrite (IH _ H2), (set_add_texts _ _ _ _ H1), elem_of_cons. naive_solver.
Qed.

(** Sets of texts: adding succeeds and keeps them so. *)
Definition is_text (v : value) : bool := match v with VStr _ => true | _ => false end.
Definition texts (l : list value) : Prop := Forall (λ v, is_text v = true) l.

Lemma set_add_ok s v : texts s → is_text v = true → ∃ s', set_add s v = inr s' ∧ texts s'.
Proof.
  intros Hs Hv. destruct v; try done. unfold set_add. cbn [hashable]. eexists. split; [done|].
  destruct (existsb _ s); [done|]. apply Forall_app. by split; [|constructor].
Qed.
Lemma set_update_ok l s : texts s → texts l → ∃ s', set_update s l = inr s' ∧ texts s'.
Proof.
  intros Hs Hl. apply fold_result_ok; [done|]. intros t v Hv Ht.
  apply set_add_ok; [done|]. by apply (proj1 (Forall_forall _ _) Hl).
Qed.

(** ** [sorted] *)

Lemma py_insert_perm x l l' : py_insert x l = inr l' → l' ≡ₚ x :: l.
Proof.
  revert l'; induction l as [|y l IH]; intros l'; cbn; [by intros [= <-]|].
  intros (later & _ & H)%rbind_inr. destruct later; [|by injection H as <-].
  apply rbind_inr in H as (l1 & H1 & [= <-]). rewrite (IH _ H1). apply perm_swap.
Qed.
Lemma py_sorted_perm l l' : py_sorted l = inr l' → l' ≡ₚ l.
Proof.
  unfold py_sorted. assert (∀ acc, fold_result (λ acc x, py_insert x acc) acc l = inr l' → l' ≡ₚ acc ++ l) as Hgen;
    [|by apply Hgen].
  induction l as [|x l IH]; intros acc; cbn; [intros [= <-]; by rewrite app_nil_r|].
  intros (acc' & Hx & H)%rbind_inr. rewrite (IH _ H), (py_insert_perm _ _ _ Hx).
  by rewrite <- Permutation_middle.
Qed.
Lemma py_insert_ok x l : is_text x = true → texts l → ∃ l', py_insert x l = inr l' ∧ texts l'.
Proof.
  intros Hx. destruct x; try done. induction 1 as [|y l Hy Hl IH]; cbn; [eexists; split; [done|by repeat constructor]|].
  destruct y; try done. cbn. destruct (negb _); [|eexists; split; [done|by repeat constructor]].
  destruct IH as (l' & -> & Hl'). cbn. eexists. split; [done|by constructor].
Qed.
Lemma py_sorted_ok l : texts l → is_ok (py_sorted l) = true.
Proof.
  intros Hl. unfold py_sorted.
  destruct (fold_result_ok (λ acc x, py_insert x acc) texts [] l) as (s & -> & _); [constructor| |done].
  intros s x Hx Hs. apply py_insert_ok; [|done]. by apply (proj1 (Forall_forall _ _) Hl).
Qed.

(** ** The tools a procedure names *)

(** A step names a tool under [tool], or in the list under [tools]. *)
Definition names_tool (step : value) (n : string) : Prop :=
  ∃ d, step = VDict d ∧
    (dget "tool" d = Some (VStr n) ∨ ∃ l, dget "tools" d = Some (VList l) ∧ VStr n ∈ l).
Definition steps_of (procedure : dict value) : list value :=
  match py_list (dget_or "steps" (VList []) procedure) with inr l => l | inl _ => [] end.

Lemma if_in_inr {A} k v (o : A) f y :
  if_in k v o f = inr y →
  (py_in k v = inr false ∧ y = o) ∨ ∃ d x, v = VDict d ∧ dget k d = Some x ∧ f x = inr y.
Proof.
  unfold if_in. intros (there & Hin & H)%rbind_inr. destruct there; [|left; by injection H as ->].
  apply rbind_inr in H as (x & Hx & H). right. destruct v; try done. cbn in Hx.
  destruct (dget k d) eqn:E; [|done]. injection Hx as ->. by eauto.
Qed.
Lemma not_in_get k d x : py_in k (VDict d) = inr false → dget k d ≠ Some x.
Proof. cbn. unfold dhas. by destruct (dget k d). Qed.

Lemma tool_field d s s' n :
  if_in "tool" (VDict d) s (set_add s) = inr s' →
  VStr n ∈ s' ↔ VStr n ∈ s ∨ dget "tool" d = Some (VStr n).
Proof.
  intros [[Hno ->]|(d' & x & [= <-] & Hx & H)]%if_in_inr.
  - split; [by left|]. intros [?|Hd]; [done|]. by destruct (not_in_get _ _ _ Hno Hd).
  - rewrite (set_add_texts _ _ _ _ H), Hx. naive_solver.
Qed.

Lemma add_step_tools_texts s v s' n :
  add_step_tools s v = inr s' → VStr n ∈ s' ↔ VStr n ∈ s ∨ names_tool v n.
Proof.
  unfold add_step_tools, names_tool. intros (s1 & H1 & H2)%rbind_inr. destruct v as [| | | | | |d].
  7: { apply tool_field with (n := n) in H1.
       apply if_in_inr in H2 as [[Hno ->]|(d' & x & [= <-] & Hx & H2)].
       - rewrite H1. split; [intros [?|?]; [by left|right; exists d; auto]|].
         intros [?|(d' & [= <-] & [?|(l & Hl & _)])]; auto. by destruct (not_in_get _ _ _ Hno Hl).
       - assert (VStr n ∈ s' ↔ VStr n ∈ s1 ∨ ∃ l, x = VList l ∧ VStr n ∈ l) as ->.
         { destruct x; try (injection H2 as <-; naive_solver).
           rewrite (set_update_texts _ _ _ _ H2). naive_solver. }
         rewrite H1. split.
         + intros [[?|?]|(l & -> & ?)]; [by left|right; exists d; auto|right; exists d; eauto].
         + intros [?|(d' & [= <-] & [?|(l & Hl & ?)])]; [auto..|]. right. exists l. split; [congruence|done]. }
  all: apply if_in_inr in H2 as [[_ ->]|(d & x & [=] & _)]; apply if_in_inr in H1 as [[_ ->]|(d & x & [=] & _)].
  all: naive_solver.
Qed.

(** The names that are texts: those a step names, each step a mapping. *)
Lemma procedure_tools_texts procedure names n :
  get_procedure_tools procedure = inr names →
  VStr n ∈ names ↔ ∃ step, step ∈ steps_of procedure ∧ names_tool step n.
Proof.
  unfold get_procedure_tools, steps_of. intros (l & -> & (s & Hf & Hs)%rbind_inr)%rbind_inr.
  rewrite (py_sorted_perm _ _ Hs). clear Hs. assert (∀ acc, fold_result add_step_tools acc l = inr s →
    VStr n ∈ s ↔ VStr n ∈ acc ∨ ∃ step, step ∈ l ∧ names_tool step n) as Hgen.
  { clear. induction l as [|v l IH]; intros acc; cbn.
    - intros [= <-]. split; [by left|]. by intros [?|(? & ?%not_elem_of_nil & _)].
    - intros (acc' & Hv & H)%rbind_inr. rewrite (IH _ H), (add_step_tools_texts _ _ _ _ Hv).
      setoid_rewrite elem_of_cons. naive_solver. }
  rewrite (Hgen [] Hf). split; [intros [?%not_elem_of_nil|]; [done|done]|by right].
Qed.

(** ** What the loader guarantees *)

(** A step that passes is a mapping with the three keys. *)
Definition complete_step (v : value) : Prop :=
  ∃ d, v = VDict d ∧ is_Some (dget "id" d) ∧ is_Some (dget "instruction" d) ∧ is_Some (dget "action" d).

Section loaded.
Context `{Render}.

Lemma needs_dict k m d : needs k m (VDict d) = inr tt → is_Some (dget k d).
Proof. unfold needs. cbn. unfold dhas. by destruct (dget k d). Qed.

Lemma validate_step_complete valid v : validate_step valid v = inr tt → complete_step v.
Proof.
  unfold validate_step. intros ([] & H1 & (sid & Hid & ([] & H2 & ([] & H3 & _)%rbind_inr)%rbind_inr)%rbind_inr)%rbind_inr.
  destruct v as [| | | | | |d]; try done. exists d.
  by split_and!; [|eapply needs_dict..].
Qed.

Lemma load_procedure_inr data p :
  load_procedure data = inr p →
  (∀ k, k ∈ ["id"; "name"; "description"; "steps"] → is_Some (dget k p)) ∧
  Forall complete_step (steps_of p).
Proof.
  unfold load_procedure. destruct (truthy data); [|done].
  intros (there & _ & Hr)%rbind_inr. destruct there; [|done].
  apply rbind_inr in Hr as (proc & _ & ([] & Hk & (steps & Hs & Hr)%rbind_inr)%rbind_inr).
  destruct (truthy steps); [|done]. apply rbind_inr in Hr as (n & _ & Hr).
  destruct (negb _); [|done]. destruct proc as [| | | | | |d]; try done.
  apply rbind_inr in Hr as (b & Hv & [= <-]). split.
  - intros k Hin. rewrite each_ok in Hk. eapply needs_dict, Hk, Hin.
  - unfold validate_procedure in Hv. rewrite Hs in Hv. cbn [rbind] in Hv.
    apply rbind_inr in Hv as (l & Hl & (ids & _ & ([] & Heach & _)%rbind_inr)%rbind_inr).
    unfold steps_of. cbn in Hs. unfold dget_or. destruct (dget "steps" d); [|done].
    injection Hs as ->. rewrite Hl. rewrite each_ok in Heach. apply Forall_forall.
    intros v Hin. by eapply validate_step_complete, Heach.
Qed.
End loaded.

(** ** The schema *)

(** A key that is absent or whose value passes *)
Definition absent_or (ok : value → bool) (k : string) (d : dict value) : bool :=
  match dget k d with Some v => ok v | None => true end.
Definition is_texts (v : value) : bool := match v with VList l => forallb is_text l | _ => false end.
Definition is_branches (v : value) : bool :=
  match v with
  | VList l => forallb (λ b, match b with VDict _ => true | _ => false end) l
  | _ => negb (truthy v)
  end.

Definition typed_step (step : value) : bool :=
  match step with
  | VDict d =>
      absent_or is_text "instruction" d && absent_or is_text "tool" d && absent_or is_texts "tools" d &&
      absent_or is_texts "required_info" d && absent_or is_branches "conditions" d &&
      absent_or is_branches "options" d
  | _ => false
  end.

(** The types the code relies on, where the loader looks at keys only; texts that
    are only shown -- names, descriptions, ids of steps, targets -- may be anything. *)
Definition typed_procedure (procedure : dict value) : bool :=
  absent_or is_text "id" procedure && absent_or is_texts "trigger_intents" procedure &&
  match dget "steps" procedure with Some (VList l) => forallb typed_step l | _ => false end.

Lemma is_texts_list v : is_texts v = true → ∃ l, v = VList l ∧ texts l.
Proof.
  destruct v as [| | | | |l|]; try done. cbn. rewrite forallb_forall. intros Hl. exists l. split; [done|].
  apply Forall_forall. intros x Hx. by apply Hl, list_elem_of_In.
Qed.
Lemma texts_join sep l : texts l → is_ok (py_join sep (VList l)) = true.
Proof.
  intros Hl. unfold py_join. cbn [py_list rbind].
  assert (is_ok (mapr str_item l) = true) as Hm; [|by destruct (mapr str_item l)].
  induction Hl as [|v l Hv Hl IH]; [done|]. cbn. destruct v; try done. cbn. by destruct (mapr str_item l).
Qed.

Lemma typed_steps p l :
  typed_procedure p = true → dget "steps" p = Some l → ∃ l', l = VList l' ∧ steps_of p = l' ∧
    ∀ v, v ∈ l' → typed_step v = true.
Proof.
  unfold typed_procedure, steps_of, dget_or. intros [_ Hs]%andb_true_iff E. rewrite E in Hs |- *.
  destruct l as [| | | | |l|]; try done.
  exists l. split_and!; [done..|]. rewrite forallb_forall in Hs. intros v Hv. by apply Hs, list_elem_of_In.
Qed.

(** Reading a key that is there or not *)
Lemma if_in_ok {A} k d (o : A) f :
  (∀ x, dget k d = Some x → is_ok (f x) = true) → is_ok (if_in k (VDict d) o f) = true.
Proof.
  unfold if_in. cbn. unfold dhas. intros Hf. destruct (dget k d) as [x|] eqn:E; cbn; [|done]. by apply Hf.
Qed.
Lemma rbind_ok {A B} (r : result A) (k : A → result B) :
  is_ok r = true → (∀ x, r = inr x → is_ok (k x) = true) → is_ok (rbind r k) = true.
Proof. destruct r as [e|x]; [done|]. intros _ Hk. by apply Hk. Qed.
Lemma is_ok_inr {A} (r : result A) : is_ok r = true → ∃ x, r = inr x.
Proof. destruct r; [done|by eexists]. Qed.

Section building.
Context `{Render}.

Lemma branch_lines_ok key heading prefix text d :
  (∀ e, ∃ v, text (VDict e) = inr v) → absent_or is_branches key d = true →
  is_ok (branch_lines key heading prefix text (VDict d)) = true.
Proof.
  intros Htext Hd. unfold branch_lines. apply if_in_ok. intros x Hx.
  unfold absent_or in Hd. rewrite Hx in Hd. destruct (truthy x) eqn:Ht; [|done].
  assert (∃ l, x = VList l) as [l ->] by (unfold is_branches in Hd; destruct x; rewrite ?Ht in Hd; try done; by eexists).
  cbn [is_branches py_list rbind] in *.
  assert (is_ok (mapr (branch_line text prefix) l) = true) as Hm; [|by destruct (mapr _ l)].
  clear Hx Ht. induction l as [|b l IH]; [done|]. cbn in Hd. apply andb_true_iff in Hd as [Hb Hl].
  destruct b as [| | | | | |e]; try done. cbn [mapr]. unfold branch_line at 1.
  destruct (Htext e) as [v ->]. cbn. specialize (IH Hl). by destruct (mapr _ l).
Qed.

Lemma step_lines_ok i v : complete_step v → typed_step v = true → is_ok (step_lines i v) = true.
Proof.
  intros (d & -> & [sid Hid] & [t Ht] & [a Ha]). cbn [typed_step]. rewrite !andb_true_iff.
  intros [[[[[Hin _] _] Hinfo] Hc] Ho]. unfold absent_or in Hin. rewrite Ht in Hin.
  destruct t as [| | | |t| |]; try done. unfold step_lines. cbn [py_item]. rewrite Hid, Ht, Ha. cbn [rbind py_strip].
  apply rbind_ok; [|intros tool _].
  { destruct (py_eqb a _); [|done]. apply if_in_ok. intros x _. apply rbind_ok; [by apply if_in_ok|intros ? _].
    by apply rbind_ok; [apply if_in_ok|]. }
  apply rbind_ok; [|intros collect _].
  { destruct (py_eqb a _); [|done]. apply if_in_ok. intros x Hx. unfold absent_or in Hinfo. rewrite Hx in Hinfo.
    apply is_texts_list in Hinfo as (l & -> & Hl). by apply rbind_ok; [apply texts_join|]. }
  apply rbind_ok; [|intros conditions _].
  { destruct (py_eqb a _); [|done]. by apply branch_lines_ok; [intros e; by eexists|]. }
  apply rbind_ok; [by apply branch_lines_ok; [intros e; by eexists|]|intros options _].
  by apply rbind_ok; [apply if_in_ok|].
Qed.

Lemma steps_lines_ok i l :
  Forall complete_step l → (∀ v, v ∈ l → typed_step v = true) → is_ok (steps_lines i l) = true.
Proof.
  intros Hc. revert i; induction Hc as [|v l Hv Hl IH]; intros i Ht; [done|]. cbn [steps_lines].
  apply rbind_ok; [by apply step_lines_ok, Ht; [|left]|intros lines _].
  apply rbind_ok; [|done]. apply IH. intros x Hx. apply Ht. by right.
Qed.

(** What the loader let through, if it is typed, is turned into instructions. *)
Lemma instructions_ok data p persona :
  load_procedure data = inr p → typed_procedure p = true →
  is_ok (build_agent_instructions p persona) = true.
Proof.
  intros [Hk Hc]%load_procedure_inr Ht. unfold build_agent_instructions. cbn [py_item].
  destruct (Hk "name") as [n ->]; [set_solver|]. destruct (Hk "description") as [ds ->]; [set_solver|].
  destruct (Hk "steps") as [v Hs]; [set_solver|]. rewrite Hs. cbn [rbind].
  destruct (typed_steps _ _ Ht Hs) as (l & -> & Hl & Hall). cbn [py_list rbind].
  rewrite Hl in Hc. by apply rbind_ok; [apply steps_lines_ok|].
Qed.

Lemma add_step_tools_ok s v : texts s → typed_step v = true → ∃ s', add_step_tools s v = inr s' ∧ texts s'.
Proof.
  intros Hs. destruct v as [| | | | | |d]; try done. cbn [typed_step]. rewrite !andb_true_iff.
  intros [[[[[_ Ht] Hts] _] _] _]. unfold add_step_tools.
  assert (∃ s1, if_in "tool" (VDict d) s (set_add s) = inr s1 ∧ texts s1) as (s1 & -> & H1).
  { unfold if_in, absent_or in *. cbn. unfold dhas. destruct (dget "tool" d) as [x|] eqn:E; cbn; [|by exists s].
    by apply set_add_ok. }
  cbn [rbind]. unfold if_in, absent_or in *. cbn. unfold dhas.
  destruct (dget "tools" d) as [x|] eqn:E; cbn; [|by exists s1].
  apply is_texts_list in Hts as (l & -> & Hl). by apply set_update_ok.
Qed.

Lemma tool_names_ok data p :
  load_procedure data = inr p → typed_procedure p = true →
  ∃ names, get_procedure_tools p = inr names ∧ texts names.
Proof.
  intros [Hk _]%load_procedure_inr Ht. destruct (Hk "steps") as [v Hs]; [set_solver|].
  destruct (typed_steps _ _ Ht Hs) as (l & -> & _ & Hall). unfold get_procedure_tools, dget_or. rewrite Hs.
  cbn [py_list rbind].
  destruct (fold_result_ok add_step_tools texts [] l) as (s & -> & Hts); [constructor| |].
  { intros t v Hv Htt. apply add_step_tools_ok; [done|by apply Hall]. }
  cbn [rbind]. destruct (is_ok_inr _ (py_sorted_ok s Hts)) as [names Hn]. exists names. split; [done|].
  unfold texts. by rewrite (py_sorted_perm _ _ Hn).
Qed.
End building.

(** ** The registry *)

Lemma elem_of_vset {V} k (x : V) d q : q ∈ vset k x d → q.2 = x ∨ q ∈ d.
Proof.
  induction d as [|[k' x'] d IH]; cbn; [intros ->%list_elem_of_singleton; by left|].
  destruct (py_eqb k k'); intros [->|Hq]%elem_of_cons; [by left|by right; right|by right; left|].
  destruct (IH Hq); [by left|by right; right].
Qed.
Lemma vset_keys {V} (ok : value → Prop) k (x : V) d :
  ok k → (∀ q, q ∈ d → ok q.1) → ∀ q, q ∈ vset k x d → ok q.1.
Proof.
  intros Hk. induction d as [|[k' x'] d IH]; cbn; intros Hd q.
  - by intros ->%list_elem_of_singleton.
  - destruct (py_eqb k k'); intros [->|Hq]%elem_of_cons.
    + apply (Hd (k', x')). by left.
    + apply Hd. by right.
    + apply (Hd (k', x')). by left.
    + apply IH; [|done]. intros p Hp. apply Hd. by right.
Qed.

(** Every entry is the procedure of a file that loads. *)
Definition of_files `{Render} (files : list (result value)) (p : dict value) : Prop :=
  ∃ file data, file ∈ files ∧ file = inr data ∧ load_procedure data = inr p.

Lemma load_all_entries `{Render} files (ok : value → Prop) :
  (∀ p, of_files files p → ok (dget_none "id" p)) →
  ∀ q, q ∈ pr_procedures (load_all files) → of_files files q.2 ∧ ok q.1.
Proof.
  intros Hok. unfold load_all. assert (∀ l rg, (∀ f, f ∈ l → f ∈ files) →
    (∀ q, q ∈ pr_procedures rg → of_files files q.2 ∧ ok q.1) →
    ∀ q, q ∈ pr_procedures (fold_left load_file l rg) → of_files files q.2 ∧ ok q.1) as Hgen.
  { induction l as [|f l IH]; intros rg Hl Hrg; [done|]. cbn. apply IH; [intros; apply Hl; by right|].
    unfold load_file. destruct f as [e|data]; cbn; [done|].
    destruct (load_procedure data) as [e|p] eqn:Hp; [done|].
    assert (of_files files p) as Hfile by (exists (inr data), data; split_and!; [apply Hl; left|done..]).
    destruct (hashable _); [|done]. cbn. intros q Hq. split.
    - destruct (elem_of_vset _ _ _ _ Hq) as [->|Hq']; [done|by apply Hrg].
    - revert q Hq. apply vset_keys; [by apply Hok|]. intros q Hq. by apply Hrg. }
  apply Hgen; [done|]. by intros q ?%not_elem_of_nil.
Qed.

Lemma of_domain_elem domain l procs p :
  of_domain domain l = inr procs → p ∈ procs → ∃ i, (i, p) ∈ l.
Proof.
  revert procs; induction l as [|[i q] l IH]; intros procs; cbn; [by intros [= <-] ?%not_elem_of_nil|].
  intros (mine & _ & (rest & Hr & [= <-])%rbind_inr)%rbind_inr. destruct mine.
  - intros [->|Hp]%elem_of_cons; [exists i; by left|]. destruct (IH _ Hr Hp) as [j ?]. exists j. by right.
  - intros Hp. destruct (IH _ Hr Hp) as [j ?]. exists j. by right.
Qed.
Lemma of_domain_ok domain l : (∀ q, q ∈ l → is_text q.1 = true) → is_ok (of_domain domain l) = true.
Proof.
  induction l as [|[i q] l IH]; intros Hl; [done|]. cbn.
  assert (is_text i = true) as Hi by (apply (Hl (i, q)); by left). destruct i; try done. cbn.
  assert (is_ok (of_domain domain l) = true) as Ho; [|by destruct (of_domain domain l)].
  apply IH. intros x Hx. apply Hl. by right.
Qed.

(** ** The procedures of the schema *)

(** The file of a typed procedure: a key that is missing has no entry. *)
Definition entry {A} (k : string) (enc : A → value) (x : option A) : dict value :=
  match x with Some a => [(k, enc a)] | None => [] end.
Definition text_list (l : list string) : value := VList (map VStr l).
Definition branch_data (key : string) (b : branch) : value :=
  VDict (entry key VStr (br_text b) ++ entry "next_step" VStr (br_next_step b)).
Definition step_data (s : step_def) : value :=
  VDict (entry "id" VStr (st_id s) ++ entry "instruction" VStr (st_instruction s)
    ++ entry "action" VStr (st_action s) ++ entry "tool" VStr (st_tool s)
    ++ entry "tools" text_list (st_tools s) ++ entry "next_step" VStr (st_next_step s)
    ++ entry "on_success" VStr (st_on_success s) ++ entry "on_failure" VStr (st_on_failure s)
    ++ entry "conditions" (λ l, VList (map (branch_data "if") l)) (st_conditions s)
    ++ entry "options" (λ l, VList (map (branch_data "label") l)) (st_options s)
    ++ entry "required_info" text_list (st_required_info s)).
Definition procedure_data (p : procedure) : dict value :=
  [ ("id", VStr (pd_id p)); ("name", VStr (pd_name p)); ("description", VStr (pd_description p));
    ("steps", VList (map step_data (pd_steps p))); ("trigger_intents", text_list (pd_trigger_intents p)) ].
Definition procedure_file (p : procedure) : value := VDict [("procedure", VDict (procedure_data p))].

Lemma dget_entry_ne {A} k k' (enc : A → value) x rest :
  String.eqb k k' = false → dget k (entry k' enc x ++ rest) = dget k rest.
Proof. intros Hk. destruct x; cbn; by rewrite ?Hk. Qed.
Lemma dget_entry_eq {A} k (enc : A → value) x rest :
  dget k rest = None → dget k (entry k enc x ++ rest) = option_map enc x.
Proof. intros Hr. destruct x; cbn; by rewrite ?String.eqb_refl. Qed.
Lemma dget_entry_last {A} k (enc : A → value) x : dget k (entry k enc x) = option_map enc x.
Proof. destruct x; cbn; by rewrite ?String.eqb_refl. Qed.
Lemma dget_entry_last_ne {A} k k' (enc : A → value) x :
  String.eqb k k' = false → dget k (entry k' enc x) = None.
Proof. intros Hk. destruct x; cbn; by rewrite ?Hk. Qed.

(** The entry of a key among the others *)
Ltac the_entry :=
  repeat (rewrite dget_entry_ne by reflexivity);
  first [apply dget_entry_last | by apply dget_entry_last_ne | apply dget_entry_eq; the_entry].

Section typed.
Context `{Render}.

Lemma if_in_entry {A B} k d (enc : A → value) (x : option A) (o : B) f :
  dget k d = option_map enc x →
  if_in k (VDict d) o f = match x with Some a => f (enc a) | None => inr o end.
Proof. unfold if_in. cbn. unfold dhas. intros ->. by destruct x. Qed.
Lemma needs_entry {A} k m d (enc : A → value) (x : option A) :
  dget k d = option_map enc x →
  needs k m (VDict d) = if is_some x then inr tt else inl (ValueError m).
Proof. unfold needs. cbn. unfold dhas. intros ->. by destruct x. Qed.
Lemma item_entry {A} k d (enc : A → value) (x : option A) :
  dget k d = option_map enc x →
  py_item k (VDict d) = match x with Some a => inr (enc a) | None => inl (KeyError k) end.
Proof. cbn. intros ->. by destruct x. Qed.

Context (ids : list string) (valid : list value).
Context (Hvalid : ∀ t, existsb (py_eqb (VStr t)) valid = bool_decide (t ∈ ids)).

Lemma check_target_typed sid what t :
  check_target valid (VStr sid) what (VStr t) = check_references ids sid [(what, Some t)].
Proof. unfold check_target, set_has. cbn [hashable]. rewrite Hvalid. cbn. by case_bool_decide. Qed.

Lemma check_references_app sid l1 l2 :
  check_references ids sid (l1 ++ l2) =
  rbind (check_references ids sid l1) (λ _, check_references ids sid l2).
Proof.
  induction l1 as [|[f [t|]] l1 IH]; cbn; [done| |done]. by case_bool_decide.
Qed.

(** One reference, under its key *)
Lemma reference_typed sid what k d (o : option string) :
  dget k d = option_map VStr o →
  if_in k (VDict d) tt (check_target valid (VStr sid) what) = check_references ids sid [(what, o)].
Proof. intros Hd. rewrite (if_in_entry _ _ _ _ _ _ Hd). destruct o; [apply check_target_typed|done]. Qed.

Lemma check_branches_typed sid key kind label d (o : option (list branch)) :
  dget key d = option_map (λ l, VList (map (branch_data label) l)) o → String.eqb "next_step" label = false →
  check_branches valid (VStr sid) key kind (VDict d) = check_references ids sid (branch_references kind o).
Proof.
  intros Hd Hl. unfold check_branches. rewrite (if_in_entry _ _ _ _ _ _ Hd).
  destruct o as [l|]; [|done].
  change (branch_references kind (Some l)) with (map (λ b, (kind +:+ " with next_step", br_next_step b)) l).
  destruct l as [|b0 l0] eqn:El; [done|]. rewrite <- El. replace (truthy (VList (map _ l))) with true by (by subst l).
  clear El. cbn [py_list rbind]. induction l as [|b l IH]; [done|]. cbn [map each].
  match goal with |- _ = check_references ids sid (?r :: ?rs) => change (r :: rs) with ([r] ++ rs) end.
  rewrite check_references_app, <- IH. f_equal. unfold branch_data.
  apply reference_typed. rewrite dget_entry_ne by done. apply dget_entry_last.
Qed.

Lemma validate_step_typed s : validate_step valid (step_data s) = Procedures.validate_step ids s.
Proof.
  unfold validate_step, Procedures.validate_step, step_data.
  match goal with |- context [VDict ?x] => set (d := x) end.
  assert (dget "id" d = option_map VStr (st_id s)) as Hid by (unfold d; the_entry).
  assert (dget "instruction" d = option_map VStr (st_instruction s)) as Hin by (unfold d; the_entry).
  assert (dget "action" d = option_map VStr (st_action s)) as Hac by (unfold d; the_entry).
  assert (dget "tool" d = option_map VStr (st_tool s)) as Hto by (unfold d; the_entry).
  assert (dget "next_step" d = option_map VStr (st_next_step s)) as Hn by (unfold d; the_entry).
  assert (dget "on_success" d = option_map VStr (st_on_success s)) as Hs by (unfold d; the_entry).
  assert (dget "on_failure" d = option_map VStr (st_on_failure s)) as Hf by (unfold d; the_entry).
  assert (dget "conditions" d = option_map (λ l, VList (map (branch_data "if") l)) (st_conditions s)) as Hc by (unfold d; the_entry).
  assert (dget "options" d = option_map (λ l, VList (map (branch_data "label") l)) (st_options s)) as Ho by (unfold d; the_entry).
  clearbody d. rewrite (needs_entry _ _ _ _ _ Hid), (item_entry _ _ _ _ Hid), (item_entry _ _ _ _ Hac).
  destruct (st_id s) as [sid|]; [|done]. cbn [is_some rbind].
  rewrite (needs_entry _ _ _ _ _ Hin), (needs_entry _ _ _ _ _ Hac), (needs_entry _ _ _ _ _ Hto). cbn [py_str].
  destruct (st_instruction s); [|done]. destruct (st_action s) as [a|]; [|done]. cbn [is_some rbind each].
  rewrite (reference_typed _ "next_step" _ _ _ Hn), (reference_typed _ "on_success" _ _ _ Hs),
    (reference_typed _ "on_failure" _ _ _ Hf), (check_branches_typed _ _ "condition" _ _ _ Hc eq_refl),
    (check_branches_typed _ _ "option" _ _ _ Ho eq_refl), !check_references_app.
  assert (py_eqb (VStr a) (VStr "tool_call") = ostr_eqb (Some a) (Some "tool_call")) as -> by done.
  change (reference_fields s) with
    ([("next_step", st_next_step s)] ++ [("on_success", st_on_success s)] ++ [("on_failure", st_on_failure s)]).
  rewrite !check_references_app.
  destruct (ostr_eqb _ _), (st_tool s); cbn [is_some negb andb rbind];
    repeat match goal with |- context [rbind (check_references ids sid ?l)] =>
      destruct (check_references ids sid l) as [?|[]]; [done|cbn [rbind]] end; done.
Qed.
End typed.

Section load_typed.
Context `{Render}.

Lemma add_step_id_typed acc s :
  add_step_id acc (step_data s) =
  match st_id s with Some i => set_add acc (VStr i) | None => inl (KeyError "id") end.
Proof.
  unfold add_step_id, step_data. erewrite item_entry by the_entry. by destruct (st_id s).
Qed.

Lemma step_ids_typed steps acc (ids : list string) :
  (∀ t, VStr t ∈ acc ↔ t ∈ ids) →
  match mapr step_id steps with
  | inl e => fold_result add_step_id acc (map step_data steps) = inl e
  | inr more => ∃ acc', fold_result add_step_id acc (map step_data steps) = inr acc' ∧
                  ∀ t, VStr t ∈ acc' ↔ t ∈ ids ++ more
  end.
Proof.
  revert acc ids; induction steps as [|s steps IH]; intros acc ids Hacc; cbn [mapr map fold_result].
  { exists acc. split; [done|]. intros t. by rewrite app_nil_r. }
  rewrite add_step_id_typed. unfold step_id at 1. destruct (st_id s) as [i|]; [|done].
  cbn [rbind]. destruct (set_add acc (VStr i)) as [e|acc1] eqn:Ha; [by unfold set_add in Ha|]. cbn [rbind].
  assert (∀ t, VStr t ∈ acc1 ↔ t ∈ ids ++ [i]) as H1.
  { intros t. rewrite (set_add_texts _ _ _ _ Ha), Hacc, elem_of_app, list_elem_of_singleton. naive_solver. }
  specialize (IH acc1 (ids ++ [i]) H1). destruct (mapr step_id steps) as [e|more]; cbn [rbind]; [exact IH|].
  destruct IH as (acc' & Hf & Hin). exists acc'. split; [exact Hf|]. intros t. by rewrite Hin, <- app_assoc.
Qed.

Lemma texts_known acc ids :
  (∀ t, VStr t ∈ acc ↔ t ∈ ids) →
  ∀ t, existsb (py_eqb (VStr t)) (acc ++ [VStr "end"]) = bool_decide (t ∈ ids ++ ["end"]).
Proof.
  intros Hin t. apply eq_true_iff_eq.
  rewrite bool_decide_eq_true, existsb_exists, elem_of_app, list_elem_of_singleton, <- Hin. split.
  - intros (x & Hx%list_elem_of_In & ->%text_eqb). apply elem_of_app in Hx as [?|Hx]; [by left|right].
    apply list_elem_of_singleton in Hx. congruence.
  - intros Ht. exists (VStr t). split; [|by apply text_eqb]. apply list_elem_of_In, elem_of_app.
    destruct Ht as [?| ->]; [by left|right; by apply list_elem_of_singleton].
Qed.

Lemma validate_steps_typed ids valid steps :
  (∀ t, existsb (py_eqb (VStr t)) valid = bool_decide (t ∈ ids)) →
  each (validate_step valid) (map step_data steps) = validate_steps ids steps.
Proof.
  intros Hv. induction steps as [|s steps IH]; [done|]. cbn [map each validate_steps].
  by rewrite (validate_step_typed _ _ Hv), IH.
Qed.

Lemma validate_procedure_typed p :
  validate_procedure (procedure_data p) = Procedures.validate_procedure p.
Proof.
  unfold validate_procedure, Procedures.validate_procedure.
  change (py_item "steps" (VDict (procedure_data p))) with
    (inr (VList (map step_data (pd_steps p))) : result value). cbn [rbind py_list].
  pose proof (step_ids_typed (pd_steps p) [] []) as Hids.
  assert (∀ t, VStr t ∈ ([] : list value) ↔ t ∈ ([] : list string)) as H0
    by (intros t; split; by intros ?%not_elem_of_nil).
  specialize (Hids H0). destruct (mapr step_id (pd_steps p)) as [e|ids]; [by rewrite Hids|].
  destruct Hids as (acc & -> & Hin). cbn [rbind].
  by rewrite (validate_steps_typed (ids ++ ["end"]) _ _ (texts_known _ _ Hin)).
Qed.

(** The loader does with the file of such a procedure what
    [Procedures.load_procedure] does with the procedure, failures included. *)
Theorem load_procedure_typed p :
  load_procedure (procedure_file p) =
  match Procedures.load_procedure p with inl e => inl e | inr _ => inr (procedure_data p) end.
Proof.
  unfold Procedures.load_procedure. destruct (pd_steps p) as [|s l] eqn:El.
  { rewrite bool_decide_eq_true_2 by done. unfold load_procedure, procedure_file, procedure_data. by rewrite El. }
  rewrite bool_decide_eq_false_2 by done. rewrite <- validate_procedure_typed.
  unfold load_procedure, procedure_file.
  change (py_item "procedure" (VDict [("procedure", VDict (procedure_data p))])) with
    (inr (VDict (procedure_data p)) : result value).
  assert (py_item "steps" (VDict (procedure_data p)) = inr (VList (step_data s :: map step_data l))) as Hs
    by (unfold procedure_data; by rewrite El).
  cbn -[validate_procedure procedure_data py_item]. rewrite Hs. cbn -[validate_procedure procedure_data].
  by destruct (validate_procedure (procedure_data p)).
Qed.
End load_typed.
