(* ===== verification/Agents.v ===== *)
(** * The agents ([agents/customer_service.py], [agents/fraud_ops.py],
      [agents/router.py])

    How the agents are put together from the loaded procedures: their instructions
    and the tools the model is given.  An agent is the record of the arguments the
    agent framework is called with; the personas are texts of the application.  Then:
    from which procedures they can be built, and that the model is given read tools
    and proposal wrappers only. *)

From stdpp Require Import pretty.
From S2P Require Import Prelude PyValue PyString ActionSpecs Auth ToolCatalog ToolProps Procedures ProcedureFiles.

(** ** The agents *)

Inductive Agent := mkAgent {
  ag_name : string; ag_description : string; ag_instruction : string;
  ag_tools : list Callable; ag_sub_agents : list Agent
}.

(** The functions of one module, by name *)
Definition from_module (m : string) (names : list string) : dict Callable :=
  map (λ n, (n, mkCallable n ("workflow_engine.tools." +:+ m))) names.

Definition cs_tool_map : dict Callable :=
  from_module "crm_tools" ["lookup_order"; "get_customer_profile"]
  ++ from_module "action_proposals" ["issue_refund"; "update_case_status"]
  ++ from_module "crm_tools" ["search_orders"]
  ++ from_module "action_proposals" ["escalate_to_supervisor"; "add_case_note"]
  ++ from_module "common_tools" ["get_knowledge_article"]
  ++ from_module "dispute_tools" ["lookup_dispute"; "check_dispute_eligibility"]
  ++ from_module "action_proposals"
       ["file_eft_dispute"; "issue_provisional_credit"; "issue_store_credit"].

Definition fraud_tool_map : dict Callable :=
  from_module "fraud_tools"
    ["get_fraud_alert"; "get_account_transactions"; "check_device_fingerprint"]
  ++ from_module "action_proposals"
       ["flag_account"; "submit_sar"; "close_alert"; "escalate_to_supervisor"; "add_case_note"].

Definition general_tool_map : dict Callable :=
  from_module "common_tools" ["get_knowledge_article"].

(** One turn of the loop over the procedures: the instructions, and the names of the
    tools its steps use. *)
Definition add_procedure `{Render} (acc : list string * list value) (procedure : dict value) :
    result (list string * list value) :=
  (let? text := build_agent_instructions procedure "" in
   let? tool_names := get_procedure_tools procedure in
   let? all_tool_names := set_update acc.2 tool_names in
   inr (acc.1 ++ [text], all_tool_names))%wf.

(** [{name: TOOL_MAP[name] for name in all_tool_names if name in TOOL_MAP}] *)
Definition requested_tools (tool_map : dict Callable) (all_tool_names : list value) : dict Callable :=
  omap (λ v, match v with
             | VStr n => option_map (λ t, (n, t)) (dget n tool_map)
             | _ => None
             end) all_tool_names.

(** [all_intents.extend(proc.get("trigger_intents", []))] *)
Definition add_intents (all_intents : list value) (procedure : dict value) : result (list value) :=
  (let? l := py_list (dget_or "trigger_intents" (VList []) procedure) in inr (all_intents ++ l))%wf.

Definition separator : string := line_feed +:+ "---" +:+ line_feed +:+ line_feed.

Section agents.
Context `{Render}.
Context (CS_PERSONA FRAUD_PERSONA ROUTER_INSTRUCTION GENERAL_INSTRUCTION GENERAL_DESCRIPTION : string).
(** [get_settings().is_production] *)
Context (production : bool).

(** What the two factories of the domains share. *)
Definition domain_agent (name domain persona before after : string) (tool_map : dict Callable)
    (rg : ProcedureRegistry) : result Agent :=
  (let? procs := get_procedures_for_domain domain rg in
   let? parts := fold_result add_procedure ([persona], []) procs in
   let requested := requested_tools tool_map parts.2 in
   let? tools := select_model_tools requested production in
   let? safety := if production then production_safety_instruction requested else inr "" in
   let? all_intents := fold_result add_intents [] procs in
   let? intents := py_join ", " (VList all_intents) in
   inr (mkAgent name (before +:+ intents +:+ after)
     (PyValue.join separator parts.1 +:+ (if production then separator +:+ safety else ""))
     tools []))%wf.

Definition create_customer_service_agent : ProcedureRegistry → result Agent :=
  domain_agent "customer_service_agent" "cs" CS_PERSONA
    "Handles customer service requests including: "
    (". Use this agent when a customer needs help with orders, refunds, "
       +:+ "returns, complaints, or general service issues.")
    cs_tool_map.

Definition create_fraud_ops_agent : ProcedureRegistry → result Agent :=
  domain_agent "fraud_ops_agent" "fraud" FRAUD_PERSONA
    "Handles fraud operations including: "
    (". Use this agent when an analyst needs to triage fraud alerts, "
       +:+ "investigate suspicious activity, or take action on flagged accounts.")
    fraud_tool_map.

Definition create_general_agent : result Agent :=
  (let? tools := select_model_tools general_tool_map production in
   inr (mkAgent "general_agent" GENERAL_DESCRIPTION GENERAL_INSTRUCTION tools []))%wf.

Definition create_router_agent (rg : ProcedureRegistry) : result Agent :=
  (let? cs_agent := create_customer_service_agent rg in
   let? fraud_agent := create_fraud_ops_agent rg in
   let? general_agent := create_general_agent in
   inr (mkAgent "router_agent"
          "Main router that directs users to the appropriate specialist agent."
          ROUTER_INSTRUCTION [] [cs_agent; fraud_agent; general_agent]))%wf.
End agents.

(** ** The tools *)

Definition proposals_module : string := "workflow_engine.tools.action_proposals".

(** A function a model may be given: listed in the catalog; the consequential
    actions as proposal wrappers, everything else from another module. *)
Definition offerable (name : string) (t : Callable) : bool :=
  match dget name TOOL_CATALOG with
  | Some control =>
      String.eqb (fn_name t) name &&
      eqb (tl_consequential control) (String.eqb (fn_module t) proposals_module)
  | None => false
  end.

Definition all_offerable (m : dict Callable) : Prop :=
  forallb (λ p, offerable p.1 p.2) m = true.

Lemma tool_maps_offerable :
  all_offerable cs_tool_map ∧ all_offerable fraud_tool_map ∧ all_offerable general_tool_map.
Proof. split_and!; vm_compute; reflexivity. Qed.

Lemma offerable_get m n t : all_offerable m → dget n m = Some t → offerable n t = true.
Proof.
  unfold all_offerable. rewrite forallb_forall. intros Hall Hn%dget_elem_of.
  by apply (Hall (n, t)), list_elem_of_In.
Qed.

Lemma offerable_classified n t : offerable n t = true → classified n t ∧ fn_name t = n.
Proof.
  unfold offerable, classified. destruct (dget n TOOL_CATALOG) as [c|] eqn:Hc; [|done].
  intros [Hn%String.eqb_eq Hm%eqb_prop]%andb_true_iff. split; [|done]. exists c. split; [done|].
  destruct (control_facts n c Hc) as (Hprop & Hcons & _ & Hperm). intros Ha.
  rewrite Ha in Hprop. rewrite Hcons, Hprop in Hm. symmetry in Hm. apply String.eqb_eq in Hm.
  split; [done|by apply Hperm].
Qed.

(** ** The tools of a domain *)

Lemma requested_get m names n t :
  dget n (requested_tools m names) = Some t ↔ VStr n ∈ names ∧ dget n m = Some t.
Proof.
  unfold requested_tools. induction names as [|v names IH]; cbn.
  { split; [done|]. by intros [?%not_elem_of_nil _]. }
  assert ((∀ n', v ≠ VStr n') ∨ ∃ n', v = VStr n') as [Hv|[n' ->]]
    by (destruct v; (by right; eexists) || (by left)).
  - replace (match v with VStr n0 => _ | _ => None end) with (None : option (string * Callable))
      by (destruct v; try done; by destruct (Hv s)).
    rewrite IH, elem_of_cons. split; [by intros []; auto|]. by intros [[Hn|?] ?]; [destruct (Hv n)|].
  - rewrite elem_of_cons. destruct (dget n' m) as [t'|] eqn:Ht; cbn; [destruct (String.eqb_spec n n') as [->|Hne]|];
      rewrite ?IH; naive_solver.
Qed.

(** The functions of a table that names ask for *)
Definition asked (m : dict Callable) (names : list value) (t : Callable) : Prop :=
  ∃ n, VStr n ∈ names ∧ dget n m = Some t.

Lemma select_requested m names production :
  all_offerable m →
  ∃ tools, select_model_tools (requested_tools m names) production = inr tools ∧
    ∀ t, t ∈ tools ↔ asked m names t.
Proof.
  intros Hm. eexists. split.
  - apply model_tools_only_propose. split; [|reflexivity]. intros n t [_ Ht]%requested_get. by apply offerable_classified, (offerable_get m).
  - intros t. rewrite list_elem_of_omap. unfold asked. split.
    + intros (n & _ & Hn%requested_get). by exists n.
    + intros (n & Hn & Ht). exists n.
      assert (dget n (requested_tools m names) = Some t) as Hd by (by apply requested_get).
      split; [|done]. unfold sorted_strs. rewrite merge_sort_Permutation. apply elem_of_dkeys. by exists t.
Qed.

Lemma frozen_ok names :
  (∀ n, n ∈ names → is_Some (dget n TOOL_CATALOG)) → is_ok (frozen_actions names) = true.
Proof.
  induction names as [|n names IH]; intros Hall; [done|]. cbn. unfold control_of.
  destruct (Hall n ltac:(left)) as [c ->]. cbn [rbind].
  assert (is_ok (frozen_actions names) = true) as Hr by (apply IH; intros; apply Hall; by right).
  by destruct (frozen_actions names).
Qed.

Lemma safety_ok m names :
  all_offerable m → is_ok (production_safety_instruction (requested_tools m names)) = true.
Proof.
  intros Hm. unfold production_safety_instruction.
  match goal with |- context [frozen_actions ?l] => pose proof (frozen_ok l) as Hf end.
  destruct (frozen_actions _); [|done]. apply Hf. intros n Hn.
  unfold sorted_strs in Hn. rewrite merge_sort_Permutation in Hn.
  apply elem_of_dkeys in Hn as [t [_ Ht]%requested_get].
  apply (offerable_get m) in Ht; [|done]. apply offerable_classified in Ht as [(c & Hc & _) _]. by exists c.
Qed.

(** ** The loops over the procedures *)

(** What the model is given for the domain: the functions of the table that a step
    of one of its procedures names. *)
Definition demanded (m : dict Callable) (procs : list (dict value)) (t : Callable) : Prop :=
  ∃ p step n, p ∈ procs ∧ step ∈ steps_of p ∧ names_tool step n ∧ dget n m = Some t.

Section loops.
Context `{Render}.

Lemma all_names procs parts names acc :
  fold_result add_procedure (parts, names) procs = inr acc →
  ∀ n, VStr n ∈ acc.2 ↔ VStr n ∈ names ∨ ∃ p step, p ∈ procs ∧ step ∈ steps_of p ∧ names_tool step n.
Proof.
  revert parts names; induction procs as [|p procs IH]; intros parts names; cbn.
  { intros [= <-] n. split; [by left|]. by intros [?|(? & ? & ?%not_elem_of_nil & _)]. }
  intros (acc1 & H1 & Hf)%rbind_inr n. unfold add_procedure in H1.
  apply rbind_inr in H1 as (text & _ & (tools & Ht & (all & Hu & [= <-])%rbind_inr)%rbind_inr).
  rewrite (IH _ _ Hf). cbn [fst snd] in Hu. rewrite (set_update_texts _ _ _ _ Hu), (procedure_tools_texts _ _ _ Ht).
  setoid_rewrite elem_of_cons. naive_solver.
Qed.

Lemma asked_demanded m procs persona acc t :
  fold_result add_procedure ([persona], []) procs = inr acc → asked m acc.2 t ↔ demanded m procs t.
Proof.
  intros Hf. unfold asked, demanded. setoid_rewrite (all_names _ _ _ _ Hf). split.
  - intros (n & [?%not_elem_of_nil|(p & st & ? & ? & ?)] & ?); [done|]. by exists p, st, n.
  - intros (p & st & n & ? & ? & ? & ?). exists n. split; [right; by exists p, st|done].
Qed.

(** Procedures that loaded and are typed *)
Definition sound (procs : list (dict value)) : Prop :=
  ∀ p, p ∈ procs → typed_procedure p = true ∧ ∃ data, load_procedure data = inr p.

Lemma add_procedures_ok procs persona :
  sound procs → ∃ acc, fold_result add_procedure ([persona], []) procs = inr acc.
Proof.
  intros Hp. destruct (fold_result_ok add_procedure (λ acc, texts acc.2) ([persona], []) procs)
    as (acc & Hf & _); [constructor| |by exists acc].
  intros [parts names] p Hin Hnames. destruct (Hp p Hin) as [Ht [data Hd]]. unfold add_procedure.
  destruct (is_ok_inr _ (instructions_ok data p "" Hd Ht)) as [text ->]. cbn [rbind].
  destruct (tool_names_ok data p Hd Ht) as (tools & -> & Htools). cbn [rbind].
  destruct (set_update_ok tools names Hnames Htools) as (all & Hu & Hall). cbn [fst snd]. rewrite Hu. by eexists.
Qed.

Lemma add_intents_ok procs : sound procs → ∃ l, fold_result add_intents [] procs = inr l ∧ texts l.
Proof.
  intros Hp. apply fold_result_ok; [constructor|]. intros l p Hin Hl. destruct (Hp p Hin) as [Ht _].
  unfold typed_procedure in Ht. apply andb_true_iff in Ht as [[_ Ht]%andb_true_iff _]. unfold add_intents.
  unfold absent_or in Ht. unfold dget_or. destruct (dget "trigger_intents" p) as [v|].
  - apply is_texts_list in Ht as (l' & -> & Hl'). eexists. split; [done|]. by apply Forall_app.
  - eexists. split; [done|]. by rewrite app_nil_r.
Qed.
End loops.

Section agents.
Context `{Render}.
Context (CS_PERSONA FRAUD_PERSONA ROUTER_INSTRUCTION GENERAL_INSTRUCTION GENERAL_DESCRIPTION : string).

(** Whatever the procedures, an agent that was built has the tools they demand. *)
Lemma domain_agent_tools name domain persona before after m rg production a :
  all_offerable m → domain_agent production name domain persona before after m rg = inr a →
  ∃ procs, get_procedures_for_domain domain rg = inr procs ∧ ∀ t, t ∈ ag_tools a ↔ demanded m procs t.
Proof.
  intros Hm. unfold domain_agent. intros (procs & Hp & (acc & Hf & Hr)%rbind_inr)%rbind_inr.
  destruct (select_requested m acc.2 production Hm) as (tools & Hs & Ht). cbv zeta in Hr. rewrite Hs in Hr.
  cbn [rbind] in Hr. apply rbind_inr in Hr as (safety & _ & (all & _ & (text & _ & [= <-])%rbind_inr)%rbind_inr).
  exists procs. split; [done|]. intros t. cbn. by rewrite Ht, (asked_demanded _ _ _ _ _ Hf).
Qed.

(** From typed procedures it is always built. *)
Lemma domain_agent_ok name domain persona before after m rg production :
  all_offerable m → (∀ q, q ∈ pr_procedures rg → is_text q.1 = true) →
  sound (map snd (pr_procedures rg)) →
  is_ok (domain_agent production name domain persona before after m rg) = true.
Proof.
  intros Hm Hkeys Hsound. unfold domain_agent.
  destruct (is_ok_inr _ (of_domain_ok domain _ Hkeys)) as [procs Hp]. unfold get_procedures_for_domain.
  rewrite Hp. cbn [rbind].
  assert (sound procs) as Hs.
  { intros p Hin. destruct (of_domain_elem _ _ _ _ Hp Hin) as [i Hi]. apply Hsound, list_elem_of_fmap. by exists (i, p). }
  destruct (add_procedures_ok procs persona Hs) as [acc ->]. cbn [rbind].
  destruct (select_requested m acc.2 production Hm) as (tools & -> & _). cbn [rbind].
  apply rbind_ok; [destruct production; [by apply safety_ok|done]|intros safety _].
  destruct (add_intents_ok procs Hs) as (l & -> & Hl). cbn [rbind].
  by apply rbind_ok; [apply texts_join|].
Qed.

(** A function that executes nothing: a read tool, or the wrapper that proposes. *)
Definition harmless (t : Callable) : Prop :=
  ∃ control, dget (fn_name t) TOOL_CATALOG = Some control ∧
    (tl_consequential control = true ↔ fn_module t = proposals_module).

Lemma demanded_harmless m procs t : all_offerable m → demanded m procs t → harmless t.
Proof.
  intros Hm (p & step & n & _ & _ & _ & Ht). apply (offerable_get m) in Ht; [|done].
  unfold offerable, harmless in *. destruct (dget n TOOL_CATALOG) as [c|] eqn:Hc; [|done].
  apply andb_true_iff in Ht as [->%String.eqb_eq Hq%eqb_prop]. exists c. split; [done|].
  rewrite Hq. apply String.eqb_eq.
Qed.

Lemma cs_tools_not_fraud procs t :
  demanded cs_tool_map procs t → fn_module t ≠ "workflow_engine.tools.fraud_tools".
Proof.
  intros (p & step & n & _ & _ & _ & Ht%dget_elem_of) Hm.
  assert (forallb (λ q : string * Callable, negb (String.eqb (fn_module q.2) "workflow_engine.tools.fraud_tools"))
    cs_tool_map = true) as Hall by (vm_compute; reflexivity).
  rewrite forallb_forall in Hall. specialize (Hall _ (proj1 (list_elem_of_In _ _) Ht)). cbn in Hall.
  by rewrite Hm in Hall.
Qed.

Abbreviation router production rg :=
  (create_router_agent CS_PERSONA FRAUD_PERSONA ROUTER_INSTRUCTION GENERAL_INSTRUCTION
     GENERAL_DESCRIPTION production rg).

Lemma router_ok production files :
  (∀ p, of_files files p → typed_procedure p = true) → is_ok (router production (load_all files)) = true.
Proof.
  intros Htyped. destruct tool_maps_offerable as (Hcs & Hfraud & _).
  assert (∀ q, q ∈ pr_procedures (load_all files) → of_files files q.2 ∧ is_text q.1 = true) as Hentries.
  { apply (load_all_entries files (λ v, is_text v = true)). intros p Hp. pose proof (Htyped p Hp) as Ht.
    unfold typed_procedure in Ht. apply andb_true_iff in Ht as [[Ht _]%andb_true_iff _].
    destruct Hp as (file & data & _ & _ & [Hk _]%load_procedure_inr). unfold absent_or in Ht. unfold dget_none, dget_or.
    destruct (Hk "id") as [i Hi]; [set_solver|]. by rewrite Hi in Ht |- *. }
  assert (sound (map snd (pr_procedures (load_all files)))) as Hsound.
  { intros p (q & -> & Hq)%list_elem_of_fmap. destruct (Hentries q Hq) as [Hfile _]. split; [by apply Htyped|].
    destruct Hfile as (file & data & _ & _ & Hd). by exists data. }
  assert (∀ q, q ∈ pr_procedures (load_all files) → is_text q.1 = true) as Hkeys by (intros q Hq; by apply Hentries).
  unfold create_router_agent, create_customer_service_agent, create_fraud_ops_agent.
  apply rbind_ok; [by apply domain_agent_ok|intros cs _]. apply rbind_ok; [by apply domain_agent_ok|intros fraud _].
  by destruct production.
Qed.

(** C19: Over any files of procedures, in production or not: if the agent tree is
    built, the router holds no tool; each specialist is given exactly the functions
    of its own table that a step of a procedure of its domain names, the assistant
    the knowledge search; so no agent is given a function that executes: a
    consequential action of the catalog is always its proposal wrapper, and the
    fraud tools reach the fraud agent only.  And the tree is built if every
    procedure that loads has values of the schema's types, which the loader does
    not check; a file that does not load is skipped. *)
Theorem agents_offer_only_proposals production (files : list (result value)) :
  let rg := load_all files in
  ((∀ p, of_files files p → typed_procedure p = true) → is_ok (router production rg) = true) ∧
  ∀ root, router production rg = inr root →
  ∃ cs fraud general cs_procs fraud_procs,
    ag_tools root = [] ∧ ag_sub_agents root = [cs; fraud; general] ∧
    get_procedures_for_domain "cs" rg = inr cs_procs ∧
    get_procedures_for_domain "fraud" rg = inr fraud_procs ∧
    (∀ t, t ∈ ag_tools cs ↔ demanded cs_tool_map cs_procs t) ∧
    (∀ t, t ∈ ag_tools fraud ↔ demanded fraud_tool_map fraud_procs t) ∧
    map fn_name (ag_tools general) = ["get_knowledge_article"] ∧
    (∀ a t, a ∈ [cs; fraud; general] → t ∈ ag_tools a → harmless t ∧
       (fn_module t = "workflow_engine.tools.fraud_tools" → a = fraud)).
Proof.
  intros rg. split; [apply router_ok|]. intros root. destruct tool_maps_offerable as (Hcs & Hfraud & _).
  unfold create_router_agent, create_customer_service_agent, create_fraud_ops_agent.
  intros (cs & Hc & (fr & Hf & (g & Hg & [= <-])%rbind_inr)%rbind_inr)%rbind_inr.
  destruct (domain_agent_tools _ _ _ _ _ _ _ _ _ Hcs Hc) as (cs_procs & Hcp & Hct).
  destruct (domain_agent_tools _ _ _ _ _ _ _ _ _ Hfraud Hf) as (fr_procs & Hfp & Hft).
  assert (ag_tools g = map snd general_tool_map) as Hgt by (destruct production; by injection Hg as <-).
  exists cs, fr, g, cs_procs, fr_procs. do 6 (split; [done|]). rewrite Hgt. split; [done|]. intros a t Ha Ht.
  apply elem_of_cons in Ha as [->|[->|[->|[]%elem_of_nil]%elem_of_cons]%elem_of_cons].
  - apply Hct in Ht. split; [exact (demanded_harmless _ _ _ Hcs Ht)|]. intros Hm. by destruct (cs_tools_not_fraud _ _ Ht).
  - apply Hft in Ht. split; [exact (demanded_harmless _ _ _ Hfraud Ht)|done].
  - rewrite Hgt in Ht. apply list_elem_of_singleton in Ht as ->. split; [|done].
    eexists. split; [vm_compute; reflexivity|done].
Qed.
End agents.

(** ** On concrete files *)

#[local] Instance no_render : Render := λ _, "".

Definition demo_step (i : string) (more : dict value) : value :=
  VDict ([("id", VStr i); ("instruction", VStr " Do it. "); ("action", VStr "tool_call")] ++ more).
Definition demo_procedure (i : string) (intents : value) (steps : list value) : value :=
  VDict [("procedure", VDict [ ("id", VStr i); ("name", VStr "Name"); ("description", VStr "Text");
                               ("trigger_intents", intents); ("steps", VList steps) ])].
(** A refund procedure with an unknown tool, a triage, a file that does not load
    and one that does not parse *)
Definition demo_files : list (result value) :=
  [ inr (demo_procedure "cs_refund" (VList [VStr "refund"])
      [ demo_step "lookup" [("tool", VStr "lookup_order"); ("tools", VList [VStr "search_orders"])];
        demo_step "refund" [("tool", VStr "issue_refund")];
        demo_step "odd" [("tool", VStr "delete_everything")] ]);
    inr (demo_procedure "fraud_ops_triage" (VList [VStr "alert"])
      [demo_step "get" [("tool", VStr "get_fraud_alert")]; demo_step "read" [("tool", VStr "lookup_order")]]);
    inr (demo_procedure "cs_broken" (VList []) [demo_step "x" []]); inl (OtherError "YAMLError") ].

Definition demo_router (files : list (result value)) : result Agent :=
  create_router_agent "" "" "" "" "" true (load_all files).
Definition tools_of (root : Agent) : list (list string) :=
  map (λ a, map fn_name (ag_tools a)) (ag_sub_agents root).

Example agents_offer_only_proposals_witness :
  ∃ root, demo_router demo_files = inr root ∧ ag_tools root = [] ∧
    tools_of root = [["issue_refund"; "lookup_order"; "search_orders"]; ["get_fraud_alert"]; ["get_knowledge_article"]].
Proof.
  destruct (agents_offer_only_proposals "" "" "" "" "" true demo_files) as [Hok Hall].
  assert (is_ok (demo_router demo_files) = true) as Hr.
  { apply Hok. intros p (file & data & Hf & -> & Hp).
    repeat (apply elem_of_cons in Hf as [E|Hf];
      [first [discriminate E | injection E as ->; vm_compute in Hp;
              first [discriminate Hp | injection Hp as <-; vm_compute; reflexivity]]|]).
    by apply not_elem_of_nil in Hf. }
  destruct (is_ok_inr _ Hr) as [root Hroot]. exists root. split; [exact Hroot|].
  destruct (Hall root Hroot) as (cs & fraud & general & _ & _ & Ht & _). split; [exact Ht|].
  vm_compute in Hroot. injection Hroot as <-. vm_compute. reflexivity.
Defined.

(** What the loader lets through and the agents cannot be built from: an
    instruction that is a number; intents that are null, of a file that is reported
    as skipped when it was already entered; an id that is a number.  The module of
    the agents does not load. *)
Definition demo_failure (file : value) : result value * result Agent :=
  (rbind (load_procedure file) (λ p, inr (dget_none "id" p)), demo_router [inr file]).
Example numeric_instruction_fails :
  demo_failure (demo_procedure "cs_a" (VList [])
    [VDict [("id", VStr "x"); ("instruction", VInt 5); ("action", VStr "respond")]])
  = (inr (VStr "cs_a"), inl (OtherError "AttributeError")).
Proof. vm_compute. reflexivity. Qed.
Example null_intents_fail :
  demo_failure (demo_procedure "cs_a" VNone [demo_step "x" [("tool", VStr "lookup_order")]])
  = (inr (VStr "cs_a"), inl (TypeError "object is not iterable")).
Proof. vm_compute. reflexivity. Qed.
Example numeric_id_fails :
  let file := VDict [("procedure", VDict [ ("id", VInt 5); ("name", VStr "Name"); ("description", VStr "Text");
                       ("steps", VList [demo_step "x" [("tool", VStr "lookup_order")]]) ])] in
  demo_failure file = (inr (VInt 5), inl (OtherError "AttributeError")).
Proof. vm_compute. reflexivity. Qed.

Example demo_instructions :
  step_lines 2 (step_data (mkStep (Some "ask") (Some " Ask. ") (Some "collect_info") None None (Some "end") None
    None None None (Some ["order id"; "reason"]))) =
  inr [ "### Step 2: ask"; "Ask."; "  → You must collect: order id, reason";
        "  → IMPORTANT: If this information is already present in the user's message, skip collection and immediately proceed to the next step.";
        "  → This is the final step. End the conversation."; "" ].
Proof. vm_compute. reflexivity. Qed.
