(* ===== verification/Reference.v ===== *)
(** * The reference database ([database/db.py], [database/repository.py])

    The bundled business database and its repositories.  A table is a list of
    rows, a row the dict that [query_one] and [query_all] make of it; every
    repository call opens its own connection and is one atomic step.  A schema
    holds the constraints an INSERT is checked against; foreign keys are not
    among them, since [query_one], [query_all] and [execute] open connections
    on which SQLite does not enforce them. *)

From Stdlib Require Import Ascii SpecFloat.
From S2P Require Import Prelude PyValue PyString Numerals Prog Table AuditTrail World.

Abbreviation row := (dict value).

Record Reference := mkReference {
  rf_tables : dict (list row);
  rf_audit : list audit_row;
  rf_clock : nat
}.

(** Where a program's state keeps the reference database. *)
Class HasReference (W : Type) := {
  ref_get : W → Reference;
  ref_set : Reference → W → W
}.

Class HasReferenceLaws (W : Type) `{HasReference W} := {
  ref_get_set r w : ref_get (ref_set r w) = r;
  ref_set_set r r' w : ref_set r (ref_set r' w) = ref_set r w;
  ref_set_get w : ref_set (ref_get w) w = w
}.

#[export] Instance reference_self : HasReference Reference :=
  {| ref_get := λ r, r; ref_set := λ r _, r |}.
#[export] Instance reference_self_laws : HasReferenceLaws Reference.
Proof. done. Qed.

#[export] Instance world_reference `{HasReference Ext} : HasReference (World Ext) :=
  {| ref_get := λ w, ref_get (w_ext w); ref_set := λ r w, set_ext (ref_set r (w_ext w)) w |}.

(** ** Tables *)

Record schema := mkSchema {
  sc_name : string;
  sc_key : string;               (* the primary key *)
  sc_columns : list string;      (* every column, the key first *)
  sc_not_null : list string;
  sc_unique : list string        (* other unique columns *)
}.

#[export] Instance schema_eq_dec : EqDecision schema.
Proof. solve_decision. Defined.

Definition customers : schema :=
  mkSchema "customers" "customer_id"
    [ "customer_id"; "name"; "email"; "phone"; "account_status"; "loyalty_tier";
      "total_orders"; "member_since" ]
    ["name"; "email"; "member_since"] [].
Definition orders : schema :=
  mkSchema "orders" "order_id"
    [ "order_id"; "customer_id"; "merchant_name"; "total"; "status"; "order_date";
      "delivery_date"; "days_since_delivery"; "payment_method"; "shipping_address" ]
    ["customer_id"; "merchant_name"; "total"; "status"; "order_date"] [].
Definition order_items : schema :=
  mkSchema "order_items" "id"
    ["id"; "order_id"; "name"; "sku"; "qty"; "price"]
    ["order_id"; "name"; "sku"; "qty"; "price"] [].
Definition accounts : schema :=
  mkSchema "accounts" "account_id"
    ["account_id"; "customer_name"; "email"; "status"]
    ["customer_name"] [].
Definition transactions : schema :=
  mkSchema "transactions" "txn_id"
    ["txn_id"; "account_id"; "amount"; "merchant"; "date"; "location"; "is_flagged"; "type"]
    ["account_id"; "amount"; "merchant"; "date"] [].
Definition fraud_alerts : schema :=
  mkSchema "fraud_alerts" "alert_id"
    [ "alert_id"; "type"; "severity"; "risk_score"; "account_id"; "customer_name";
      "triggered_at"; "description"; "amount_involved"; "transactions_flagged"; "status" ]
    ["type"; "severity"; "risk_score"; "account_id"; "customer_name"; "triggered_at"] [].
Definition devices : schema :=
  mkSchema "devices" "device_id"
    ["device_id"; "account_id"; "type"; "os"; "first_seen"; "trusted"]
    ["account_id"; "type"] [].
Definition login_history : schema :=
  mkSchema "login_history" "id"
    ["id"; "account_id"; "device"; "device_id"; "location"; "timestamp"; "is_new"; "ip"]
    ["account_id"; "device"; "timestamp"] [].
Definition risk_indicators : schema :=
  mkSchema "risk_indicators" "id"
    ["id"; "account_id"; "indicator"]
    ["account_id"; "indicator"] [].
Definition cases : schema :=
  mkSchema "cases" "case_id"
    ["case_id"; "customer_id"; "status"; "created_at"; "updated_at"; "notes"]
    ["created_at"] [].
Definition case_notes : schema :=
  mkSchema "case_notes" "note_id"
    ["note_id"; "case_id"; "note"; "created_at"; "created_by"]
    ["case_id"; "note"; "created_at"] [].
Definition escalations : schema :=
  mkSchema "escalations" "escalation_id"
    [ "escalation_id"; "case_id"; "reason"; "priority"; "assigned_to"; "estimated_response";
      "escalated_at"; "status" ]
    ["case_id"; "reason"; "priority"; "escalated_at"] [].
(** with the index [idx_refunds_order] *)
Definition refunds : schema :=
  mkSchema "refunds" "refund_id"
    [ "refund_id"; "order_id"; "amount"; "currency"; "status"; "reason"; "refund_method";
      "estimated_days"; "processed_at" ]
    ["order_id"; "amount"; "processed_at"] ["order_id"].
Definition disputes : schema :=
  mkSchema "disputes" "dispute_id"
    [ "dispute_id"; "customer_id"; "transaction_id"; "account_id"; "dispute_type"; "amount";
      "merchant"; "transaction_date"; "reported_date"; "statement_date";
      "days_since_transaction"; "days_since_statement"; "liability_tier"; "max_liability";
      "status"; "provisional_credit_issued"; "provisional_credit_date";
      "provisional_credit_amount"; "resolution"; "resolution_date"; "resolution_reason";
      "investigation_deadline"; "payment_method"; "metadata" ]
    [ "customer_id"; "transaction_id"; "dispute_type"; "amount"; "merchant";
      "transaction_date"; "reported_date" ] [].
Definition knowledge_articles : schema :=
  mkSchema "knowledge_articles" "article_id"
    ["article_id"; "title"; "summary"; "content"; "relevance_score"]
    ["title"; "summary"] [].

Definition rows_of (s : schema) (r : Reference) : list row := dget_or (sc_name s) [] (rf_tables r).
Definition set_rows (s : schema) (t : list row) (r : Reference) : Reference :=
  mkReference (dset (sc_name s) t (rf_tables r)) (rf_audit r) (rf_clock r).

(** [column = ?] for a text; NULL equals nothing. *)
Definition text_is (column s : string) (r : row) : bool :=
  match dget column r with Some (VStr t) => String.eqb t s | _ => false end.
(** [a.column = b.column] for two text columns. *)
Definition same_text (column : string) (r r' : row) : bool :=
  match dget column r with Some (VStr t) => text_is column t r' | _ => false end.

Definition is_null (v : value) : bool := match v with VNone => true | _ => false end.

(** What an INSERT checks: NOT NULL columns, then the primary key, then the other
    unique columns. *)
Definition conflicts (column : string) (r : row) (t : list row) : bool :=
  existsb (same_text column r) t.

Definition insert_check (s : schema) (r : row) (t : list row) : result unit :=
  (ensure forallb (λ c, negb (is_null (dget_none c r))) (sc_not_null s) else
     (IntegrityError (sc_name s)) in
   ensure negb (existsb (λ c, conflicts c r t) (sc_key s :: sc_unique s)) else
     (IntegrityError (sc_name s)) in
   inr tt)%wf.

Definition insert_row (s : schema) (r : row) (d : Reference) : result Reference :=
  rbind (insert_check s r (rows_of s d)) (λ _, inr (set_rows s (rows_of s d ++ [r]) d)).

Definition update_rows (s : schema) (p : row → bool) (f : row → row) (d : Reference) : Reference :=
  set_rows s (update_where p f (rows_of s d)) d.

(** [ORDER BY column DESC] of a text column *)
Definition text_of (column : string) (r : row) : string :=
  match dget column r with Some (VStr t) => t | _ => "" end.
Definition newest_first (column : string) (t : list row) : list row :=
  order_le (λ r r', String.leb (text_of column r') (text_of column r)) t.

(** [SELECT a, b, ...] *)
Definition columns (names : list string) (r : row) : row := map (λ n, (n, dget_none n r)) names.

(** ** [LIKE]: [%] is any text, [_] any character, letters without case *)
Fixpoint like (p s : string) {struct p} : bool :=
  match p with
  | EmptyString => match s with EmptyString => true | _ => false end
  | String c p' =>
      if Ascii.eqb c "%" then
        (fix any (s : string) : bool :=
           like p' s || match s with EmptyString => false | String _ s' => any s' end) s
      else
        match s with
        | EmptyString => false
        | String d s' => (Ascii.eqb c "_" || Ascii.eqb (to_lower c) (to_lower d)) && like p' s'
        end
  end.

(** [x BETWEEN lo AND hi] of a number *)
Definition between (lo hi : float) (v : value) : bool :=
  match py_float v with
  | inr x => negb (is_null v) && f_leb lo x && f_leb x hi
  | inl _ => false
  end.

Section repositories.
Context {W : Type} `{HasReference W} `{Oracle}.
Abbreviation prog := (prog W).
(** The text of a clock reading. *)
Context (iso : Z → string).

Definition reference_read {A} (f : Reference → A) : prog A :=
  atomically (λ w, (w, inr (f (ref_get w)))).
Definition reference_write (f : Reference → result Reference) : prog unit :=
  atomically (λ w, match f (ref_get w) with
                   | inl e => (w, inl e)
                   | inr r => (ref_set r w, inr tt)
                   end).
(** [datetime.now()] *)
Definition reference_now : prog Z :=
  atomically (λ w, let r := ref_get w in
    (ref_set (mkReference (rf_tables r) (rf_audit r) (S (rf_clock r))) w, inr (now_at (rf_clock r)))).

(** ** Orders and customers *)

Definition with_customer (d : Reference) (o : row) : option row :=
  option_map (λ c, dupdate o [("customer_name", dget_none "name" c); ("email", dget_none "email" c)])
    (select_one (same_text "customer_id" o) (rows_of customers d)).

Definition order_get_by_id (order_id : string) : prog (option row) :=
  reference_read (λ d,
    head (omap (with_customer d) (select_where (text_is "order_id" order_id) (rows_of orders d)))).

Definition order_get_items (order_id : string) : prog (list row) :=
  reference_read (λ d, map (columns ["name"; "sku"; "qty"; "price"])
    (select_where (text_is "order_id" order_id) (rows_of order_items d))).

(** The bounds of a date three days around: [datetime.fromisoformat] and the two
    [strftime]s; [None] when the text is no date. *)
Context (around : string → option (string * string)).

(** The conditions of a search, a filter each. *)
Definition search_conditions (customer_id : string) (merchant_name : option string)
    (amount : option float) (date : option string) : list (row → bool) :=
  [text_is "customer_id" customer_id]
  ++ (if str_truthy merchant_name
      then [λ r, like ("%" +:+ default "" merchant_name +:+ "%") (text_of "merchant_name" r)]
      else [])
  ++ match amount with
     | Some a =>
         if f_ltb (S754_zero false) a
         then [λ r, between (f_mul a (decimal_float false 9 (-1))) (f_mul a (decimal_float false 11 (-1)))
                      (dget_none "total" r)]
         else []
     | None => []
     end
  ++ (if str_truthy date then
        let date := default "" date in
        match around date with
        | Some (lo, hi) =>
            [λ r, match dget "order_date" r with
                  | Some (VStr t) => String.leb lo t && String.leb t hi | _ => false end]
        | None => [text_is "order_date" date]
        end
      else []).

Definition search_columns : list string :=
  [ "order_id"; "merchant_name"; "total"; "status"; "order_date"; "delivery_date";
    "days_since_delivery"; "payment_method"; "shipping_address"; "customer_id" ].

Definition order_search (customer_id : string) (merchant_name : option string)
    (amount : option float) (date : option string) : prog (list row) :=
  let conditions := search_conditions customer_id merchant_name amount date in
  reference_read (λ d, map (columns search_columns)
    (newest_first "order_date" (select_where (λ r, forallb (λ c, c r) conditions) (rows_of orders d)))).

(** [SELECT * FROM t WHERE column = ?]; a column the table has not is an error of
    the statement. *)
Definition get_by_key (s : schema) (column key : string) : prog (option row) :=
  if bool_decide (column ∈ sc_columns s)
  then reference_read (λ d, select_one (text_is column key) (rows_of s d))
  else mthrow (OtherError "OperationalError").

Definition customer_get_by_id (customer_id : string) : prog (option row) :=
  get_by_key customers "customer_id" customer_id.
Definition customer_list_all : prog (list row) :=
  reference_read (λ d, map (columns ["customer_id"; "name"]) (rows_of customers d)).

(** ** Refunds *)

Definition refund_row (refund_id order_id : string) (amount reason refund_method : value)
    (processed_at : string) : row :=
  [ ("refund_id", VStr refund_id); ("order_id", VStr order_id); ("amount", amount);
    ("currency", VStr "USD"); ("status", VStr "processed"); ("reason", reason);
    ("refund_method", refund_method); ("estimated_days", VStr "5-7 business days");
    ("processed_at", VStr processed_at) ].

Definition refund_create (refund_id order_id : string) (amount reason refund_method : value)
    (processed_at : string) : prog unit :=
  reference_write (insert_row refunds
    (refund_row refund_id order_id amount reason refund_method processed_at)).

Definition refund_get_by_order (order_id : string) : prog (option row) :=
  get_by_key refunds "order_id" order_id.

(** ** Cases, escalations, alerts, accounts *)

Definition case_get_by_id (case_id : string) : prog (option row) :=
  get_by_key cases "case_id" case_id.

Definition ovalue (s : option string) : value := match s with Some s => VStr s | None => VNone end.

Definition case_upsert (case_id status notes : string) (customer_id : option string) : prog unit :=
  now ← reference_now;
  existing ← get_by_key cases "case_id" case_id;
  match existing with
  | Some _ =>
      reference_write (λ d, inr (update_rows cases (text_is "case_id" case_id)
        (λ r, dset "updated_at" (VStr (iso now))
                (dset "notes" (VStr notes) (dset "status" (VStr status) r))) d))
  | None =>
      reference_write (insert_row cases
        [ ("case_id", VStr case_id); ("customer_id", ovalue customer_id); ("status", VStr status);
          ("created_at", VStr (iso now)); ("updated_at", VStr (iso now)); ("notes", VStr notes) ])
  end.

Definition case_add_note (note_id case_id note created_by : string) : prog unit :=
  now ← reference_now;
  reference_write (insert_row case_notes
    [ ("note_id", VStr note_id); ("case_id", VStr case_id); ("note", VStr note);
      ("created_at", VStr (iso now)); ("created_by", VStr created_by) ]).

Definition escalation_create (escalation_id case_id reason priority assigned_to
    estimated_response : string) : prog unit :=
  now ← reference_now;
  reference_write (insert_row escalations
    [ ("escalation_id", VStr escalation_id); ("case_id", VStr case_id); ("reason", VStr reason);
      ("priority", VStr priority); ("assigned_to", VStr assigned_to);
      ("estimated_response", VStr estimated_response); ("escalated_at", VStr (iso now));
      ("status", VStr "escalated") ]).

Definition alert_get_by_id (alert_id : string) : prog (option row) :=
  get_by_key fraud_alerts "alert_id" alert_id.
Definition alert_close (alert_id : string) : prog unit :=
  reference_write (λ d, inr (update_rows fraud_alerts (text_is "alert_id" alert_id)
    (dset "status" (VStr "closed")) d)).

Definition account_get_by_id (account_id : string) : prog (option row) :=
  get_by_key accounts "account_id" account_id.
Definition account_update_status (account_id status : string) : prog unit :=
  reference_write (λ d, inr (update_rows accounts (text_is "account_id" account_id)
    (dset "status" (VStr status)) d)).

Definition transactions_get_by_account (account_id : string) : prog (list row) :=
  reference_read (λ d,
    newest_first "date" (select_where (text_is "account_id" account_id) (rows_of transactions d))).

Definition get_devices (account_id : string) : prog (list row) :=
  reference_read (λ d, select_where (text_is "account_id" account_id) (rows_of devices d)).
Definition get_login_history (account_id : string) : prog (list row) :=
  reference_read (λ d, newest_first "timestamp"
    (select_where (text_is "account_id" account_id) (rows_of login_history d))).
Definition get_risk_indicators (account_id : string) : prog (list value) :=
  reference_read (λ d, map (dget_none "indicator")
    (select_where (text_is "account_id" account_id) (rows_of risk_indicators d))).

(** ** Knowledge *)

(** [s.split()] *)
Definition words (s : string) : list string :=
  List.filter (λ w, negb (String.eqb w ""))
    (fold_right (λ c ws, if is_space c then "" :: ws
                         else match ws with [] => [String c ""] | w :: ws' => String c w :: ws' end)
       [""] (String.list_ascii_of_string s)).

Definition relevance (r : row) : float :=
  match py_float (dget_none "relevance_score" r) with inr x => x | inl _ => S754_zero false end.

Definition article_matches (query : string) (r : row) : bool :=
  existsb (λ word, str_contains word (str_lower (text_of "title" r))
                   || str_contains word (str_lower (text_of "summary" r)))
    (words (str_lower query)).

Definition knowledge_search (query : string) : prog (list row) :=
  reference_read (λ d,
    let all_articles :=
      map (columns ["article_id"; "title"; "summary"; "relevance_score"])
        (order_le (λ r r', f_leb (relevance r') (relevance r)) (rows_of knowledge_articles d)) in
    match select_where (article_matches query) all_articles with
    | [] => take 2 all_articles
    | matched => matched
    end).

(** ** Disputes *)

Definition dispute_get_by_id (dispute_id : string) : prog (option row) :=
  get_by_key disputes "dispute_id" dispute_id.
Definition dispute_get_by_customer (customer_id : string) : prog (list row) :=
  reference_read (λ d, newest_first "reported_date"
    (select_where (text_is "customer_id" customer_id) (rows_of disputes d))).
Definition dispute_get_by_transaction (transaction_id : string) : prog (option row) :=
  get_by_key disputes "transaction_id" transaction_id.

(** The given columns, in the order of the table, the others at their defaults. *)
Definition dispute_defaults : row :=
  [ ("status", VStr "open"); ("provisional_credit_issued", VInt 0);
    ("provisional_credit_date", VNone); ("provisional_credit_amount", VNone);
    ("resolution", VNone); ("resolution_date", VNone); ("resolution_reason", VNone) ].
Definition dispute_create (given : row) : prog unit :=
  reference_write (insert_row disputes (dupdate dispute_defaults given)).

(** The keyword arguments that are not [None] are columns set besides the status. *)
Definition dispute_update_status (dispute_id status : string) (kwargs : row) : prog unit :=
  let sets := ("status", VStr status) :: List.filter (λ p, negb (is_null p.2)) kwargs in
  reference_write (λ d, inr (update_rows disputes (text_is "dispute_id" dispute_id)
    (λ r, dupdate r sets) d)).

Definition dispute_issue_provisional_credit (dispute_id : string) (amount : value)
    (credit_date : string) : prog unit :=
  reference_write (λ d, inr (update_rows disputes (text_is "dispute_id" dispute_id)
    (λ r, dupdate r [ ("provisional_credit_issued", VInt 1); ("provisional_credit_amount", amount);
                      ("provisional_credit_date", VStr credit_date);
                      ("status", VStr "provisional_credit") ]) d)).

(** ** Audit trail *)
Context `{ChainHash}.

Definition audit_write (entry : dict value) : prog unit :=
  reference_write (λ d, rbind (write entry (rf_audit d)) (λ rows,
    inr (mkReference (rf_tables d) rows (rf_clock d)))).
Definition audit_verify_chain : prog verification :=
  reference_read (λ d, verify_chain (rf_audit d)).

(** ** [init_db]: the earliest refund of an order stays, and the trail is chained *)

Fixpoint first_of_each (column : string) (seen t : list row) : list row :=
  match t with
  | [] => []
  | r :: t' =>
      if existsb (same_text column r) seen then first_of_each column seen t'
      else r :: first_of_each column (seen ++ [r]) t'
  end.

Definition init_db : prog unit :=
  reference_write (λ d,
    let d := set_rows refunds (first_of_each "order_id" [] (rows_of refunds d)) d in
    inr (mkReference (rf_tables d) (backfill (rf_audit d)) (rf_clock d))).
End repositories.
