(* ===== verification/Seed.v ===== *)
(** * The demonstration data ([database/seed.py])

    What start-up puts in the reference database when it is told to: rows inserted
    unless their key is there, rows that replace the row of their key, and rows
    inserted into an empty table only.  The rows are the source's, over the clock
    readings of its functions.  Seeding settles: a second run changes nothing. *)

From Stdlib Require Import SpecFloat.
From S2P Require Import Prelude PyValue Numerals Dates Prog Table AuditTrail World Reference.

(** ** Statements *)

Definition no_nulls (s : schema) (r : row) : bool :=
  forallb (λ c, negb (is_null (dget_none c r))) (sc_not_null s).
(** Two rows that a unique column of the table holds apart *)
Definition clash (s : schema) (r r' : row) : bool :=
  existsb (λ c, same_text c r r') (sc_key s :: sc_unique s).

(** [INSERT OR IGNORE]: a row that violates a constraint is skipped. *)
Definition insert_or_ignore (s : schema) (t : list row) (r : row) : result (list row) :=
  inr (if no_nulls s r && negb (existsb (clash s r) t) then t ++ [r] else t).

(** [INSERT OR REPLACE]: the rows in the way are deleted first. *)
Definition insert_or_replace (s : schema) (t : list row) (r : row) : result (list row) :=
  (ensure no_nulls s r else (IntegrityError (sc_name s)) in
   inr (List.filter (λ r', negb (clash s r r')) t ++ [r]))%wf.

(** A table with an AUTOINCREMENT key, filled when it is empty *)
Definition next_id (t : list row) : Z :=
  (1 + fold_right Z.max 0 (map (λ r, match dget "id" r with Some (VInt i) => i | _ => 0 end) t))%Z.
Definition insert_new (s : schema) (t : list row) (r : row) : result (list row) :=
  let r := ("id", VInt (next_id t)) :: r in
  (ensure no_nulls s r else (IntegrityError (sc_name s)) in inr (t ++ [r]))%wf.

Inductive seeding := OrIgnore | OrReplace | IfEmpty.
#[export] Instance seeding_eq_dec : EqDecision seeding.
Proof. solve_decision. Defined.

Definition seed_rows (s : schema) (m : seeding) (rows t : list row) : result (list row) :=
  match m with
  | OrIgnore => fold_result (insert_or_ignore s) t rows
  | OrReplace => fold_result (insert_or_replace s) t rows
  | IfEmpty => match t with [] => fold_result (insert_new s) [] rows | _ => inr t end
  end.

Definition seed_table (s : schema) (m : seeding) (rows : list row) (d : Reference) : result Reference :=
  rbind (seed_rows s m rows (rows_of s d)) (λ t, inr (set_rows s t d)).

(** A tuple of values for the named columns; the columns not named are NULL or have
    a default. *)
Definition tuples (names : list string) (values : list (list value)) : list row :=
  map (zip names) values.

(** A literal with two decimals *)
Definition money (cents : Z) : value := VFloat (decimal_float false cents (-2)).

(** ** The rows *)

Definition seed_customers : list row :=
  tuples [ "customer_id"; "name"; "email"; "phone"; "account_status"; "loyalty_tier";
           "total_orders"; "member_since" ]
    [ [ VStr "CUST-456"; VStr "Jane Smith"; VStr "jane.smith@email.com"; VStr "+1-555-0123";
        VStr "active"; VStr "gold"; VInt 15; VStr "2022-03-15" ];
      [ VStr "CUST-789"; VStr "Bob Johnson"; VStr "bob.j@email.com"; VStr "+1-555-0456";
        VStr "active"; VStr "silver"; VInt 7; VStr "2023-06-20" ];
      [ VStr "CUST-012"; VStr "Alice Williams"; VStr "alice.w@email.com"; VStr "+1-555-0789";
        VStr "active"; VStr "bronze"; VInt 3; VStr "2024-01-10" ];
      [ VStr "CUST-345"; VStr "Carol Davis"; VStr "carol.d@email.com"; VStr "+1-555-0345";
        VStr "active"; VStr "bronze"; VInt 5; VStr "2023-09-01" ] ].

Definition seed_order_items : list row :=
  tuples ["order_id"; "name"; "sku"; "qty"; "price"]
    [ [VStr "ORD-123"; VStr "Wireless Headphones"; VStr "WH-100"; VInt 1; money 7999];
      [VStr "ORD-456"; VStr "Running Shoes"; VStr "RS-200"; VInt 1; money 12999];
      [VStr "ORD-456"; VStr "Athletic Socks"; VStr "AS-050"; VInt 2; money 1299];
      [VStr "ORD-789"; VStr "Smart Watch"; VStr "SW-300"; VInt 1; money 24999];
      [VStr "ORD-999"; VStr "Laptop Stand"; VStr "LS-400"; VInt 1; money 4999] ].

Definition seed_accounts : list row :=
  tuples ["account_id"; "customer_name"; "email"; "status"]
    [ [VStr "ACCT-1001"; VStr "Michael Chen"; VStr "michael.chen@email.com"; VStr "active"];
      [VStr "ACCT-2002"; VStr "Sarah Parker"; VStr "sarah.parker@email.com"; VStr "active"];
      [VStr "ACCT-3003"; VStr "David Lee"; VStr "david.lee@email.com"; VStr "active"];
      [VStr "ACCT-4004"; VStr "Emily Brown"; VStr "emily.brown@email.com"; VStr "active"] ].

Definition seed_devices : list row :=
  tuples ["device_id"; "account_id"; "type"; "os"; "first_seen"; "trusted"]
    [ [VStr "DEV-001"; VStr "ACCT-1001"; VStr "iPhone 15"; VStr "iOS 17"; VStr "2023-06-15"; VInt 1];
      [VStr "DEV-002"; VStr "ACCT-1001"; VStr "MacBook Pro"; VStr "macOS 14"; VStr "2023-06-15"; VInt 1];
      [ VStr "DEV-003"; VStr "ACCT-2002"; VStr "Samsung Galaxy S24"; VStr "Android 14";
        VStr "2024-01-10"; VInt 1 ];
      [VStr "DEV-005"; VStr "ACCT-3003"; VStr "Pixel 8"; VStr "Android 14"; VStr "2024-03-01"; VInt 1];
      [VStr "DEV-006"; VStr "ACCT-3003"; VStr "Chromebook"; VStr "ChromeOS"; VStr "2024-03-01"; VInt 1] ].

Definition seed_risk_indicators : list row :=
  tuples ["account_id"; "indicator"]
    [ [VStr "ACCT-1001"; VStr "new_device_login"]; [VStr "ACCT-1001"; VStr "geographic_anomaly"];
      [VStr "ACCT-1001"; VStr "multiple_locations_short_timeframe"];
      [VStr "ACCT-2002"; VStr "new_device_login"];
      [VStr "ACCT-2002"; VStr "password_recently_changed"];
      [VStr "ACCT-2002"; VStr "shipping_address_changed"];
      [VStr "ACCT-2002"; VStr "geographic_anomaly"] ].

Definition article_columns : list string :=
  ["article_id"; "title"; "summary"; "content"; "relevance_score"].
Definition seed_knowledge_articles : list row :=
  tuples article_columns
    [ [ VStr "KB-001"; VStr "Refund Policy Overview";
        VStr "Our standard refund policy allows returns within 30 days of delivery. Items must be in original condition. Non-refundable categories include: personalized items, digital downloads, and clearance items.";
        VNone; money 95 ];
      [ VStr "KB-002"; VStr "Escalation Procedures";
        VStr "Cases should be escalated when: customer requests supervisor, issue exceeds agent authority, complaint involves safety concerns, or case has been open for more than 48 hours.";
        VNone; money 85 ];
      [ VStr "KB-003"; VStr "Fraud Investigation Guidelines";
        VStr "When investigating fraud alerts: gather all available evidence before making a determination, check device fingerprints and transaction patterns, document all findings, and follow the SAR submission timeline requirements.";
        VNone; money 80 ];
      [ VStr "KB-004"; VStr "Store Credit Policy";
        VStr "Store credit can be issued for orders outside the refund window or for non-refundable items at supervisor discretion. Store credit expires after 12 months and cannot be converted to cash.";
        VNone; money 75 ] ].
Definition seed_reg_e_article : list row :=
  tuples article_columns
    [ [ VStr "KB-005"; VStr "Regulation E — EFT Dispute Rights";
        VStr ("Under Regulation E, consumers must report unauthorized electronic fund transfers within 60 days "
          +:+ "of the statement date. Liability tiers: within 2 business days = $50 max; within 60 days = $500 max; "
          +:+ "beyond 60 days = unlimited. Financial institutions must investigate within 10 business days and may "
          +:+ "issue provisional credit if investigation extends beyond 10 days. Final resolution within 45 calendar days "
          +:+ "(90 days for new accounts, POS, or foreign transactions).");
        VNone; money 90 ] ].

Section dated.
Context (iso iso_date : Z → string).
(** [now - timedelta(...)] as [strftime("%Y-%m-%d")] and as [isoformat()] *)
Definition days_ago (now days : Z) : value := VStr (iso_date (now - days * day_us)%Z).
Definition minutes_ago (now minutes : Z) : value := VStr (iso (now - minutes * 60000000)%Z).

Definition seed_orders (now : Z) : list row :=
  tuples [ "order_id"; "customer_id"; "merchant_name"; "total"; "status"; "order_date";
           "delivery_date"; "days_since_delivery"; "payment_method"; "shipping_address" ]
    [ [ VStr "ORD-123"; VStr "CUST-456"; VStr "TechMart Electronics"; money 7999; VStr "delivered";
        days_ago now 10; days_ago now 5; VInt 5; VStr "credit_card_ending_4242";
        VStr "123 Main St, Springfield, IL 62701" ];
      [ VStr "ORD-456"; VStr "CUST-789"; VStr "SportZone"; money 15597; VStr "shipped";
        days_ago now 3; VNone; VInt 0; VStr "paypal"; VStr "456 Oak Ave, Portland, OR 97201" ];
      [ VStr "ORD-789"; VStr "CUST-012"; VStr "GadgetWorld"; money 24999; VStr "processing";
        days_ago now 0; VNone; VInt 0; VStr "credit_card_ending_1234";
        VStr "789 Pine Rd, Austin, TX 78701" ];
      [ VStr "ORD-999"; VStr "CUST-345"; VStr "HomeOffice Supplies"; money 4999; VStr "delivered";
        days_ago now 45; days_ago now 40; VInt 40; VStr "debit_card_ending_5678";
        VStr "321 Elm St, Denver, CO 80201" ] ].

Definition transaction_columns : list string :=
  ["txn_id"; "account_id"; "amount"; "merchant"; "date"; "location"; "is_flagged"; "type"].
Definition hour : Z := 60.
Definition day : Z := 1440.
Definition txn (now : Z) (id account : string) (amount : Z) (merchant : string) (age : Z)
    (location : string) (flagged : Z) (type : string) : list value :=
  [ VStr id; VStr account; money amount; VStr merchant; minutes_ago now age; VStr location;
    VInt flagged; VStr type ].
Definition seed_transactions (now : Z) : list row :=
  tuples transaction_columns
    [ txn now "TXN-5001" "ACCT-1001" 150000 "ElectroMart Online" (2 * hour) "New York, NY" 1 "purchase";
      txn now "TXN-5002" "ACCT-1001" 200000 "TechGear Pro" (hour + 45) "Los Angeles, CA" 1 "purchase";
      txn now "TXN-5003" "ACCT-1001" 100000 "Digital World" (hour + 30) "Chicago, IL" 1 "purchase";
      txn now "TXN-5004" "ACCT-1001" 5500 "Coffee Shop" day "New York, NY" 0 "purchase";
      txn now "TXN-5005" "ACCT-1001" 12000 "Grocery Store" (2 * day) "New York, NY" 0 "purchase";
      txn now "TXN-6001" "ACCT-2002" 289999 "Premium Electronics" hour "Miami, FL" 1 "purchase";
      txn now "TXN-6002" "ACCT-2002" 4500 "Local Restaurant" day "Seattle, WA" 0 "purchase";
      txn now "TXN-6003" "ACCT-2002" 8999 "Streaming Service" (5 * day) "Online" 0 "subscription";
      txn now "TXN-7001" "ACCT-3003" 89999 "TechHub Store" (6 * hour) "Portland, OR" 1 "purchase";
      txn now "TXN-7002" "ACCT-3003" 3250 "Bookstore" (2 * day) "Portland, OR" 0 "purchase";
      txn now "TXN-7003" "ACCT-3003" 1599 "Music Streaming" (7 * day) "Online" 0 "subscription" ].
Definition seed_eft_transactions (now : Z) : list row :=
  tuples transaction_columns
    [ txn now "TXN-EFT-001" "ACCT-1001" 35000 "Unknown Electronics Store" (3 * day) "Online" 1 "debit";
      txn now "TXN-EFT-002" "ACCT-2002" 125000 "Unknown Wire Transfer" (20 * day) "ACH" 1 "ach_withdrawal";
      txn now "TXN-EFT-003" "ACCT-3003" 50000 "Suspicious Online Store" (90 * day) "Online" 1 "debit";
      txn now "TXN-EFT-004" "ACCT-4004" 8999 "HomeOffice Supplies" (5 * day) "In-Store" 0 "debit" ].

Definition alert_row (now : Z) (id type severity : string) (score : Z) (account name : string)
    (age : Z) (description : string) (amount flagged : Z) : list value :=
  [ VStr id; VStr type; VStr severity; VInt score; VStr account; VStr name; minutes_ago now age;
    VStr description; money amount; VInt flagged; VStr "open" ].
Definition seed_fraud_alerts (now : Z) : list row :=
  tuples [ "alert_id"; "type"; "severity"; "risk_score"; "account_id"; "customer_name";
           "triggered_at"; "description"; "amount_involved"; "transactions_flagged"; "status" ]
    [ alert_row now "FA-001" "card_not_present" "high" 87 "ACCT-1001" "Michael Chen" (2 * hour)
        "Multiple high-value transactions from new device in different geographic locations within 30 minutes"
        450000 3;
      alert_row now "FA-002" "account_takeover" "high" 92 "ACCT-2002" "Sarah Parker" hour
        "Password changed followed by shipping address update and large purchase from unrecognized device"
        289999 1;
      alert_row now "FA-003" "unusual_activity" "medium" 55 "ACCT-3003" "David Lee" (6 * hour)
        "Purchase pattern deviation - electronics purchase significantly above average order value"
        89999 1;
      alert_row now "FA-004" "unusual_activity" "low" 25 "ACCT-4004" "Emily Brown" (12 * hour)
        "Minor velocity check trigger - 3 small transactions in quick succession at same merchant"
        4597 3 ].

Definition login (now : Z) (account device device_id location : string) (age is_new : Z)
    (ip : string) : list value :=
  [ VStr account; VStr device; VStr device_id; VStr location; minutes_ago now age; VInt is_new;
    VStr ip ].
Definition seed_login_history (now : Z) : list row :=
  tuples ["account_id"; "device"; "device_id"; "location"; "timestamp"; "is_new"; "ip"]
    [ login now "ACCT-1001" "Unknown Android Device" "DEV-NEW-1" "Los Angeles, CA" (2 * hour) 1 "192.168.1.100";
      login now "ACCT-1001" "iPhone 15" "DEV-001" "New York, NY" day 0 "10.0.0.1";
      login now "ACCT-2002" "Windows Desktop" "DEV-NEW-2" "Miami, FL" (hour + 30) 1 "203.0.113.42";
      login now "ACCT-2002" "Samsung Galaxy S24" "DEV-003" "Seattle, WA" day 0 "10.0.0.2";
      login now "ACCT-3003" "Pixel 8" "DEV-005" "Portland, OR" (6 * hour) 0 "10.0.0.3" ].

(** A dispute: how many days ago the transaction, the report and the statement
    were, the two counts of days, and the days left to investigate. *)
Definition dispute (now : Z) (id customer txn_id account type : string) (amount : Z) (merchant : string)
    (txn_age report_age statement_age since_txn since_statement : Z) (tier : string) (liability : Z)
    (deadline : Z) (method status : string) : list value :=
  [ VStr id; VStr customer; VStr txn_id; VStr account; VStr type; money amount; VStr merchant;
    days_ago now txn_age; days_ago now report_age; days_ago now statement_age; VInt since_txn;
    VInt since_statement; VStr tier; money liability; days_ago now (- deadline); VStr method;
    VStr status; VInt 0; VNone; VNone; VNone; VNone; VNone ].
Definition seed_disputes (now : Z) : list row :=
  tuples [ "dispute_id"; "customer_id"; "transaction_id"; "account_id"; "dispute_type"; "amount";
           "merchant"; "transaction_date"; "reported_date"; "statement_date";
           "days_since_transaction"; "days_since_statement"; "liability_tier"; "max_liability";
           "investigation_deadline"; "payment_method"; "status"; "provisional_credit_issued";
           "provisional_credit_date"; "provisional_credit_amount"; "resolution"; "resolution_date";
           "resolution_reason" ]
    [ dispute now "DISP-001" "CUST-456" "TXN-EFT-001" "ACCT-1001" "unauthorized" 35000
        "Unknown Electronics Store" 3 1 1 3 1 "tier_1" 5000 10 "debit_card" "open";
      dispute now "DISP-002" "CUST-789" "TXN-EFT-002" "ACCT-2002" "unauthorized" 125000
        "Unknown Wire Transfer" 20 5 18 20 13 "tier_2" 50000 5 "ach" "investigating";
      dispute now "DISP-003" "CUST-012" "TXN-EFT-003" "ACCT-3003" "unauthorized" 50000
        "Suspicious Online Store" 90 2 75 90 73 "tier_3" 50000 8 "debit_card" "open";
      dispute now "DISP-004" "CUST-345" "TXN-EFT-004" "ACCT-4004" "error" 8999
        "HomeOffice Supplies" 5 1 2 5 1 "tier_1" 5000 9 "debit_card" "open" ].

(** The statements of [seed_all], in its order; each dated function reads the clock. *)
Definition seed_statements (n1 n2 n3 n4 n5 : Z) : list (schema * seeding * list row) :=
  [ (customers, OrIgnore, seed_customers); (orders, OrReplace, seed_orders n1);
    (order_items, IfEmpty, seed_order_items); (accounts, OrIgnore, seed_accounts);
    (transactions, OrReplace, seed_transactions n2); (fraud_alerts, OrReplace, seed_fraud_alerts n3);
    (devices, OrIgnore, seed_devices); (login_history, IfEmpty, seed_login_history n4);
    (risk_indicators, IfEmpty, seed_risk_indicators);
    (knowledge_articles, OrIgnore, seed_knowledge_articles); (disputes, OrReplace, seed_disputes n5);
    (transactions, OrReplace, seed_eft_transactions n5);
    (knowledge_articles, OrIgnore, seed_reg_e_article) ].

Definition seed_with (statements : list (schema * seeding * list row)) (d : Reference) :
    result Reference :=
  fold_result (λ d '(s, m, rows), seed_table s m rows d) d statements.

(** [seed_all]: one connection, committed at its end.  [now] is read for the login
    history only when it is seeded, which no other reading depends on. *)
Definition seed_all {W} `{HasReference W} `{Oracle} : prog W unit :=
  n1 ← reference_now; n2 ← reference_now; n3 ← reference_now; n4 ← reference_now;
  n5 ← reference_now;
  reference_write (seed_with (seed_statements n1 n2 n3 n4 n5)).
End dated.

(** ** Folds *)

Lemma fold_result_app {A S} (f : S → A → result S) acc l1 l2 :
  fold_result f acc (l1 ++ l2) = rbind (fold_result f acc l1) (λ acc', fold_result f acc' l2).
Proof.
  revert acc; induction l1 as [|x l1 IH]; intros acc; [done|]. cbn.
  destruct (f acc x) as [e|acc']; [done|]. apply IH.
Qed.

(** ** One table *)

(** Rows with distinct keys, and no NULL where there may be none *)
Fixpoint rows_ok (s : schema) (rows : list row) : bool :=
  match rows with
  | [] => true
  | r :: rows' =>
      no_nulls s r && clash s r r && forallb (λ r', negb (clash s r' r)) rows' && rows_ok s rows'
  end.

Lemma rows_ok_cons s r rows :
  rows_ok s (r :: rows) = true →
  no_nulls s r = true ∧ clash s r r = true ∧ (∀ r', r' ∈ rows → clash s r' r = false) ∧
  rows_ok s rows = true.
Proof.
  cbn. rewrite !andb_true_iff, forallb_forall. intros [[[Hn Hc] Hall] Hr]. split_and!; try done.
  intros r' Hin. by apply negb_true_iff, Hall, list_elem_of_In.
Qed.

(** A row that none of the seeds replaces *)
Definition kept (s : schema) (rows : list row) (r' : row) : bool :=
  negb (existsb (λ r, clash s r r') rows).

Lemma rows_ok_self s rows r : rows_ok s rows = true → r ∈ rows → clash s r r = true.
Proof.
  induction rows as [|x rows IH]; intros Hok; [by intros ?%not_elem_of_nil|].
  apply rows_ok_cons in Hok as (_ & Hc & _ & Hok). intros [->|Hin]%elem_of_cons; [done|by apply IH].
Qed.

Lemma filter_filter_kept s r rows t :
  List.filter (kept s rows) (List.filter (λ r', negb (clash s r r')) t) =
  List.filter (kept s (r :: rows)) t.
Proof.
  assert (∀ (p q : row → bool) l, List.filter p (List.filter q l) = List.filter (λ x, q x && p x) l)
    as Hand.
  { intros p q l. induction l as [|x l IH]; [done|]. cbn. destruct (q x); cbn; by rewrite IH. }
  rewrite Hand. apply filter_ext. intros x. unfold kept. cbn [existsb]. by rewrite negb_orb.
Qed.

(** What replacing does: the other rows in their order, then the seeds. *)
Lemma replace_rows s rows t :
  rows_ok s rows = true →
  fold_result (insert_or_replace s) t rows = inr (List.filter (kept s rows) t ++ rows).
Proof.
  revert t; induction rows as [|r rows IH]; intros t Hok.
  { cbn. rewrite filter_all by done. by rewrite app_nil_r. }
  apply rows_ok_cons in Hok as (Hn & _ & Hd & Hok). cbn. unfold insert_or_replace at 1. rewrite Hn.
  cbn [rbind]. rewrite IH by done. f_equal. rewrite List.filter_app, filter_filter_kept. cbn [List.filter].
  assert (kept s rows r = true) as ->; [|by rewrite <- app_assoc].
  apply negb_true_iff. apply not_true_iff_false. intros (r' & Hin & Hc)%existsb_exists.
  rewrite Hd in Hc; [done|]. by apply list_elem_of_In.
Qed.

(** What ignoring does: nothing is removed, seeds are added, and every key of the
    seeds is there. *)
Lemma ignore_rows s rows t :
  rows_ok s rows = true →
  ∃ extra, fold_result (insert_or_ignore s) t rows = inr (t ++ extra) ∧
    (∀ r, r ∈ rows → existsb (clash s r) (t ++ extra) = true) ∧ ∀ r, r ∈ extra → r ∈ rows.
Proof.
  revert t; induction rows as [|r rows IH]; intros t Hok.
  { exists []. split_and!; [cbn; by rewrite app_nil_r|by intros r ?%not_elem_of_nil|done]. }
  apply rows_ok_cons in Hok as (Hn & Hc & _ & Hok). cbn [fold_result].
  unfold insert_or_ignore at 1. rewrite Hn. cbn [andb rbind].
  destruct (existsb (clash s r) t) eqn:He; cbn [negb].
  - destruct (IH t Hok) as (extra & Hf & Hall & Hin). exists extra. split_and!; [done| |by intros; right; auto].
    intros r' [->|Hr']%elem_of_cons; [|by apply Hall]. by rewrite existsb_app, He.
  - destruct (IH (t ++ [r]) Hok) as (extra & Hf & Hall & Hin). exists (r :: extra).
    rewrite <- app_assoc in Hf, Hall. split_and!; [done| |].
    + intros r' [->|Hr']%elem_of_cons; [|by apply Hall].
      rewrite existsb_app. cbn [existsb]. by rewrite Hc, orb_true_r.
    + intros r' [->|Hr']%elem_of_cons; [left|right; auto].
Qed.

Lemma ignore_again s rows t :
  (∀ r, r ∈ rows → existsb (clash s r) t = true) → fold_result (insert_or_ignore s) t rows = inr t.
Proof.
  induction rows as [|r rows IH]; intros Hall; [done|]. cbn [fold_result].
  unfold insert_or_ignore at 1. rewrite (Hall r) by left.
  rewrite andb_false_r. apply IH. intros r' Hr'. apply Hall. by right.
Qed.

(** Rows inserted into an empty table *)
Definition with_id (i : Z) (r : row) : row := ("id", VInt i) :: r.

Lemma no_nulls_id s i j r : no_nulls s (with_id i r) = no_nulls s (with_id j r).
Proof.
  unfold no_nulls. induction (sc_not_null s) as [|c l IH]; [done|]. cbn [forallb]. rewrite IH.
  assert (is_null (dget_none c (with_id i r)) = is_null (dget_none c (with_id j r))) as ->; [|done].
  unfold with_id, dget_none, dget_or. cbn [dget]. by destruct (String.eqb c "id").
Qed.

Lemma new_rows s rows t :
  forallb (λ r, no_nulls s (with_id 0 r)) rows = true →
  ∃ t', fold_result (insert_new s) t rows = inr t' ∧ length t' = length t + length rows.
Proof.
  revert t; induction rows as [|r rows IH]; intros t Hok; [exists t; cbn; split; [done|lia]|].
  cbn [forallb] in Hok. apply andb_true_iff in Hok as [Hr Hok].
  cbn [fold_result]. unfold insert_new at 1. cbv zeta.
  change (("id", VInt (next_id t)) :: r) with (with_id (next_id t) r).
  rewrite (no_nulls_id s _ 0), Hr. cbn [rbind].
  destruct (IH (t ++ [with_id (next_id t) r]) Hok) as (t' & Hf & Hl). exists t'.
  split; [done|]. rewrite Hl, length_app. cbn. lia.
Qed.

(** What a statement asks of its rows *)
Definition statement_ok (s : schema) (m : seeding) (rows : list row) : bool :=
  match m with
  | IfEmpty =>
      negb (match rows with [] => true | _ => false end) &&
      forallb (λ r, no_nulls s (with_id 0 r)) rows
  | _ => rows_ok s rows
  end.

Lemma seed_rows_total s m rows t : statement_ok s m rows = true → ∃ t', seed_rows s m rows t = inr t'.
Proof.
  destruct m; cbn; intros Hok.
  - destruct (ignore_rows s rows t Hok) as (extra & -> & _). by eexists.
  - rewrite replace_rows by done. by eexists.
  - apply andb_true_iff in Hok as [_ Hok]. destruct t; [|by eexists].
    destruct (new_rows s rows [] Hok) as (t' & -> & _). by eexists.
Qed.

(** Running a statement again changes nothing. *)
Lemma seed_rows_again s m rows t t' :
  statement_ok s m rows = true → seed_rows s m rows t = inr t' → seed_rows s m rows t' = inr t'.
Proof.
  destruct m; cbn; intros Hok Hr.
  - destruct (ignore_rows s rows t Hok) as (extra & Hf & Hall & _). rewrite Hf in Hr. injection Hr as <-.
    by apply ignore_again.
  - rewrite replace_rows in Hr |- * by done. injection Hr as <-. f_equal.
    rewrite List.filter_app. assert (∀ l, List.filter (kept s rows) (List.filter (kept s rows) l) =
      List.filter (kept s rows) l) as Hff.
    { intros l. apply filter_all. intros x Hx. by apply list_elem_of_In, filter_In in Hx as [_ ?]. }
    rewrite Hff. rewrite (filter_none (kept s rows) rows), app_nil_r; [done|].
    intros r Hin. apply negb_false_iff, existsb_exists. exists r.
    split; [by apply list_elem_of_In|]. by eapply rows_ok_self.
  - apply andb_true_iff in Hok as [Hne Hok]. destruct t as [|x t]; [|by injection Hr as <-].
    destruct (new_rows s rows [] Hok) as (t1 & Hf & Hl). rewrite Hf in Hr. injection Hr as ->.
    destruct t' as [|y t']; [|done]. cbn in Hl. by destruct rows.
Qed.

(** ** All tables *)

Abbreviation statement := (schema * seeding * list row)%type.

Lemma rows_of_set_rows s t d s' :
  rows_of s' (set_rows s t d) = if decide (sc_name s = sc_name s') then t else rows_of s' d.
Proof.
  unfold rows_of, set_rows, dget_or. cbn. rewrite dget_dset. by case_decide.
Qed.

(** The statements of one table, by its name *)
Definition of_table (name : string) (l : list statement) : list statement :=
  List.filter (λ st, String.eqb (sc_name st.1.1) name) l.
Definition run_table (l : list statement) (t : list row) : result (list row) :=
  fold_result (λ t '(s, m, rows), seed_rows s m rows t) t l.

Lemma seed_with_spec (l : list statement) d :
  forallb (λ st, statement_ok st.1.1 st.1.2 st.2) l = true →
  ∃ d', seed_with l d = inr d' ∧ rf_audit d' = rf_audit d ∧ rf_clock d' = rf_clock d ∧
    ∀ s, run_table (of_table (sc_name s) l) (rows_of s d) = inr (rows_of s d').
Proof.
  unfold seed_with, run_table. revert d; induction l as [|[[s m] rows] l IH]; intros d Hl.
  { by exists d. }
  cbn [forallb] in Hl. apply andb_true_iff in Hl as [Hs Hl]. cbn [fst snd] in Hs.
  cbn [fold_result]. unfold seed_table at 1.
  destruct (seed_rows_total s m rows (rows_of s d) Hs) as (t & Ht). rewrite Ht. cbn [rbind].
  destruct (IH (set_rows s t d) Hl) as (d' & Hd' & Ha & Hk & Hall). exists d'.
  split_and!; [done|done|done|]. intros s'. specialize (Hall s'). rewrite rows_of_set_rows in Hall.
  unfold of_table in *. cbn [List.filter fst]. destruct (String.eqb_spec (sc_name s) (sc_name s')) as [E|E].
  - rewrite decide_True in Hall by done. cbn [fold_result].
    assert (rows_of s d = rows_of s' d) as <- by (unfold rows_of; by rewrite E). by rewrite Ht.
  - by rewrite decide_False in Hall by done.
Qed.

(** Two statements on one table are one statement of the rows of both. *)
Lemma run_table_two s m rows1 rows2 t :
  m ≠ IfEmpty →
  run_table [(s, m, rows1); (s, m, rows2)] t = run_table [(s, m, rows1 ++ rows2)] t.
Proof.
  intros Hm. unfold run_table. cbn [fold_result]. destruct m; [| |done]; cbn [seed_rows];
    rewrite fold_result_app; by destruct (fold_result _ t rows1).
Qed.

Lemma run_table_again s m rows t t' :
  statement_ok s m rows = true → run_table [(s, m, rows)] t = inr t' → run_table [(s, m, rows)] t' = inr t'.
Proof.
  intros Hok. unfold run_table. cbn [fold_result].
  destruct (seed_rows s m rows t) as [e|t1] eqn:Ht; [done|]. cbn. intros [= <-].
  by rewrite (seed_rows_again s m rows t t1).
Qed.

(** The statements of a table run again change nothing, as they are one statement
    or two of the same kind. *)
Definition one_statement (l : list statement) : bool :=
  match l with
  | [] => true
  | [(s, m, rows)] => statement_ok s m rows
  | [(s1, m1, rows1); (s2, m2, rows2)] =>
      bool_decide (s1 = s2) && bool_decide (m1 = m2) && bool_decide (m1 ≠ IfEmpty) &&
      statement_ok s1 m1 (rows1 ++ rows2)
  | _ => false
  end.

Lemma one_statement_again l t t' :
  one_statement l = true → run_table l t = inr t' → run_table l t' = inr t'.
Proof.
  destruct l as [|[[s m] rows] [|[[s2 m2] rows2] [|]]]; cbn [one_statement]; try done.
  - apply run_table_again.
  - rewrite !andb_true_iff, !bool_decide_eq_true. intros [[[<- <-] Hm] Hok].
    rewrite !run_table_two by done. by apply run_table_again.
Qed.

Section seeded.
Context (iso iso_date : Z → string) (n1 n2 n3 n4 n5 : Z).
Abbreviation statements := (seed_statements iso iso_date n1 n2 n3 n4 n5).

Lemma statements_ok : forallb (λ st, statement_ok st.1.1 st.1.2 st.2) statements = true.
Proof. vm_compute. reflexivity. Qed.

Lemma tables_once :
  forallb (λ name, one_statement (of_table name statements)) (map (λ st, sc_name st.1.1) statements) = true.
Proof. vm_compute. reflexivity. Qed.

Lemma of_table_other name :
  name ∉ map (λ st, sc_name st.1.1) statements → of_table name statements = [].
Proof.
  intros Hn. apply filter_none. intros st Hst. apply String.eqb_neq. intros <-. apply Hn.
  apply list_elem_of_fmap. by exists st.
Qed.

Lemma of_table_one name : one_statement (of_table name statements) = true.
Proof.
  destruct (decide (name ∈ map (λ st, sc_name st.1.1) statements)) as [Hn|Hn];
    [|by rewrite of_table_other].
  pose proof tables_once as Hall. rewrite forallb_forall in Hall. by apply Hall, list_elem_of_In.
Qed.

(** What becomes of a table, by the way it is seeded *)
Definition seeded_as (m : seeding) (s : schema) (rows before after : list row) : Prop :=
  match m with
  | OrReplace => after = List.filter (kept s rows) before ++ rows
  | OrIgnore =>
      ∃ extra, after = before ++ extra ∧ (∀ r, r ∈ extra → r ∈ rows) ∧
        ∀ r, r ∈ rows → existsb (clash s r) after = true
  | IfEmpty => if decide (before = []) then length after = length rows else after = before
  end.

Lemma seed_rows_as s m rows t t' :
  statement_ok s m rows = true → seed_rows s m rows t = inr t' → seeded_as m s rows t t'.
Proof.
  destruct m; cbn; intros Hok Hr.
  - destruct (ignore_rows s rows t Hok) as (extra & Hf & Hall & Hin). rewrite Hf in Hr. injection Hr as <-.
    by exists extra.
  - rewrite replace_rows in Hr by done. by injection Hr as <-.
  - apply andb_true_iff in Hok as [_ Hok]. destruct t as [|x t]; [|by injection Hr as <-].
    destruct (new_rows s rows [] Hok) as (t1 & Hf & Hl). rewrite Hf in Hr. by injection Hr as ->.
Qed.

Lemma run_table_as l s m rows t t' :
  one_statement l = true → l = [(s, m, rows)] ∨ (∃ rows1 rows2, m ≠ IfEmpty ∧
    l = [(s, m, rows1); (s, m, rows2)] ∧ rows = rows1 ++ rows2) →
  run_table l t = inr t' → seeded_as m s rows t t'.
Proof.
  intros Hok Hl Hr. assert (statement_ok s m rows = true ∧ run_table [(s, m, rows)] t = inr t') as [Hst Hone].
  { destruct Hl as [->|(rows1 & rows2 & Hm & -> & ->)]; [done|].
    rewrite run_table_two in Hr by done. split; [|done]. cbn [one_statement] in Hok.
    by apply andb_true_iff in Hok as [_ ?]. }
  apply seed_rows_as; [done|]. revert Hone. unfold run_table. cbn [fold_result].
  destruct (seed_rows s m rows t) as [e|t1]; [done|]. cbn. by intros [= <-].
Qed.

(** The eleven tables, how each is seeded, and with which rows: [transactions] and
    [knowledge_articles] by two statements each. *)
Definition seeded_tables : list (schema * seeding * list row) :=
  [ (orders, OrReplace, seed_orders iso_date n1);
    (transactions, OrReplace, seed_transactions iso n2 ++ seed_eft_transactions iso n5);
    (fraud_alerts, OrReplace, seed_fraud_alerts iso n3); (disputes, OrReplace, seed_disputes iso_date n5);
    (customers, OrIgnore, seed_customers); (accounts, OrIgnore, seed_accounts);
    (devices, OrIgnore, seed_devices);
    (knowledge_articles, OrIgnore, seed_knowledge_articles ++ seed_reg_e_article);
    (order_items, IfEmpty, seed_order_items); (login_history, IfEmpty, seed_login_history iso n4);
    (risk_indicators, IfEmpty, seed_risk_indicators) ].

Lemma seeded_tables_cover s m rows :
  (s, m, rows) ∈ seeded_tables →
  let l := of_table (sc_name s) statements in
  l = [(s, m, rows)] ∨ ∃ rows1 rows2, m ≠ IfEmpty ∧ l = [(s, m, rows1); (s, m, rows2)] ∧ rows = rows1 ++ rows2.
Proof.
  unfold seeded_tables. intros Hin.
  repeat (apply elem_of_cons in Hin as [[= -> -> ->]|Hin];
    [first [by left|right; eexists _, _; by split; [|split; reflexivity]]|]).
  by apply not_elem_of_nil in Hin.
Qed.

Lemma seeded_names name :
  name ∈ map (λ st, sc_name st.1.1) statements → name ∈ map (λ t, sc_name t.1.1) seeded_tables.
Proof.
  assert (forallb (λ n, bool_decide (n ∈ map (λ t, sc_name t.1.1) seeded_tables))
            (map (λ st, sc_name st.1.1) statements) = true) as Hall by (vm_compute; reflexivity).
  rewrite forallb_forall in Hall. intros Hn%list_elem_of_In.
  eapply bool_decide_eq_true, Hall, Hn.
Qed.

(** C33: Seeding the reference database never fails, over any database, and a second
    run with the same readings of the clock changes nothing: the tables and the
    audit trail are the ones the first left.  It is not idempotent with regard to
    what happened in between: orders, transactions, fraud alerts and disputes are
    replaced, so after a run every row of theirs under a seeded key is the seed's,
    whatever it had become, and the other rows keep their contents and order.
    Customers, accounts, devices and articles only gain the seeds whose keys were
    missing; items of orders, logins and risk indicators are written into an empty
    table only; no other table changes. *)
Theorem seeding_settles d :
  ∃ d1 d2, seed_with statements d = inr d1 ∧ seed_with statements d1 = inr d2 ∧
    (∀ s, rows_of s d2 = rows_of s d1) ∧ rf_audit d2 = rf_audit d ∧
    (∀ s m rows, (s, m, rows) ∈ seeded_tables → seeded_as m s rows (rows_of s d) (rows_of s d1)) ∧
    ∀ s, sc_name s ∉ map (λ t, sc_name t.1.1) seeded_tables → rows_of s d1 = rows_of s d.
Proof.
  destruct (seed_with_spec statements d statements_ok) as (d1 & H1 & Ha1 & _ & Hall1).
  destruct (seed_with_spec statements d1 statements_ok) as (d2 & H2 & Ha2 & _ & Hall2).
  exists d1, d2. split_and!; [done|done| |by rewrite Ha2| |].
  - intros s. pose proof (one_statement_again _ _ _ (of_table_one (sc_name s)) (Hall1 s)) as Hagain.
    rewrite Hall2 in Hagain. by injection Hagain.
  - intros s m rows Hs. eapply run_table_as; [apply of_table_one|by apply seeded_tables_cover|apply Hall1].
  - intros s Hs. specialize (Hall1 s). rewrite of_table_other in Hall1; [by injection Hall1|].
    intros Hin. by apply Hs, seeded_names.
Qed.
End seeded.

(** ** Witness: a database seeded, used, and seeded again *)

Definition demo_iso (z : Z) : string := "2026-01-01".
Definition demo_statements := seed_statements demo_iso demo_iso 0 0 0 0 0.
Definition seeded_from (d : Reference) : Reference :=
  match seed_with demo_statements d with inr d' => d' | inl _ => d end.
Definition blank_reference : Reference := mkReference [] [] 0.
Definition status_of (s : schema) (id : string) (d : Reference) : option value :=
  option_map (dget_none "status") (select_one (text_is (sc_key s) id) (rows_of s d)).

(** The alert is closed and the dispute credited; then the process starts again. *)
#[local] Instance seed_times : Oracle := {| now_at := λ n, Z.of_nat n; uuid_at := λ _, "" |}.
Definition used_reference : Reference :=
  (run (_ ← alert_close "FA-001";
        dispute_issue_provisional_credit "DISP-001" (money 30000) "2026-01-02")
     (seeded_from blank_reference)).1.

Example seeding_settles_witness :
  map length (map (λ s, rows_of s (seeded_from blank_reference)) [customers; orders; transactions; disputes])
    = [4; 4; 15; 4] ∧
  seed_with demo_statements (seeded_from used_reference) = inr (seeded_from (seeded_from used_reference)) ∧
  (status_of fraud_alerts "FA-001" used_reference, status_of disputes "DISP-001" used_reference)
    = (Some (VStr "closed"), Some (VStr "provisional_credit")) ∧
  (status_of fraud_alerts "FA-001" (seeded_from used_reference),
   status_of disputes "DISP-001" (seeded_from used_reference)) = (Some (VStr "open"), Some (VStr "open")).
Proof.
  destruct (seeding_settles demo_iso demo_iso 0 0 0 0 0 used_reference) as (d1 & d2 & H1 & H2 & _).
  assert (seeded_from used_reference = d1) as E1 by (unfold seeded_from, demo_statements; by rewrite H1).
  split; [vm_compute; reflexivity|]. split.
  { rewrite E1. unfold seeded_from, demo_statements. by rewrite H2. }
  split; vm_compute; reflexivity.
Defined.
