(* ===== verification/Sandbox.v ===== *)
(** * The provider sandbox ([integrations/sandbox.py], [integrations/resources.py])

    The development emulator of the upstream systems: the authoritative
    resources, the action provider with its fault injection, the delivery
    receipts and the handoff queue.  Every connection to the sandbox database is
    one atomic step on a [Sandbox]; the idempotent CREATE TABLEs of the
    [initialize] methods are left out.  A JSON column holds its value. *)

From Stdlib Require Import SpecFloat.
From stdpp Require Import pretty.
From S2P Require Import Prelude PyValue PyString Prog Table KernelData World Gateway ActionService.

(** ** Sensitive fields *)

Definition _SENSITIVE_KEY_FRAGMENTS : list string :=
  [ "password"; "secret"; "token"; "pin"; "cvv"; "card_number"; "ssn"; "social_security";
    "private_key" ].

Definition sensitive_key (key : string) : bool :=
  existsb (λ fragment, str_contains fragment (str_lower key)) _SENSITIVE_KEY_FRAGMENTS.

Fixpoint _sensitive_paths (v : value) (prefix : string) : list string :=
  match v with
  | VDict d =>
      (fix fields (d : list (string * value)) : list string :=
         match d with
         | [] => []
         | (key, nested) :: d' =>
             let path := if String.eqb prefix "" then key else prefix +:+ "." +:+ key in
             (if sensitive_key key then [path] else [])
               ++ _sensitive_paths nested path ++ fields d'
         end) d
  | VList l =>
      (fix items (index : nat) (l : list value) : list string :=
         match l with
         | [] => []
         | nested :: l' =>
             _sensitive_paths nested (prefix +:+ "[" +:+ pretty index +:+ "]")
               ++ items (S index) l'
         end) 0 l
  | _ => []
  end.

(** [", ".join(sorted(paths))] *)
Definition paths_text (paths : list string) : string :=
  join ", " (sorted_set (list_to_set paths)).

(** ** Speech *)

Record SttRequest := mkSttRequest {
  stt_event_id : string; stt_call_id : string; stt_transcript_hint : option string;
  stt_is_final : bool; stt_contains_secret_dtmf : bool
}.
Record SttResult := mkSttResult {
  str_event_id : string; str_call_id : string; str_transcript : string; str_confidence : float;
  str_is_final : bool; str_redacted : bool
}.

(** [transcribe], of an adapter of the given confidence *)
Definition transcribe (confidence : float) (r : SttRequest) : SttResult :=
  let redacted := stt_contains_secret_dtmf r in
  mkSttResult (stt_event_id r) (stt_call_id r)
    (if redacted then "[REDACTED DTMF]" else default "" (stt_transcript_hint r))
    (if redacted then S754_zero false else confidence) (stt_is_final r) redacted.

(** ** State *)

Inductive SandboxScenario := SUCCESS | REJECTED | TIMEOUT_BEFORE_COMMIT | TIMEOUT_AFTER_COMMIT.
#[export] Instance SandboxScenario_eq_dec : EqDecision SandboxScenario.
Proof. solve_decision. Defined.
Definition scenario_value (s : SandboxScenario) : string :=
  match s with
  | SUCCESS => "success" | REJECTED => "rejected"
  | TIMEOUT_BEFORE_COMMIT => "timeout_before_commit"
  | TIMEOUT_AFTER_COMMIT => "timeout_after_commit"
  end.

Inductive DeliveryStatus := DS_ACCEPTED | DS_DELIVERED | DS_READ | DS_FAILED | DS_UNKNOWN.
#[export] Instance DeliveryStatus_eq_dec : EqDecision DeliveryStatus.
Proof. solve_decision. Defined.

Record ProviderReceipt := mkReceipt {
  rx_provider_id : string; rx_provider_message_id : string; rx_status : DeliveryStatus;
  rx_occurred_at : Z; rx_details : dict value
}.
Definition receipt_key (r : ProviderReceipt) : string * string * DeliveryStatus :=
  (rx_provider_id r, rx_provider_message_id r, rx_status r).

Record resource_row := mkResourceRow {
  rs_type : string; rs_id : string; rs_payload : dict value; rs_version : Z; rs_updated_at : Z
}.
Definition resource_key (r : resource_row) : string * string := (rs_type r, rs_id r).

Record scenario_row := mkScenarioRow { sc_key : string; sc_scenario : SandboxScenario }.

Record effect_row := mkEffect {
  ef_key : string; ef_provider_action_id : string; ef_action : string;
  ef_command : ActionCommand; ef_committed_at : Z
}.

Record ticket_row := mkTicket {
  tk_id : string; tk_handoff_id : string; tk_request : dict value; tk_status : string;
  tk_updated_at : Z
}.

Record Sandbox := mkSandbox {
  sx_resources : list resource_row; sx_scenarios : list scenario_row;
  sx_effects : list effect_row; sx_receipts : list ProviderReceipt;
  sx_tickets : list ticket_row; sx_clock : nat
}.

Definition set_resources t x :=
  mkSandbox t (sx_scenarios x) (sx_effects x) (sx_receipts x) (sx_tickets x) (sx_clock x).
Definition set_scenarios t x :=
  mkSandbox (sx_resources x) t (sx_effects x) (sx_receipts x) (sx_tickets x) (sx_clock x).
Definition set_effects t x :=
  mkSandbox (sx_resources x) (sx_scenarios x) t (sx_receipts x) (sx_tickets x) (sx_clock x).
Definition set_receipts t x :=
  mkSandbox (sx_resources x) (sx_scenarios x) (sx_effects x) t (sx_tickets x) (sx_clock x).
Definition set_tickets t x :=
  mkSandbox (sx_resources x) (sx_scenarios x) (sx_effects x) (sx_receipts x) t (sx_clock x).
Definition tick_sandbox x :=
  mkSandbox (sx_resources x) (sx_scenarios x) (sx_effects x) (sx_receipts x) (sx_tickets x)
    (S (sx_clock x)).

(** [sha256(text.encode()).hexdigest()] *)
Class TextDigest := text_digest : string → string.
(** [json.dumps(v)] *)
Class JsonDumps := json_dumps : value → string.

(** [iso] is the text of a timestamp in the details of an outcome. *)
Section sandbox.
Context `{Oracle} `{TextDigest} `{JsonDumps} (iso : Z → string).
Abbreviation prog := (prog Sandbox).

Definition sandbox_read {A} (f : Sandbox → A) : prog A := atomically (λ x, (x, inr (f x))).

(** ** Resources *)

Definition sandbox_get_resource (resource_type resource_id : string) : prog (option resource_row) :=
  sandbox_read (λ x, tget resource_key (resource_type, resource_id) (sx_resources x)).

Definition put_resource (resource_type resource_id : string) (payload : dict value) :
    prog resource_row :=
  let rejected := _sensitive_paths (VDict payload) "" in
  _ ← require (match rejected with [] => true | _ => false end)
        (ValueError ("Sandbox resources reject sensitive fields: " +:+ paths_text rejected));
  _ ← atomically (λ x,
    let now := now_at (sx_clock x) in
    (set_resources
       (tupsert resource_key (mkResourceRow resource_type resource_id payload 1 now)
          (λ r, mkResourceRow (rs_type r) (rs_id r) payload (rs_version r + 1) now)
          (sx_resources x)) (tick_sandbox x), inr tt));
  resource ← sandbox_get_resource resource_type resource_id;
  match resource with Some r => mret r | None => mthrow AssertionError end.

(** ** Actions *)

Definition set_scenario (key : string) (scenario : SandboxScenario) : prog unit :=
  atomically (λ x,
    (set_scenarios (tupsert sc_key (mkScenarioRow key scenario)
                      (λ r, mkScenarioRow (sc_key r) scenario) (sx_scenarios x)) x, inr tt)).

Definition _scenario (key : string) : prog SandboxScenario :=
  sandbox_read (λ x, match tget sc_key key (sx_scenarios x) with
                     | Some r => sc_scenario r | None => SUCCESS end).

Definition _effect (key : string) : prog (option effect_row) :=
  sandbox_read (λ x, tget ef_key key (sx_effects x)).

Definition provider_action_id (key : string) : string :=
  "SBX-" +:+ str_upper (String.substring 0 20 (text_digest key)).

(** INSERT OR IGNORE: nothing happens when either unique column is taken. *)
Definition insert_effect (e : effect_row) (rows : list effect_row) : list effect_row :=
  match tget ef_key (ef_key e) rows, tget ef_provider_action_id (ef_provider_action_id e) rows with
  | None, None => rows ++ [e]
  | _, _ => rows
  end.

Definition _commit (command : ActionCommand) : prog effect_row :=
  _ ← atomically (λ x,
    let e := mkEffect (c_idempotency_key command) (provider_action_id (c_idempotency_key command))
               (c_action command) command (now_at (sx_clock x)) in
    (set_effects (insert_effect e (sx_effects x)) (tick_sandbox x), inr tt));
  effect ← _effect (c_idempotency_key command);
  match effect with Some e => mret e | None => mthrow AssertionError end.

Definition provider_id : string := "sqlite-action-sandbox".

Definition _details (e : effect_row) (extra : dict value) : dict value :=
  dupdate [ ("provider_id", VStr provider_id);
            ("provider_action_id", VStr (ef_provider_action_id e));
            ("action", VStr (ef_action e)); ("committed_at", VStr (iso (ef_committed_at e)));
            ("simulated", VBool true) ] extra.

Definition simulated_reason (reason : string) : dict value :=
  [("provider_id", VStr provider_id); ("reason", VStr reason); ("simulated", VBool true)].

Definition sandbox_dispatch (command : ActionCommand) : prog ConnectorOutcome :=
  existing ← _effect (c_idempotency_key command);
  match existing with
  | Some e => mret (outcome_succeeded (_details e [("idempotent_replay", VBool true)]))
  | None =>
      scenario ← _scenario (c_idempotency_key command);
      match scenario with
      | REJECTED => mret (outcome_failed (simulated_reason "sandbox_rejected"))
      | TIMEOUT_BEFORE_COMMIT =>
          mret (outcome_unknown (simulated_reason (scenario_value scenario)))
      | _ =>
          e ← _commit command;
          if decide (scenario = TIMEOUT_AFTER_COMMIT) then
            mret (outcome_unknown
              [ ("provider_id", VStr provider_id);
                ("provider_action_id", VStr (ef_provider_action_id e));
                ("reason", VStr (scenario_value scenario)); ("simulated", VBool true) ])
          else mret (outcome_succeeded (_details e []))
      end
  end.

(** [prior or {}] *)
Definition prior_or_empty (prior : option (dict value)) : value :=
  VDict match prior with Some d => d | None => [] end.

Definition sandbox_reconcile (command : ActionCommand) (prior : option (dict value)) :
    prog ConnectorOutcome :=
  e ← _effect (c_idempotency_key command);
  match e with
  | Some e => mret (outcome_succeeded (_details e [("reconciled", VBool true)]))
  | None =>
      mret (outcome_unknown
        [ ("provider_id", VStr provider_id);
          ("reason", VStr "no_authoritative_provider_record");
          ("prior", prior_or_empty prior); ("simulated", VBool true) ])
  end.

(** ** Delivery receipts *)

(** INSERT OR REPLACE *)
Definition replace_receipt (r : ProviderReceipt) (rows : list ProviderReceipt) :
    list ProviderReceipt :=
  select_where (λ r', negb (bool_decide (receipt_key r' = receipt_key r))) rows ++ [r].

Definition record_receipt (receipt : ProviderReceipt) : prog ProviderReceipt :=
  let sensitive := _sensitive_paths (VDict (rx_details receipt)) "" in
  _ ← require (match sensitive with [] => true | _ => false end)
        (ValueError ("Delivery receipt rejects sensitive fields: " +:+ paths_text sensitive));
  _ ← atomically (λ x, (set_receipts (replace_receipt receipt (sx_receipts x)) x, inr tt));
  mret receipt.

Definition list_receipts (lim : Z) : prog (list ProviderReceipt) :=
  sandbox_read (λ x, limit lim (order_by_desc rx_occurred_at (sx_receipts x))).

(** ** Chat and telephony *)

(** [message.get("message_id") or "MSG-" + ...]; an identifier that is not a
    string is refused by the receipt's model. *)
Definition send_message (message : dict value) : prog ProviderReceipt :=
  message_id ← lift_result
    (let given := dget_none "message_id" message in
     if truthy given then
       match given with VStr s => inr s | _ => inl (OtherError "ValidationError") end
     else inr ("MSG-" +:+ str_upper (String.substring 0 20
                 (text_digest (json_dumps (canonical_json (VDict message)))))));
  now ← atomically (λ x, (tick_sandbox x, inr (now_at (sx_clock x))));
  record_receipt (mkReceipt "local-chat" message_id DS_DELIVERED now
    [ ("simulated", VBool true);
      ("conversation_id", dget_none "conversation_id" message) ]).

Definition accept_event (event_id call_id event_type : string) : prog ProviderReceipt :=
  atomically (λ x,
    (tick_sandbox x,
     inr (mkReceipt "sandbox-telephony" event_id DS_ACCEPTED (now_at (sx_clock x))
            [ ("call_id", VStr call_id); ("event_type", VStr event_type);
              ("simulated", VBool true) ]))).

(** ** Handoff tickets *)

Record HandoffReceipt := mkHandoffReceipt {
  hr_provider_id : string; hr_handoff_id : string; hr_provider_ticket_id : string;
  hr_status : string
}.

Definition ticket_status (ticket_id : string) : prog HandoffReceipt :=
  row ← sandbox_read (λ x, tget tk_id ticket_id (sx_tickets x));
  match row with
  | None => mthrow (KeyError ticket_id)
  | Some t => mret (mkHandoffReceipt "sqlite-handoff-sandbox" (tk_handoff_id t) ticket_id
                      (tk_status t))
  end.

Definition ticket_id_of (handoff_id : string) : string :=
  "TKT-" +:+ str_upper (String.substring 0 16 (text_digest handoff_id)).

Definition insert_ticket (t : ticket_row) (rows : list ticket_row) : list ticket_row :=
  match tget tk_id (tk_id t) rows, tget tk_handoff_id (tk_handoff_id t) rows with
  | None, None => rows ++ [t]
  | _, _ => rows
  end.

Definition enqueue_ticket (handoff_id : string) (request : dict value) : prog HandoffReceipt :=
  let ticket_id := ticket_id_of handoff_id in
  _ ← atomically (λ x,
    (set_tickets (insert_ticket (mkTicket ticket_id handoff_id request "queued"
                                   (now_at (sx_clock x))) (sx_tickets x)) (tick_sandbox x), inr tt));
  ticket_status ticket_id.

Definition set_ticket_status (ticket_id status : string) : prog HandoffReceipt :=
  _ ← atomically (λ x,
    let named t := bool_decide (tk_id t = ticket_id) in
    (set_tickets (update_where named
        (λ t, mkTicket (tk_id t) (tk_handoff_id t) (tk_request t) status (now_at (sx_clock x)))
        (sx_tickets x)) (tick_sandbox x),
     if Nat.eqb (rowcount named (sx_tickets x)) 1 then inr tt else inl (KeyError ticket_id)));
  ticket_status ticket_id.

(** ** The sandbox as the engine sees it *)

(** A provider's program seen from the engine's world. *)
Fixpoint on_ext {A} (p : Prog.prog Sandbox A) : Prog.prog (World Sandbox) A :=
  match p with
  | Done r => Done r
  | Step f k => Step (λ w, set_ext (f (w_ext w)) w) (λ w, on_ext (k (w_ext w)))
  end.

Definition sandbox_connector : ActionConnector Sandbox :=
  mkConnector (λ c, run (sandbox_dispatch c)) (λ c prior, run (sandbox_reconcile c prior)).

Definition sandbox_resources : ResourceProvider Sandbox :=
  mkResourceProvider (λ t i,
    r ← on_ext (sandbox_get_resource t i);
    mret (option_map (λ r, mkResource (rs_payload r) (VInt (rs_version r))) r)).
End sandbox.

Definition disabled_connector {Ext} : ActionConnector Ext :=
  mkConnector
    (λ _ x, (x, inr (outcome_failed
       [("provider_id", VStr "disabled"); ("reason", VStr "upstream_adapter_disabled")])))
    (λ _ prior x, (x, inr (outcome_unknown
       [ ("provider_id", VStr "disabled"); ("reason", VStr "upstream_adapter_disabled");
         ("prior", prior_or_empty prior) ]))).

(** ** Chained resource providers *)

Fixpoint first_resource {Ext} (providers : list (ResourceProvider Ext)) (t i : string) :
    prog (World Ext) (option Resource) :=
  match providers with
  | [] => mret None
  | p :: providers' =>
      r ← get_resource p t i;
      match r with Some r => mret (Some r) | None => first_resource providers' t i end
  end.

Definition ChainedResourceProvider {Ext} (providers : list (ResourceProvider Ext)) :
    ResourceProvider Ext := mkResourceProvider (first_resource providers).
