(* ===== verification/ConnectorRegistry.v ===== *)
(** * Provider bindings and the REST connector ([integrations/registry.py])

    The configuration of the action bindings and its validation, the connector
    that calls a provider over HTTP, and the registry the gateway resolves
    connectors from.  Reading a file, its digest and its YAML or JSON content
    are [Documents]; the HTTP client is [HttpClient]; both are outside src/, as
    are the factories of Python connectors.  Patterns and paths are ASCII. *)

From Stdlib Require Import SpecFloat Strings.Ascii.
From S2P Require Import Prelude PyValue PyString Prog ActionSpecs KernelData World Settings Gateway Sandbox.

(** ** Bindings *)

Record OpenApiDocument := mkOpenApi { oa_path : string; oa_sha256 : string }.

Record HttpOperation := mkOperation {
  op_operation_id : string; op_method : string; op_path : string;
  op_body : dict string; op_query : dict string
}.

Record HttpStatusMapping := mkStatuses {
  hs_succeeded : list Z; hs_accepted : list Z; hs_failed : list Z
}.

Record RestSettings := mkRest {
  rest_base_url : string; rest_allowed_hosts : list string; rest_timeout_seconds : float;
  rest_idempotency_header : string; rest_secret_ref : option string; rest_auth_header : string;
  rest_auth_scheme : string; rest_openapi : OpenApiDocument; rest_execute : HttpOperation;
  rest_reconcile : option HttpOperation; rest_statuses : HttpStatusMapping;
  rest_operation_pointer : option string; rest_response_fields : dict string
}.

Record WebSocketMessageBinding := mkWsMessage { wm_message_type : string; wm_payload : dict string }.

Record WebSocketSettings := mkWebSocket {
  ws_url : string; ws_allowed_hosts : list string; ws_secret_ref : option string;
  ws_execute : WebSocketMessageBinding; ws_reconcile : WebSocketMessageBinding;
  ws_acknowledgement_type : string; ws_outcome_type : string
}.

(** The discriminated union of the transports. *)
Inductive transport :=
  | SqliteTransport (database_url : string)
  | RestTransport (r : RestSettings)
  | PythonTransport (factory : string)
  | WebSocketTransport (ws : WebSocketSettings).

Record ActionConnectorBinding := mkBinding {
  ab_action_name : string; ab_binding_id : string; ab_binding_version : string;
  ab_contract_version : string; ab_enabled : bool; ab_transport : transport
}.

(** ** Validation of a binding *)

Definition nonempty (s : string) : bool := negb (String.eqb s "").

(** [^[A-Za-z0-9_.:-]+$] *)
Definition binding_id_valid (s : string) : bool :=
  nonempty s &&
  str_all (λ c, is_word c || Ascii.eqb c "." || Ascii.eqb c ":" || Ascii.eqb c "-") s.

(** [^[a-fA-F0-9]{64}$] *)
Definition sha256_valid (s : string) : bool := Nat.eqb (String.length s) 64 && str_all is_hex s.

(** [[A-Za-z_][\w.]*] *)
Definition dotted_name (s : string) : bool :=
  match s with
  | EmptyString => false
  | String c s' => (is_alpha c || Ascii.eqb c "_") && str_all (λ c, is_word c || Ascii.eqb c ".") s'
  end.
Definition factory_valid (s : string) : bool :=
  match after ":" s with Some attr => dotted_name (before ":" s) && dotted_name attr | None => false end.

(** The scheme of a URL that parses. *)
Definition scheme_of (url : string) : string :=
  match urlparse url with inr p => u_scheme p | inl _ => "" end.
Definition hostname_of (url : string) : option string :=
  match urlparse url with inr p => u_hostname p | inl _ => None end.

Definition require_relative_path (path : string) : bool :=
  negb (negb (starts_with "/" path) || nonempty (scheme_of path) || str_contains "//" path).

Definition operation_valid (o : HttpOperation) : bool :=
  nonempty (op_operation_id o) &&
  bool_decide (op_method o ∈ ["GET"; "POST"; "PUT"; "PATCH"; "DELETE"]) &&
  require_relative_path (op_path o).

Definition disjoint (a b : list Z) : bool := bool_decide (Forall (λ x, x ∉ b) a).
Definition statuses_valid (m : HttpStatusMapping) : bool :=
  disjoint (hs_succeeded m) (hs_accepted m) && disjoint (hs_succeeded m) (hs_failed m) &&
  disjoint (hs_accepted m) (hs_failed m).

Definition secret_ref_valid (ref : option string) : bool :=
  negb (str_truthy ref) ||
  match ref with
  | Some r => starts_with "env://" r || starts_with "secret://" r
  | None => true
  end.

(** The scheme of the URL is one of [schemes] and its host is allowed. *)
Definition origin_valid (schemes : list string) (url : string) (allowed_hosts : list string) : bool :=
  bool_decide (scheme_of url ∈ schemes) &&
  match hostname_of url with Some h => bool_decide (h ∈ allowed_hosts) | None => false end.

Definition validate_rest_contract (r : RestSettings) : bool :=
  origin_valid ["http"; "https"] (rest_base_url r) (rest_allowed_hosts r) &&
  secret_ref_valid (rest_secret_ref r) &&
  negb (bool_decide (hs_accepted (rest_statuses r) ≠ []) &&
        match rest_reconcile r with Some _ => false | None => true end).

Definition rest_valid (r : RestSettings) : bool :=
  bool_decide (rest_allowed_hosts r ≠ []) &&
  f_ltb (S754_zero false) (rest_timeout_seconds r) &&
  f_leb (rest_timeout_seconds r) (f_of_Z 120) &&
  sha256_valid (oa_sha256 (rest_openapi r)) && operation_valid (rest_execute r) &&
  match rest_reconcile r with Some o => operation_valid o | None => true end &&
  statuses_valid (rest_statuses r) && validate_rest_contract r.

Definition websocket_valid (ws : WebSocketSettings) : bool :=
  bool_decide (ws_allowed_hosts ws ≠ []) && nonempty (wm_message_type (ws_execute ws)) &&
  nonempty (wm_message_type (ws_reconcile ws)) && nonempty (ws_acknowledgement_type ws) &&
  nonempty (ws_outcome_type ws) &&
  origin_valid ["ws"; "wss"] (ws_url ws) (ws_allowed_hosts ws) &&
  secret_ref_valid (ws_secret_ref ws).

Definition closed_catalog_only (action_name : string) : bool := dhas action_name ACTION_SPECIFICATIONS.

Definition transport_valid (t : transport) : bool :=
  match t with
  | SqliteTransport url => starts_with "sqlite" url
  | RestTransport r => rest_valid r
  | PythonTransport factory => factory_valid factory
  | WebSocketTransport ws => websocket_valid ws
  end.

Definition binding_valid (b : ActionConnectorBinding) : bool :=
  closed_catalog_only (ab_action_name b) && binding_id_valid (ab_binding_id b) &&
  nonempty (ab_binding_version b) && nonempty (ab_contract_version b) &&
  transport_valid (ab_transport b).

(** ** The configuration *)

Record ActionRegistryConfig := mkRegistryConfig {
  rg_version : Z; rg_bindings : list ActionConnectorBinding
}.

Definition active_names (bs : list ActionConnectorBinding) : list string :=
  map ab_action_name (List.filter ab_enabled bs).
Definition identity (b : ActionConnectorBinding) : string * string :=
  (ab_binding_id b, ab_binding_version b).

Definition unique_active_actions (c : ActionRegistryConfig) : result unit :=
  (ensure bool_decide (NoDup (active_names (rg_bindings c))) else
     (ValueError "Only one enabled binding is allowed per action") in
   ensure bool_decide (NoDup (map identity (rg_bindings c))) else
     (ValueError "Binding ID/version pairs must be unique") in
   inr tt)%wf.

(** [ActionRegistryConfig.model_validate] of a document with the right types *)
Definition model_validate (c : ActionRegistryConfig) : result ActionRegistryConfig :=
  if (1 <=? rg_version c)%Z && forallb binding_valid (rg_bindings c)
  then rbind (unique_active_actions c) (λ _, inr c)
  else inl (OtherError "ValidationError").

(** ** The mapping language *)

Definition roots (command : ActionCommand) (prior : option (dict value)) : dict value :=
  [ ("action", VStr (c_action command)); ("case_id", VStr (c_case_id command));
    ("actor_id", VStr (c_actor_id command));
    ("idempotency_key", VStr (c_idempotency_key command));
    ("parameters", VDict (c_parameters command));
    ("prior", VDict (default [] prior)) ].

(** The walk along the parts of a path. *)
Fixpoint walk (parts : list string) (v : value) : option value :=
  match parts with
  | [] => Some v
  | part :: parts' =>
      match v with
      | VDict d => match dget part d with Some v' => walk parts' v' | None => None end
      | _ => None
      end
  end.

Definition path_parts (expression : string) : list string :=
  split_on "."%char (remove_prefix "$." expression).

Definition _source (command : ActionCommand) (expression : string) (prior : option (dict value)) :
    result value :=
  match walk (path_parts expression) (VDict (roots command prior)) with
  | Some v => inr v
  | None => inl (ValueError ("Configured mapping source does not exist: " +:+ expression))
  end.

Definition _pointer (document : value) (pointer : option string) : value :=
  match pointer with
  | None => VNone
  | Some p => if String.eqb p "" then VNone else default VNone (walk (path_parts p) document)
  end.

(** [{target: _source(command, source, prior) for target, source in m.items()}] *)
Fixpoint map_sources (command : ActionCommand) (prior : option (dict value)) (m : dict string) :
    result (dict value) :=
  match m with
  | [] => inr []
  | (target, source) :: m' =>
      rbind (_source command source prior) (λ v,
        rbind (map_sources command prior m') (λ d, inr ((target, v) :: d)))
  end.

(** ** The REST connector *)

Record http_call := mkHttpCall {
  hc_method : string; hc_url : string; hc_headers : dict string; hc_params : dict value;
  hc_json : option (dict value); hc_timeout : float
}.
Record http_response := mkHttpResponse { hp_status : Z; hp_json : option value }.

(** [httpx.TimeoutException] and [httpx.NetworkError], with the name of the
    class, or any other exception. *)
Inductive http_failure := AmbiguousFailure (error_type : string) | OtherFailure (e : exn).

(** The HTTP client, acting on the outside world; joining a base URL and a path. *)
Class HttpClient (Ext : Type) :=
  http_request_of : http_call → Ext → Ext * (http_failure + http_response).
Class UrlJoin := urljoin : string → string → string.
(** [SecretProvider.resolve] *)
Class Secrets := resolve_secret : string → result string.

(** [EnvironmentSecretProvider.resolve] over the environment *)
Definition environment_secret (env : dict string) (reference : string) : result string :=
  if negb (starts_with "env://" reference) then
    inl (ValueError "The built-in secret provider supports only env:// references")
  else
    let name := remove_prefix "env://" reference in
    match dget name env with
    | Some v => if String.eqb v "" then
                  inl (ValueError ("Required secret environment variable is not set: " +:+ name))
                else inr v
    | None => inl (ValueError ("Required secret environment variable is not set: " +:+ name))
    end.

Section rest.
Context `{UrlJoin} `{Secrets} {Ext : Type} `{!HttpClient Ext}.

Definition slash (c : ascii) : bool := Ascii.eqb c "/".

Definition request_headers (r : RestSettings) (command : ActionCommand) : result (dict string) :=
  let headers := [(rest_idempotency_header r, c_idempotency_key command)] in
  match rest_secret_ref r with
  | Some ref =>
      if String.eqb ref "" then inr headers
      else rbind (resolve_secret ref) (λ secret,
             inr (dset (rest_auth_header r) (str_strip (rest_auth_scheme r +:+ " " +:+ secret))
                    headers))
  | None => inr headers
  end.

Definition _request (r : RestSettings) (operation : HttpOperation) (command : ActionCommand)
    (prior : option (dict value)) : result http_call :=
  rbind (request_headers r command) (λ headers,
    rbind (map_sources command prior (op_body operation)) (λ body,
      rbind (map_sources command prior (op_query operation)) (λ query,
        inr (mkHttpCall (op_method operation)
               (urljoin (rstrip_by slash (rest_base_url r) +:+ "/")
                  (lstrip_by slash (op_path operation)))
               headers query
               (if String.eqb (op_method operation) "GET" then None else Some body)
               (rest_timeout_seconds r))))).

(** What a response becomes. *)
Definition response_details (r : RestSettings) (response : http_response) : dict value :=
  let payload := default (VDict []) (hp_json response) in
  [ ("http_status", VInt (hp_status response));
    ("provider_operation_id", _pointer payload (rest_operation_pointer r));
    ("result", VDict (map (λ f, (f.1, _pointer payload (Some f.2))) (rest_response_fields r))) ].

Definition outcome_of_response (r : RestSettings) (response : http_response) : ConnectorOutcome :=
  let details := response_details r response in
  if bool_decide (hp_status response ∈ hs_succeeded (rest_statuses r)) then
    outcome_succeeded details
  else if bool_decide (hp_status response ∈ hs_failed (rest_statuses r)) then
    outcome_failed details
  else outcome_unknown (details ++ [("reason", VStr "provider_not_terminal")]).

Definition _execute (r : RestSettings) (operation : HttpOperation) (command : ActionCommand)
    (prior : option (dict value)) (x : Ext) : Ext * result ConnectorOutcome :=
  match _request r operation command prior with
  | inl e => (x, inl e)
  | inr call =>
      match http_request_of call x with
      | (x', inl (AmbiguousFailure ty)) =>
          (x', inr (outcome_unknown
             [("reason", VStr "provider_outcome_ambiguous"); ("error_type", VStr ty)]))
      | (x', inl (OtherFailure e)) => (x', inl e)
      | (x', inr response) => (x', inr (outcome_of_response r response))
      end
  end.

Definition RestActionConnector (r : RestSettings) : ActionConnector Ext :=
  mkConnector
    (λ command, _execute r (rest_execute r) command None)
    (λ command prior x,
       match rest_reconcile r with
       | None =>
           (x, inr (outcome_unknown
                      match prior with
                      | Some ((_ :: _) as d) => d
                      | _ => [("reason", VStr "reconciliation_not_configured")]
                      end))
       | Some operation => _execute r operation command prior x
       end).
End rest.

(** ** The pinned OpenAPI document *)

(** [path.read_bytes()] hashed, and its parsed content. *)
Class Documents := {
  document_sha256 : string → result string;
  document_value : string → result value
}.

Section registry.
Context `{Documents} `{Render} `{UrlJoin} `{Secrets} {Ext : Type} `{!HttpClient Ext}.
(** [load_factory(factory)(binding)]: a connector, or an object that is none. *)
Context (python_factory : string → ActionConnectorBinding → result (option (ActionConnector Ext))).

Definition _load_document (path : string) : result (dict value) :=
  rbind (document_value path) (λ v,
    match v with
    | VDict d => inr d
    | _ => inl (ValueError ("Configuration document must contain an object: " +:+ path))
    end).

(** The operations of one path item, after those collected so far. *)
Definition item_operations (path : string) (item : value) (acc : dict (string * string)) :
    dict (string * string) :=
  match item with
  | VDict methods =>
      fold_left (λ acc m,
        match m.2 with
        | VDict operation =>
            let oid := dget_none "operationId" operation in
            if truthy oid then dset (py_str oid) (str_upper m.1, path) acc else acc
        | _ => acc
        end) methods acc
  | _ => acc
  end.

Definition document_operations (document : dict value) : result (dict (string * string)) :=
  match dget_or "paths" (VDict []) document with
  | VDict paths => inr (fold_left (λ acc p, item_operations p.1 p.2 acc) paths [])
  | _ => inl (OtherError "AttributeError")
  end.

Definition matches_document (operations : dict (string * string)) (o : HttpOperation) : bool :=
  match dget (op_operation_id o) operations with
  | Some (m, p) => String.eqb m (op_method o) && String.eqb p (op_path o)
  | None => false
  end.

Definition _validate_openapi (b : ActionConnectorBinding) (r : RestSettings) : result unit :=
  rbind (document_sha256 (oa_path (rest_openapi r))) (λ actual,
    if negb (String.eqb (str_lower actual) (str_lower (oa_sha256 (rest_openapi r)))) then
      inl (ValueError ("OpenAPI digest mismatch for binding " +:+ ab_binding_id b))
    else
      rbind (_load_document (oa_path (rest_openapi r))) (λ document,
        rbind (document_operations document) (λ operations,
          match List.find (λ o, negb (matches_document operations o))
                  (rest_execute r :: option_list (rest_reconcile r)) with
          | Some o => inl (ValueError ("Configured operation " +:+ op_operation_id o
                                         +:+ " does not match pinned OpenAPI"))
          | None => inr tt
          end))).

(** ** The registry *)

Record ActionConnectorRegistry := mkConnectorRegistry {
  cr_resolved : list (string * string * string * ResolvedActionConnector Ext);
  cr_active : dict (ResolvedActionConnector Ext)
}.

Definition production_check (b : ActionConnectorBinding) : result unit :=
  match ab_transport b with
  | SqliteTransport _ => inl (ValueError "SQLite/demo action bindings are forbidden in production")
  | RestTransport r =>
      if starts_with "https://" (rest_base_url r) then inr tt
      else inl (ValueError "Production REST action bindings require HTTPS")
  | WebSocketTransport ws =>
      if starts_with "wss://" (ws_url ws) then inr tt
      else inl (ValueError "Production WebSocket action bindings require WSS")
  | PythonTransport _ => inr tt
  end.

Definition connector_of (sqlite_connectors : dict (ActionConnector Ext))
    (b : ActionConnectorBinding) : result (ActionConnector Ext) :=
  match ab_transport b with
  | RestTransport r => rbind (_validate_openapi b r) (λ _, inr (RestActionConnector r))
  | PythonTransport factory =>
      rbind (python_factory factory b) (λ candidate,
        match candidate with
        | Some c => inr c
        | None => inl (TypeError "Python action connector must implement dispatch and reconcile")
        end)
  | SqliteTransport _ =>
      match dget (ab_binding_id b) sqlite_connectors, dget (ab_action_name b) sqlite_connectors with
      | Some c, _ | None, Some c => inr c
      | None, None =>
          inl (ValueError ("No SQLite connector supplied for binding " +:+ ab_binding_id b))
      end
  | WebSocketTransport _ =>
      inl (ValueError
        "WebSocket action bindings are contract-only; install a Python connector runtime")
  end.

Definition resolved_of (b : ActionConnectorBinding) (c : ActionConnector Ext) :
    ResolvedActionConnector Ext :=
  mkResolved (ab_action_name b) (ab_binding_id b) (ab_binding_version b) (ab_contract_version b) c.

Definition binding_key (b : ActionConnectorBinding) : string * string * string :=
  (ab_action_name b, ab_binding_id b, ab_binding_version b).

Definition set_resolved (k : string * string * string) (r : ResolvedActionConnector Ext)
    (l : list (string * string * string * ResolvedActionConnector Ext)) :=
  (k, r) :: List.filter (λ e, negb (bool_decide (e.1 = k))) l.

(** [_build], one binding after the other *)
Fixpoint _build (production : bool) (sqlite_connectors : dict (ActionConnector Ext))
    (bs : list ActionConnectorBinding) (rg : ActionConnectorRegistry) :
    result ActionConnectorRegistry :=
  match bs with
  | [] => inr rg
  | b :: bs' =>
      rbind (if production then production_check b else inr tt) (λ _,
        rbind (connector_of sqlite_connectors b) (λ c,
          let r := resolved_of b c in
          _build production sqlite_connectors bs'
            (mkConnectorRegistry (set_resolved (binding_key b) r (cr_resolved rg))
               (if ab_enabled b then dset (ab_action_name b) r (cr_active rg)
                else cr_active rg))))
  end.

Definition create_registry (config : ActionRegistryConfig) (env : Environment)
    (sqlite_connectors : dict (ActionConnector Ext)) : result ActionConnectorRegistry :=
  _build (bool_decide (env = PRODUCTION)) sqlite_connectors (rg_bindings config)
    (mkConnectorRegistry [] []).

Definition find_resolved (k : string * string * string) (rg : ActionConnectorRegistry) :
    option (ResolvedActionConnector Ext) :=
  option_map snd (List.find (λ e, bool_decide (e.1 = k)) (cr_resolved rg)).

Definition registry_resolve (rg : ActionConnectorRegistry) (action_name : string)
    (binding_id binding_version contract_version : option string) :
    result (ResolvedActionConnector Ext) :=
  if negb (dhas action_name ACTION_SPECIFICATIONS) then
    inl (ValueError ("Unknown action connector: " +:+ action_name))
  else
    match binding_id, binding_version, contract_version with
    | None, None, None =>
        match dget action_name (cr_active rg) with
        | Some r => inr r
        | None => inl (ValueError ("No enabled action binding: " +:+ action_name))
        end
    | _, _, _ =>
        if negb (str_truthy binding_id) || negb (str_truthy binding_version)
             || negb (str_truthy contract_version) then
          inl (ValueError
            "Binding ID, binding version, and contract version must be supplied together")
        else
          let i := default "" binding_id in
          let v := default "" binding_version in
          let c := default "" contract_version in
          match find_resolved (action_name, i, v) rg with
          | None =>
              inl (ValueError ("Configured action binding is unavailable: " +:+ action_name
                                 +:+ "/" +:+ i +:+ "/" +:+ v))
          | Some r =>
              if String.eqb (rc_contract_version r) c then inr r
              else inl (ValueError ("Configured action contract is unavailable: " +:+ action_name
                                      +:+ "/" +:+ c))
          end
    end.

Definition capabilities (rg : ActionConnectorRegistry) : list (dict value) :=
  map (λ e, [ ("action_name", VStr (rc_action_name e.2)); ("binding_id", VStr (rc_binding_id e.2));
              ("binding_version", VStr (rc_binding_version e.2));
              ("contract_version", VStr (rc_contract_version e.2)) ]) (sort_dict (cr_active rg)).
End registry.
