(* ===== verification/AuthProps.v ===== *)
(** * Properties of authentication and authorization *)

From Stdlib Require Import Strings.Ascii.
From S2P Require Import Prelude PyValue Prog Table ActionSpecs Policy KernelData World KernelStore KernelInv CaseKernel Auth Gateway ActionService.

(** What the engine relies on of the JWT library: a token decodes, under the key,
    algorithm and issuer it was made with, to the claims that were signed, until
    it expires; from then on it is refused as expired. *)
Class JwtLaws `{Jwt} := {
  jwt_valid c key alg now :
    (now < tk_exp c)%Z → jwt_decode (jwt_encode c key alg) key alg (tk_iss c) now = inr c;
  jwt_expired c key alg now :
    (tk_exp c ≤ now)%Z →
    jwt_decode (jwt_encode c key alg) key alg (tk_iss c) now = inl ExpiredSignatureError
}.

Section tokens.
Context `{JwtLaws} (settings : auth_settings).

Lemma substring_all s n : String.length s ≤ n → String.substring 0 n s = s.
Proof.
  revert n; induction s as [|a s IH]; intros [|n]; cbn; try done; [lia|].
  intros Hn. f_equal. apply IH. lia.
Qed.

(** The user an access token stands for. *)
Definition token_user (uid : string) (r : Role) (extra : option (list string)) (now : Z) :
    UserContext :=
  mkUser uid r (get_permissions_for_role r ∪ list_to_set (default [] extra)) (Some now).

(** A token round trip: until it expires, a token decodes to the very user it
    was made for, with the role's permissions and the extra ones and nothing
    else; from its expiry on it is refused; and the middleware attaches that user
    to a request that carries the token. *)
Theorem token_roundtrip uid r extra delta issued now rq :
  let token := create_access_token settings uid r extra delta issued in
  let expiry := tk_exp (access_claims settings uid r extra delta issued) in
  ((now < expiry)%Z →
     decode_access_token settings token now = inr (token_user uid r extra issued)) ∧
  ((expiry ≤ now)%Z →
     decode_access_token settings token now = inl (AuthenticationError "Token has expired" "TOKEN_EXPIRED")) ∧
  (auth_enabled settings = true → rq_path rq ∉ PUBLIC_PATHS → (now < expiry)%Z →
   auth_dispatch settings
     (mkRequest (rq_path rq) (Some ("Bearer " +:+ token)) (rq_user rq) (rq_client_host rq)) now
   = inr (mkRequest (rq_path rq) (Some ("Bearer " +:+ token)) (Some (token_user uid r extra issued))
            (rq_client_host rq))).
Proof.
  cbv zeta. set (token := create_access_token _ _ _ _ _ _).
  set (c := access_claims settings uid r extra delta issued).
  assert ((now < tk_exp c)%Z →
    decode_access_token settings token now = inr (token_user uid r extra issued)) as Hok.
  { intros Hnow. unfold decode_access_token, token, create_access_token. fold c.
    change (auth_issuer settings) with (tk_iss c). rewrite jwt_valid by done.
    cbn [tk_role c access_claims]. rewrite role_of_value. cbn. unfold token_user.
    by destruct extra as [[|]|]. }
  split_and!; [exact Hok| |].
  - intros Hnow. unfold decode_access_token, token, create_access_token. fold c.
    change (auth_issuer settings) with (tk_iss c). by rewrite jwt_expired.
  - intros Hen Hpath Hnow. unfold auth_dispatch. cbn [rq_path rq_authorization].
    rewrite bool_decide_false by done. rewrite Hen. cbn [negb].
    change (starts_with "Bearer " ("Bearer " +:+ token)) with (String.prefix "" token).
    replace (String.prefix "" token) with true by by destruct token.
    assert (∀ s, String.substring 7 (String.length ("Bearer " +:+ s)) ("Bearer " +:+ s) = s) as Hsub.
    { intros s. change (String.substring 7 (String.length ("Bearer " +:+ s)) ("Bearer " +:+ s))
        with (String.substring 0 (String.length ("Bearer " +:+ s)) s).
      apply substring_all. change (String.length ("Bearer " +:+ s)) with (7 + String.length s). lia. }
    rewrite Hsub, (Hok Hnow). reflexivity.
Qed.
End tokens.

(** The middleware lets a request through on three grounds only: its path is
    public (then it is passed on untouched), authentication is disabled (then as
    the administrator), or it carries a bearer token that decodes (then as that
    token's user); otherwise it is an authentication error. *)
Theorem auth_dispatch_guards `{Jwt} settings rq now :
  match auth_dispatch settings rq now with
  | inr rq' =>
      (rq_path rq ∈ PUBLIC_PATHS ∧ rq' = rq) ∨
      (rq_path rq ∉ PUBLIC_PATHS ∧ auth_enabled settings = false ∧
       rq' = with_user (build_user_context "dev-user" ADMIN None) rq) ∨
      (rq_path rq ∉ PUBLIC_PATHS ∧ auth_enabled settings = true ∧
       ∃ header user, rq_authorization rq = Some header ∧ starts_with "Bearer " header = true ∧
         decode_access_token settings (String.substring 7 (String.length header) header) now
           = inr user ∧ rq' = with_user user rq)
  | inl e =>
      rq_path rq ∉ PUBLIC_PATHS ∧ auth_enabled settings = true ∧
      (e = AuthenticationError "Missing or invalid Authorization header" "AUTHENTICATION_REQUIRED" ∨
       ∃ header, rq_authorization rq = Some header ∧
         decode_access_token settings (String.substring 7 (String.length header) header) now = inl e)
  end.
Proof.
  unfold auth_dispatch. case_bool_decide as Hp; [by left|].
  destruct (auth_enabled settings); cbn [negb]; [|by right; left].
  destruct (rq_authorization rq) as [header|]; [|by split_and!; [..|left]].
  destruct (starts_with "Bearer " header) eqn:Hs; [|by split_and!; [..|left]].
  destruct (decode_access_token _ _ _) as [e|user] eqn:Hd; cbn.
  - split_and!; [done..|]. right. by exists header.
  - right. right. split_and!; [done..|]. by exists header, user.
Qed.

(** Who may act for a customer: a customer for themselves alone, whatever
    extra permissions their token carries; anyone else only with the permission
    to read customers, and then as a delegate; the actor is never replaced. *)
Theorem customer_context_resolution actor customer_id :
  match resolve_customer_context actor customer_id with
  | inr c =>
      cc_actor_id c = user_id actor ∧ cc_customer_id c = customer_id ∧
      (cc_delegated c = false ↔ user_role actor = CUSTOMER) ∧
      (user_role actor = CUSTOMER → user_id actor = customer_id) ∧
      (user_role actor ≠ CUSTOMER → has_permission actor CUSTOMER_READ = true)
  | inl e =>
      (∃ msg required, e = AuthorizationError msg required) ∧
      (user_role actor = CUSTOMER → user_id actor ≠ customer_id) ∧
      (user_role actor ≠ CUSTOMER → has_permission actor CUSTOMER_READ = false)
  end.
Proof.
  unfold resolve_customer_context. case_decide as Hr.
  - destruct (String.eqb_spec (user_id actor) customer_id) as [Heq|Hne].
    + by split_and!.
    + split_and!; [by eexists _, _|done|done].
  - destruct (has_permission actor CUSTOMER_READ) eqn:Hp.
    + by split_and!.
    + split_and!; [by eexists _, _|done|done].
Qed.

(** Roles that may take no consequential action; the roles of the two desks. *)
Definition passive_roles : list Role := [READONLY; CUSTOMER; INTEGRATION].
Definition fraud_actions : list string := ["flag_account"; "submit_sar"; "close_alert"].
Definition refund_actions : list string :=
  ["issue_refund"; "issue_store_credit"; "issue_provisional_credit"].

(** The actions a role may take without extra permissions. *)
Definition role_actions (r : Role) : list string :=
  dkeys (select_where (λ e, bool_decide (e.2 ∈ ROLE_PERMISSIONS r)) ACTION_PERMISSIONS).

Lemma role_permission_iff uid r p :
  has_permission (build_user_context uid r None) p = true ↔ p ∈ ROLE_PERMISSIONS r.
Proof.
  unfold has_permission. rewrite bool_decide_eq_true. cbn.
  rewrite union_empty_r_L. unfold get_permissions_for_role.
  rewrite elem_of_list_to_set, list_elem_of_fmap. split.
  - by intros (q & ->%permission_value_inj & ?).
  - intros Hp. by exists p.
Qed.

(** Duties are separated: with their role's own permissions, read-only users,
    customers and integrations can take no action of the catalog, service
    representatives no fraud action, fraud analysts no refund or credit;
    supervisors and administrators can take every one. *)
Theorem duties_separated uid r action p :
  dget action ACTION_PERMISSIONS = Some p →
  (has_permission (build_user_context uid r None) p = true ↔ action ∈ role_actions r) ∧
  (r ∈ passive_roles → role_actions r = []) ∧
  (r = CUSTOMER_SERVICE_REP → ∀ a, a ∈ role_actions r → a ∉ fraud_actions) ∧
  (r = FRAUD_ANALYST → ∀ a, a ∈ role_actions r → a ∉ refund_actions) ∧
  (r ∈ [SUPERVISOR; ADMIN] → role_actions r = dkeys ACTION_SPECIFICATIONS).
Proof.
  intros Hp. split_and!.
  - rewrite role_permission_iff. unfold role_actions, dkeys. rewrite list_elem_of_fmap. split.
    + intros Hr. exists (action, p). split; [done|]. apply elem_of_select_where.
      split; [by apply dget_elem_of|by apply bool_decide_eq_true].
    + intros ([a q] & -> & [Hin Hq]%elem_of_select_where). cbn [fst snd] in *.
      assert (dget a ACTION_PERMISSIONS = Some q) as Hq'.
      { apply dget_unique; [|done]. apply (decide_by_eval (NoDup _)). vm_compute. reflexivity. }
      rewrite Hp in Hq'. injection Hq' as ->. by apply bool_decide_eq_true in Hq.
  - intros Hr. repeat (apply elem_of_cons in Hr as [->|Hr]; [vm_compute; reflexivity|]).
    by apply not_elem_of_nil in Hr.
  - intros ->. apply Forall_forall.
    apply (decide_by_eval (Forall (λ a, a ∉ fraud_actions) (role_actions CUSTOMER_SERVICE_REP))).
    vm_compute. reflexivity.
  - intros ->. apply Forall_forall.
    apply (decide_by_eval (Forall (λ a, a ∉ refund_actions) (role_actions FRAUD_ANALYST))).
    vm_compute. reflexivity.
  - intros Hr. repeat (apply elem_of_cons in Hr as [->|Hr]; [vm_compute; reflexivity|]).
    by apply not_elem_of_nil in Hr.
Qed.

(** The owner of a session is not determined by its name: the separator may occur
    in an id. *)
Example session_owner_collision :
  session_owner_id "alice:customer:bob" "carol" = session_owner_id "alice" "bob:customer:carol" ∧
  ("alice:customer:bob", "carol") ≠ ("alice", "bob:customer:carol").
Proof. split; [reflexivity|done]. Qed.

(** ** Witnesses *)

(** A library that writes the claims down in binary. *)
#[export] Instance token_claims_eq_dec : EqDecision token_claims.
Proof. solve_decision. Defined.
#[export] Instance token_claims_countable : Countable token_claims.
Proof.
  refine (inj_countable'
    (λ c, (tk_sub c, tk_role c, tk_iat c, tk_exp c, tk_iss c, tk_permissions c))
    (λ '(a, b, c, d, e, f), mkClaims a b c d e f) _).
  by intros [].
Defined.

Fixpoint bits (p : BinNums.positive) : string :=
  match p with
  | xH => ""
  | xO p' => String "0"%char (bits p')
  | xI p' => String "1"%char (bits p')
  end.
Fixpoint unbits (s : string) : BinNums.positive :=
  match s with
  | EmptyString => xH
  | String c s' => if Ascii.eqb c "0"%char then xO (unbits s') else xI (unbits s')
  end.
Lemma unbits_bits p : unbits (bits p) = p.
Proof. induction p as [p IH|p IH|]; cbn; by rewrite ?IH. Qed.

#[export] Instance demo_jwt : Jwt := {
  jwt_encode c _ _ := bits (encode c);
  jwt_decode token _ _ iss now :=
    match decode (unbits token) with
    | Some c => if (tk_exp c <=? now)%Z then inl ExpiredSignatureError else inr c
    | None => inl (InvalidTokenError "Not enough segments")
    end
}.

#[export] Instance demo_jwt_laws : JwtLaws.
Proof.
  split; intros c key alg now Hn; cbn; rewrite unbits_bits, decode_encode.
  - apply Z.leb_gt in Hn. by rewrite Hn.
  - apply Z.leb_le in Hn. by rewrite Hn.
Qed.

Definition demo_auth : auth_settings := mkAuthSettings true "secret" "HS256" "engine" 60.

Example token_roundtrip_witness :
  decode_access_token demo_auth
    (create_access_token demo_auth "U-1" FRAUD_ANALYST (Some ["refund:write"]) None 0) 1000
  = inr (token_user "U-1" FRAUD_ANALYST (Some ["refund:write"]) 0).
Proof.
  refine (proj1 (token_roundtrip demo_auth "U-1" FRAUD_ANALYST (Some ["refund:write"]) None 0 1000
                   (mkRequest "/chat" None None None)) _).
  vm_compute. reflexivity.
Defined.

Example duties_separated_witness : "submit_sar" ∉ role_actions CUSTOMER_SERVICE_REP.
Proof.
  destruct (duties_separated "U-1" CUSTOMER_SERVICE_REP "submit_sar" SAR_SUBMIT) as (_ & _ & Hcsr & _).
  - reflexivity.
  - intros Hin. refine (Hcsr eq_refl _ Hin _). right. left.
Defined.
