(* ===== verification/Middleware.v ===== *)
(** * Logging context and the middleware stack ([logging_config.py],
    [middleware/], the stack of [main.py])

    What happens to an HTTP request before it reaches an endpoint, and to the
    response after it: authentication, rate limiting, correlation.  The context
    variables of a task are passed on as a value, as a task inherits a copy of its
    parent's; headers and query parameters the program reads are fields of the
    request.  The CORS middleware and the way the framework stacks middleware are
    parameters, with their documentation as laws.  The last part is the configuration of logging: records are built
    as dicts, their text is [json.dumps]. *)

From stdpp Require Import pretty.
From Stdlib Require Import Ascii.
From S2P Require Import Prelude PyValue PyString Prog RateLimiter KernelData World CaseKernel Fixtures Errors Auth Settings AuthProps.

(** ** Context variables *)

Record LogVars := mkLogVars {
  correlation_id_var : option string; session_id_var : option string; user_id_var : option string
}.

Inductive log_var := CorrelationVar | SessionVar | UserVar.

Definition var_get (x : log_var) (v : LogVars) : option string :=
  match x with
  | CorrelationVar => correlation_id_var v
  | SessionVar => session_id_var v
  | UserVar => user_id_var v
  end.

Definition var_put (x : log_var) (s : option string) (v : LogVars) : LogVars :=
  match x with
  | CorrelationVar => mkLogVars s (session_id_var v) (user_id_var v)
  | SessionVar => mkLogVars (correlation_id_var v) s (user_id_var v)
  | UserVar => mkLogVars (correlation_id_var v) (session_id_var v) s
  end.

(** A token: a variable and what it held before [set]. *)
Definition token : Type := log_var * option string.
Definition var_set (x : log_var) (s : string) (v : LogVars) : LogVars * token :=
  (var_put x (Some s) v, (x, var_get x v)).
Definition var_reset (t : token) (v : LogVars) : LogVars := var_put t.1 t.2 v.

(** [LogContext(...)]: the correlation id is the one given, or a fresh one. *)
Record LogContext := mkLogContext {
  lc_cid : string; lc_sid : option string; lc_uid : option string
}.
Definition LogContext_init (correlation_id session_id user_id : option string) (fresh : string) :
    LogContext :=
  mkLogContext (if str_truthy correlation_id then default "" correlation_id else fresh)
    session_id user_id.

(** [if value: tokens.append(var.set(value))] *)
Definition set_if (x : log_var) (s : option string) (st : LogVars * list token) :
    LogVars * list token :=
  if str_truthy s then
    let r := var_set x (default "" s) st.1 in (r.1, st.2 ++ [r.2])
  else st.

Definition log_enter (c : LogContext) (v : LogVars) : LogVars * list token :=
  let r := var_set CorrelationVar (lc_cid c) v in
  set_if UserVar (lc_uid c) (set_if SessionVar (lc_sid c) (r.1, [r.2])).

Definition log_exit (tokens : list token) (v : LogVars) : LogVars :=
  fold_left (λ v t, var_reset t v) tokens v.

(** ** Requests, responses, handlers *)

Record HttpRequest := mkHttp {
  ht_request : Auth.request;
  ht_correlation : option string;   (* X-Correlation-ID *)
  ht_session_id : option string;    (* the query parameter session_id *)
  ht_method : string;
  ht_origin : option string;        (* Origin *)
  ht_cors_method : option string    (* Access-Control-Request-Method *)
}.
Definition with_request (r : Auth.request) (rq : HttpRequest) : HttpRequest :=
  mkHttp r (ht_correlation rq) (ht_session_id rq) (ht_method rq) (ht_origin rq) (ht_cors_method rq).
Record HttpResponse := mkHttpResponse {
  hs_status : Z; hs_content : dict value; hs_headers : dict string
}.
Definition json_response (r : JSONResponse) : HttpResponse :=
  mkHttpResponse (rp_status_code r) (rp_content r) [].

(** The windows of the rate limiter are state of the process. *)
Class HasLimiter (Ext : Type) := {
  lim_get : Ext → dict (list Z);
  lim_set : dict (list Z) → Ext → Ext
}.

Section stack.
Context `{Oracle} `{Jwt} {Ext : Type} `{HasLimiter Ext} (s : Settings).
Abbreviation prog := (prog (World Ext)).
Definition Handler : Type := LogVars → HttpRequest → prog HttpResponse.
Definition Middleware : Type := Handler → Handler.

(** ** [middleware/auth.py] *)

Definition as_user (u : UserContext) (rq : HttpRequest) : HttpRequest :=
  with_request (with_user u (ht_request rq)) rq.

Definition no_credentials : exn :=
  AuthenticationError "Missing or invalid Authorization header" "AUTHENTICATION_REQUIRED".

(** The text after ["Bearer "], where the header has it. *)
Definition bearer (rq : HttpRequest) : option string :=
  match rq_authorization (ht_request rq) with
  | Some header =>
      if starts_with "Bearer " header then Some (String.substring 7 (String.length header) header)
      else None
  | None => None
  end.

(** Decoding a token compares its expiry with the clock. *)
Definition identify (rq : HttpRequest) : prog (option UserContext) :=
  if bool_decide (rq_path (ht_request rq) ∈ PUBLIC_PATHS) then mret None
  else if negb (auth_enabled (auth s)) then mret (Some (build_user_context "dev-user" ADMIN None))
  else
    match bearer rq with
    | None => mthrow no_credentials
    | Some token =>
        now ← read_clock;
        user ← lift_result (decode_access_token (auth s) token now);
        mret (Some user)
    end.

Definition auth_middleware : Middleware := λ call_next vars rq,
  user ← identify rq;
  match user with
  | None => call_next vars rq
  | Some user => call_next (var_put UserVar (Some (user_id user)) vars) (as_user user rq)
  end.

(** ** [middleware/rate_limiter.py] *)

Definition rate_request (rq : HttpRequest) : http_request :=
  mkHttpRequest (rq_path (ht_request rq)) (option_map user_id (rq_user (ht_request rq)))
    (rq_client_host (ht_request rq)).

(** From reading the clock to recording the request there is no [await]. *)
Definition rate_check (rq : HttpRequest) : prog rate_verdict :=
  if exempt (rate_limits s) (rate_request rq) then mret Passed
  else
    atomically (λ w,
      let now := now_at (n_clock (w_sys w)) in
      let r := rate_dispatch (rate_limits s) (rate_request rq) now (lim_get (w_ext w)) in
      (set_ext (lim_set r.1 (w_ext w))
         (set_sys (mkSys (S (n_clock (w_sys w))) (n_uuid (w_sys w))) w), inr r.2)).

Definition limit_response (status retry_after : Z) : HttpResponse :=
  mkHttpResponse status (to_dict (rate_limit_error retry_after))
    [("Retry-After", pretty retry_after)].

Definition rate_limit_middleware : Middleware := λ call_next vars rq,
  verdict ← rate_check rq;
  match verdict with
  | Passed => call_next vars rq
  | Limited status retry_after => mret (limit_response status retry_after)
  end.

(** ** [middleware/correlation.py] *)

Definition with_header (k v : string) (r : HttpResponse) : HttpResponse :=
  mkHttpResponse (hs_status r) (hs_content r) (dset k v (hs_headers r)).

Definition correlation_of (rq : HttpRequest) : prog string :=
  if str_truthy (ht_correlation rq) then mret (default "" (ht_correlation rq)) else new_uuid "".

Definition correlated (cid : string) (rq : HttpRequest) (vars : LogVars) : LogVars :=
  let vars := var_put CorrelationVar (Some cid) vars in
  if str_truthy (ht_session_id rq) then var_put SessionVar (ht_session_id rq) vars else vars.

Definition correlation_middleware : Middleware := λ call_next vars rq,
  cid ← correlation_of rq;
  response ← call_next (correlated cid rq vars) rq;
  mret (with_header "X-Correlation-ID" cid response).

(** ** The stack *)

(** [CORSMiddleware], and the application the framework builds of the calls of
    [add_middleware], in their order. *)
Context (cors : Middleware) (asgi : list Middleware → Handler → Handler).

(** A preflight request: a browser asks whether a page of another origin may send
    one of a method. *)
Definition preflight (rq : HttpRequest) : bool :=
  String.eqb (ht_method rq) "OPTIONS" && bool_decide (is_Some (ht_origin rq)) &&
  bool_decide (is_Some (ht_cors_method rq)).

(** As its documentation says: a preflight request is intercepted and answered for
    information, 200 or 400; any other is passed through as normal, and the
    response gets headers. *)
Class CorsLaws := {
  cors_preflight h vars rq w :
    preflight rq = true →
    ∃ a, run (cors h vars rq) w = (w, inr a) ∧ (hs_status a = 200%Z ∨ hs_status a = 400%Z);
  cors_simple h vars rq w :
    preflight rq = false →
    (run (cors h vars rq) w).1 = (run (h vars rq) w).1 ∧
    match (run (h vars rq) w).2 with
    | inl e => (run (cors h vars rq) w).2 = inl e
    | inr a => ∃ a', (run (cors h vars rq) w).2 = inr a' ∧
                 hs_status a' = hs_status a ∧ hs_content a' = hs_content a
    end
}.

(** As the framework documents it: the middleware added last is the outermost. *)
Class AddMiddleware := {
  asgi_nil h : asgi [] h = h;
  asgi_add ms m h : asgi (ms ++ [m]) h = m (asgi ms h)
}.

Definition app_middleware : list Middleware :=
  [cors; correlation_middleware; rate_limit_middleware; auth_middleware].

(** The handlers of the application's own errors answer inside the stack, the one
    of [Exception] outside of it. *)
Definition answered (endpoint : Handler) : Handler := λ vars rq,
  try_except (endpoint vars rq) (λ e,
    match workflow_error e with
    | Some w => mret (json_response (workflow_error_handler w))
    | None =>
        match e with
        | HTTPException _ _ => mret (json_response (respond e))
        | _ => mthrow e
        end
    end).

Definition server_error (h : Handler) : Handler := λ vars rq,
  try_except (h vars rq) (λ e, mret (json_response (generic_error_handler e))).

Definition http_app (endpoint : Handler) : Handler :=
  server_error (asgi app_middleware (answered endpoint)).
End stack.
Arguments Handler Ext : clear implicits.
Arguments Middleware Ext : clear implicits.

(** ** The configuration of logging *)

Record LogRecord := mkLogRecord {
  lr_levelname : string; lr_levelno : Z; lr_name : string; lr_message : string;
  lr_extra_data : option (dict value);
  lr_exception : option (string * string);    (* the name of its type, and its text *)
  lr_pathname : string; lr_lineno : Z; lr_funcName : string
}.

(** [if value: entry[key] = value] *)
Definition add_truthy (k : string) (x : option string) (d : dict value) : dict value :=
  if str_truthy x then dset k (VStr (default "" x)) d else d.

Definition log_context (vars : LogVars) (d : dict value) : dict value :=
  add_truthy "user_id" (user_id_var vars)
    (add_truthy "session_id" (session_id_var vars)
       (add_truthy "correlation_id" (correlation_id_var vars) d)).

(** The entry [StructuredFormatter.format] dumps; [timestamp] is the text of the
    time it is formatted at. *)
Definition structured_format (timestamp : string) (vars : LogVars) (r : LogRecord) : dict value :=
  let entry := log_context vars
    [ ("timestamp", VStr timestamp); ("level", VStr (lr_levelname r));
      ("logger", VStr (lr_name r)); ("message", VStr (lr_message r)) ] in
  let entry := match lr_extra_data r with Some d => dupdate entry d | None => entry end in
  let entry :=
    match lr_exception r with
    | Some (ty, message) =>
        dset "exception" (VDict [("type", VStr ty); ("message", VStr message)]) entry
    | None => entry
    end in
  if (40 <=? lr_levelno r)%Z then
    dset "source" (VDict [ ("file", VStr (lr_pathname r)); ("line", VInt (lr_lineno r));
                           ("function", VStr (lr_funcName r)) ]) entry
  else entry.

(** [f"{s:<n}"] *)
Fixpoint spaces (n : nat) : string :=
  match n with 0 => "" | S n => String " " (spaces n) end.
Definition pad_right (n : nat) (s : string) : string := s +:+ spaces (n - String.length s).

Definition text_format (time : string) (vars : LogVars) (r : LogRecord) : string :=
  let cid := if str_truthy (correlation_id_var vars)
             then " [" +:+ String.substring 0 8 (default "" (correlation_id_var vars)) +:+ "]"
             else "" in
  let msg := time +:+ " " +:+ pad_right 8 (lr_levelname r) +:+ cid +:+ " " +:+ lr_name r +:+ ": "
               +:+ lr_message r in
  match lr_exception r with
  | Some (_, message) => msg +:+ String "010" "  Exception: " +:+ message
  | None => msg
  end.

(** The state of the logging library: the root logger, and the levels of others. *)
Inductive log_target := LogStdout | LogFile (path : string).
Record LogHandler := mkLogHandler { lh_target : log_target; lh_structured : bool }.
Record Logging := mkLogging {
  lg_root_level : Z; lg_root_handlers : list LogHandler; lg_levels : dict Z
}.

(** [getattr(logging, level)] for the names of the levels. *)
Definition logging_levels : dict Z :=
  [("DEBUG", 10%Z); ("INFO", 20%Z); ("WARNING", 30%Z); ("ERROR", 40%Z); ("CRITICAL", 50%Z)].

Definition noisy_loggers : list string := ["uvicorn.access"; "aiosqlite"; "google"; "httpx"].

Definition log_handlers (log_format : string) (log_file : option string) : list LogHandler :=
  mkLogHandler LogStdout (String.eqb log_format "json")
  :: (if str_truthy log_file then [mkLogHandler (LogFile (default "" log_file)) true] else []).

Definition setup_logging (level log_format : string) (log_file : option string) (l : Logging) :
    result Logging :=
  match dget level logging_levels with
  | None => inl (OtherError "AttributeError")
  | Some n =>
      inr (mkLogging n (log_handlers log_format log_file)
             (fold_left (λ d name, dset name 30%Z d) noisy_loggers (lg_levels l)))
  end.

Definition get_logger (name : string) : string := "workflow_engine." +:+ name.

(** What [main.py] asks for when it is loaded. *)
Definition main_logging (s : Settings) (log_file : option string) : Logging → result Logging :=
  setup_logging (log_level s) (if is_dev s then "text" else "json") log_file.

(** ** Facts *)

(** Leaving a context restores the variables it found. *)
Lemma log_exit_enter c v :
  let '(inside, tokens) := log_enter c v in
  log_exit tokens inside = v ∧ correlation_id_var inside = Some (lc_cid c).
Proof. destruct v, c as [cid [[]|] [[]|]]; done. Qed.

Lemma dget_dset_each {V} (v : V) names d n :
  n ∈ names ∨ dget n d = Some v → dget n (fold_left (λ d k, dset k v d) names d) = Some v.
Proof.
  revert d; induction names as [|k names IH]; intros d; cbn [fold_left].
  - by intros [?%not_elem_of_nil|].
  - intros Hn. apply IH. rewrite dget_dset. case_decide; [by right|].
    destruct Hn as [[->|]%elem_of_cons|]; [done|by left|by right].
Qed.

Lemma dset_each_twice {V} (v : V) names d :
  let each := fold_left (λ d k, dset k v d) names in each (each d) = each d.
Proof.
  cbn. assert (∀ k, k ∈ names → dget k (fold_left (λ d k, dset k v d) names d) = Some v) as Hall
    by (intros; apply dget_dset_each; by left).
  revert Hall. generalize (fold_left (λ d k, dset k v d) names d) as e.
  induction names as [|k names IH]; intros e Hall; cbn; [done|].
  rewrite dset_same by (apply Hall; left). apply IH. intros; apply Hall; by right.
Qed.

(** Under validated settings logging can be configured, and configuring it again
    changes nothing: handlers do not pile up. *)
Lemma main_logging_settles s s' file l :
  validate s = inr s' →
  ∃ l', main_logging s' file l = inr l' ∧ main_logging s' file l' = inr l'.
Proof.
  unfold validate, validate_log_level. case_bool_decide as Hl; [|done].
  cbn [rbind]. destruct (fields_valid s); [|done].
  destruct (validate_production_secrets s); [done|]. intros [= <-].
  unfold main_logging, setup_logging. cbn [log_level set_log_level].
  set (lv := str_upper (log_level s)) in *.
  assert (∃ n, dget lv logging_levels = Some n) as [n ->].
  { unfold log_levels in Hl. repeat apply elem_of_cons in Hl as [->|Hl]; [by eexists..|].
    by apply not_elem_of_nil in Hl. }
  eexists. split; [reflexivity|]. cbn [lg_levels]. by rewrite dset_each_twice.
Qed.

(** ** What a request meets *)
Section admission.
Context `{Oracle} `{Jwt} {Ext : Type} `{HasLimiter Ext} (s : Settings).
Abbreviation World := (World Ext).
Implicit Types (rq : HttpRequest) (w : World).

(** The user a request is passed on with, and the request itself. *)
Definition signed_in (user : option UserContext) rq : HttpRequest :=
  match user with Some u => as_user u rq | None => rq end.

(** Authentication is [auth_dispatch], and moves at most the clock. *)
Lemma run_identify rq w :
  ∃ u r, run (identify s rq) w = (set_sys u w, r) ∧
    match r with
    | inl e => auth_dispatch (auth s) (ht_request rq) (now_at (n_clock (w_sys w))) = inl e
    | inr user =>
        auth_dispatch (auth s) (ht_request rq) (now_at (n_clock (w_sys w)))
        = inr (ht_request (signed_in user rq))
    end.
Proof.
  assert (∀ r, ∃ u, (w, r) = (set_sys u w, r : result (option UserContext))) as Hstay.
  { intros r. exists (w_sys w). by destruct w. }
  unfold identify, auth_dispatch, bearer.
  destruct (bool_decide _); [destruct (Hstay (inr None)) as [u Hu]; by exists u, (inr None)|].
  destruct (negb _).
  { destruct (Hstay (inr (Some (build_user_context "dev-user" ADMIN None)))) as [u Hu].
    exists u. by eexists. }
  destruct (rq_authorization (ht_request rq)) as [header|]; [|destruct (Hstay (inl no_credentials)) as [u Hu]; by exists u, (inl no_credentials)].
  destruct (starts_with "Bearer " header); [|destruct (Hstay (inl no_credentials)) as [u Hu]; by exists u, (inl no_credentials)].
  unfold read_clock. rewrite run_bind, run_atomically. cbv beta iota. rewrite run_bind, run_lift.
  destruct (decode_access_token _ _ _) as [e|user]; eexists _, _; by split.
Qed.

(** What the limiter answers at this moment, and what it remembers then. *)
Definition limiter_at rq w : dict (list Z) * rate_verdict :=
  rate_dispatch (rate_limits s) (rate_request rq) (now_at (n_clock (w_sys w)))
    (lim_get (w_ext w)).
Definition after_check rq w : Ext :=
  if exempt (rate_limits s) (rate_request rq) then w_ext w
  else lim_set (limiter_at rq w).1 (w_ext w).

Lemma run_rate_check rq w :
  ∃ u, run (rate_check s rq) w = (set_ext (after_check rq w) (set_sys u w), inr (limiter_at rq w).2).
Proof.
  unfold rate_check, after_check, limiter_at, rate_dispatch.
  destruct (exempt _ _); [exists (w_sys w); by destruct w|].
  rewrite run_atomically. eexists. reflexivity.
Qed.

Lemma run_correlation rq w :
  ∃ u cid, run (correlation_of rq) w = (set_sys u w, inr cid) ∧
    (str_truthy (ht_correlation rq) = true → ht_correlation rq = Some cid).
Proof.
  unfold correlation_of. destruct (str_truthy (ht_correlation rq)) eqn:Hc.
  - destruct (ht_correlation rq) as [c|]; [|done]. exists (w_sys w), c. by destruct w.
  - unfold new_uuid. rewrite run_atomically. eexists _, _. by split.
Qed.

Context (cors : Middleware Ext) (asgi : list (Middleware Ext) → Handler Ext → Handler Ext).
Context `{!CorsLaws cors} `{!AddMiddleware asgi}.

Lemma asgi_stack (a b c d : Middleware Ext) (h : Handler Ext) :
  asgi [a; b; c; d] h = d (c (b (a h))).
Proof.
  change (asgi (((([] ++ [a]) ++ [b]) ++ [c]) ++ [d]) h = d (c (b (a h)))).
  by rewrite !(asgi_add asgi), (asgi_nil asgi).
Qed.

(** The context an endpoint runs in. *)
Definition user_vars (admitted : Auth.request) (vars : LogVars) : LogVars :=
  match rq_user admitted with
  | Some user => var_put UserVar (Some (user_id user)) vars
  | None => vars
  end.

(** What comes back of an endpoint that was run: its answer, under the correlation
    id, with whatever headers CORS adds; or the answer to an exception nobody
    handled, which is made outside the stack and carries no correlation id. *)
Definition answers (cid : string) (r : result HttpResponse) (response : HttpResponse) : Prop :=
  match r with
  | inr a =>
      hs_status response = hs_status a ∧ hs_content response = hs_content a ∧
      dget "X-Correlation-ID" (hs_headers response) = Some cid
  | inl e => response = json_response (generic_error_handler e)
  end.

(** The request that is passed on. *)
Definition pass (admitted : Auth.request) rq : HttpRequest :=
  with_request admitted rq.

Lemma run_auth next vars rq w :
  rq_user (ht_request rq) = None →
  ∃ u, run (auth_middleware s next vars rq) w =
    match auth_dispatch (auth s) (ht_request rq) (now_at (n_clock (w_sys w))) with
    | inl e => (set_sys u w, inl e)
    | inr admitted => run (next (user_vars admitted vars) (pass admitted rq)) (set_sys u w)
    end.
Proof.
  intros Hfresh. unfold auth_middleware. destruct (run_identify rq w) as (u & r & Hr & Hid).
  exists u. rewrite run_bind, Hr. destruct r as [e|user]; rewrite Hid; [done|].
  destruct user as [user|]; cbn [signed_in]; [done|]. unfold user_vars. rewrite Hfresh. by destruct rq.
Qed.

Lemma run_limited next vars rq w :
  ∃ u, run (rate_limit_middleware s next vars rq) w =
    let w1 := set_ext (after_check rq w) (set_sys u w) in
    match (limiter_at rq w).2 with
    | Passed => run (next vars rq) w1
    | Limited status retry_after => (w1, inr (limit_response status retry_after))
    end.
Proof.
  unfold rate_limit_middleware. destruct (run_rate_check rq w) as [u Hu]. exists u.
  rewrite run_bind, Hu. by destruct (limiter_at rq w).2.
Qed.

Lemma run_correlated next vars rq w :
  ∃ u cid, (str_truthy (ht_correlation rq) = true → ht_correlation rq = Some cid) ∧
    run (correlation_middleware next vars rq) w =
    (let site := run (next (correlated cid rq vars) rq) (set_sys u w) in
     (site.1, match site.2 with
              | inl e => inl e
              | inr a => inr (with_header "X-Correlation-ID" cid a)
              end)).
Proof.
  unfold correlation_middleware. destruct (run_correlation rq w) as (u & cid & Hr & Hc).
  exists u, cid. split; [done|]. rewrite run_bind, Hr, run_bind.
  by destruct (run _ (set_sys u w)) as [w' [e|a]].
Qed.

(** CORS and correlation around an endpoint *)
Lemma run_cors h cid vars rq w :
  let site := run (cors h vars rq) w in
  let response := match site.2 with
                  | inr a => with_header "X-Correlation-ID" cid a
                  | inl e => json_response (generic_error_handler e)
                  end in
  if preflight rq then
    site.1 = w ∧ (hs_status response = 200%Z ∨ hs_status response = 400%Z) ∧
    dget "X-Correlation-ID" (hs_headers response) = Some cid
  else site.1 = (run (h vars rq) w).1 ∧ answers cid (run (h vars rq) w).2 response.
Proof.
  cbv zeta. destruct (preflight rq) eqn:Hp.
  - destruct (cors_preflight cors h vars rq w Hp) as (a & -> & Hs). cbn.
    by rewrite dget_dset, decide_True.
  - destruct (cors_simple cors h vars rq w Hp) as [-> Ha]. split; [done|].
    destruct (run (h vars rq) w).2 as [e|a]; [by rewrite Ha|]. destruct Ha as (a' & -> & Hst & Hc).
    cbn. by rewrite dget_dset, decide_True.
Qed.

(** C34: What a request meets before an endpoint and its response after it: every
    request is answered, and exactly one of four things happens.  Without valid
    credentials, where the path asks for them, the answer is an internal error and
    nothing but the clock has moved: no window of the limiter, no store.  A caller
    whose window is full is answered 429 with the time to wait, and nothing but the
    windows has moved.  A preflight request that comes this far is answered by CORS,
    without the endpoint.  Any other runs the endpoint, once, as the user of the
    token and no other, in a context that names that user and the correlation id --
    the one the caller sent, if any: its answer goes back with that id, and an
    exception the application does not handle as an internal error without it. *)
Theorem request_admission endpoint vars rq w w' r :
  rq_user (ht_request rq) = None → run (http_app s cors asgi endpoint vars rq) w = (w', r) →
  ∃ response u, r = inr response ∧
  match auth_dispatch (auth s) (ht_request rq) (now_at (n_clock (w_sys w))) with
  | inl e => response = json_response (generic_error_handler e) ∧ w' = set_sys u w
  | inr admitted =>
      let rq' := pass admitted rq in
      ∃ u', let w1 := set_ext (after_check rq' (set_sys u w)) (set_sys u' w) in
      match (limiter_at rq' (set_sys u w)).2 with
      | Limited status retry_after => response = limit_response status retry_after ∧ w' = w1
      | Passed =>
          ∃ cid, (str_truthy (ht_correlation rq) = true → ht_correlation rq = Some cid) ∧
          if preflight rq then
            w' = w1 ∧ (hs_status response = 200%Z ∨ hs_status response = 400%Z) ∧
            dget "X-Correlation-ID" (hs_headers response) = Some cid
          else
            let site := run (answered endpoint (correlated cid rq (user_vars admitted vars)) rq') w1 in
            w' = site.1 ∧ answers cid site.2 response
      end
  end.
Proof.
  intros Hfresh. unfold http_app, server_error, app_middleware.
  rewrite asgi_stack, run_try.
  destruct (run_auth (rate_limit_middleware s (correlation_middleware (cors (answered endpoint))))
              vars rq w Hfresh) as [u ->].
  destruct (auth_dispatch _ _ _) as [e|admitted].
  { rewrite run_ret. intros [= <- <-]. by eexists _, u. }
  destruct (run_limited (correlation_middleware (cors (answered endpoint)))
              (user_vars admitted vars) (pass admitted rq) (set_sys u w)) as [u1 ->].
  cbv zeta. destruct (limiter_at _ _).2 as [|st ra] eqn:Hv.
  2: { intros [= <- <-]. eexists _, u. split; [done|]. exists u1. by rewrite Hv. }
  destruct (run_correlated (cors (answered endpoint)) (user_vars admitted vars)
              (pass admitted rq)
              (set_ext (after_check (pass admitted rq) (set_sys u w)) (set_sys u1 (set_sys u w))))
    as (u2 & cid & Hc & ->).
  match goal with |- context [run (cors ?h ?vs ?q) ?w1] => pose proof (run_cors h cid vs q w1) as Hcors end.
  revert Hcors. set (site := run (cors (answered endpoint) _ _) _). cbv zeta. intros Hcors Hr.
  assert (w' = site.1 ∧ r = inr (match site.2 with
            | inr a => with_header "X-Correlation-ID" cid a
            | inl e => json_response (generic_error_handler e) end)) as [-> ->].
  { revert Hr. destruct site as [w2 [e|a]]; cbn [fst snd]; rewrite ?run_ret; by intros [= <- <-]. }
  eexists _, u. split; [done|]. exists u2. rewrite Hv. exists cid. split; [done|]. exact Hcors.
Qed.
End admission.

(** ** On concrete requests *)
Section demo.
#[local] Instance demo_limiter : HasLimiter (dict (list Z)) := {| lim_get x := x; lim_set x _ := x |}.

(** CORS that lets every page in, and a framework that stacks as documented. *)
Definition demo_cors {Ext} : Middleware Ext := λ h vars rq,
  if preflight rq then mret (mkHttpResponse 200 [] []) else h vars rq.
#[local] Instance demo_cors_laws {Ext} : CorsLaws (@demo_cors Ext).
Proof.
  split; intros h vars rq w Hp; unfold demo_cors; rewrite Hp.
  - eexists. by split; [|left].
  - split; [done|]. destruct (run (h vars rq) w).2; [done|by eexists].
Qed.
Definition demo_asgi {Ext} (ms : list (Middleware Ext)) (h : Handler Ext) : Handler Ext :=
  fold_left (λ h m, m h) ms h.
#[local] Instance demo_asgi_law {Ext} : AddMiddleware (@demo_asgi Ext).
Proof. split; [done|]. intros ms m h. unfold demo_asgi. by rewrite fold_left_app. Qed.

(** An endpoint that answers with its user. *)
Definition demo_endpoint {Ext} : Handler Ext := λ vars rq,
  user ← lift_result (get_current_user (ht_request rq));
  mret (mkHttpResponse 200
          [ ("user", VStr (user_id user)); ("logged", VStr (default "" (user_id_var vars))) ] []).

Definition demo_site : Handler (dict (list Z)) :=
  http_app (demo_settings []) demo_cors demo_asgi demo_endpoint.

Definition demo_http (authorization : option string) : HttpRequest :=
  mkHttp (mkRequest "/api/v1/chat" authorization None (Some "10.0.0.1")) (Some "C-1") None "POST" None None.
Definition demo_token : string :=
  "Bearer " +:+ create_access_token (auth (demo_settings [])) "U-1" FRAUD_ANALYST None None 0.
Definition no_vars : LogVars := mkLogVars None None None.

Example request_admission_witness :
  (∃ response, (run (demo_site no_vars (demo_http (Some demo_token))) (demo_world [] demo_db)).2
               = inr response) ∧
  (run (demo_site no_vars (demo_http (Some demo_token))) (demo_world [] demo_db)).2 =
  inr (mkHttpResponse 200 [("user", VStr "U-1"); ("logged", VStr "U-1")] [("X-Correlation-ID", "C-1")]).
Proof.
  split; [|vm_compute; reflexivity].
  destruct (request_admission (demo_settings []) demo_cors demo_asgi demo_endpoint no_vars
              (demo_http (Some demo_token)) (demo_world [] demo_db) _ _ eq_refl
              (surjective_pairing _)) as (response & _ & Hr & _).
  exists response. exact Hr.
Defined.

(** A request without a token is answered 500, not the 401 of its error, and
    carries no correlation id. *)
Example missing_token_is_internal_error :
  (run (demo_site no_vars (demo_http None)) (demo_world [] demo_db)).2
  = inr (json_response (generic_error_handler no_credentials)) ∧
  rp_status_code (respond no_credentials) = 401%Z ∧
  hs_status (json_response (generic_error_handler no_credentials)) = 500%Z.
Proof. by vm_compute. Qed.

(** The CORS middleware was added first, so it is the innermost: a preflight
    request, which browsers send without credentials, never reaches it. *)
Lemma preflight_never_reaches_cors cors endpoint vars rq w :
  rq_user (ht_request rq) = None → rq_authorization (ht_request rq) = None →
  rq_path (ht_request rq) ∉ PUBLIC_PATHS →
  (run (http_app (demo_settings []) cors demo_asgi endpoint vars rq) w).2
  = inr (json_response (generic_error_handler no_credentials)).
Proof.
  intros Hu Ha Hp.
  destruct (run (http_app (demo_settings []) cors demo_asgi endpoint vars rq) w) as [w' r] eqn:Hr.
  revert Hr. unfold http_app, server_error, app_middleware. rewrite (asgi_stack demo_asgi), run_try.
  destruct (run_auth (demo_settings []) (rate_limit_middleware (demo_settings [])
              (correlation_middleware (cors (answered endpoint)))) vars rq w Hu) as [u ->].
  unfold auth_dispatch. rewrite bool_decide_false, Ha by done. cbn. by intros [= _ <-].
Qed.
End demo.

(** A turn opens its own context without a correlation id ([main.py],
    [_generate_safe_turn]), so what it logs and audits carries a fresh one, not the
    one of the request, which goes back to the caller. *)
Example turn_leaves_the_correlation fresh :
  let request := correlated "C-1" (demo_http None) no_vars in
  correlation_id_var request = Some "C-1" ∧
  correlation_id_var (log_enter (LogContext_init None (Some "S-1") (Some "U-1") fresh) request).1
  = Some fresh.
Proof. done. Qed.
