(* ===== verification/Domains.v ===== *)
(** * Deterministic domain decisions

    [core/domains.py], [core/routing.py], [core/verification.py],
    [core/jurisdiction.py], [core/adapter_loading.py], [core/adk2.py] and the
    facade of [core/service.py]. *)

From Stdlib Require Import SpecFloat Strings.Ascii.
From S2P Require Import Prelude PyValue PyString Prog Table ActionSpecs Policy KernelData World KernelStore KernelInv CaseKernel Auth Conversation Gateway ActionService.

(** ** [core/domains.py] *)

Record RefundDecision := mkRefundDecision {
  rd_eligible : bool; rd_reason : string; rd_amount : float; rd_idempotency_key : string
}.

Record OrderSnapshot := mkOrder {
  os_order_id : string; os_customer_id : string; os_status : string;
  os_days_since_delivery : Z; os_amount : float; os_payment_method : string;
  os_evidence_ref : string
}.

Record RefundDecisionService := mkRefundService { refund_window_days : Z }.

Definition evaluate_refund (svc : RefundDecisionService)
    (order_id authenticated_customer_id order_customer_id order_status : string)
    (days_since_delivery : Z) (amount : float) : RefundDecision :=
  let key := "refund:" +:+ order_id in
  if negb (String.eqb authenticated_customer_id order_customer_id) then
    mkRefundDecision false "ownership_mismatch" amount key
  else if negb (bool_decide (order_status ∈ ["delivered"; "completed"])) then
    mkRefundDecision false "order_not_complete" amount key
  else if (refund_window_days svc <? days_since_delivery)%Z then
    mkRefundDecision false "outside_refund_window" amount key
  else if f_leb amount (S754_zero false) then
    mkRefundDecision false "invalid_amount" amount key
  else mkRefundDecision true "eligible" amount key.

Record RegEDecision := mkRegE {
  re_eligible : bool; re_liability_tier : string; re_max_liability : float; re_reason : string
}.

Definition covered_methods : list string :=
  ["debit"; "debit_card"; "ach"; "p2p"; "atm"; "electronic_transfer"].

Definition evaluate_reg_e (payment_method : string) (days_since_noticed : Z) (amount : float) :
    RegEDecision :=
  if negb (bool_decide (str_lower payment_method ∈ covered_methods)) then
    mkRegE false "not_covered" amount "not_eft"
  else if (days_since_noticed <=? 2)%Z then mkRegE true "tier_1" (f_of_Z 50) "eligible"
  else if (days_since_noticed <=? 60)%Z then mkRegE true "tier_2" (f_of_Z 500) "eligible"
  else mkRegE false "tier_3" amount "outside_60_day_window".

(** ** [core/routing.py] *)

Record ProcedureRoute := mkRoute {
  rt_primary_procedure : string; rt_subprocedures : list string; rt_versions : dict string
}.

(** A catalog entry: its keywords and its version. *)
Record catalog_entry := mkEntry { ce_keywords : list string; ce_version : string }.

(** [text.lower().replace(",", " ").split()] *)
Fixpoint split_words (s : string) (current : string) : list string :=
  match s with
  | EmptyString => if String.eqb current "" then [] else [current]
  | String c s' =>
      if bool_decide (c ∈ [" "; ","; "009"; "010"; "011"; "012"; "013"; "028"; "029"; "030"; "031"]%char) then
        if String.eqb current "" then split_words s' "" else current :: split_words s' ""
      else split_words s' (current +:+ String c "")
  end.

(** The sort key of [route]: a dispute first, then by name. *)
Definition route_le (a b : string) : Prop :=
  let k x := negb (str_contains "dispute" x) in
  (k a = false ∧ k b = true) ∨ (k a = k b ∧ String.leb a b = true).
#[export] Instance route_le_dec a b : Decision (route_le a b).
Proof. unfold route_le. apply _. Defined.

Definition route (catalog : dict catalog_entry) (text : string) (current : option ProcedureRoute) :
    result ProcedureRoute :=
  match current with
  | Some c => inr c
  | None =>
      let words := split_words (str_lower text) "" in
      let hit (e : string * catalog_entry) :=
        existsb (λ w, bool_decide (w ∈ ce_keywords e.2)) words in
      let matches := merge_sort route_le (dkeys (select_where hit catalog)) in
      match matches with
      | [] => inl (ValueError "No deterministic procedure match")
      | p :: rest =>
          inr (mkRoute p rest
            (map (λ i, (i, match dget i catalog with Some e => ce_version e | None => "" end))
               matches))
      end
  end.

(** ** [core/verification.py]: the gate; replay compares hashes of canonical JSON *)

Record ReplayResult := mkReplay { rp_deterministic : bool; rp_expected_hash : string; rp_actual_hash : string }.

Class Sha256 := sha256_hex : value → string.

Definition replay `{Sha256} (actual expected : value) : ReplayResult :=
  let expected_hash := sha256_hex (canonical_json expected) in
  let actual_hash := sha256_hex (canonical_json actual) in
  mkReplay (String.eqb expected_hash actual_hash) expected_hash actual_hash.

Record RolloutGate := mkGate {
  rg_procedure_id : string; rg_channel : string; rg_risk_tier : string;
  rg_enabled_percent : Z; rg_unauthorized_actions : Z; rg_mandatory_evidence_rate : float
}.

Definition may_advance (g : RolloutGate) : bool :=
  (rg_unauthorized_actions g =? 0)%Z && f_eqb (rg_mandatory_evidence_rate g) (f_of_Z 1).

(** ** [core/jurisdiction.py] *)

Record JurisdictionProfile := mkProfile {
  jp_profile_id : string; jp_regions : list string; jp_recording_consent_required : bool;
  jp_transcription_consent_required : bool; jp_transcript_retention_days : Z;
  jp_quiet_hours_start : Z; jp_quiet_hours_end : Z; jp_max_outbound_contacts_7d : Z;
  jp_secure_dtmf_required : bool
}.

Record JurisdictionDecision := mkJurisdiction {
  jd_allowed : bool; jd_enforced : bool; jd_blocks : list string; jd_warnings : list string;
  jd_profile_id : string
}.

Definition DEFAULT_NAM_PROFILE : JurisdictionProfile :=
  mkProfile "NAM" ["US"; "CA"; "MX"] true true 30 21 8 3 true.

(** [load_jurisdiction_profile]: the built-in profile, or the one the parsed
    configuration file names; reading the file is the caller's. *)
Definition load_jurisdiction_profile (profile_id : string)
    (config : option (dict JurisdictionProfile)) : result JurisdictionProfile :=
  match config with
  | None =>
      if String.eqb profile_id "NAM" then inr DEFAULT_NAM_PROFILE
      else inl (ValueError ("No built-in jurisdiction profile: " +:+ profile_id))
  | Some profiles =>
      match dget profile_id profiles with
      | None => inl (ValueError ("Jurisdiction profile not found: " +:+ profile_id))
      | Some p => inr p
      end
  end.

Record JurisdictionGuard := mkGuard { jg_profile : JurisdictionProfile; jg_enforce : bool }.

Definition inbound_findings (p : JurisdictionProfile) (channel : ChannelKind)
    (consent_snapshot : dict value) (contains_dtmf_secret secure_dtmf_capture : bool) :
    list string :=
  if decide (channel = IVR) then
    (if jp_recording_consent_required p && negb (truthy (dget_none "recording" consent_snapshot))
     then ["recording_consent_missing"] else [])
    ++ (if jp_transcription_consent_required p &&
           negb (truthy (dget_none "transcription" consent_snapshot))
        then ["transcription_consent_missing"] else [])
    ++ (if contains_dtmf_secret && jp_secure_dtmf_required p && negb secure_dtmf_capture
        then ["secure_dtmf_capture_required"] else [])
  else [].

Definition evaluate_inbound (g : JurisdictionGuard) (channel : ChannelKind)
    (consent_snapshot : dict value) (contains_dtmf_secret secure_dtmf_capture : bool) :
    JurisdictionDecision :=
  let findings := inbound_findings (jg_profile g) channel consent_snapshot contains_dtmf_secret
                    secure_dtmf_capture in
  mkJurisdiction (bool_decide (findings = []) || negb (jg_enforce g)) (jg_enforce g)
    (if jg_enforce g then findings else []) (if jg_enforce g then [] else findings)
    (jp_profile_id (jg_profile g)).

(** ** [core/adapter_loading.py]: the format check of a specification *)
Definition adapter_specification (specification : string) : result (string * string) :=
  match after ":" specification with
  | Some attribute =>
      let module_name := before ":" specification in
      if negb (String.eqb module_name "") && negb (String.eqb attribute "")
      then inr (module_name, attribute)
      else inl (ValueError "Adapter factory must use 'package.module:callable' format")
  | None => inl (ValueError "Adapter factory must use 'package.module:callable' format")
  end.

(** ** [core/adk2.py]: what the interpretation graph may pass on *)

Record CandidateProposal := mkCandidate {
  cp_intent : string; cp_extracted_facts : dict value; cp_evidence_spans : dict string
}.

Record ValidatedProposal := mkValidated {
  vp_candidate : CandidateProposal; vp_fact_authority : FactAuthority
}.

Definition validate_proposal (p : CandidateProposal) : result ValidatedProposal :=
  let missing := dkeyset (cp_extracted_facts p) ∖ dkeyset (cp_evidence_spans p) in
  if bool_decide (missing = ∅) then inr (mkValidated p ASSERTED)
  else inl (ValueError ("Extracted facts lack evidence spans: ["
                          +:+ join ", " (map (λ s, "'" +:+ s +:+ "'") (sorted_set missing))
                          +:+ "]")).

Definition compose_grounded_response (p : ValidatedProposal) : string * option string :=
  ("I understood this as " +:+ cp_intent (vp_candidate p)
     +:+ ". I will verify the relevant details before any action.", None).

(** ** [core/service.py] *)
Section engine.
Context `{Hmac} (sg : PolicySigner) `{Oracle} `{Render} {Ext : Type} (gw : ActionGateway Ext).
Context (refund_policy : RefundDecisionService).
Abbreviation prog := (prog (World Ext)).

(** [_SingleOrderResourceProvider] *)
Definition single_order_provider (order : OrderSnapshot) : ResourceProvider Ext :=
  mkResourceProvider (λ resource_type resource_id,
    if negb (String.eqb resource_type "order") || negb (String.eqb resource_id (os_order_id order))
    then mret None
    else mret (Some (mkResource
      [ ("order_id", VStr (os_order_id order)); ("customer_id", VStr (os_customer_id order));
        ("status", VStr (os_status order)); ("days_since_delivery", VInt (os_days_since_delivery order));
        ("amount", VFloat (os_amount order)); ("refund_amount", VFloat (os_amount order));
        ("currency", VStr "USD"); ("payment_method", VStr (os_payment_method order)) ] (VInt 1)))).

Definition process_refund (cid authenticated_customer_id actor_id policy_package_id
    procedure_version : string) (order : OrderSnapshot) (reason : string)
    (consent_evidence_ref : option string) : prog ActionRecord :=
  let decision := evaluate_refund refund_policy (os_order_id order) authenticated_customer_id
                    (os_customer_id order) (os_status order) (os_days_since_delivery order)
                    (os_amount order) in
  _ ← require (rd_eligible decision)
        (ValueError ("Refund is not eligible: " +:+ rd_reason decision));
  let payload := IssueRefundPayload (os_order_id order) authenticated_customer_id
                   (os_amount order) "USD" (os_payment_method order) reason in
  let request := mkRequestC cid authenticated_customer_id "cs_refund" procedure_version
                   policy_package_id (rd_idempotency_key decision)
                   (Some (mkResourceRef "order" (os_order_id order))) payload
                   consent_evidence_ref None None None None in
  (* pydantic validates the request it is built from *)
  _ ← require (request_valid request) (OtherError "ValidationError");
  submit sg gw (single_order_provider order) request actor_id.

#[export] Instance single_order_laws order : ResourceProviderLaws (single_order_provider order).
Proof. intros t i. cbn. case_match; apply steps_ret. Qed.
End engine.
