(* ===== verification/Connectors.v ===== *)
(** * Adapters over the reference database ([core/connectors.py],
    [integrations/resources.py])

    The connector that executes refunds, and the read-only provider of
    authoritative resources. *)

From Stdlib Require Import Ascii SpecFloat.
From S2P Require Import Prelude PyValue PyString Numerals Prog RelyGuarantee Table ActionSpecs Policy KernelData World Auth Gateway ActionService Domains Sandbox Reference.

(** ** [DatabaseRefundConnector] *)

(** The columns of an order the decision reads, at the types the schema declares. *)
Record order_facts := mkOrderFacts {
  of_customer : string; of_status : string; of_days : Z; of_total : float
}.
Definition facts_of_order (o : row) : result order_facts :=
  match dget_none "customer_id" o, dget_none "status" o,
        py_or (dget_none "days_since_delivery" o) (VInt 0), dget_none "total" o with
  | VStr c, VStr s, VInt d, VFloat t => inr (mkOrderFacts c s d t)
  | _, _, _, _ => inl (TypeError "column of another type")
  end.

(** [command.parameters[k]] of a text: the payload models declare it [str]. *)
Definition text_parameter (k : string) (c : ActionCommand) : result string :=
  match dget k (c_parameters c) with
  | Some (VStr s) => inr s
  | Some _ => inl (OtherError "ProgrammingError")
  | None => inl (KeyError k)
  end.
Definition parameter (k : string) (c : ActionCommand) : result value :=
  match dget k (c_parameters c) with Some v => inr v | None => inl (KeyError k) end.

Definition reason_outcome (reason : string) : ConnectorOutcome :=
  outcome_failed [("reason", VStr reason)].

Section connector.
Context {W : Type} `{HasReference W} `{Oracle} `{TextDigest} (iso : Z → string).
Abbreviation prog := (prog W).

Definition refund_id_of (c : ActionCommand) : string :=
  "REF-" +:+ str_upper (String.substring 0 16 (text_digest (c_idempotency_key c))).

(** Recording the effect, once the order has been checked. *)
Definition record_refund (c : ActionCommand) (order_id : string) (order : row) :
    prog ConnectorOutcome :=
  existing ← refund_get_by_order order_id;
  match existing with
  | Some refund => mret (outcome_succeeded refund)
  | None =>
      now ← reference_now;
      reason ← lift_result (parameter "reason" c);
      let processed_at := iso now in
      _ ← refund_create (refund_id_of c) order_id (dget_none "total" order) reason
            (py_or (dget_none "payment_method" order) (VStr "original_payment_method")) processed_at;
      mret (outcome_succeeded
        [ ("refund_id", VStr (refund_id_of c)); ("order_id", VStr order_id);
          ("amount", dget_none "total" order); ("currency", VStr "USD");
          ("status", VStr "processed"); ("processed_at", VStr processed_at) ])
  end.

Definition refund_dispatch (c : ActionCommand) : prog ConnectorOutcome :=
  order_id ← lift_result (text_parameter "order_id" c);
  order ← order_get_by_id order_id;
  match order with
  | None => mret (reason_outcome "order_not_found")
  | Some order =>
      customer_id ← lift_result (text_parameter "customer_id" c);
      facts ← lift_result (facts_of_order order);
      let decision := evaluate_refund (mkRefundService 30) order_id customer_id
                        (of_customer facts) (of_status facts) (of_days facts) (of_total facts) in
      if negb (rd_eligible decision) then mret (reason_outcome (rd_reason decision))
      else
        requested ← lift_result (rbind (parameter "refund_amount" c) py_float);
        if negb (f_eqb requested (of_total facts)) then mret (reason_outcome "amount_changed")
        else record_refund c order_id order
  end.

Definition refund_reconcile (c : ActionCommand) (prior : option (dict value)) :
    prog ConnectorOutcome :=
  order_id ← lift_result (text_parameter "order_id" c);
  refund ← refund_get_by_order order_id;
  mret match refund with
       | Some refund => outcome_succeeded refund
       | None =>
           outcome_unknown
             match prior with
             | Some ((_ :: _) as d) => d
             | _ => [("reason", VStr "provider_outcome_unresolved")]
             end
       end.
End connector.

(** The connector as the gateway calls it. *)
Definition DatabaseRefundConnector `{HasReference Ext} `{Oracle} `{TextDigest} (iso : Z → string) :
    ActionConnector Ext :=
  mkConnector (λ c, run (refund_dispatch iso c)) (λ c prior, run (refund_reconcile c prior)).

(** ** [ReferenceDataResourceProvider] *)

Definition _REFERENCE_QUERIES : dict (schema * string) :=
  [ ("order", (orders, "order_id")); ("transaction", (transactions, "transaction_id"));
    ("dispute", (disputes, "dispute_id")); ("account", (accounts, "account_id"));
    ("fraud_alert", (fraud_alerts, "alert_id")) ].

(** [int(hex, 16)] *)
Definition hex_digit (c : ascii) : Z :=
  let n := Z.of_nat (nat_of_ascii c) in
  (if (n <? 58) then n - 48 else if (n <? 71) then n - 55 else n - 87)%Z.
Definition hex_value (s : string) : Z :=
  fold_left (λ z c, (16 * z + hex_digit c)%Z) (String.list_ascii_of_string s) 0%Z.

Definition order_resource (payload : row) : row :=
  dupdate payload
    [ ("amount", dget_none "total" payload); ("refund_amount", dget_none "total" payload);
      ("currency", py_or (dget_none "currency" payload) (VStr "USD"));
      ("payment_method", py_or (dget_none "payment_method" payload) (VStr "original_payment_method")) ].

Section provider.
Context {Ext : Type} `{HasReference Ext} `{Oracle} `{TextDigest} `{JsonDumps}.
Abbreviation prog := (prog (World Ext)).

Definition transaction_resource (resource_id : string) (payload : row) : prog row :=
  let payload := dset "transaction_id" (dget_or "txn_id" (VStr resource_id) payload) payload in
  ownership ← reference_read (λ d, head (newest_first "reported_date"
    (select_where (text_is "transaction_id" resource_id) (rows_of disputes d))));
  mret match ownership with
       | Some o => dset "customer_id" (dget_none "customer_id" o) payload
       | None => payload
       end.

(** [int(sha256(json.dumps(payload, sort_keys=True)).hexdigest()[:12], 16)] *)
Definition resource_version (payload : row) : Z :=
  hex_value (String.substring 0 12 (text_digest (json_dumps (canonical_json (VDict payload))))).

Definition reference_get_resource (resource_type resource_id : string) : prog (option Resource) :=
  match dget resource_type _REFERENCE_QUERIES with
  | None => mret None
  | Some (table, key) =>
      found ← get_by_key table key resource_id;
      match found with
      | None => mret None
      | Some row =>
          payload ← (if String.eqb resource_type "order" then mret (order_resource row)
                     else if String.eqb resource_type "transaction"
                     then transaction_resource resource_id row
                     else mret row);
          mret (Some (mkResource payload (VInt (resource_version payload))))
      end
  end.

Definition ReferenceDataResourceProvider : ResourceProvider Ext :=
  mkResourceProvider reference_get_resource.

(** Reading resources changes nothing. *)
Lemma reference_read_idle {A} (f : Reference → A) : steps (@idle Ext) (reference_read f).
Proof. apply steps_atomically. by intros w. Qed.
Hint Resolve reference_read_idle : wf.

#[export] Instance reference_resources_laws : ResourceProviderLaws ReferenceDataResourceProvider.
Proof.
  intros t i. cbn. unfold reference_get_resource, get_by_key, transaction_resource. step_through.
Qed.
End provider.
