(* ===== verification/BusinessTools.v ===== *)
(** * The tools over the reference database ([tools/common_tools.py],
      [tools/crm_tools.py], [tools/dispute_tools.py], [tools/fraud_tools.py])

    A tool reads and writes the state of the session it is called in, the
    reference database, and the audit trail.  The session is part of the world:
    the calls a model makes in one turn run as concurrent coroutines over it.
    The functions that write the database themselves have the names of the
    proposal tools and their own Module. *)

From Stdlib Require Import SpecFloat Ascii.
From S2P Require Import Prelude PyValue PyString Numerals Prog Table AuditTrail Dates World Guardrails ActionSpecs ToolCatalog Policy KernelData KernelStore Gateway ActionService Domains Sandbox Reference Connectors.

From stdpp Require Import pretty.

(** Where a program's state keeps [tool_context.state]. *)
Class HasSession (W : Type) := {
  sess_get : W → dict value;
  sess_set : dict value → W → W
}.

(** ** Arithmetic of two JSON numbers *)

Definition num_float (v : value) : result float :=
  match v with
  | VInt _ | VBool _ | VFloat _ => py_float v
  | _ => inl (TypeError "unsupported operand type")
  end.
Definition py_arith (fz : Z → Z → Z) (ff : float → float → float) (u v : value) : result value :=
  match as_int u, as_int v with
  | Some x, Some y => inr (VInt (fz x y))
  | _, _ => (let? x := num_float u in let? y := num_float v in inr (VFloat (ff x y)))%wf
  end.
Definition f_add (x y : float) : float := SFadd f_prec f_emax x y.
Definition py_add : value → value → result value := py_arith Z.add f_add.
Definition py_sub : value → value → result value := py_arith Z.sub f_sub.

(** [sum(l)] *)
Definition py_sum (l : list value) : result value := fold_result py_add (VInt 0) l.

(** [v > 0] of a number, and [max(0, v)], which keeps the 0 unless [v > 0] *)
Definition above_zero (v : value) : bool :=
  match v with
  | VInt z => (0 <? z)%Z
  | VFloat f => f_ltb (S754_zero false) f
  | VBool b => b
  | _ => false
  end.
Definition py_max0 (v : value) : value := if above_zero v then v else VInt 0.

Definition not_found (what identifier : string) : dict value :=
  [("error", VStr (what +:+ " " +:+ identifier +:+ " not found")); ("found", VBool false)].

(** ** Regulation E *)

Definition _LIABILITY_TIERS : dict (dict value) :=
  [ ("tier_1", [ ("max_days", VInt 2); ("max_liability", VFloat (f_of_Z 50));
                 ("label", VStr "within 2 business days") ]);
    ("tier_2", [ ("max_days", VInt 60); ("max_liability", VFloat (f_of_Z 500));
                 ("label", VStr "within 60 calendar days") ]);
    ("tier_3", [ ("max_days", VNone); ("max_liability", VNone);
                 ("label", VStr "beyond 60 calendar days") ]) ].

Definition _REG_E_PAYMENT_METHODS : list string :=
  [ "debit_card"; "debit"; "ach"; "ach_withdrawal"; "wire"; "p2p"; "atm"; "electronic_transfer";
    "debit_card_ending_5678"; "debit_card_ending_4242"; "debit_card_ending_1234" ].

(** -1.0, the liability of the third tier *)
Definition unlimited : float := decimal_float true 1 0.

Definition _calculate_liability_tier (days_since_discovery : Z) : string * float :=
  if (days_since_discovery <=? 2)%Z then ("tier_1", f_of_Z 50)
  else if (days_since_discovery <=? 60)%Z then ("tier_2", f_of_Z 500)
  else ("tier_3", unlimited).

Definition _is_eft_covered (payment_method : string) : bool :=
  bool_decide (str_lower payment_method ∈ _REG_E_PAYMENT_METHODS).

(** What [check_dispute_eligibility] puts in the session and returns. *)
Definition not_eft (payment_method : string) : dict value :=
  [ ("eligible", VBool false); ("reason", VStr "not_eft");
    ("message", VStr ("The payment method '" +:+ payment_method
       +:+ "' is not an electronic fund transfer covered by Regulation E. "
       +:+ "Credit card disputes are covered under Regulation Z."));
    ("recommendation", VStr "redirect_non_eft") ].

Definition eligibility (days_since_noticed : Z) : dict value :=
  let '(tier, max_liability) := _calculate_liability_tier days_since_noticed in
  let investigation_days := 45%Z in
  if String.eqb tier "tier_3" then
    [ ("eligible", VBool false); ("reason", VStr "outside_60_day_window");
      ("liability_tier", VStr tier); ("days_since_noticed", VInt days_since_noticed);
      ("message", VStr ("The dispute was reported more than 60 days after the statement date. "
         +:+ "Under Regulation E, the consumer bears full liability for unauthorized "
         +:+ "transfers reported after the 60-day window."));
      ("recommendation", VStr "deny_late_dispute"); ("max_liability", VStr "unlimited") ]
  else
    [ ("eligible", VBool true); ("liability_tier", VStr tier);
      ("max_liability", VFloat max_liability); ("days_since_noticed", VInt days_since_noticed);
      ("investigation_deadline_days", VInt 10); ("final_deadline_days", VInt investigation_days);
      ("provisional_credit_required_after_days", VInt 10);
      ("message", VStr ("Dispute is eligible under Regulation E. Liability tier: " +:+ tier
         +:+ " (max $" +:+ fmt2 max_liability
         +:+ "). Investigation must begin within 10 business days."));
      ("recommendation", VStr "file_dispute") ].

Section tools.
Context {W : Type} `{HasReference W} `{HasSession W} `{Oracle} `{Render}.
Abbreviation prog := (prog W).
Context (env : Surroundings (W := W)).
(** The session's identifier, as text; [datetime.isoformat], [strftime], and the
    naive instant [fromisoformat] reads ([None]: a [ValueError], or an aware time
    that cannot be subtracted from a naive one); the date range of a search. *)
Context (session_id : string) (iso : Z → string) (strftime : string → Z → string).
Context (fromisoformat : string → option Z) (around : string → option (string * string)).

Definition state : prog (dict value) := atomically (λ w, (w, inr (sess_get w))).
Definition put (entries : dict value) : prog unit :=
  atomically (λ w, (sess_set (dupdate (sess_get w) entries) w, inr tt)).

(** [await audit.log(...)]: an actor that is [None] fails the NOT NULL column, a
    failed write is passed over. *)
Definition audit (action : AuditAction) (actor : value) (resource_type resource_id : string)
    (before_state after_state : option (dict value)) (metadata : dict value) : prog string :=
  match actor with
  | VStr actor =>
      audit_log env action actor resource_type resource_id (Some session_id) None None
        before_state after_state metadata
  | _ => stamp ← su_stamp env; mret (stamp.1.1)
  end.
(** The same, by [tool_context.state.get("customer_id", default)]. *)
Definition audit_as (default : string) (action : AuditAction) (resource_type resource_id : string)
    (before_state after_state : option (dict value)) (metadata : dict value) : prog string :=
  s ← state;
  audit action (dget_or "customer_id" (VStr default) s) resource_type resource_id
    before_state after_state metadata.

Definition authorized (tool_name : string) (customer_id : option string) : prog unit :=
  s ← state;
  lift_result (authorize_tool tool_name s customer_id).

(** ** [tools/common_tools.py] *)

Definition get_knowledge_article (query : string) : prog (dict value) :=
  matched ← knowledge_search query;
  mret [ ("query", VStr query); ("articles", VList (map VDict matched));
         ("total_results", VInt (Z.of_nat (length matched))) ].

(** ** [tools/crm_tools.py] *)

(** Days since delivery, counted now where the delivery date can be read. *)
Definition delivered_days (order : row) : prog value :=
  let stored := py_or (dget_none "days_since_delivery" order) (VInt 0) in
  match dget_none "delivery_date" order with
  | VStr text =>
      if str_truthy (Some text) then
        match fromisoformat text with
        | Some delivery => now ← reference_now; mret (VInt (days_of (now - delivery)))
        | None => mret stored
        end
      else mret stored
  | _ => mret stored
  end.

Definition order_details (order : row) (items : list row) (days_since_delivery : value) : dict value :=
  columns ["order_id"; "customer_name"; "customer_id"; "email"; "merchant_name"] order
  ++ [("items", VList (map VDict items))]
  ++ columns ["total"; "status"; "order_date"; "delivery_date"] order
  ++ [("days_since_delivery", days_since_delivery)]
  ++ columns ["payment_method"; "shipping_address"] order ++ [("found", VBool true)].

Definition lookup_order (order_id : string) : prog (dict value) :=
  _ ← authorized "lookup_order" None;
  order ← order_get_by_id order_id;
  match order with
  | None => mret (not_found "Order" order_id)
  | Some order =>
      s ← state;
      let session_customer_id := dget_none "customer_id" s in
      if truthy session_customer_id && negb (py_eqb (dget_none "customer_id" order) session_customer_id)
      then mret (not_found "Order" order_id)
      else
        items ← order_get_items order_id;
        days_since_delivery ← delivered_days order;
        let result := order_details order items days_since_delivery in
        _ ← put [("order_data", VDict result)];
        _ ← put [("customer_id", dget_none "customer_id" order)];
        _ ← audit_as "system" ORDER_LOOKUP "order" order_id None None (columns ["status"; "total"] order);
        mret result
  end.

Definition get_customer_profile (customer_id : string) : prog (dict value) :=
  _ ← authorized "get_customer_profile" (Some customer_id);
  profile ← customer_get_by_id customer_id;
  match profile with
  | None => mret (not_found "Customer" customer_id)
  | Some profile =>
      _ ← put [("customer_data", VDict profile)];
      mret (dupdate profile [("found", VBool true)])
  end.

Definition no_match (message : string) : dict value :=
  [("matches", VList []); ("count", VInt 0); ("message", VStr message)].

Definition item_summary (it : row) : string :=
  py_str (dget_none "name" it) +:+ " (x" +:+ py_str (dget_none "qty" it) +:+ ")".

(** One match, with its items and its age. *)
Definition enrich (matches : list (row * value)) (found : row) : prog (list (row * value)) :=
  items ← order_get_items (text_of "order_id" found);
  let items_summary :=
    match items with [] => "no items" | _ => PyValue.join ", " (map item_summary items) end in
  days_since_delivery ← delivered_days found;
  mret (matches ++
    [(columns ["order_id"; "merchant_name"; "total"; "status"; "order_date"; "delivery_date"] found
        ++ [("days_since_delivery", days_since_delivery); ("items_summary", VStr items_summary)],
      days_since_delivery)]).

(** Exactly one match: the session remembers the order, as after a lookup. *)
Definition single_match (customer_id : string) (found : row) (days_since_delivery : value) :
    prog (dict value) :=
  let order_id := text_of "order_id" found in
  order ← order_get_by_id order_id;
  match order with
  | None => mret (no_match "The selected order no longer exists.")
  | Some order =>
      if negb (py_eqb (dget_none "customer_id" order) (VStr customer_id))
      then mret (no_match "No orders found matching that description.")
      else
        items ← order_get_items order_id;
        _ ← put [("order_data", VDict (order_details order items days_since_delivery))];
        _ ← put [("customer_id", dget_none "customer_id" order)];
        mret [ ("matches", VList [VDict found]); ("count", VInt 1);
               ("message", VStr ("Found order " +:+ order_id +:+ " from "
                  +:+ py_str (dget_none "merchant_name" found) +:+ ".")) ]
  end.

Definition search_orders (customer_id : string) (merchant_name : option string)
    (amount : option float) (date : option string) : prog (dict value) :=
  _ ← authorized "search_orders" (Some customer_id);
  found ← order_search around customer_id merchant_name amount date;
  rows ← (if bool_decide (found = []) && str_truthy date &&
             (str_truthy merchant_name ||
              match amount with Some a => truthy (VFloat a) | None => false end)
          then order_search around customer_id merchant_name amount None
          else mret found);
  _ ← audit ORDER_SEARCH (VStr customer_id) "order" ("search:" +:+ customer_id) None None
        [ ("merchant_name", ovalue merchant_name);
          ("amount", match amount with Some a => VFloat a | None => VNone end);
          ("date", ovalue date); ("results_count", VInt (Z.of_nat (length rows))) ];
  match rows with
  | [] => mret (no_match "No orders found matching that description.")
  | _ =>
      matches ← for_each rows [] enrich;
      match matches with
      | [(found, days_since_delivery)] => single_match customer_id found days_since_delivery
      | _ =>
          mret [ ("matches", VList (map (λ m, VDict m.1) matches));
                 ("count", VInt (Z.of_nat (length matches)));
                 ("message", VStr ("Found " +:+ pretty (length matches)
                    +:+ " orders. Please ask the customer to confirm which one.")) ]
      end
  end.

(** ** [tools/dispute_tools.py] *)

Definition liability_label (tier : value) : value :=
  match tier with
  | VStr t => dget_or "label" (VStr "unknown") (dget_or t [] _LIABILITY_TIERS)
  | _ => VStr "unknown"
  end.

(** The dict stored in the session is the one that is completed and returned. *)
Definition lookup_dispute (dispute_id : string) : prog (dict value) :=
  _ ← authorized "lookup_dispute" None;
  dispute ← dispute_get_by_id dispute_id;
  match dispute with
  | None => mret (not_found "Dispute" dispute_id)
  | Some dispute =>
      s ← state;
      if negb (py_eqb (dget_none "customer_id" dispute) (dget_none "customer_id" s))
      then mret (not_found "Dispute" dispute_id)
      else
        let result := dupdate dispute
          [ ("found", VBool true);
            ("liability_description", liability_label (dget_none "liability_tier" dispute));
            ("reg_e_covered", VBool true) ] in
        _ ← put [("dispute_data", VDict result); ("customer_id", dget_none "customer_id" dispute)];
        _ ← audit_as "system" COMPLIANCE_CHECK "dispute" dispute_id None None
              [("action", VStr "lookup"); ("status", dget_none "status" dispute)];
        mret result
  end.

Definition check_dispute_eligibility (transaction_id dispute_type : string)
    (days_since_noticed : Z) (payment_method : string) : prog (dict value) :=
  _ ← authorized "check_dispute_eligibility" None;
  if negb (_is_eft_covered payment_method) then
    let result := not_eft payment_method in
    _ ← put [("dispute_eligibility", VDict result)];
    mret result
  else
    let result := eligibility days_since_noticed in
    _ ← put [("dispute_eligibility", VDict result)];
    _ ← audit_as "system" COMPLIANCE_CHECK "dispute_eligibility" transaction_id None None
          [ ("dispute_type", VStr dispute_type); ("payment_method", VStr payment_method);
            ("days_since_noticed", VInt days_since_noticed);
            ("liability_tier", VStr (_calculate_liability_tier days_since_noticed).1);
            ("eligible", dget_none "eligible" result) ];
    mret result.

(** ** [tools/fraud_tools.py]: these tools make no check of the session *)

Definition get_fraud_alert (alert_id : string) : prog (dict value) :=
  alert ← alert_get_by_id alert_id;
  match alert with
  | None => mret (not_found "Alert" alert_id)
  | Some alert =>
      _ ← put [("alert_data", VDict alert)];
      _ ← put [("account_id", dget_none "account_id" alert)];
      _ ← audit_as "analyst" FRAUD_ALERT_VIEWED "fraud_alert" alert_id None None
            (columns ["severity"; "risk_score"] alert);
      mret (dupdate alert [("found", VBool true)])
  end.

Definition get_account_transactions (account_id : string) (days : Z) : prog (dict value) :=
  transactions ← transactions_get_by_account account_id;
  total_amount ← lift_result (py_sum (map (dget_none "amount") transactions));
  let flagged := List.filter (λ t, truthy (dget_none "is_flagged" t)) transactions in
  flagged_amount ← lift_result (py_sum (map (dget_none "amount") flagged));
  let data :=
    [ ("account_id", VStr account_id); ("transactions", VList (map VDict transactions));
      ("summary", VDict
        [ ("total_transactions", VInt (Z.of_nat (length transactions)));
          ("flagged_count", VInt (Z.of_nat (length flagged)));
          ("total_amount", total_amount); ("flagged_amount", flagged_amount) ]) ] in
  _ ← put [("transaction_data", VDict data)];
  _ ← audit_as "analyst" TRANSACTIONS_VIEWED "transactions" account_id None None
        [ ("days", VInt days); ("count", VInt (Z.of_nat (length transactions)));
          ("flagged", VInt (Z.of_nat (length flagged))) ];
  mret data.

Definition as_bool (k : string) (r : row) : row := dset k (VBool (truthy (dget_none k r))) r.

Definition check_device_fingerprint (account_id : string) : prog (dict value) :=
  devices ← get_devices account_id;
  logins ← get_login_history account_id;
  indicators ← get_risk_indicators account_id;
  let known_devices := map (as_bool "trusted") devices in
  let recent_logins := map (as_bool "is_new") logins in
  let risk_indicators :=
    match devices, logins with [], [] => [VStr "unknown_account"] | _, _ => indicators end in
  let data :=
    [ ("account_id", VStr account_id); ("known_devices", VList (map VDict known_devices));
      ("recent_logins", VList (map VDict recent_logins));
      ("risk_indicators", VList risk_indicators) ] in
  _ ← put [("device_data", VDict data)];
  _ ← audit_as "analyst" DEVICE_CHECK "device_fingerprint" account_id None None
        [ ("devices_count", VInt (Z.of_nat (length devices)));
          ("logins_count", VInt (Z.of_nat (length logins)));
          ("risk_indicators", VList indicators) ];
  mret data.

(** ** What a model may call in a session *)

(** A proposal tool reads and writes the session between two suspension points. *)
Definition propose_tool (t : ProposalTool) : prog (dict value) :=
  atomically (λ w, match call_tool t (sess_get w) with
                   | inl e => (w, inl e)
                   | inr (s, result) => (sess_set s w, inr result)
                   end).

Inductive AgentTool :=
  | LookupOrder (order_id : string)
  | GetCustomerProfile (customer_id : string)
  | SearchOrders (customer_id : string) (merchant_name : option string) (amount : option float)
      (date : option string)
  | LookupDispute (dispute_id : string)
  | CheckDisputeEligibility (transaction_id dispute_type : string) (days_since_noticed : Z)
      (payment_method : string)
  | GetKnowledgeArticle (query : string)
  | GetFraudAlert (alert_id : string)
  | GetAccountTransactions (account_id : string) (days : Z)
  | CheckDeviceFingerprint (account_id : string)
  | ProposeAction (t : ProposalTool).

Definition call_agent_tool (t : AgentTool) : prog (dict value) :=
  match t with
  | LookupOrder o => lookup_order o
  | GetCustomerProfile c => get_customer_profile c
  | SearchOrders c m a d => search_orders c m a d
  | LookupDispute d => lookup_dispute d
  | CheckDisputeEligibility t ty d m => check_dispute_eligibility t ty d m
  | GetKnowledgeArticle q => get_knowledge_article q
  | GetFraudAlert a => get_fraud_alert a
  | GetAccountTransactions a d => get_account_transactions a d
  | CheckDeviceFingerprint a => check_device_fingerprint a
  | ProposeAction t => propose_tool t
  end.
End tools.

(** ** The functions that write the database themselves

    They share the names of the proposal tools; no agent registers them. *)
Module Direct.
Section direct.
Context {W : Type} `{HasReference W} `{HasSession W} `{Oracle} `{Render} `{TextDigest} `{JsonDumps}.
Abbreviation prog := (prog W).
Context (env : Surroundings (W := W)).
Context (session_id : string) (iso : Z → string) (strftime : string → Z → string).
(** [uuid.uuid4().hex] *)
Context (hex : prog string).
Abbreviation audit := (audit env session_id).
Abbreviation audit_as := (audit_as env session_id).

Definition now_text (format : string) : prog string :=
  now ← reference_now; mret (strftime format now).
Definition now_iso : prog string := now ← reference_now; mret (iso now).

Definition escalate_to_supervisor (case_id reason priority : string) : prog (dict value) :=
  now ← now_iso;
  stamp ← now_text "%Y%m%d%H%M%S";
  let escalation_id := "ESC-" +:+ stamp in
  let estimated_response :=
    if bool_decide (priority ∈ ["high"; "urgent"]) then "within 2 hours" else "within 24 hours" in
  _ ← escalation_create iso escalation_id case_id reason priority "Supervisor Martinez" estimated_response;
  let result :=
    [ ("escalation_id", VStr escalation_id); ("case_id", VStr case_id); ("reason", VStr reason);
      ("priority", VStr priority); ("assigned_to", VStr "Supervisor Martinez");
      ("estimated_response", VStr estimated_response); ("escalated_at", VStr now);
      ("status", VStr "escalated") ] in
  _ ← put [("escalation_data", VDict result); ("workflow_status", VStr "escalated")];
  _ ← audit_as "system" ESCALATION_CREATED "escalation" escalation_id None None
        [ ("case_id", VStr case_id); ("priority", VStr priority); ("reason", VStr reason);
          ("assigned_to", VStr "Supervisor Martinez") ];
  mret result.

(** [notes.append(note)] *)
Definition append_value (v x : value) : result value :=
  match v with VList l => inr (VList (l ++ [x])) | _ => inl (OtherError "AttributeError") end.

Definition add_case_note (case_id note : string) : prog (dict value) :=
  now ← now_iso;
  stamp ← now_text "%Y%m%d%H%M%S";
  digits ← hex;
  let note_id := "NOTE-" +:+ stamp +:+ "-" +:+ String.substring 0 6 digits in
  _ ← case_add_note iso note_id case_id note "system";
  let result :=
    [ ("note_id", VStr note_id); ("case_id", VStr case_id); ("note", VStr note);
      ("created_at", VStr now); ("created_by", VStr "system") ] in
  s ← state;
  notes ← lift_result (append_value (dget_or "case_notes" (VList []) s) (VDict result));
  _ ← put [("case_notes", notes)];
  _ ← audit_as "system" CASE_NOTE_ADDED "case_note" note_id None None
        [("case_id", VStr case_id); ("note_length", VInt (Z.of_nat (String.length note)))];
  mret result.

(** [order_id.split('-')[1]] *)
Definition second_part (order_id : string) : result string :=
  match split_on "-"%char order_id with
  | _ :: part :: _ => inr part
  | _ => inl IndexError
  end.

Definition issue_store_credit (order_id reason : string) : prog (dict value) :=
  s ← state;
  amount ← lift_result (py_get "total" (VInt 0) (dget_or "order_data" (VDict []) s));
  let customer_id := dget_or "customer_id" (VStr "unknown") s in
  part ← lift_result (second_part order_id);
  stamp ← now_text "%H%M%S";
  let credit_id := "SC-" +:+ part +:+ "-" +:+ stamp in
  processed_at ← now_iso;
  _ ← refund_create credit_id order_id amount (VStr reason) (VStr "store_credit") processed_at;
  let result :=
    [ ("credit_id", VStr credit_id); ("order_id", VStr order_id); ("amount", amount);
      ("currency", VStr "USD"); ("status", VStr "applied"); ("reason", VStr reason);
      ("credit_method", VStr "store_credit"); ("expires", VStr "12 months");
      ("processed_at", VStr processed_at) ] in
  _ ← put [("store_credit_data", VDict result); ("workflow_status", VStr "store_credit_issued")];
  _ ← audit STORE_CREDIT_ISSUED customer_id "store_credit" credit_id None None
        [ ("order_id", VStr order_id); ("amount", amount); ("currency", VStr "USD");
          ("reason", VStr reason) ];
  mret result.

Definition update_case_status (case_id status notes : string) : prog (dict value) :=
  s ← state;
  _ ← case_upsert iso case_id status notes
        match dget_none "customer_id" s with VStr c => Some c | _ => None end;
  now ← now_iso;
  let result :=
    [ ("case_id", VStr case_id); ("status", VStr status); ("notes", VStr notes);
      ("updated_at", VStr now); ("updated_by", VStr "system") ] in
  _ ← put [("case_status", VStr status); ("workflow_status", VStr status)];
  _ ← audit_as "system" CASE_UPDATED "case" case_id None (Some [("status", VStr status)])
        [("notes", VStr notes)];
  mret result.

(** The tier and the liability the session remembers of the eligibility check;
    beyond the second tier the consumer bears the whole amount. *)
Definition remembered_liability (amount : value) (s : dict value) : result (value * value) :=
  (let eligibility := dget_or "dispute_eligibility" (VDict []) s in
   let? tier := py_get "liability_tier" (VStr "tier_2") eligibility in
   let? max_liability := py_get "max_liability" (VFloat (f_of_Z 500)) eligibility in
   inr (tier, if py_eqb max_liability (VFloat unlimited) || py_eqb tier (VStr "tier_3")
              then amount else max_liability))%wf.

Definition days_since (transaction_date : string) (now : Z) : Z :=
  match strptime FDate transaction_date with
  | Some txn_date => days_of (now - txn_date)
  | None => 0%Z
  end.

Definition file_eft_dispute (customer_id transaction_id dispute_type : string) (amount : value)
    (merchant transaction_date reason : string) (account_id : option string)
    (payment_method : string) : prog (dict value) :=
  _ ← authorized "file_eft_dispute" (Some customer_id);
  now ← reference_now;
  let dispute_id := "DISP-" +:+ strftime "%Y%m%d%H%M%S" now in
  s ← state;
  remembered ← lift_result (remembered_liability amount s);
  let '(tier, max_liability) := remembered in
  let reported_date := strftime "%Y-%m-%d" now in
  let investigation_deadline := strftime "%Y-%m-%d" (now + 10 * day_us)%Z in
  _ ← dispute_create
        [ ("dispute_id", VStr dispute_id); ("customer_id", VStr customer_id);
          ("transaction_id", VStr transaction_id);
          ("account_id", VStr (default "" account_id)); ("dispute_type", VStr dispute_type);
          ("amount", amount); ("merchant", VStr merchant);
          ("transaction_date", VStr transaction_date); ("reported_date", VStr reported_date);
          ("statement_date", VStr reported_date);
          ("days_since_transaction", VInt (days_since transaction_date now));
          ("days_since_statement", VInt 0); ("liability_tier", tier);
          ("max_liability", max_liability);
          ("investigation_deadline", VStr investigation_deadline);
          ("payment_method", VStr payment_method);
          ("metadata", VStr (json_dumps (VDict [("reason", VStr reason)]))) ];
  liability_text ← lift_result (fmt2_value max_liability);
  let result :=
    [ ("dispute_id", VStr dispute_id); ("customer_id", VStr customer_id);
      ("transaction_id", VStr transaction_id); ("amount", amount); ("status", VStr "open");
      ("liability_tier", tier); ("max_liability", max_liability);
      ("investigation_deadline", VStr investigation_deadline); ("filed_at", VStr (iso now));
      ("reg_e_disclosures", VDict
        [ ("written_acknowledgment", VStr "within 1 business day");
          ("investigation_timeline", VStr "10 business days initial");
          ("provisional_credit", VStr "if investigation extends beyond 10 business days");
          ("final_resolution", VStr "45 calendar days (90 for POS/foreign/new accounts)");
          ("max_consumer_liability", VStr ("$" +:+ liability_text)) ]) ] in
  _ ← put [("dispute_data", VDict result); ("dispute_id", VStr dispute_id)];
  _ ← audit COMPLIANCE_CHECK (VStr customer_id) "dispute" dispute_id None None
        [ ("action", VStr "file_dispute"); ("amount", amount); ("dispute_type", VStr dispute_type);
          ("liability_tier", tier); ("max_liability", max_liability);
          ("investigation_deadline", VStr investigation_deadline);
          ("reg_e_compliant", VBool true) ];
  mret result.

(** The disputed amount less the consumer's liability, never below zero. *)
Definition provisional_amount (dispute_data : value) : result (value * value * value) :=
  (let? amount := py_get "amount" (VInt 0) dispute_data in
   let? max_liability := py_get "max_liability" (VFloat (f_of_Z 50)) dispute_data in
   let? difference := py_sub amount max_liability in
   inr (amount, max_liability, py_max0 difference))%wf.

Definition issue_provisional_credit (dispute_id : string) : prog (dict value) :=
  _ ← authorized "issue_provisional_credit" None;
  s ← state;
  amounts ← lift_result (provisional_amount (dget_or "dispute_data" (VDict []) s));
  let '(amount, max_liability, provisional) := amounts in
  if negb (above_zero provisional) then
    mret [ ("dispute_id", VStr dispute_id); ("provisional_credit_issued", VBool false);
           ("reason", VStr "Disputed amount does not exceed consumer liability limit");
           ("amount", amount); ("max_liability", max_liability) ]
  else
    credit_date ← now_text "%Y-%m-%d";
    _ ← dispute_issue_provisional_credit dispute_id provisional credit_date;
    text ← lift_result (fmt2_value provisional);
    let result :=
      [ ("dispute_id", VStr dispute_id); ("provisional_credit_issued", VBool true);
        ("provisional_credit_amount", provisional); ("credit_date", VStr credit_date);
        ("disputed_amount", amount); ("consumer_liability", max_liability);
        ("message", VStr ("Provisional credit of $" +:+ text
           +:+ " has been applied to the account. This credit will remain unless the "
           +:+ "investigation determines the transaction was authorized.")) ] in
    _ ← put [("provisional_credit", VDict result)];
    _ ← audit_as "system" COMPLIANCE_CHECK "provisional_credit" dispute_id None None
          [ ("action", VStr "issue_provisional_credit"); ("provisional_amount", provisional);
            ("disputed_amount", amount); ("consumer_liability", max_liability);
            ("reg_e_compliant", VBool true) ];
    mret result.

Definition flag_account (account_id reason action : string) : prog (dict value) :=
  now ← reference_now;
  let case_number := "FRAUD-" +:+ strftime "%Y%m%d%H%M%S" now in
  before_account ← account_get_by_id account_id;
  let before_status :=
    match before_account with Some a => dget_none "status" a | None => VStr "unknown" end in
  _ ← account_update_status account_id action;
  _ ← case_upsert iso case_number "account_flagged" reason (Some account_id);
  let result :=
    [ ("account_id", VStr account_id); ("action_taken", VStr action); ("reason", VStr reason);
      ("flagged_at", VStr (iso now)); ("case_number", VStr case_number);
      ("status", VStr "account_flagged");
      ("next_steps",
        VStr "Account has been flagged. Customer will be notified via secure channel.") ] in
  _ ← put [("account_flagged", VBool true); ("fraud_case_number", VStr case_number)];
  _ ← audit_as "analyst" ACCOUNT_FLAGGED "account" account_id
        (Some [("status", before_status)]) (Some [("status", VStr action)])
        [ ("reason", VStr reason); ("action_taken", VStr action);
          ("case_number", VStr case_number) ];
  mret result.

Definition submit_sar (account_id alert_id findings : string) : prog (dict value) :=
  now ← reference_now;
  let sar_id := "SAR-" +:+ strftime "%Y%m%d%H%M%S" now in
  let review_deadline := strftime "%Y-%m-%d" (now + 30 * day_us)%Z in
  let result :=
    [ ("sar_id", VStr sar_id); ("account_id", VStr account_id); ("alert_id", VStr alert_id);
      ("findings", VStr findings); ("status", VStr "submitted"); ("submitted_at", VStr (iso now));
      ("review_deadline", VStr review_deadline) ] in
  _ ← put [("sar_submitted", VBool true); ("sar_id", VStr sar_id)];
  _ ← audit_as "analyst" SAR_SUBMITTED "sar" sar_id None None
        [ ("account_id", VStr account_id); ("alert_id", VStr alert_id);
          ("review_deadline", VStr review_deadline);
          ("findings_length", VInt (Z.of_nat (String.length findings))) ];
  mret result.

Definition close_alert (alert_id resolution : string) : prog (dict value) :=
  now ← now_iso;
  _ ← alert_close alert_id;
  let result :=
    [ ("alert_id", VStr alert_id); ("resolution", VStr resolution); ("closed_at", VStr now);
      ("closed_by", VStr "fraud_analyst"); ("status", VStr "closed") ] in
  _ ← put [("alert_status", VStr "closed"); ("alert_resolution", VStr resolution)];
  _ ← audit_as "analyst" ALERT_CLOSED "fraud_alert" alert_id None
        (Some [("status", VStr "closed"); ("resolution", VStr resolution)]) [];
  mret result.
End direct.

(** [issue_refund] runs the engine over a gateway of its own, without policies. *)
Section refund.
Context {Ext : Type} `{HasReference Ext} `{HasSession (World Ext)} `{Oracle} `{Render} `{TextDigest}
  `{Hmac}.
Context (sg : PolicySigner) (env : Surroundings (W := World Ext)) (session_id : string)
  (iso : Z → string).
Abbreviation prog := (prog (World Ext)).

Definition tool_gateway : ActionGateway Ext :=
  mkGateway (Mapping [("issue_refund", DatabaseRefundConnector iso)]) false None.

(** A [str] field of a pydantic model *)
Definition as_text (v : value) : result string :=
  match v with VStr s => inr s | _ => inl (OtherError "ValidationError") end.

Definition snapshot_of (order_id : string) (order : row) : result OrderSnapshot :=
  (let? facts := facts_of_order order in
   let? payment_method :=
     as_text (py_or (dget_none "payment_method" order) (VStr "original_payment_method")) in
   inr (mkOrder order_id (of_customer facts) (of_status facts) (of_days facts) (of_total facts)
          payment_method
          ("orders-db:" +:+ order_id +:+ ":" +:+ py_str (dget_none "order_date" order))))%wf.

Definition refund_refused (message : string) : dict value :=
  [("error", VStr message); ("status", VStr "not_authorized")].

Definition refund_case_id (customer_id order_id : string) : string :=
  "CASE-REFUND-"
    +:+ str_upper (String.substring 0 16 (text_digest (customer_id +:+ ":" +:+ order_id))).

(** [action.outcome or {"status": action.status.value}] *)
Definition outcome_or_status (action : ActionRecord) : dict value :=
  match a_outcome action with
  | Some ((_ :: _) as outcome) => outcome
  | _ => [("status", VStr (action_status_value (a_status action)))]
  end.

Definition issue_refund (order_id reason : string) : prog (dict value) :=
  _ ← authorized "issue_refund" None;
  s ← state;
  let customer_id := dget_none "customer_id" s in
  let consent_ref := dget_none "refund_consent_evidence" s in
  if negb (truthy customer_id) || negb (truthy consent_ref) then
    mret (refund_refused "Verified customer context and explicit refund consent are required")
  else
    order ← order_get_by_id order_id;
    match order with
    | None => mret (refund_refused ("Order " +:+ order_id +:+ " not found"))
    | Some order =>
        if negb (py_eqb (dget_none "customer_id" order) customer_id)
        then mret (refund_refused ("Order " +:+ order_id +:+ " not found"))
        else
          _ ← initialize;
          s ← state;
          customer ← lift_result (as_text customer_id);
          actor ← lift_result (as_text (dget_or "actor_id" customer_id s));
          package ← lift_result
            (as_text (dget_or "policy_package_id" (VStr "refund@1.0.0:NAM") s));
          version ← lift_result (as_text (dget_or "procedure_version" (VStr "1.0.0") s));
          snapshot ← lift_result (snapshot_of order_id order);
          consent ← lift_result (as_text consent_ref);
          action ← process_refund sg tool_gateway (mkRefundService 30)
                     (refund_case_id customer order_id) customer actor package version snapshot
                     reason (Some consent);
          let result := outcome_or_status action in
          _ ← put [("refund_data", VDict result); ("workflow_status", VStr "refund_processed")];
          _ ← audit_as env session_id "system" REFUND_ISSUED "refund"
                match dget_or "refund_id" (VStr (a_action_id action)) result with
                | VStr i => i | _ => "" end None None
                [ ("order_id", VStr order_id); ("amount", dget_none "total" order);
                  ("currency", VStr "USD"); ("reason", VStr reason);
                  ("refund_method", dget_none "payment_method" order) ];
          mret result
    end.
End refund.
End Direct.
