(* ===== verification/BusinessProps.v ===== *)
(** * Properties of the business tools

    The tools of a session bound to a customer, in every interleaving of the calls
    of a turn; the agreement of the dispute tool with the decision service. *)

From Stdlib Require Import SpecFloat.
From stdpp Require Import pretty.
From S2P Require Import Prelude PyValue PyString Numerals Prog RelyGuarantee Table AuditTrail AuditProps Dates World Settings Guardrails GuardrailsProps ActionSpecs ToolCatalog ToolProps Domains Reference BusinessTools.

(** The session and the database are separate parts of the world. *)
Class HasSessionLaws (W : Type) `{HasReference W} `{HasSession W} := {
  sess_get_set s w : sess_get (sess_set s w) = s;
  ref_get_sess s w : ref_get (sess_set s w) = ref_get w;
  sess_get_ref r w : sess_get (ref_set r w) = sess_get w
}.

Lemma py_eqb_text v s : py_eqb v (VStr s) = true → v = VStr s.
Proof.
  destruct v; cbn; try done; try (by rewrite ?andb_false_r).
  by intros ->%String.eqb_eq.
Qed.

Lemma dget_none_text k d s : dget_none k d = VStr s → dget k d = Some (VStr s).
Proof. unfold dget_none, dget_or. destruct (dget k d); by intros; subst. Qed.

Lemma text_is_get k s r : text_is k s r = true → dget k r = Some (VStr s).
Proof. unfold text_is. destruct (dget k r) as [[]|]; try done. by intros ->%String.eqb_eq. Qed.

Section session.
Context {W : Type} `{HasReference W} `{!HasReferenceLaws W} `{HasSession W} `{!HasSessionLaws W}.
Context `{Oracle} `{Render}.
Abbreviation prog := (prog W).
(** The customer the session is bound to, and the tables as the turn finds them. *)
Context (c : string) (T : dict (list row)).
Context (Hc : c ≠ "").

(** ** What holds at every suspension point *)

Definition belongs (v : value) : Prop :=
  ∃ d, v = VDict d ∧ dget "customer_id" d = Some (VStr c).

(** The entries of a session that describe a customer's records. *)
Definition customer_keys : list string := ["order_data"; "dispute_data"; "customer_data"].

Definition owned (s : dict value) : Prop :=
  dget "customer_id" s = Some (VStr c) ∧
  ∀ k v, k ∈ customer_keys → dget k s = Some v → belongs v.

Definition bound (w : W) : Prop := owned (sess_get w) ∧ rf_tables (ref_get w) = T.

(** An entry that may be put in the session. *)
Definition entry_ok (p : string * value) : Prop :=
  (p.1 = "customer_id" → p.2 = VStr c) ∧ (p.1 ∈ customer_keys → belongs p.2).

Lemma owned_put s entries : Forall entry_ok entries → owned s → owned (dupdate s entries).
Proof.
  unfold dupdate. revert s; induction entries as [|[k v] l IH]; intros s Hl Hs; [done|].
  apply Forall_cons in Hl as [[Hid Hk] Hl]. cbn in *. apply IH; [done|].
  destruct Hs as [Hs Hd]. split.
  - rewrite dget_dset. case_decide as E; [|done]. subst. by rewrite Hid.
  - intros k' v' Hin. rewrite dget_dset. case_decide as E; [|by apply Hd].
    subst. intros [= <-]. by apply Hk.
Qed.

(** ** Programs of a bound session *)

Definition any (_ _ : W) : Prop := True.
#[local] Instance any_preorder : PreOrder any.
Proof. done. Qed.
Definition keeps_bound (_ : unit) (w : W) (_ : unit) (w' : W) : Prop := bound w → bound w'.
#[local] Instance keeps_bound_laws : GuaranteeLaws bound any keeps_bound.
Proof. by split; [intros ? ? ? ? Hk; apply Hk|]. Qed.

(** Every step keeps the session bound, and what is returned satisfies [P]. *)
Definition safe {A} (p : prog A) (P : A → Prop) : Prop :=
  ∀ w, rg bound any keeps_bound w tt p (λ _ _ r, ∀ a, r = inr a → P a).

Lemma safe_ret {A} (a : A) (P : A → Prop) : P a → safe (mret a) P.
Proof. intros HP w. cbn. by intros ? [= <-]. Qed.

Lemma safe_bind {A B} (p : prog A) (k : A → prog B) P Q :
  safe p P → (∀ a, P a → safe (k a) Q) → safe (p ≫= k) Q.
Proof.
  intros Hp Hk w. eapply rg_bind; [apply Hp| |by intros ? ? ? _ ? [=]].
  intros w' [] a Ha. apply Hk. by apply Ha.
Qed.

Lemma safe_lift {A} (r : result A) (P : A → Prop) : (∀ a, r = inr a → P a) → safe (lift_result r) P.
Proof. intros HP w. cbn. auto. Qed.

Lemma safe_conseq {A} (p : prog A) (P Q : A → Prop) : safe p P → (∀ a, P a → Q a) → safe p Q.
Proof. intros Hp HQ w. eapply rg_conseq; [|apply Hp]. cbn. auto. Qed.

Lemma safe_atomically {A} (op : W → W * result A) (P : A → Prop) :
  (∀ w, bound w → bound (op w).1 ∧ ∀ a, (op w).2 = inr a → P a) → safe (atomically op) P.
Proof.
  intros Hop w. apply rg_atomically. intros w' Hw _. exists tt.
  destruct (Hop w' Hw) as [Hb HP]. split; [by intros _|done].
Qed.

Lemma safe_for_each {A S} (l : list A) (acc : S) (body : S → A → prog S) (I : S → Prop) :
  I acc → (∀ acc x, x ∈ l → I acc → safe (body acc x) I) → safe (for_each l acc body) I.
Proof.
  revert acc; induction l as [|x l IH]; intros acc Ha Hb; cbn [for_each]; [by apply safe_ret|].
  eapply safe_bind; [apply Hb; [left|done]|]. intros acc' Ha'. apply IH; [done|].
  intros acc'' y Hy. apply Hb. by right.
Qed.

(** Steps that touch neither the session nor the tables *)
Definition quiet (w w' : W) : Prop :=
  sess_get w' = sess_get w ∧ rf_tables (ref_get w') = rf_tables (ref_get w).

Lemma safe_quiet {A} (p : prog A) : steps quiet p → safe p (λ _, True).
Proof.
  intros Hp w. eapply rg_conseq; [|apply (rg_frame _ _ _ quiet); [|exact Hp]]; [done|].
  intros w1 w2 [Hs Ht] [Hb HT]. split; [by rewrite Hs|by rewrite Ht].
Qed.

Lemma safe_state : safe state owned.
Proof. apply safe_atomically. intros w Hw. split; [done|]. intros a [= <-]. apply Hw. Qed.

Lemma safe_put entries : Forall entry_ok entries → safe (put entries) (λ _, True).
Proof.
  intros He. apply safe_atomically. intros w [Hs HT]. split; [|done]. cbn. split.
  - rewrite sess_get_set. by apply owned_put.
  - by rewrite ref_get_sess.
Qed.

Lemma safe_read {A} (f : Reference → A) (P : A → Prop) :
  (∀ d, rf_tables d = T → P (f d)) → safe (reference_read f) P.
Proof.
  intros HP. apply safe_atomically. intros w [Hs HT]. split; [done|]. intros a [= <-]. by apply HP.
Qed.

Lemma quiet_read {A} (f : Reference → A) : steps quiet (reference_read f).
Proof. apply steps_atomically. by intros w. Qed.

Lemma quiet_clock : steps quiet (reference_now (W := W)).
Proof. apply steps_atomically. intros w. cbn. split; [apply sess_get_ref|by rewrite ref_get_set]. Qed.

Lemma quiet_state : steps quiet state.
Proof. apply steps_atomically. by intros w. Qed.

(** ** The tools of a bound session *)
Section calls.
Context (env : Surroundings (W := W)) (Henv : surroundings_keep quiet env).
Context (session_id : string) (iso : Z → string) (strftime : string → Z → string).
Context (fromisoformat : string → option Z) (around : string → option (string * string)).

Lemma safe_audit action actor resource_type resource_id before after metadata :
  safe (audit env session_id action actor resource_type resource_id before after metadata)
    (λ _, True).
Proof.
  apply safe_quiet. unfold audit. destruct actor;
    first [by apply audit_log_steps|apply steps_bind; [apply Henv|intros; apply steps_ret]].
Qed.

Lemma safe_audit_as name action resource_type resource_id before after metadata :
  safe (audit_as env session_id name action resource_type resource_id before after metadata)
    (λ _, True).
Proof. eapply safe_bind; [apply safe_state|]. intros s _. apply safe_audit. Qed.

(** A check made for a customer is made for the session's. *)
Lemma safe_authorized name customer_id :
  safe (authorized name customer_id) (λ _, ∀ i, customer_id = Some i → i = c).
Proof.
  eapply safe_bind; [apply safe_state|]. intros s [Hs _]. apply safe_lift.
  intros [] (e & _ & _ & Hi)%authorize_tool_ok i ->. specialize (Hi i eq_refl).
  unfold dget_none, dget_or in Hi. rewrite Hs in Hi. by apply String.eqb_eq in Hi.
Qed.

Lemma owned_customer s : owned s → dget_none "customer_id" s = VStr c.
Proof. intros [Hs _]. unfold dget_none, dget_or. by rewrite Hs. Qed.

Lemma quiet_days order : steps quiet (delivered_days fromisoformat order).
Proof.
  unfold delivered_days. destruct (dget_none _ order); try apply steps_ret.
  destruct (str_truthy _); [|apply steps_ret]. destruct (fromisoformat s); [|apply steps_ret].
  apply steps_bind; [apply quiet_clock|intros; apply steps_ret].
Qed.

Lemma details_belong order items days :
  py_eqb (dget_none "customer_id" order) (VStr c) = true → belongs (VDict (order_details order items days)).
Proof.
  intros Ho%py_eqb_text. exists (order_details order items days). split; [done|].
  by rewrite <- Ho.
Qed.

(** What the tools put in the session of a record of the customer's *)
Lemma put_record k v : k ∈ customer_keys → belongs v → safe (put [(k, v)]) (λ _, True).
Proof.
  intros Hk Hv. apply safe_put, Forall_singleton. split; [|done]. cbn. intros ->.
  by repeat apply elem_of_cons in Hk as [?|Hk]; try apply not_elem_of_nil in Hk.
Qed.

Lemma put_other k v :
  k ∉ "customer_id" :: customer_keys → safe (put [(k, v)]) (λ _, True).
Proof.
  intros [Hk1 Hk2]%not_elem_of_cons. apply safe_put, Forall_singleton. by split.
Qed.

Lemma entry_customer v : v = VStr c → entry_ok ("customer_id", v).
Proof.
  intros ->. split; [done|]. cbn. intros Hin.
  by repeat apply elem_of_cons in Hin as [?|Hin]; try apply not_elem_of_nil in Hin.
Qed.

Lemma put_customer v : v = VStr c → safe (put [("customer_id", v)]) (λ _, True).
Proof. intros Hv. by apply safe_put, Forall_singleton, entry_customer. Qed.

(** A reply that is not about another customer: nothing was found, or the record
    is the session customer's. *)
Definition mine (what identifier : string) (reply : dict value) : Prop :=
  reply = not_found what identifier ∨ dget "customer_id" reply = Some (VStr c).

Lemma lookup_order_safe order_id :
  safe (lookup_order env session_id fromisoformat order_id) (mine "Order" order_id).
Proof.
  eapply safe_bind; [apply safe_authorized|]. intros _ _.
  eapply safe_bind; [apply safe_quiet, quiet_read|]. intros [order|] _; [|by apply safe_ret; left].
  eapply safe_bind; [apply safe_state|]. intros s Hs%owned_customer. cbv zeta. rewrite Hs.
  replace (truthy (VStr c)) with true by (cbn; by destruct (String.eqb_spec c "")).
  destruct (py_eqb _ _) eqn:Ho; cbn [negb andb]; [|by apply safe_ret; left].
  eapply safe_bind; [apply safe_quiet, quiet_read|]. intros items _.
  eapply safe_bind; [apply safe_quiet, quiet_days|]. intros days _.
  destruct (details_belong order items days Ho) as (d & [= <-] & Hd).
  eapply safe_bind; [apply put_record; [by left|by apply details_belong]|]. intros _ _.
  eapply safe_bind; [by apply put_customer, py_eqb_text|].
  intros _ _. eapply safe_bind; [apply safe_audit_as|]. intros _ _. apply safe_ret. by right.
Qed.

Lemma customer_get_safe customer_id :
  safe (customer_get_by_id customer_id)
    (λ r, ∀ p, r = Some p → dget "customer_id" p = Some (VStr customer_id)).
Proof.
  unfold customer_get_by_id, get_by_key. rewrite bool_decide_true by (by left).
  apply safe_read. intros d _ p [_ Hp]%select_one_Some. by apply text_is_get.
Qed.

Lemma get_customer_profile_safe customer_id :
  safe (get_customer_profile customer_id) (mine "Customer" customer_id).
Proof.
  eapply safe_bind; [apply safe_authorized|]. intros [] Hid. specialize (Hid _ eq_refl) as ->.
  eapply safe_bind; [apply customer_get_safe|]. intros [p|] Hp; [|by apply safe_ret; left].
  specialize (Hp p eq_refl). eapply safe_bind.
  - apply put_record; [by right; right; left|by exists p].
  - intros _ _. apply safe_ret. right. unfold dupdate. cbn [fold_left]. by rewrite dget_dset_ne.
Qed.

Lemma lookup_dispute_safe dispute_id :
  safe (lookup_dispute env session_id dispute_id) (mine "Dispute" dispute_id).
Proof.
  eapply safe_bind; [apply safe_authorized|]. intros _ _.
  eapply safe_bind; [apply safe_quiet|].
  { unfold dispute_get_by_id, get_by_key. case_bool_decide; [apply quiet_read|apply steps_throw]. }
  intros [d|] _; [|by apply safe_ret; left].
  eapply safe_bind; [apply safe_state|]. intros s Hs%owned_customer. cbv zeta. rewrite Hs.
  destruct (py_eqb _ _) eqn:Ho; cbn [negb]; [|by apply safe_ret; left].
  apply py_eqb_text in Ho. apply dget_none_text in Ho as Hd.
  set (result := dupdate d _). assert (dget "customer_id" result = Some (VStr c)) as Hr.
  { unfold result, dupdate. cbn [fold_left fst snd]. by rewrite !dget_dset_ne. }
  eapply safe_bind.
  - apply safe_put. apply Forall_cons. split; [|by apply Forall_singleton, entry_customer].
    split; [done|]. intros _. by exists result.
  - intros _ _. eapply safe_bind; [apply safe_audit_as|]. intros _ _. apply safe_ret. by right.
Qed.

(** An order of the customer's, in the tables as the turn finds them. *)
Definition own_order (order_id : value) : Prop :=
  ∃ o, o ∈ dget_or "orders" [] T ∧ dget "customer_id" o = Some (VStr c) ∧
    dget_none "order_id" o = order_id.

Lemma order_search_safe merchant_name amount date :
  safe (order_search around c merchant_name amount date)
    (Forall (λ r, own_order (dget_none "order_id" r))).
Proof.
  unfold order_search. apply safe_read. intros d HT. apply Forall_forall.
  intros r (o & -> & Ho)%list_elem_of_fmap. apply elem_of_order_le, elem_of_select_where in Ho as [Ho Hcond].
  exists o. unfold rows_of in Ho. rewrite HT in Ho. split_and!; [done| |done].
  unfold search_conditions in Hcond. cbn [app forallb] in Hcond.
  apply andb_true_iff in Hcond as [Hcond _]. by apply text_is_get.
Qed.

Definition own_match (m : row * value) : Prop := own_order (dget_none "order_id" m.1).

Lemma enrich_safe matches found :
  own_order (dget_none "order_id" found) → Forall own_match matches →
  safe (enrich fromisoformat matches found) (Forall own_match).
Proof.
  intros Hf Hm. eapply safe_bind; [apply safe_quiet, quiet_read|]. intros items _.
  eapply safe_bind; [apply safe_quiet, quiet_days|]. intros days _.
  apply safe_ret, Forall_app. split; [done|]. by apply Forall_singleton.
Qed.

(** The matches of a reply are orders of the customer's. *)
Definition own_matches (reply : dict value) : Prop :=
  ∃ l, dget "matches" reply = Some (VList (map VDict l)) ∧
    Forall (λ m, own_order (dget_none "order_id" m)) l.

Lemma no_match_own message : own_matches (no_match message).
Proof. by exists []. Qed.

Lemma single_match_safe found days :
  own_match (found, days) → safe (single_match c found days) own_matches.
Proof.
  intros Hf. eapply safe_bind; [apply safe_quiet, quiet_read|].
  intros [order|] _; [|apply safe_ret, no_match_own].
  destruct (py_eqb _ _) eqn:Ho; cbn [negb]; [|apply safe_ret, no_match_own].
  eapply safe_bind; [apply safe_quiet, quiet_read|]. intros items _.
  eapply safe_bind; [apply put_record; [by left|by apply details_belong]|]. intros _ _.
  eapply safe_bind; [by apply put_customer, py_eqb_text|]. intros _ _.
  apply safe_ret. exists [found]. split; [done|]. by apply Forall_singleton.
Qed.

Lemma search_orders_safe customer_id merchant_name amount date :
  safe (search_orders env session_id fromisoformat around customer_id merchant_name amount date)
    (λ reply, customer_id = c ∧ own_matches reply).
Proof.
  eapply safe_bind; [apply safe_authorized|]. intros [] Hid. specialize (Hid _ eq_refl) as ->.
  eapply safe_bind; [apply order_search_safe|]. intros found Hfound.
  apply (safe_bind _ _ (Forall (λ r, own_order (dget_none "order_id" r)))).
  { case_match; [apply order_search_safe|by apply safe_ret]. }
  intros rows Hrows. eapply safe_bind; [apply safe_audit|]. intros _ _.
  apply (safe_conseq _ own_matches); [|by split].
  destruct rows as [|r rows]; [apply safe_ret, no_match_own|].
  eapply (safe_bind _ _ (Forall own_match)).
  { apply safe_for_each; [by apply Forall_nil|]. intros acc x Hx Hacc. apply enrich_safe; [|done].
    by apply (proj1 (Forall_forall _ _) Hrows). }
  intros matches Hm. destruct matches as [|[m days] [|m' matches]].
  - apply safe_ret. by exists [].
  - apply single_match_safe. by apply (proj1 (Forall_singleton _ _) Hm).
  - apply safe_ret. exists (map fst ((m, days) :: m' :: matches)). rewrite map_map.
    split; [done|]. by apply Forall_fmap.
Qed.

Lemma check_dispute_eligibility_safe transaction_id dispute_type days method :
  safe (check_dispute_eligibility env session_id transaction_id dispute_type days method)
    (λ _, True).
Proof.
  eapply safe_bind; [apply safe_authorized|]. intros _ _. destruct (negb _).
  - eapply safe_bind; [apply put_other; by apply (decide_by_eval (_ ∉ _))|].
    intros _ _. by apply safe_ret.
  - eapply safe_bind; [apply put_other; by apply (decide_by_eval (_ ∉ _))|].
    intros _ _. eapply safe_bind; [apply safe_audit_as|]. intros _ _. by apply safe_ret.
Qed.

Lemma get_knowledge_article_safe query : safe (get_knowledge_article query) (λ _, True).
Proof.
  eapply safe_bind; [apply safe_quiet, quiet_read|]. intros l _. by apply safe_ret.
Qed.

Lemma get_fraud_alert_safe alert_id : safe (get_fraud_alert env session_id alert_id) (λ _, True).
Proof.
  eapply safe_bind; [apply safe_quiet|].
  { unfold alert_get_by_id, get_by_key. case_bool_decide; [apply quiet_read|apply steps_throw]. }
  intros [a|] _; [|by apply safe_ret].
  eapply safe_bind; [apply put_other; by apply (decide_by_eval (_ ∉ _))|]. intros _ _.
  eapply safe_bind; [apply put_other; by apply (decide_by_eval (_ ∉ _))|]. intros _ _.
  eapply safe_bind; [apply safe_audit_as|]. intros _ _. by apply safe_ret.
Qed.

Lemma get_account_transactions_safe account_id days :
  safe (get_account_transactions env session_id account_id days) (λ _, True).
Proof.
  eapply safe_bind; [apply safe_quiet, quiet_read|]. intros l _.
  eapply (safe_bind _ _ (λ _, True)); [by apply safe_lift|]. intros total _.
  eapply (safe_bind _ _ (λ _, True)); [by apply safe_lift|]. intros flagged _.
  eapply safe_bind; [apply put_other; by apply (decide_by_eval (_ ∉ _))|]. intros _ _.
  eapply safe_bind; [apply safe_audit_as|]. intros _ _. by apply safe_ret.
Qed.

Lemma check_device_fingerprint_safe account_id :
  safe (check_device_fingerprint env session_id account_id) (λ _, True).
Proof.
  eapply safe_bind; [apply safe_quiet, quiet_read|]. intros devices _.
  eapply safe_bind; [apply safe_quiet, quiet_read|]. intros logins _.
  eapply safe_bind; [apply safe_quiet, quiet_read|]. intros indicators _.
  eapply safe_bind; [apply put_other; by apply (decide_by_eval (_ ∉ _))|]. intros _ _.
  eapply safe_bind; [apply safe_audit_as|]. intros _ _. by apply safe_ret.
Qed.

Lemma propose_tool_safe t : safe (propose_tool t) (λ _, True).
Proof.
  apply safe_atomically. intros w [Hs HT]. destruct (call_tool t _) as [e|[s' reply]] eqn:Hcall; [done|].
  split; [|done]. apply call_tool_queue in Hcall as (arguments & resource & Hq). unfold _queue in Hq.
  destruct (authorize_tool _ _ _) as [e|[]]; [done|]. cbn [rbind] in Hq.
  destruct (py_list _) as [e|waiting]; [done|]. cbn [rbind] in Hq. injection Hq as <- _.
  split; cbn [fst]; [|by rewrite ref_get_sess]. rewrite sess_get_set.
  apply (owned_put _ [(queue_key, _)]); [|done]. apply Forall_singleton. split; [done|].
  cbn. intros Hin. by repeat apply elem_of_cons in Hin as [?|Hin]; try apply not_elem_of_nil in Hin.
Qed.

(** What a reply may say in a session of the customer. *)
Definition reply_ok (call : AgentTool) (reply : dict value) : Prop :=
  match call with
  | LookupOrder order_id => mine "Order" order_id reply
  | GetCustomerProfile customer_id => mine "Customer" customer_id reply
  | LookupDispute dispute_id => mine "Dispute" dispute_id reply
  | SearchOrders customer_id _ _ _ => customer_id = c ∧ own_matches reply
  | _ => True
  end.

Abbreviation call_agent_tool := (call_agent_tool env session_id fromisoformat around).

Lemma call_agent_tool_safe call : safe (call_agent_tool call) (reply_ok call).
Proof.
  destruct call; cbn [BusinessTools.call_agent_tool reply_ok].
  - apply lookup_order_safe.
  - apply get_customer_profile_safe.
  - apply search_orders_safe.
  - apply lookup_dispute_safe.
  - apply check_dispute_eligibility_safe.
  - apply get_knowledge_article_safe.
  - apply get_fraud_alert_safe.
  - apply get_account_transactions_safe.
  - apply check_device_fingerprint_safe.
  - apply propose_tool_safe.
Qed.

(** C18: a session bound to a customer stays with that customer, however the tool
    calls of its model interleave, whatever arguments the model gives them and
    whatever they propose: at every moment the session names the same customer,
    the order, dispute and profile it remembers are that customer's, and no table
    of the database has changed; an order, profile or dispute looked up is the
    customer's or reported as not found, and a search that returned was made for
    the customer and found only their orders. *)
Theorem customer_session_isolated (calls : list AgentTool) w w' ps :
  owned (sess_get w) → rf_tables (ref_get w) = T →
  star pool_step (w, map call_agent_tool calls) (w', ps) →
  owned (sess_get w') ∧ rf_tables (ref_get w') = T ∧
  ∀ i call reply, calls !! i = Some call → ps !! i = Some (Done (inr reply)) → reply_ok call reply.
Proof.
  intros Hs HT Hstar.
  set (Q := λ (i : nat) (_ : W) (_ : unit) (r : result (dict value)),
    ∀ call reply, calls !! i = Some call → r = inr reply → reply_ok call reply).
  destruct (pool_rg bound any keeps_bound (λ _ _, True) (λ _ _ _ _ _ _ _ _ _ _, I) Q
    (λ i w w' g r _ Hq, Hq) _ _ (replicate (length calls) tt) Hstar) as (gs & Hok & _).
  { split_and!; cbn; [by split|done|by rewrite length_replicate, length_map|].
    intros i p (call & -> & Hcall)%list_lookup_fmap_Some. exists tt.
    split; [apply lookup_replicate; split; [done|by eapply lookup_lt_Some]|].
    eapply rg_conseq; [|apply call_agent_tool_safe]. cbn. intros _ _ r Hr call' reply Hcall' ->.
    rewrite Hcall in Hcall'. injection Hcall' as <-. by apply Hr. }
  destruct Hok as ([Hs' HT'] & HI & Hlen & Hps). split_and!; [done..|].
  intros i call reply Hcall Hi. destruct (Hps i _ Hi) as (g & _ & Hq). by apply (Hq call reply).
Qed.
End calls.
End session.

(** ** The dispute tool and the decision service *)

(** The eligibility the dispute tool reports is the decision of the core
    service: whatever is an electronic transfer for the service is one for the
    tool, the eligible cases are the same, with the same tier and the same
    maximum liability, and the sixty-first day is refused by both; days noticed
    two and sixty days ago fall in the first and the second tier. *)
Lemma eligibility_matches_decision method days amount :
  str_lower method ∈ covered_methods →
  _is_eft_covered method = true ∧
  let decision := evaluate_reg_e method days amount in
  let reported := eligibility days in
  dget "eligible" reported = Some (VBool (re_eligible decision)) ∧
  dget "liability_tier" reported = Some (VStr (re_liability_tier decision)) ∧
  (re_eligible decision = true →
   dget "max_liability" reported = Some (VFloat (re_max_liability decision))) ∧
  (re_eligible decision = false ↔ (60 < days)%Z).
Proof.
  intros Hm. split.
  { apply bool_decide_true. unfold covered_methods in Hm.
    repeat apply elem_of_cons in Hm as [->|Hm]; try (by apply (decide_by_eval (_ ∈ _)));
      by apply not_elem_of_nil in Hm. }
  unfold evaluate_reg_e, eligibility, _calculate_liability_tier. rewrite bool_decide_true by done.
  cbn [negb]. destruct (Z.leb_spec days 2) as [H2|H2]; cbn; [split_and!; try done; lia|].
  destruct (Z.leb_spec days 60) as [H60|H60]; cbn; split_and!; try done; lia.
Qed.

(** The tool covers methods the decision service does not. *)
Example wire_only_in_tool :
  _is_eft_covered "wire" = true ∧ re_eligible (evaluate_reg_e "wire" 1 (f_of_Z 100)) = false.
Proof. by split; vm_compute. Qed.

(** ** Witness: a turn of a customer's session *)

Record ToolWorld := mkToolWorld { tw_session : dict value; tw_reference : Reference }.

#[export] Instance tool_reference : HasReference ToolWorld :=
  {| ref_get := tw_reference; ref_set := λ r w, mkToolWorld (tw_session w) r |}.
#[export] Instance tool_reference_laws : HasReferenceLaws ToolWorld.
Proof. by split; intros; repeat match goal with w : ToolWorld |- _ => destruct w end. Qed.
#[export] Instance tool_session : HasSession ToolWorld :=
  {| sess_get := tw_session; sess_set := λ s w, mkToolWorld s (tw_reference w) |}.
#[export] Instance tool_session_laws : HasSessionLaws ToolWorld.
Proof. done. Qed.

#[local] Instance demo_render : Render := λ v, match v with VStr s => s | VInt z => pretty z | _ => "?" end.
#[local] Instance demo_times : Oracle := {| now_at := λ n, (Z.of_nat n * 1000000)%Z; uuid_at := λ n, pretty n |}.

(** The audit trail is written to the reference database itself. *)
Definition demo_surroundings : Surroundings (W := ToolWorld) :=
  mkSurroundings (demo_settings [])
    (now ← reference_now; mret ("entry-" +:+ pretty now, "2026-01-01T00:00:00", None))
    reference_now (Some audit_write).

Lemma demo_surroundings_keep : surroundings_keep quiet demo_surroundings.
Proof.
  split; cbn [su_stamp su_now su_db_write demo_surroundings].
  - apply steps_bind; [apply quiet_clock|intros; apply steps_ret].
  - apply quiet_clock.
  - intros w e [= <-]. apply steps_atomically. intros w'. cbn. unfold rbind.
    by destruct (write _ _).
Qed.

Definition demo_order (order_id customer_id merchant : string) : row :=
  [ ("order_id", VStr order_id); ("customer_id", VStr customer_id);
    ("merchant_name", VStr merchant); ("total", VFloat (f_of_Z 40)); ("status", VStr "delivered");
    ("order_date", VStr "2026-01-01"); ("delivery_date", VStr "2026-01-05");
    ("days_since_delivery", VInt 3); ("payment_method", VStr "debit_card");
    ("shipping_address", VNone) ].
Definition demo_customer (customer_id : string) : row :=
  [ ("customer_id", VStr customer_id); ("name", VStr customer_id); ("email", VStr "") ].
Definition demo_transaction (txn_id account_id : string) (amount flagged : Z) : row :=
  [ ("txn_id", VStr txn_id); ("account_id", VStr account_id); ("amount", VFloat (f_of_Z amount));
    ("date", VStr "2026-01-01"); ("is_flagged", VInt flagged) ].

Definition demo_tables : dict (list row) :=
  [ ("customers", [demo_customer "CUST-1"; demo_customer "CUST-2"]);
    ("orders", [demo_order "ORD-1" "CUST-1" "TechMart"; demo_order "ORD-2" "CUST-2" "TechMart"]);
    ("transactions", [demo_transaction "TXN-1" "ACC-2" 70 1; demo_transaction "TXN-2" "ACC-2" 30 0]) ].

Definition customer_state : dict value :=
  [ ("customer_id", VStr "CUST-1"); ("actor_role", VStr "customer");
    ("actor_permissions", VList [VStr "order:read"; VStr "customer:read"]) ].
Definition demo_turn : ToolWorld := mkToolWorld customer_state (mkReference demo_tables [] 0).

(** Another customer's order, the own one, a search and a proposal, side by side *)
Definition demo_turn_calls : list AgentTool :=
  [ LookupOrder "ORD-2"; LookupOrder "ORD-1";
    SearchOrders "CUST-1" (Some "techmart") None None;
    ProposeAction (T_issue_refund "ORD-1" "damaged"); GetCustomerProfile "CUST-2" ].

Definition demo_turned : ToolWorld * list (prog ToolWorld (dict value)) :=
  schedule (concat (replicate 20 [0; 1; 2; 3; 4])) demo_turn
    (map (call_agent_tool demo_surroundings "SESS-1" (strptime FDate) (λ _, None)) demo_turn_calls).

Definition reply_of (i : nat) : option (result (dict value)) := demo_turned.2 !! i ≫= finished.
Example demo_turn_finishes :
  all_finished demo_turned.2 = true ∧
  reply_of 0 = Some (inr (not_found "Order" "ORD-2")) ∧
  option_map is_ok (reply_of 4) = Some false.
Proof. split_and!; vm_compute; reflexivity. Qed.

Example customer_session_isolated_witness :
  dget "customer_id" (sess_get demo_turned.1) = Some (VStr "CUST-1") ∧
  dhas "order_data" (sess_get demo_turned.1) = true ∧
  rf_tables (ref_get demo_turned.1) = demo_tables ∧
  option_map (λ r, match r with inr d => dget "found" d | inl _ => None end) (reply_of 1) =
    Some (Some (VBool true)).
Proof.
  assert (owned "CUST-1" customer_state) as Hs.
  { split; [reflexivity|]. intros k v Hk.
    repeat apply elem_of_cons in Hk as [->|Hk]; [discriminate..|by apply not_elem_of_nil in Hk]. }
  destruct (customer_session_isolated "CUST-1" demo_tables ltac:(discriminate) demo_surroundings
    demo_surroundings_keep "SESS-1" (strptime FDate) (λ _, None) demo_turn_calls demo_turn
    demo_turned.1 demo_turned.2 Hs eq_refl (schedule_reaches _ _ _)) as ([Hid _] & HT & _).
  split; [exact Hid|]. split; [vm_compute; reflexivity|]. split; [exact HT|].
  vm_compute. reflexivity.
Defined.

(** The catalog demands [transaction:read] for the transactions of an account; the
    tool does not check it: a customer's session reads any account's. *)
Definition demo_transactions : result (dict value) :=
  (run (get_account_transactions demo_surroundings "SESS-1" "ACC-2" 30) demo_turn).2.
Example fraud_tools_skip_catalog :
  is_ok (authorize_tool "get_account_transactions" customer_state None) = false ∧
  option_map (dget "total_amount")
    match demo_transactions with
    | inr d => match dget "summary" d with Some (VDict s) => Some s | _ => None end
    | inl _ => None
    end = Some (Some (VFloat (f_of_Z 100))).
Proof. split; vm_compute; reflexivity. Qed.

(** A session that names no customer is not held to one: whoever may read orders
    takes on the customer of the order they look up. *)
Definition operator_turn : ToolWorld :=
  mkToolWorld [("actor_permissions", VList [VStr "order:read"])] (mkReference demo_tables [] 0).
Example lookup_binds_session :
  dget "customer_id"
    (tw_session (run (lookup_order demo_surroundings "SESS-1" (strptime FDate) "ORD-2") operator_turn).1)
  = Some (VStr "CUST-2").
Proof. vm_compute. reflexivity. Qed.
