(* ===== verification/Bridge.v ===== *)
(** * The proposal bridge ([actions/bridge.py])

    Two steps between a model and an effect: [propose] records what the host
    derived from an untrusted intent, [confirm] submits exactly that.  The
    schema library is the class [Pydantic]; the digest of a [repr] is
    [repr_digest]; the system of record and the connector resolver are the
    protocols of the action service and of the gateway. *)

From Stdlib Require Import SpecFloat.
From S2P Require Import Prelude PyValue Numerals Prog Table ActionSpecs Policy KernelData World KernelStore KernelInv CaseKernel Auth Conversation Gateway ActionService Domains.

(** [TypeAdapter(ActionPayload).validate_python] and the validation of an
    [int | None] field. *)
Class Pydantic := {
  validate_payload : dict value → result ActionPayload;
  validate_version : value → result (option Z)
}.

(** What the bridge relies on: a validated payload meets the field constraints
    and is the variant its discriminator names; a dumped payload is accepted
    again, unchanged; an [int] and [None] validate to themselves. *)
Class PydanticLaws `{Pydantic} := {
  payload_constraints d p : validate_payload d = inr p → payload_valid p = true;
  payload_discriminator d p :
    validate_payload d = inr p → dget "action" d = Some (VStr (payload_action p));
  payload_roundtrip p :
    payload_valid p = true →
    validate_payload (("action", VStr (payload_action p)) :: model_dump p) = inr p;
  version_int z : validate_version (VInt z) = inr (Some z);
  version_none : validate_version VNone = inr None
}.

(** [sha256(repr(v).encode()).hexdigest()] *)
Class Digest := repr_digest : value → string.

Record ActionIntent := mkIntent {
  ai_action : string; ai_arguments : dict value;
  ai_resource_type : option string; ai_resource_id : option string
}.

Record TrustedActionContext := mkTrusted {
  ta_actor_id : string; ta_customer_id : string; ta_case_id : string;
  ta_procedure_id : string; ta_procedure_version : string; ta_policy_package_id : string;
  ta_conversation_id : option string; ta_message_id : option string;
  ta_connector_binding_id : option string; ta_connector_binding_version : option string;
  ta_contract_version : option string
}.

Record ActionConfirmationContext := mkConfirmation {
  ac_actor_id : string; ac_customer_id : string;
  ac_consent_evidence_ref : option string; ac_approval_evidence_ref : option string
}.

Record ActionBridge (Ext : Type) := mkBridge {
  br_connector_resolver :
    option (string → option string → option string → option string →
            result (ResolvedActionConnector Ext));
  br_refund_policy : RefundDecisionService;
  br_ttl_seconds : Z
}.
Arguments mkBridge {Ext}.
Arguments br_connector_resolver {Ext}.
Arguments br_refund_policy {Ext}.
Arguments br_ttl_seconds {Ext}.

(** [context.model_copy(update={...})] *)
Definition with_resolved {Ext} (rc : ResolvedActionConnector Ext) (c : TrustedActionContext) :
    TrustedActionContext :=
  mkTrusted (ta_actor_id c) (ta_customer_id c) (ta_case_id c) (ta_procedure_id c)
    (ta_procedure_version c) (ta_policy_package_id c) (ta_conversation_id c) (ta_message_id c)
    (Some (rc_binding_id rc)) (Some (rc_binding_version rc)) (Some (rc_contract_version rc)).

(** [d[k]] and [u or v] *)
Definition dindex (k : string) (d : dict value) : result value :=
  match dget k d with Some v => inr v | None => inl (KeyError k) end.
Definition py_or (u v : value) : value := if truthy u then u else v.

(** [payload.model_dump(mode="json")] *)
Definition payload_dump (p : ActionPayload) : dict value :=
  ("action", VStr (payload_action p)) :: model_dump p.

Section bridge.
Context `{Hmac} (sg : PolicySigner) `{Oracle} `{Render} `{Pydantic} `{Digest} {Ext : Type}.
Context (gw : ActionGateway Ext) (rp : ResourceProvider Ext) (br : ActionBridge Ext).
Abbreviation prog := (prog (World Ext)).

Definition _load_resource (resource_type resource_id : option string) : prog (option Resource) :=
  if negb (str_truthy resource_type) && negb (str_truthy resource_id) then mret None
  else if negb (str_truthy resource_type) || negb (str_truthy resource_id) then
    mthrow (ValueError "Both resource_type and resource_id are required")
  else
    resource ← get_resource rp (default "" resource_type) (default "" resource_id);
    match resource with
    | None => mthrow (ValueError "Authoritative resource was not found")
    | Some r => mret (Some r)
    end.

(** The payload and the preview of a refund, from the order's authoritative
    record: the model contributes the reason only. *)
Definition refund_terms (customer_id : string) (arguments payload : dict value) :
    result (dict value * dict value) :=
  (let? order := dindex "order_id" payload in
   let? owner := dindex "customer_id" payload in
   let? days := py_int (dget_or "days_since_delivery" (VInt 0) payload) in
   let? amount := py_float (dget_or "refund_amount" (dget_or "amount" (VInt 0) payload) payload) in
   let decision := evaluate_refund (br_refund_policy br) (py_str order) customer_id (py_str owner)
                     (py_str (dget_or "status" (VStr "delivered") payload)) days amount in
   ensure rd_eligible decision else
     (ValueError ("Refund is not eligible: " +:+ rd_reason decision)) in
   let? payment_method := dindex "payment_method" payload in
   let currency := VStr (py_str (dget_or "currency" (VStr "USD") payload)) in
   let reason := VStr (py_str (py_or (dget_none "reason" arguments) (VStr "customer_request"))) in
   inr ([ ("action", VStr "issue_refund"); ("order_id", VStr (py_str order));
          ("customer_id", VStr customer_id); ("refund_amount", VFloat (rd_amount decision));
          ("currency", currency); ("payment_method", VStr (py_str payment_method));
          ("reason", reason) ],
        [ ("action", VStr "issue_refund"); ("order_id", VStr (py_str order));
          ("refund_amount", VFloat (rd_amount decision)); ("currency", currency);
          ("payment_method", VStr (py_str payment_method)); ("reason", reason) ]))%wf.

(** What a preparation yields: payload, resource, preview, and the resource
    reference the proposal is bound to. *)
Record Prepared := mkPrepared {
  pp_payload : dict value; pp_resource : option Resource; pp_preview : dict value;
  pp_resource_type : option string; pp_resource_id : option string
}.

Definition _prepare_refund (intent : ActionIntent) (context : TrustedActionContext) :
    prog Prepared :=
  let resource_type :=
    if str_truthy (ai_resource_type intent) then ai_resource_type intent else Some "order" in
  let order_id :=
    if str_truthy (ai_resource_id intent) then VStr (default "" (ai_resource_id intent))
    else dget_none "order_id" (ai_arguments intent) in
  _ ← require (truthy order_id) (ValueError "issue_refund requires an order_id");
  resource ← _load_resource resource_type (Some (py_str order_id));
  match resource with
  | None => mthrow AssertionError
  | Some resource =>
      terms ← lift_result (refund_terms (ta_customer_id context) (ai_arguments intent)
                             (res_payload resource));
      mret (mkPrepared terms.1 (Some resource) terms.2 resource_type (Some (py_str order_id)))
  end.

(** The authoritative parameters overwrite whatever the model suggested. *)
Fixpoint copy_authoritative (upstream : dict value) (names : list string) (payload : dict value) :
    result (dict value) :=
  match names with
  | [] => inr payload
  | n :: names' =>
      match dget n upstream with
      | None => inl (ValueError ("Authoritative resource is missing " +:+ n))
      | Some v => copy_authoritative upstream names' (dset n v payload)
      end
  end.

Definition generic_payload (specification : ActionSpecification) (customer_id : string)
    (resource : option Resource) (payload : dict value) : result (dict value) :=
  if bool_decide (authoritative_parameters specification = ∅) then inr payload
  else
    match resource with
    | None => inl (ValueError "This action requires an authoritative resource reference")
    | Some resource =>
        rbind (check_customer_binding (customer_binding_parameter specification)
                 (res_payload resource) customer_id)
          (λ _, copy_authoritative (res_payload resource)
                  (sorted_set (authoritative_parameters specification)) payload)
    end.

Definition _prepare_generic (intent : ActionIntent) (context : TrustedActionContext) :
    prog Prepared :=
  match dget (ai_action intent) ACTION_SPECIFICATIONS with
  | None => mthrow (KeyError (ai_action intent))
  | Some specification =>
      resource ← _load_resource (ai_resource_type intent) (ai_resource_id intent);
      payload ← lift_result (generic_payload specification (ta_customer_id context) resource
        (dupdate [("action", VStr (ai_action intent))] (ai_arguments intent)));
      validated ← lift_result (validate_payload payload);
      mret (mkPrepared (payload_dump validated) resource
              [("action", VStr (ai_action intent)); ("parameters", VDict (payload_dump validated))]
              (ai_resource_type intent) (ai_resource_id intent))
  end.

Definition _idempotency_key (action : string) (payload : dict value)
    (context : TrustedActionContext) : result string :=
  if String.eqb action "issue_refund" then
    rbind (dindex "order_id" payload) (λ v, inr ("refund:" +:+ py_str v))
  else
    inr (action +:+ ":" +:+ String.substring 0 24 (repr_digest
      (VList [VStr action; VStr (ta_case_id context); VStr (ta_customer_id context);
              VDict payload]))).

Definition propose (intent : ActionIntent) (context : TrustedActionContext) : prog ActionProposal :=
  _ ← require (dhas (ai_action intent) ACTION_SPECIFICATIONS)
        (ValueError ("Unknown consequential action: " +:+ ai_action intent));
  context ←
    match br_connector_resolver br with
    | None => mret context
    | Some resolve =>
        resolved ← lift_result (resolve (ai_action intent) None None None);
        mret (with_resolved resolved context)
    end;
  prepared ← (if String.eqb (ai_action intent) "issue_refund"
              then _prepare_refund intent context else _prepare_generic intent context);
  now ← read_clock;
  pid ← new_uuid "APR-";
  key ← lift_result (_idempotency_key (ai_action intent) (pp_payload prepared) context);
  version ← lift_result (validate_version
              match pp_resource prepared with Some r => res_version r | None => VNone end);
  create_action_proposal
    (mkProposal pid (ai_action intent) (pp_payload prepared) (ta_case_id context)
       (ta_customer_id context) (ta_actor_id context) (ta_procedure_id context)
       (ta_procedure_version context) (ta_policy_package_id context) key
       (pp_resource_type prepared) (pp_resource_id prepared) version
       (ta_conversation_id context) (ta_message_id context) (ta_connector_binding_id context)
       (ta_connector_binding_version context) (ta_contract_version context)
       (pp_preview prepared) P_PENDING None None now (now + seconds (br_ttl_seconds br))%Z now
       None None).

Definition _get_owned (pid customer_id : string) (actor_id : option string) : prog ActionProposal :=
  proposal ← get_action_proposal pid;
  match proposal with
  | None => mthrow (KeyError pid)
  | Some proposal =>
      _ ← require (String.eqb (p_customer_id proposal) customer_id)
            (ValueError "Action proposal does not belong to this customer");
      _ ← require match actor_id with
                  | Some a => String.eqb (p_actor_id proposal) a
                  | None => true
                  end
            (ValueError "Action proposal does not belong to this actor");
      mret proposal
  end.

Definition _verify_resource_version (proposal : ActionProposal) : prog unit :=
  match p_resource_type proposal, p_resource_id proposal with
  | Some t, Some i =>
      resource ← _load_resource (Some t) (Some i);
      match resource with
      | None => mthrow AssertionError
      | Some r =>
          require (py_eqb (res_version r)
                     match p_resource_version proposal with Some z => VInt z | None => VNone end)
            (ValueError "Authoritative resource version changed after proposal")
      end
  | _, _ => mret tt
  end.

Definition _verify_connector_binding (proposal : ActionProposal) : result unit :=
  match br_connector_resolver br with
  | None => inr tt
  | Some resolve =>
      rbind (resolve (p_action proposal) None None None) (λ resolved,
        if ostr_eqb (Some (rc_binding_id resolved)) (p_connector_binding_id proposal) &&
           ostr_eqb (Some (rc_binding_version resolved)) (p_connector_binding_version proposal) &&
           ostr_eqb (Some (rc_contract_version resolved)) (p_contract_version proposal)
        then inr tt
        else inl (ValueError "Action connector binding changed after proposal"))
  end.

(** [try: transition except ActionConflict: h] *)
Definition on_conflict {A} (p : prog A) (h : exn → prog A) : prog A :=
  try_except p (λ e, match e with ActionConflict _ => h e | _ => mthrow e end).

Definition reread (pid : string) : prog ActionProposal :=
  current ← get_action_proposal pid;
  match current with Some p => mret p | None => mthrow AssertionError end.

Definition _expire (proposal : ActionProposal) : prog ActionProposal :=
  on_conflict
    (transition_action_proposal (p_proposal_id proposal) P_PENDING P_EXPIRED None None)
    (λ _, reread (p_proposal_id proposal)).

Definition _recover_confirmed (proposal : ActionProposal) (action : ActionRecord) :
    prog ActionProposal :=
  on_conflict
    (transition_action_proposal (p_proposal_id proposal) P_PENDING P_CONFIRMED None
       (Some (a_action_id action)))
    (λ _, reread (p_proposal_id proposal)).

(** The request a confirmed proposal is submitted as. *)
Definition request_of (proposal : ActionProposal) (context : ActionConfirmationContext)
    (specification : ActionSpecification) (payload : ActionPayload) : ConsequentialActionRequest :=
  mkRequestC (p_case_id proposal) (p_customer_id proposal) (p_procedure_id proposal)
    (p_procedure_version proposal) (p_policy_package_id proposal) (p_idempotency_key proposal)
    (if str_truthy (p_resource_type proposal) && str_truthy (p_resource_id proposal)
     then Some (mkResourceRef (default "" (p_resource_type proposal))
                  (default "" (p_resource_id proposal)))
     else None)
    payload
    (if requires_consent specification then ac_consent_evidence_ref context else None)
    (if requires_approval specification then ac_approval_evidence_ref context else None)
    (p_connector_binding_id proposal) (p_connector_binding_version proposal)
    (p_contract_version proposal).

(** [consent_evidence_ref or approval_evidence_ref] *)
Definition evidence_of (context : ActionConfirmationContext) : option string :=
  if str_truthy (ac_consent_evidence_ref context) then ac_consent_evidence_ref context
  else ac_approval_evidence_ref context.

(** The second half of [confirm]: the validated request is submitted and the
    proposal is marked with the action. *)
Definition execute (proposal : ActionProposal) (context : ActionConfirmationContext)
    (request : ConsequentialActionRequest) : prog ActionProposal :=
  action ← submit sg gw rp request (ac_actor_id context);
  on_conflict
    (transition_action_proposal (p_proposal_id proposal) P_PENDING P_CONFIRMED
       (evidence_of context) (Some (a_action_id action)))
    (λ e,
      current ← _get_owned (p_proposal_id proposal) (ac_customer_id context) None;
      if decide (p_status current = P_CONFIRMED) then mret current else mthrow e).

(** The evidence the catalog demands of a confirmation. *)
Definition check_evidence (action : string) (specification : ActionSpecification)
    (context : ActionConfirmationContext) : result unit :=
  (ensure negb (requires_consent specification &&
                negb (str_truthy (ac_consent_evidence_ref context))) else
     (ValueError ("Action " +:+ action +:+ " requires explicit consent evidence")) in
   ensure negb (requires_approval specification &&
                negb (str_truthy (ac_approval_evidence_ref context))) else
     (ValueError ("Action " +:+ action +:+ " requires approval evidence")) in
   inr tt)%wf.

(** [proposal_id] is the id the proposal was read by. *)
Definition confirm_pending (proposal : ActionProposal) (context : ActionConfirmationContext) :
    prog ActionProposal :=
  now ← read_clock;
  if (p_expires_at proposal <=? now)%Z then _expire proposal
  else
    _ ← _verify_resource_version proposal;
    _ ← lift_result (_verify_connector_binding proposal);
    match dget (p_action proposal) ACTION_SPECIFICATIONS with
    | None => mthrow (KeyError (p_action proposal))
    | Some specification =>
        _ ← lift_result (check_evidence (p_action proposal) specification context);
        payload ← lift_result (validate_payload (p_payload proposal));
        let request := request_of proposal context specification payload in
        _ ← require (request_valid request) (OtherError "ValidationError");
        execute proposal context request
    end.

Definition confirm (pid : string) (context : ActionConfirmationContext) : prog ActionProposal :=
  proposal ← _get_owned pid (ac_customer_id context) (Some (ac_actor_id context));
  match p_status proposal with
  | P_CONFIRMED => mret proposal
  | P_PENDING => confirm_pending proposal context
  | s => mthrow (ValueError ("Action proposal is " +:+ proposal_status_value s))
  end.

Definition cancel (pid : string) (context : ActionConfirmationContext) : prog ActionProposal :=
  proposal ← _get_owned pid (ac_customer_id context) (Some (ac_actor_id context));
  match p_status proposal with
  | P_CANCELLED => mret proposal
  | P_PENDING =>
      existing_action ← get_action_by_key (p_idempotency_key proposal);
      match existing_action with
      | Some a => _recover_confirmed proposal a
      | None => transition_action_proposal pid P_PENDING P_CANCELLED None None
      end
  | s => mthrow (ValueError ("Action proposal is " +:+ proposal_status_value s))
  end.

Definition status (pid customer_id : string) (actor_id : option string) : prog ActionProposal :=
  proposal ← _get_owned pid customer_id actor_id;
  match p_status proposal with
  | P_PENDING =>
      now ← read_clock;
      if (p_expires_at proposal <=? now)%Z then _expire proposal else mret proposal
  | _ => mret proposal
  end.

(** ** What the bridge does to the engine's state

    Only the submission inside [confirm] can call a provider. *)
Context `{!ResourceProviderLaws rp}.

Lemma _load_resource_idle t i : steps idle (_load_resource t i).
Proof. unfold _load_resource. step_through. Qed.
Hint Resolve _load_resource_idle : wf.

Lemma idle_steps_calm {A} (p : prog A) : steps idle p → steps calm p.
Proof. apply steps_impl. intros w w' [??]. by apply calm_idle. Qed.

Lemma _load_resource_calm t i : steps calm (_load_resource t i).
Proof. apply idle_steps_calm. auto with wf. Qed.
Hint Resolve _load_resource_calm : wf.

Lemma _prepare_refund_calm intent context : steps calm (_prepare_refund intent context).
Proof. unfold _prepare_refund. step_through. Qed.
Lemma _prepare_generic_calm intent context : steps calm (_prepare_generic intent context).
Proof. unfold _prepare_generic. step_through. Qed.
Hint Resolve _prepare_refund_calm _prepare_generic_calm : wf.

Lemma propose_calm intent context : steps calm (propose intent context).
Proof. unfold propose. step_through. Qed.

Lemma _get_owned_calm pid c a : steps (@calm Ext) (_get_owned pid c a).
Proof. unfold _get_owned. step_through. Qed.
Lemma _verify_resource_version_calm p : steps calm (_verify_resource_version p).
Proof. unfold _verify_resource_version. step_through. Qed.
Lemma on_conflict_calm {A} (p : prog A) h :
  steps calm p → (∀ e, steps calm (h e)) → steps calm (on_conflict p h).
Proof. intros. unfold on_conflict. step_through. Qed.
Lemma reread_calm pid : steps (@calm Ext) (reread pid).
Proof. unfold reread. step_through. Qed.
Hint Resolve _get_owned_calm _verify_resource_version_calm reread_calm : wf.
Lemma _expire_calm p : steps (@calm Ext) (_expire p).
Proof. unfold _expire. apply on_conflict_calm; auto with wf. Qed.
Lemma _recover_confirmed_calm p a : steps (@calm Ext) (_recover_confirmed p a).
Proof. unfold _recover_confirmed. apply on_conflict_calm; auto with wf. Qed.
Hint Resolve _expire_calm _recover_confirmed_calm : wf.

Lemma cancel_calm pid context : steps (@calm Ext) (cancel pid context).
Proof. unfold cancel. step_through. Qed.
Lemma status_calm pid c a : steps (@calm Ext) (status pid c a).
Proof. unfold status. step_through. Qed.
End bridge.

#[export] Hint Resolve _load_resource_idle _load_resource_calm _prepare_refund_calm
  _prepare_generic_calm propose_calm _get_owned_calm _verify_resource_version_calm reread_calm
  _expire_calm _recover_confirmed_calm cancel_calm status_calm : wf.
