(* ===== verification/ServiceProps.v ===== *)
(** * Properties of the consequential action service *)

From S2P Require Import Prelude PyValue Prog RelyGuarantee Table ActionSpecs Policy KernelData World KernelStore KernelInv CaseKernel KernelProps KernelRaces Fixtures PolicyStore PolicyProps Auth Gateway AtMostOnce GatewayProps ActionService.

Section service.
Context `{Hmac} (sg : PolicySigner) `{Oracle} `{Render} {Ext : Type}.
Context (gw : ActionGateway Ext) (rp : ResourceProvider Ext).
Context (Hpv : ∀ pv, gw_policy_resolver gw = Some pv → PolicyResolverLaws pv).
Context `{!ResourceProviderLaws rp}.
Implicit Types w : World Ext.

(** Programs that leave the outside world alone. *)
Definition silent w w' : Prop := w_ext w' = w_ext w.

#[local] Instance silent_preorder : PreOrder silent.
Proof. split; [by intros w|]. intros w1 w2 w3. unfold silent. congruence. Qed.

Lemma silent_commit {A} (t : tx A) : steps silent (commit t).
Proof. apply steps_atomically. intros w. by destruct (t _ _) as [s [e|[a d]]]. Qed.

Lemma record_outcome_silent aid st out : steps silent (record_outcome aid st out).
Proof.
  unfold record_outcome, transition_action, fetch_action, get_action, query. step_through;
    first [apply silent_commit | done].
Qed.

(** A dispatch, whatever it returns, calls the provider at most once, with the
    command it was given. *)
Lemma run_dispatch a w w' r :
  db_inv (w_core w) → run (dispatch sg gw a) w = (w', r) →
  evolves (w_core w) (w_core w') ∧
  (w_trace w' = w_trace w ∨
   ∃ resolved x, _resolve_connector gw (a_command a) true = inr resolved ∧
     w_trace w' = w_trace w ++ [EffDispatch (a_command a)] ∧
     w_ext w' = (cn_dispatch (rc_connector resolved) (a_command a) x).1).
Proof.
  intros Hw Hrun. unfold dispatch in Hrun. case_bool_decide as Hst; cbn [negb] in Hrun;
    [|injection Hrun as <- _; split; [reflexivity|by left]].
  apply run_bind_cases in Hrun as [(e & Hd1 & _)|(w1 & [] & Hd1 & Hrun)];
    apply (run_calm _ _ _ _ (dispatch_policy_calm sg gw Hpv a) Hw) in Hd1 as (Hw1 & He1 & Ht1);
    [by split; [|left]|].
  rewrite run_bind, run_lift in Hrun.
  destruct (_resolve_connector gw (a_command a) true) as [e|resolved];
    [injection Hrun as <- _; by split; [|left]|].
  apply run_bind_cases in Hrun as [(e & Hd2 & _)|(w2 & [row claimed] & Hd2 & Hrun)];
    apply (run_calm _ _ _ _ (claim_action_calm _) Hw1) in Hd2 as (Hw2 & He2 & Ht2);
    [split; [by etrans|left; congruence]|].
  destruct claimed; cbn [negb] in Hrun;
    [|injection Hrun as <- _; split; [by etrans|left; congruence]].
  rewrite run_bind, run_try in Hrun. unfold provider_dispatch in Hrun.
  rewrite run_atomically in Hrun. cbv zeta in Hrun.
  set (res := cn_dispatch _ _ _) in *. set (w3 := log_effect _ _ _) in Hrun.
  assert (db_inv (w_core w3)) as Hw3 by exact Hw2.
  assert (run (record_outcome (a_action_id a) (recorded_outcome res.2).1
                 (Some (recorded_outcome res.2).2)) w3 = (w', r)) as Hrec.
  { destruct (res.2) as [e|oc]; exact Hrun. }
  pose proof (steps_run silent _ w3 (record_outcome_silent (a_action_id a) (recorded_outcome res.2).1
    (Some (recorded_outcome res.2).2))) as Hx. rewrite Hrec in Hx.
  apply (run_calm _ _ _ _ (record_outcome_calm _ _ _) Hw3) in Hrec as (_ & He3 & Ht3).
  split.
  - etrans; [exact He1|]. etrans; [exact He2|exact He3].
  - right. exists resolved, (w_ext w2). split; [done|]. split; [|exact Hx].
    rewrite Ht3. cbn. by rewrite Ht2, Ht1.
Qed.

Lemma bind_resource_calm request spec : steps calm (bind_resource rp request spec).
Proof.
  unfold bind_resource. case_match; [done|]. step_through.
Qed.

Lemma open_case_calm request : steps (@calm Ext) (open_case request).
Proof. unfold open_case. step_through. Qed.

Lemma commit_parameter_calm request upstream ev acc p :
  steps (@calm Ext) (commit_parameter request upstream ev acc p).
Proof. unfold commit_parameter. step_through. Qed.

Lemma check_parameters_ok upstream parameters names :
  check_parameters upstream parameters names = inr tt →
  ∀ n, n ∈ names → ∃ v, dget n upstream = Some v ∧ py_eqb v (dget_none n parameters) = true.
Proof.
  induction names as [|n names IH]; cbn; [by intros _ n ?%not_elem_of_nil|].
  unfold check_parameter at 1. destruct (dget n upstream) as [v|] eqn:Hv; [|done].
  destruct (py_eqb v _) eqn:He; [|done]. cbn.
  intros Hrest m [->|Hm]%elem_of_cons; [by exists v|auto].
Qed.

(** The request agrees with the system of record. *)
Definition matches_record (request : ConsequentialActionRequest) (spec : ActionSpecification)
    (upstream : dict value) : Prop :=
  (∀ b, customer_binding_parameter spec = Some b →
     ∃ v, dget b upstream = Some v ∧ py_str v = r_customer_id request) ∧
  ∀ p, p ∈ authoritative_parameters spec →
    ∃ v, dget p upstream = Some v ∧
         py_eqb v (dget_none p (model_dump (r_payload request))) = true.

Lemma run_bind_resource request spec w w' bound :
  run (bind_resource rp request spec) w = (w', inr bound) →
  authoritative_parameters spec = ∅ ∨
  ∃ ref resource,
    r_resource request = Some ref ∧
    (run (get_resource rp (rr_type ref) (rr_id ref)) w).2 = inr (Some resource) ∧
    bound.1 = _normalize_resource_payload (payload_action (r_payload request))
                (res_payload resource) ∧
    matches_record request spec bound.1.
Proof.
  unfold bind_resource. case_bool_decide as Hempty; [by left|]. intros Hrun. right.
  destruct (r_resource request) as [ref|]; [|done]. rewrite run_bind in Hrun.
  destruct (run (get_resource rp _ _) w) as [w1 [e|[resource|]]] eqn:Hget; [done| |done].
  rewrite run_bind, run_lift in Hrun.
  destruct (check_customer_binding _ _ _) as [e|[]] eqn:Hb; [done|].
  rewrite run_bind, run_lift in Hrun.
  destruct (check_parameters _ _ _) as [e|[]] eqn:Hp; [done|]. injection Hrun as <- <-.
  exists ref, resource. rewrite Hget. split_and!; [done..|]. cbn. split.
  - intros b Hbind. rewrite Hbind in Hb. unfold check_customer_binding in Hb.
    destruct (dget b _) as [v|]; [|done]. exists v. split; [done|].
    by destruct (String.eqb_spec (py_str v) (r_customer_id request)).
  - intros p Hin. eapply check_parameters_ok; [exact Hp|]. by apply elem_of_sorted_set.
Qed.

(** The case the action is taken on is the customer's. *)
Lemma run_open_case request w w' case :
  db_inv (w_core w) → run (open_case request) w = (w', inr case) →
  case_customer_id case = r_customer_id request ∧
  case_procedure_version case = r_procedure_version request ∧
  ∃ row, tget case_key (r_case_id request) (t_cases (w_core w')) = Some row ∧ cr_case row = case.
Proof.
  intros Hw Hrun. unfold open_case in Hrun. rewrite run_bind, run_get_case in Hrun.
  destruct (tget case_key _ _) as [row|] eqn:Hrow; cbn [option_map] in Hrun.
  - rewrite run_bind, run_require in Hrun.
    destruct (String.eqb_spec (case_customer_id (cr_case row)) (r_customer_id request)); [|done].
    rewrite run_bind, run_require in Hrun.
    destruct (String.eqb_spec (case_procedure_version (cr_case row)) (r_procedure_version request));
      [|done].
    injection Hrun as <- <-. split_and!; [done..|]. by exists row.
  - unfold create_case in Hrun. rewrite run_bind in Hrun. unfold store_create_case in Hrun.
    destruct (run (commit _) w) as [w1 [e|[]]] eqn:Hc; [done|]. injection Hrun as <- <-.
    split_and!; [done..|]. apply run_commit_inr in Hc as (s & d & Ht & ->).
    unfold create_case_tx in Ht. tx_inv Ht. eexists.
    split; [cbn; rewrite tget_snoc, Hrow, bool_decide_true by done; reflexivity|done].
Qed.

Lemma case_identity_stays cid d d' row :
  evolves d d' → tget case_key cid (t_cases d) = Some row →
  ∃ row', tget case_key cid (t_cases d') = Some row' ∧
    case_customer_id (cr_case row') = case_customer_id (cr_case row) ∧
    case_procedure_version (cr_case row') = case_procedure_version (cr_case row).
Proof.
  intros Hev Hrow. destruct (ev_cases d d' Hev cid row Hrow) as (row' & Hr & Hrel).
  exists row'. split; [done|]. unfold case_rel in Hrel. naive_solver.
Qed.

(** The authorized command is the request's, with the server's additions. *)
Lemma run_authorize_command command v w w' a :
  db_inv (w_core w) →
  run (authorize gw command v) w = (w', inr a) →
  ∃ resolved c, _resolve_connector gw command false = inr resolved ∧ same_request command c ∧
    c_connector_binding_id c = Some (rc_binding_id resolved) ∧
    c_connector_binding_version c = Some (rc_binding_version resolved) ∧
    c_contract_version c = Some (rc_contract_version resolved) ∧
    (a_command a = c ∨ command_eqb (a_command a) c = true).
Proof.
  intros Hw Hrun. unfold authorize in Hrun. rewrite run_bind, run_lift in Hrun.
  destruct (_resolve_connector gw command false) as [e|resolved]; [done|].
  assert (∀ c v w w' a, run (authorize_action c v) w = (w', inr a) →
            a_command a = c ∨ command_eqb (a_command a) c = true) as Hauth.
  { intros c v' w0 w0' a0 Hr. rewrite run_authorize_action in Hr.
    destruct (tget _ _ _) as [dup|].
    - destruct (command_eqb (a_command dup) c) eqn:E; [|done]. injection Hr as _ <-. by right.
    - destruct (check_command c) as [?|[]]; [done|]. destruct (facts_check _ _ _) as [?|[]]; [done|].
      apply run_insert_action in Hr as [([= ->] & _)|[[=] _]]. by left. }
  set (bound := with_binding _ _ _ command) in Hrun. destruct (negb (governed gw)).
  { exists resolved, bound. split_and!; [done|by destruct command|done..|by eapply Hauth]. }
  rewrite run_bind in Hrun.
  destruct (run (active_package gw _) w) as [w1 [e|package]]; [done|].
  rewrite run_bind, run_get_case in Hrun.
  destruct (tget case_key _ _) as [case|]; cbn [option_map] in Hrun; [|done].
  rewrite run_bind, run_require in Hrun. destruct (String.eqb _ _); [|done].
  rewrite run_bind, run_lift in Hrun. destruct (check_allowed _ _) as [e|[]]; [done|].
  exists resolved, (with_policy_signature (pk_activation_signature package) bound).
  split_and!; [done|by destruct command|done..|by eapply Hauth].
Qed.

(** [c] asks the provider for exactly what the request said. *)
Definition carries (request : ConsequentialActionRequest) (c : ActionCommand) : Prop :=
  c_action c = payload_action (r_payload request) ∧ c_case_id c = r_case_id request ∧
  c_idempotency_key c = r_idempotency_key request ∧
  c_policy_package_id c = r_policy_package_id request ∧
  c_consent_evidence_ref c = r_consent_evidence_ref request ∧
  c_approval_evidence_ref c = r_approval_evidence_ref request ∧
  (c_parameters c = model_dump (r_payload request) ∨
   dict_eqb (c_parameters c) (model_dump (r_payload request)) = true).

Lemma carries_command request actor refs c a :
  same_request (command_of request actor refs) c →
  a_command a = c ∨ command_eqb (a_command a) c = true → carries request (a_command a).
Proof.
  intros Hs Hc. assert (carries request c ∧ c_parameters c = model_dump (r_payload request)) as [H2 H3].
  { unfold same_request in Hs. destruct c. cbn in Hs. injection Hs as <- <- <- <- <- <- <- <- <- <-.
    split; [|done]. repeat split. by left. }
  destruct Hc as [->|Hc]; [done|]. unfold command_eqb in Hc. reflect_bools.
  repeat match goal with E : ostr_eqb _ _ = true |- _ => apply ostr_eqb_eq in E end.
  destruct H2 as (? & ? & ? & ? & ? & ? & _). split_and!; try congruence. right. by rewrite <- H3.
Qed.

Lemma run_submit_loop request upstream ev names acc w w' r :
  db_inv (w_core w) →
  run (for_each names acc (commit_parameter request upstream ev)) w = (w', r) →
  db_inv (w_core w') ∧ evolves (w_core w) (w_core w') ∧ w_trace w' = w_trace w.
Proof.
  intros Hw. apply run_calm; [|done]. apply steps_for_each.
  intros acc' p. apply commit_parameter_calm.
Qed.

(** What a submission may have made a provider do. *)
Definition submitted_effect (request : ConsequentialActionRequest) w w' : Prop :=
  w_trace w' = w_trace w ∨
  ∃ spec c upstream,
    dget (payload_action (r_payload request)) ACTION_SPECIFICATIONS = Some spec ∧
    w_trace w' = w_trace w ++ [EffDispatch c] ∧ carries request c ∧
    (authoritative_parameters spec = ∅ ∨
     ∃ ref resource,
       r_resource request = Some ref ∧
       (run (get_resource rp (rr_type ref) (rr_id ref)) w).2 = inr (Some resource) ∧
       upstream = _normalize_resource_payload (payload_action (r_payload request))
                    (res_payload resource) ∧
       matches_record request spec upstream) ∧
    ∃ row, tget case_key (r_case_id request) (t_cases (w_core w')) = Some row ∧
           case_customer_id (cr_case row) = r_customer_id request ∧
           case_procedure_version (cr_case row) = r_procedure_version request.

Lemma run_submit request actor_id w w' r :
  db_inv (w_core w) →
  tget action_idem (r_idempotency_key request) (t_actions (w_core w)) = None →
  run (submit sg gw rp request actor_id) w = (w', r) → submitted_effect request w w'.
Proof.
  intros Hw Hkey Hrun. unfold submit in Hrun. rewrite run_bind in Hrun.
  unfold get_action_by_key in Hrun. rewrite run_query in Hrun.
  cbn [tbl_get action_attempts] in Hrun.
  change (select_one _ _) with (tget action_idem (r_idempotency_key request) (t_actions (w_core w)))
    in Hrun. rewrite Hkey in Hrun. unfold submit_new in Hrun.
  destruct (dget _ ACTION_SPECIFICATIONS) as [spec|] eqn:Hspec; [|injection Hrun as <- _; by left].
  apply run_bind_cases in Hrun as [(e & Hb & _)|(w1 & bound & Hb & Hrun)]; pose proof Hb as Hb';
    apply (run_calm _ _ _ _ (bind_resource_calm request spec) Hw) in Hb' as (Hw1 & He1 & Ht1);
    [by left|].
  apply run_bind_cases in Hrun as [(e & Ho & _)|(w2 & case & Ho & Hrun)]; pose proof Ho as Ho';
    apply (run_calm _ _ _ _ (open_case_calm request) Hw1) in Ho' as (Hw2 & He2 & Ht2);
    [left; congruence|].
  apply run_open_case in Ho as (Hcust & Hver & row & Hrow & <-); [|done].
  apply run_bind_cases in Hrun as [(e & Hl & _)|(w3 & acc & Hl & Hrun)];
    apply run_submit_loop in Hl as (Hw3 & He3 & Ht3); [left; congruence|done| |done].
  apply run_bind_cases in Hrun as [(e & Ha & _)|(w4 & a & Ha & Hrun)]; pose proof Ha as Ha';
    apply (run_calm _ _ _ _ (authorize_calm gw Hpv _ _) Hw3) in Ha' as (Hw4 & He4 & Ht4);
    [left; congruence|].
  apply run_authorize_command in Ha as (_ & c & _ & Hs & _ & _ & _ & Hc); [|done].
  apply run_dispatch in Hrun as [He5 [Ht5|(_ & _ & _ & Ht5 & _)]]; [left; congruence| |done].
  right. exists spec, (a_command a), bound.1. split_and!; [done|congruence| | |].
  - by eapply carries_command.
  - by eapply run_bind_resource.
  - assert (evolves (w_core w2) (w_core w')) as Hev
      by (etrans; [exact He3|]; etrans; [exact He4|exact He5]).
    destruct (case_identity_stays _ _ _ _ Hev Hrow) as (row' & ? & Heq & Heqv).
    exists row'. split_and!; [done|congruence..].
Qed.

(** C13: no provider is called for a new request unless the request agrees with
    the system of record: for an action with authoritative parameters, the resource
    it names exists and holds, for every one of them, the very value requested, and
    is the customer's wherever the catalog names the parameter that binds the
    resource to a customer; the case is that customer's and of the requested
    procedure version; and the one call made carries the request's action, case,
    key, policy, evidence and parameters. *)
Theorem submit_effect_matches_record request actor_id w w' r :
  db_inv (w_core w) →
  tget action_idem (r_idempotency_key request) (t_actions (w_core w)) = None →
  run (submit sg gw rp request actor_id) w = (w', r) →
  w_trace w' = w_trace w ∨
  ∃ spec c upstream,
    dget (payload_action (r_payload request)) ACTION_SPECIFICATIONS = Some spec ∧
    w_trace w' = w_trace w ++ [EffDispatch c] ∧ carries request c ∧
    (authoritative_parameters spec = ∅ ∨
     ∃ ref resource,
       r_resource request = Some ref ∧
       (run (get_resource rp (rr_type ref) (rr_id ref)) w).2 = inr (Some resource) ∧
       upstream = _normalize_resource_payload (payload_action (r_payload request))
                    (res_payload resource) ∧
       matches_record request spec upstream) ∧
    ∃ row, tget case_key (r_case_id request) (t_cases (w_core w')) = Some row ∧
           case_customer_id (cr_case row) = r_customer_id request ∧
           case_procedure_version (cr_case row) = r_procedure_version request.
Proof. exact (run_submit request actor_id w w' r). Qed.
End service.

(** ** Witness *)

#[export] Instance demo_render : Render := λ _, "<value>".

Definition demo_order : Resource :=
  mkResource
    [ ("order_id", VStr "ORD-1"); ("customer_id", VStr "CUST-1"); ("amount", VInt 40);
      ("payment_method", VStr "card") ] (VInt 1).

Definition demo_resources : ResourceProvider (list string) :=
  mkResourceProvider (λ t i,
    mret (if String.eqb t "order" && String.eqb i "ORD-1" then Some demo_order else None)).

#[export] Instance demo_resources_laws : ResourceProviderLaws demo_resources.
Proof. intros t i. apply steps_ret. Qed.

Definition demo_request : ConsequentialActionRequest :=
  mkRequestC "CASE-9" "CUST-1" "refund_request" "1" "PKG-1" "refund:ORD-1"
    (Some (mkResourceRef "order" "ORD-1"))
    (IssueRefundPayload "ORD-1" "CUST-1" (f_of_Z 40) "USD" "card" "damaged")
    (Some "MSG-1") None (Some "forged") None None.

Definition demo_start : World (list string) :=
  mkWorld empty_core_db (mkSys 0 0) [row_of demo_active] empty_registry [] [].

Definition demo_submitted : World (list string) * result ActionRecord :=
  run (submit demo_signer demo_gateway demo_resources demo_request "CUST-1") demo_start.

Example submit_effect_matches_record_witness :
  ∃ c, w_trace demo_submitted.1 = [EffDispatch c] ∧ carries demo_request c ∧
    ∃ row, tget case_key "CASE-9" (t_cases (w_core demo_submitted.1)) = Some row ∧
      case_procedure_version (cr_case row) = "1".
Proof.
  destruct (submit_effect_matches_record demo_signer demo_gateway demo_resources demo_resolver_laws
    demo_request "CUST-1" demo_start demo_submitted.1 demo_submitted.2)
    as [Ht|(spec & c & upstream & _ & Ht & Hc & _ & row & Hrow & _ & Hv)].
  - apply db_inv_empty.
  - vm_compute. reflexivity.
  - apply surjective_pairing.
  - exfalso. vm_compute in Ht. discriminate Ht.
  - exists c. split; [exact Ht|]. split; [exact Hc|]. exists row. by split.
Defined.
