(* ===== verification/ConnectorRegistryProps.v ===== *)
(** * Properties of the provider bindings *)

From Stdlib Require Import SpecFloat.
From S2P Require Import Prelude PyValue PyString Prog Table ActionSpecs Policy KernelData World KernelStore KernelInv CaseKernel Fixtures Settings PolicyStore PolicyProps Gateway AtMostOnce GatewayProps ActionService Sandbox ConnectorRegistry ServiceProps.

(** ** Finding by a key *)

Lemma find_some {A} (f : A → bool) l x : List.find f l = Some x → x ∈ l ∧ f x = true.
Proof. intros [Hin Hf]%List.find_some. split; [by apply list_elem_of_In|done]. Qed.

Lemma find_unique {A K} `{EqDecision K} (key : A → K) (f : A → bool) l x :
  NoDup (key <$> List.filter f l) → x ∈ l → f x = true →
  List.find (λ y, f y && bool_decide (key y = key x)) l = Some x.
Proof.
  induction l as [|y l IH]; [by intros _ ?%not_elem_of_nil|]. cbn.
  intros Hnd [->|Hin]%elem_of_cons Hf.
  - by rewrite Hf, bool_decide_true.
  - destruct (f y) eqn:Hy; cbn in *; [|by apply IH]. apply NoDup_cons in Hnd as [Hy' Hnd].
    rewrite bool_decide_false; [by apply IH|]. intros Heq. apply Hy'. rewrite Heq.
    apply list_elem_of_fmap. exists x. split; [done|]. apply list_elem_of_In, List.filter_In.
    by rewrite <- list_elem_of_In.
Qed.

Section registry.
Context `{Documents} `{Render} `{UrlJoin} `{Secrets} {Ext : Type} `{!HttpClient Ext}.
Context (python_factory : string → ActionConnectorBinding → result (option (ActionConnector Ext))).
Context (sqlite : dict (ActionConnector Ext)).
Abbreviation connector := (connector_of python_factory sqlite).

(** What a binding resolves to. *)
Definition resolves (b : ActionConnectorBinding) : option (ResolvedActionConnector Ext) :=
  match connector b with inr c => Some (resolved_of b c) | inl _ => None end.

Lemma find_set_resolved k k' (r : ResolvedActionConnector Ext) rg act :
  find_resolved k' (mkConnectorRegistry (set_resolved k r (cr_resolved rg)) act) =
    if decide (k = k') then Some r else find_resolved k' rg.
Proof.
  unfold find_resolved, set_resolved. cbn. case_decide as Hk.
  - by rewrite bool_decide_true.
  - rewrite bool_decide_false by done. f_equal. induction (cr_resolved rg) as [|e l IH]; [done|]. cbn.
    destruct (decide (e.1 = k)) as [He|He].
    + rewrite (bool_decide_true (e.1 = k)) by done. cbn. rewrite bool_decide_false by congruence. done.
    + rewrite (bool_decide_false (e.1 = k)) by done. cbn. by rewrite IH.
Qed.

Definition keyed (k : string * string * string) (b : ActionConnectorBinding) : bool :=
  true && bool_decide (binding_key b = k).
Definition enabled_for (a : string) (b : ActionConnectorBinding) : bool :=
  ab_enabled b && bool_decide (ab_action_name b = a).

(** What [_build] built. *)
Lemma build_spec production bs : ∀ rg0 rg,
  _build python_factory production sqlite bs rg0 = inr rg →
  NoDup (binding_key <$> bs) → NoDup (active_names bs) →
  (∀ b, b ∈ bs → is_Some (resolves b) ∧ (production = true → production_check b = inr tt)) ∧
  (∀ k, find_resolved k rg =
     match List.find (keyed k) bs with Some b => resolves b | None => find_resolved k rg0 end) ∧
  (∀ a, dget a (cr_active rg) =
     match List.find (enabled_for a) bs with Some b => resolves b | None => dget a (cr_active rg0) end).
Proof.
  induction bs as [|b bs IH]; intros rg0 rg; cbn [_build].
  - intros [= <-] _ _. split; [by intros b ?%not_elem_of_nil|done].
  - destruct (if production then _ else _) as [e|[]] eqn:Hp; [done|]. cbn [rbind].
    destruct (connector b) as [e|c] eqn:Hc; [done|]. cbn [rbind]. intros Hb Hk Ha.
    apply NoDup_cons in Hk as [Hk1 Hk2].
    assert (resolves b = Some (resolved_of b c)) as Hres by (unfold resolves; by rewrite Hc).
    assert (NoDup (active_names bs) ∧ (ab_enabled b = true → ab_action_name b ∉ active_names bs))
      as [Ha2 Ha1].
    { unfold active_names in *. cbn in Ha. destruct (ab_enabled b); [|done].
      apply NoDup_cons in Ha as [? ?]. done. }
    destruct (IH _ _ Hb Hk2 Ha2) as (B1 & B2 & B3). split_and!.
    + intros b' [->|Hin]%elem_of_cons; [|auto]. split; [by eexists|]. by intros ->.
    + intros k. rewrite B2, find_set_resolved. cbn. unfold keyed at 2. cbn.
      destruct (decide (binding_key b = k)) as [<-|Hne].
      * rewrite bool_decide_true by done. rewrite Hres.
        destruct (List.find _ bs) as [b'|] eqn:Hf; [|done]. exfalso.
        apply find_some in Hf as [Hin Hkey]. unfold keyed in Hkey. cbn in Hkey.
        apply bool_decide_eq_true in Hkey. apply Hk1. rewrite <- Hkey.
        apply list_elem_of_fmap. by exists b'.
      * by rewrite bool_decide_false.
    + intros a. rewrite B3. cbn [List.find cr_active]. unfold enabled_for at 2.
      destruct (ab_enabled b) eqn:He; cbn; [|done].
      destruct (decide (ab_action_name b = a)) as [<-|Hne].
      * rewrite bool_decide_true, Hres by done.
        destruct (List.find _ bs) as [b'|] eqn:Hf; [|by rewrite dget_dset_eq]. exfalso.
        apply find_some in Hf as [Hin Hkey]. unfold enabled_for in Hkey.
        apply andb_true_iff in Hkey as [He' Hn]. apply bool_decide_eq_true in Hn.
        apply (Ha1 eq_refl). rewrite <- Hn. unfold active_names. apply list_elem_of_fmap.
        exists b'. split; [done|]. apply list_elem_of_In, List.filter_In.
        by rewrite <- list_elem_of_In.
      * rewrite bool_decide_false by done. by rewrite dget_dset_ne.
Qed.

Lemma identity_key bs : NoDup (map identity bs) → NoDup (binding_key <$> bs).
Proof.
  intros Hnd. apply (NoDup_fmap_1 (λ k : string * string * string, (k.1.2, k.2))).
  rewrite <- list_fmap_compose. exact Hnd.
Qed.

(** A registry of a validated configuration. *)
Lemma registry_spec config env rg :
  model_validate config = inr config →
  create_registry python_factory config env sqlite = inr rg →
  (∀ b, b ∈ rg_bindings config →
     binding_valid b = true ∧ is_Some (resolves b) ∧
     (env = PRODUCTION → production_check b = inr tt)) ∧
  (∀ k r, find_resolved k rg = Some r ↔
     ∃ b, b ∈ rg_bindings config ∧ binding_key b = k ∧ resolves b = Some r) ∧
  (∀ a r, dget a (cr_active rg) = Some r ↔
     ∃ b, b ∈ rg_bindings config ∧ ab_enabled b = true ∧ ab_action_name b = a ∧
          resolves b = Some r).
Proof.
  unfold model_validate. destruct (_ && _) eqn:Hv; [|done]. unfold unique_active_actions.
  case_bool_decide as Ha; [|done]. case_bool_decide as Hi; [|done]. intros _ Hc.
  apply identity_key in Hi. apply andb_true_iff in Hv as [_ Hv].
  destruct (build_spec _ _ _ _ Hc Hi Ha) as (B1 & B2 & B3). split_and!.
  - intros b Hb. split.
    + apply (proj1 (List.forallb_forall _ _) Hv). by apply list_elem_of_In.
    + destruct (B1 b Hb) as [? Hprod]. split; [done|]. intros ->. by apply Hprod.
  - intros k r. rewrite B2. split.
    + destruct (List.find _ _) as [b|] eqn:Hf; [|done]. intros Hr. exists b.
      apply find_some in Hf as [? Hk]. split_and!; [done| |done].
      by apply bool_decide_eq_true in Hk.
    + intros (b & Hb & <- & Hr).
      change (keyed (binding_key b)) with (λ y, true && bool_decide (binding_key y = binding_key b)).
      rewrite (find_unique binding_key (λ _, true)); [done| |done|done].
      by rewrite filter_all by done.
  - intros a r. rewrite B3. split.
    + destruct (List.find _ _) as [b|] eqn:Hf; [|done]. intros Hr. exists b.
      apply find_some in Hf as [? Hk]. unfold enabled_for in Hk. reflect_bools. by split_and!.
    + intros (b & Hb & He & <- & Hr).
      change (enabled_for (ab_action_name b))
        with (λ y, ab_enabled y && bool_decide (ab_action_name y = ab_action_name b)).
      by rewrite (find_unique ab_action_name ab_enabled).
Qed.

(** An unpinned resolution. *)
Lemma resolve_active config env rg a r :
  model_validate config = inr config →
  create_registry python_factory config env sqlite = inr rg →
  registry_resolve rg a None None None = inr r ↔
  ∃ b, b ∈ rg_bindings config ∧ ab_enabled b = true ∧ ab_action_name b = a ∧ resolves b = Some r.
Proof.
  intros Hv Hc. destruct (registry_spec _ _ _ Hv Hc) as (B1 & _ & B3). rewrite <- B3.
  unfold registry_resolve. destruct (dhas a ACTION_SPECIFICATIONS) eqn:Ha; cbn [negb].
  - destruct (dget a (cr_active rg)); [|done]. split; by intros [= ->].
  - split; [done|]. intros (b & Hb & _ & <- & _)%B3. destruct (B1 b Hb) as (Hbv & _).
    unfold binding_valid, closed_catalog_only in Hbv. by rewrite Ha in Hbv.
Qed.

(** A pinned one. *)
Lemma resolve_pinned config env rg a i v c r :
  model_validate config = inr config →
  create_registry python_factory config env sqlite = inr rg →
  registry_resolve rg a (Some i) (Some v) (Some c) = inr r ↔
  ∃ b, b ∈ rg_bindings config ∧ binding_key b = (a, i, v) ∧ ab_contract_version b = c ∧
       resolves b = Some r.
Proof.
  intros Hv Hc. destruct (registry_spec _ _ _ Hv Hc) as (B1 & B2 & _).
  unfold registry_resolve. cbn [str_truthy].
  change (default "" (Some i)) with i. change (default "" (Some v)) with v.
  change (default "" (Some c)) with c. split.
  - destruct (dhas a _); cbn [negb]; [|done].
    destruct (_ || _); [done|]. destruct (find_resolved _ rg) as [r'|] eqn:Hf; [|done].
    destruct (String.eqb_spec (rc_contract_version r') c) as [<-|]; [|done]. intros [= <-].
    apply B2 in Hf as (b & Hb & Hk & Hr). exists b. split_and!; try done.
    unfold resolves in Hr. destruct (connector b); [done|]. by injection Hr as <-.
  - intros (b & Hb & Hk & <- & Hr). destruct (B1 b Hb) as (Hbv & _).
    unfold binding_key in Hk. injection Hk as <- <- <-.
    assert (find_resolved (binding_key b) rg = Some r) as Hf by (apply B2; by exists b).
    unfold binding_key in Hf. rewrite Hf. unfold binding_valid, closed_catalog_only, binding_id_valid in Hbv.
    apply andb_true_iff in Hbv as [Hbv _]. apply andb_true_iff in Hbv as [Hbv Hcv].
    apply andb_true_iff in Hbv as [Hbv Hvv]. apply andb_true_iff in Hbv as [-> Hiv].
    apply andb_true_iff in Hiv as [Hiv _]. unfold nonempty in *. rewrite Hiv, Hvv, Hcv. cbn.
    unfold resolves in Hr. destruct (connector b); [done|]. injection Hr as <-. cbn.
    by rewrite String.eqb_refl.
Qed.

(** The connectors a production registry may hold. *)
Definition production_transport (t : transport) : Prop :=
  match t with
  | RestTransport r => starts_with "https://" (rest_base_url r) = true ∧
      ∃ h, hostname_of (rest_base_url r) = Some h ∧ h ∈ rest_allowed_hosts r
  | PythonTransport _ => True
  | SqliteTransport _ | WebSocketTransport _ => False
  end.

Lemma production_ok b c :
  binding_valid b = true → production_check b = inr tt → connector b = inr c →
  production_transport (ab_transport b).
Proof.
  unfold production_check, connector_of, binding_valid, production_transport.
  destruct (ab_transport b) as [u|r|f|ws] eqn:Ht; try done.
  intros Hv. destruct (starts_with _ _); [|done]. intros _ _. split; [done|].
    apply andb_true_iff in Hv as [_ Hv]. cbn [transport_valid] in Hv. unfold rest_valid in Hv.
    apply andb_true_iff in Hv as [_ Hv]. unfold validate_rest_contract, origin_valid in Hv.
    do 2 apply andb_true_iff in Hv as [Hv _]. apply andb_true_iff in Hv as [_ Hv].
    destruct (hostname_of _) as [h|]; [|done]. exists h. by apply bool_decide_eq_true in Hv.
Qed.

(** The registry resolves to what was configured and to nothing else.  Without
    a pin an action resolves to its one enabled binding; with a pin, to the
    binding of exactly that action, id, version and contract, enabled or not;
    every other request is an error.  No two bindings answer one request.  And a
    production registry holds only Python connectors and REST connectors whose
    base URL is HTTPS at an allowed host. *)
Theorem registry_resolves_configured config env rg :
  model_validate config = inr config →
  create_registry python_factory config env sqlite = inr rg →
  (∀ a r, registry_resolve rg a None None None = inr r ↔
     ∃ b, b ∈ rg_bindings config ∧ ab_enabled b = true ∧ ab_action_name b = a ∧
          resolves b = Some r) ∧
  (∀ a i v c r, registry_resolve rg a (Some i) (Some v) (Some c) = inr r ↔
     ∃ b, b ∈ rg_bindings config ∧ binding_key b = (a, i, v) ∧ ab_contract_version b = c ∧
          resolves b = Some r) ∧
  (∀ a i v c, is_ok (registry_resolve rg a i v c) = true →
     (i = None ∧ v = None ∧ c = None) ∨ (is_Some i ∧ is_Some v ∧ is_Some c)) ∧
  (env = PRODUCTION → ∀ b, b ∈ rg_bindings config → production_transport (ab_transport b)).
Proof.
  intros Hv Hc. split_and!.
  - intros a r. by eapply resolve_active.
  - intros a i v c r. by eapply resolve_pinned.
  - intros a i v c Hok. unfold registry_resolve in Hok.
    destruct (dhas a _); cbn [negb] in Hok; [|done].
    destruct i as [i|], v as [v|], c as [c|]; cbn [str_truthy negb orb] in Hok;
      rewrite ?orb_true_r in Hok; try done; [right|left]; eauto.
  - intros -> b Hb. destruct (registry_spec _ _ _ Hv Hc) as (B1 & _).
    destruct (B1 b Hb) as (Hbv & [r Hr] & Hp). unfold resolves in Hr.
    destruct (connector b) as [e|c'] eqn:Hcb; [done|]. eapply production_ok; [done|by apply Hp|done].
Qed.
End registry.

(** ** Pinned bindings *)

(** The fields an equal command shares. *)
Lemma command_eqb_pins c d :
  command_eqb c d = true →
  c_action c = c_action d ∧ c_connector_binding_id c = c_connector_binding_id d ∧
  c_connector_binding_version c = c_connector_binding_version d ∧
  c_contract_version c = c_contract_version d.
Proof.
  unfold command_eqb. intros Heq. reflect_bools.
  repeat match goal with E : ostr_eqb _ _ = true |- _ => apply ostr_eqb_eq in E end.
  by split_and!.
Qed.

Lemma same_request_action c d : same_request c d → c_action c = c_action d.
Proof. unfold same_request. destruct c, d. cbn. by intros [= -> _]. Qed.

Section pinned.
Context `{Documents} `{Render} `{UrlJoin} `{Secrets} {Ext : Type} `{!HttpClient Ext}.
Context `{Hmac} (sg : PolicySigner) `{Oracle}.
(** The deployment that authorizes and the one that dispatches. *)
Context (factory1 factory2 : string → ActionConnectorBinding → result (option (ActionConnector Ext))).
Context (sqlite1 sqlite2 : dict (ActionConnector Ext)).
Context (config1 config2 : ActionRegistryConfig) (env1 env2 : Environment).
Context (rg1 rg2 : ActionConnectorRegistry (Ext := Ext)) (gw1 gw2 : ActionGateway Ext).
Context (Hv1 : model_validate config1 = inr config1) (Hv2 : model_validate config2 = inr config2).
Context (Hc1 : create_registry factory1 config1 env1 sqlite1 = inr rg1).
Context (Hc2 : create_registry factory2 config2 env2 sqlite2 = inr rg2).
Context (Hg1 : gw_connectors gw1 = Resolver (registry_resolve rg1)).
Context (Hg2 : gw_connectors gw2 = Resolver (registry_resolve rg2)).
Context (Hpv : ∀ pv, gw_policy_resolver gw2 = Some pv → PolicyResolverLaws pv).
Implicit Types w : World Ext.

(** C21: a dispatch never drifts from the binding the action was authorized with.
    Authorization pins the one binding enabled for the action; whenever and
    under whatever later configuration the action is dispatched, either no
    provider is called, or the one called is the connector of a binding with the
    same action, id, version and contract as the pinned one. *)
Theorem pinned_binding_never_drifts command v w w1 a w2 w3 r :
  db_inv (w_core w) → run (authorize gw1 command v) w = (w1, inr a) →
  db_inv (w_core w2) → run (dispatch sg gw2 a) w2 = (w3, r) →
  ∃ b1, b1 ∈ rg_bindings config1 ∧ ab_enabled b1 = true ∧ ab_action_name b1 = c_action command ∧
    (w_trace w3 = w_trace w2 ∨
     ∃ b2 connector x, b2 ∈ rg_bindings config2 ∧ binding_key b2 = binding_key b1 ∧
       ab_contract_version b2 = ab_contract_version b1 ∧
       connector_of factory2 sqlite2 b2 = inr connector ∧
       w_trace w3 = w_trace w2 ++ [EffDispatch (a_command a)] ∧
       w_ext w3 = (cn_dispatch connector (a_command a) x).1).
Proof.
  intros Hw Ha Hw2 Hd.
  apply run_authorize_command in Ha as (res1 & c & Hr1 & Hsame & Hi & Hv & Hcv & Hac); [|done].
  unfold _resolve_connector in Hr1. rewrite Hg1 in Hr1.
  apply (resolve_active _ _ _ _ _ _ _ Hv1 Hc1) in Hr1 as (b1 & Hb1 & He1 & Hn1 & Hres1).
  unfold resolves in Hres1. destruct (connector_of _ _ b1) as [?|cn1]; [done|]. injection Hres1 as <-.
  cbn in Hi, Hv, Hcv. exists b1. split_and!; [done..|].
  assert (c_action (a_command a) = c_action command ∧
          c_connector_binding_id (a_command a) = Some (ab_binding_id b1) ∧
          c_connector_binding_version (a_command a) = Some (ab_binding_version b1) ∧
          c_contract_version (a_command a) = Some (ab_contract_version b1)) as (Pa & Pi & Pv & Pc).
  { rewrite (same_request_action _ _ Hsame), <- Hi, <- Hv, <- Hcv.
    destruct Hac as [->|Heq%command_eqb_pins]; [done|exact Heq]. }
  apply (run_dispatch sg gw2 Hpv) in Hd as [_ [Ht|(res2 & x & Hr2 & Ht & Hx)]]; [by left| |done].
  right. unfold _resolve_connector in Hr2. rewrite Hg2, Pi, Pv, Pc, Pa, <- Hn1 in Hr2.
  apply (resolve_pinned _ _ _ _ _ _ _ _ _ _ Hv2 Hc2) in Hr2 as (b2 & Hb2 & Hk2 & Hcv2 & Hres2).
  unfold resolves in Hres2. destruct (connector_of _ _ b2) as [?|cn2] eqn:Hcn; [done|].
  injection Hres2 as <-. by exists b2, cn2, x.
Qed.
End pinned.

(** ** The REST connector *)
Section rest.
Context `{UrlJoin} `{Secrets} {Ext : Type} `{!HttpClient Ext}.
Implicit Types x : Ext.

Lemma request_headers_ok r command headers :
  request_headers r command = inr headers →
  (∀ k, is_Some (dget k headers) → k = rest_idempotency_header r ∨ k = rest_auth_header r) ∧
  (rest_auth_header r ≠ rest_idempotency_header r →
   dget (rest_idempotency_header r) headers = Some (c_idempotency_key command)).
Proof.
  unfold request_headers. intros Hh.
  assert (headers = [(rest_idempotency_header r, c_idempotency_key command)] ∨
          ∃ s, headers = dset (rest_auth_header r) s
                 [(rest_idempotency_header r, c_idempotency_key command)]) as [->|[s ->]].
  { destruct (rest_secret_ref r) as [ref|]; [|injection Hh as <-; by left].
    destruct (String.eqb ref ""); [injection Hh as <-; by left|].
    destruct (resolve_secret ref) as [e|s]; [done|]. injection Hh as <-. right. by eexists. }
  - split; [|by cbn; rewrite String.eqb_refl].
    intros k. cbn. destruct (String.eqb_spec k (rest_idempotency_header r)) as [->|]; [by left|].
    by intros [? ?].
  - split.
    + intros k. rewrite dget_dset. case_decide as Hk; [by right|]. cbn.
      destruct (String.eqb_spec k (rest_idempotency_header r)) as [->|]; [by left|]. by intros [? ?].
    + intros Hne. rewrite dget_dset_ne by done. cbn. by rewrite String.eqb_refl.
Qed.

Lemma request_parts r operation command prior call :
  _request r operation command prior = inr call →
  request_headers r command = inr (hc_headers call) ∧ hc_method call = op_method operation ∧
  hc_timeout call = rest_timeout_seconds r ∧
  map_sources command prior (op_query operation) = inr (hc_params call).
Proof.
  unfold _request. destruct (request_headers r command) as [e|headers]; [done|]. cbn.
  destruct (map_sources _ _ (op_body operation)) as [e|body]; [done|]. cbn.
  destruct (map_sources _ _ (op_query operation)) as [e|query]; [done|]. by intros [= <-].
Qed.

Lemma outcome_of_response_ok r response :
  statuses_valid (rest_statuses r) = true →
  let o := outcome_of_response r response in
  dget "http_status" (oc_details o) = Some (VInt (hp_status response)) ∧
  (oc_status o = SUCCEEDED ↔ hp_status response ∈ hs_succeeded (rest_statuses r)) ∧
  (oc_status o = FAILED ↔ hp_status response ∈ hs_failed (rest_statuses r)) ∧
  oc_status o ∈ [SUCCEEDED; FAILED; UNKNOWN].
Proof.
  unfold statuses_valid, disjoint, outcome_of_response. intros Hv. reflect_bools.
  rewrite !Forall_forall in *.
  case_bool_decide as Hs; [|case_bool_decide as Hf]; cbn; split_and!; try done;
    try (by split); try (by left); try (by right; left); try (by right; right; left).
  split; [done|]. intros Hf. naive_solver.
Qed.

(** The REST connector reports what the provider said and nothing more.
    Nothing is sent unless the whole request can be built; at most one request
    is sent, with the operation's method, no headers but the idempotency and the
    authentication header, and the command's key in the first (when the two
    names differ); then the outcome is a success or a failure exactly when the
    status is one the configuration maps so, and unknown for every other status,
    for a timeout and for a network error; any other exception is raised. *)
Theorem rest_execute_outcome r operation command prior x x' res :
  rest_valid r = true → _execute r operation command prior x = (x', res) →
  (x' = x ∧ ∃ e, _request r operation command prior = inl e ∧ res = inl e) ∨
  ∃ call answer,
    http_request_of call x = (x', answer) ∧ hc_method call = op_method operation ∧
    (∀ k, is_Some (dget k (hc_headers call)) →
       k = rest_idempotency_header r ∨ k = rest_auth_header r) ∧
    (rest_auth_header r ≠ rest_idempotency_header r →
     dget (rest_idempotency_header r) (hc_headers call) = Some (c_idempotency_key command)) ∧
    match answer with
    | inl (AmbiguousFailure _) => ∃ d, res = inr (outcome_unknown d)
    | inl (OtherFailure e) => res = inl e
    | inr response =>
        ∃ o, res = inr o ∧ dget "http_status" (oc_details o) = Some (VInt (hp_status response)) ∧
          (oc_status o = SUCCEEDED ↔ hp_status response ∈ hs_succeeded (rest_statuses r)) ∧
          (oc_status o = FAILED ↔ hp_status response ∈ hs_failed (rest_statuses r)) ∧
          oc_status o ∈ [SUCCEEDED; FAILED; UNKNOWN]
    end.
Proof.
  intros Hv. unfold _execute. destruct (_request r operation command prior) as [e|call] eqn:Hreq.
  { intros [= <- <-]. left. split; [done|]. by exists e. }
  apply request_parts in Hreq as (Hh & Hm & _). apply request_headers_ok in Hh as [Hk Hkey].
  assert (statuses_valid (rest_statuses r) = true) as Hst.
  { unfold rest_valid in Hv. by reflect_bools. }
  destruct (http_request_of call x) as [x1 [[ty|e]|response]] eqn:Hcall; intros [= <- <-]; right;
    exists call; eexists; (split; [exact Hcall|]); split_and!; try done.
  - by eexists.
  - eexists. split; [done|]. by apply outcome_of_response_ok.
Qed.
End rest.

(** ** Witnesses: a payment provider over HTTP, then a new version of it *)

Definition digest64 : string := "0123456789abcdef0123456789abcdef0123456789abcdef0123456789abcdef".

#[export] Instance demo_documents : Documents := {
  document_sha256 _ := inr digest64;
  document_value _ := inr (VDict
    [ ("paths", VDict
        [ ("/refunds", VDict [("post", VDict [("operationId", VStr "createRefund")])]);
          ("/refunds/status", VDict [("get", VDict [("operationId", VStr "getRefund")])]) ]) ])
}.
#[export] Instance demo_urljoin : UrlJoin := λ base path, base +:+ path.
#[export] Instance demo_secrets : Secrets := environment_secret [("PAY_TOKEN", "t0ken")].
#[export] Instance demo_http : HttpClient (list string) :=
  λ call x, (x ++ [hc_url call],
             inr (mkHttpResponse 201 (Some (VDict [("provider_operation_id", VStr "P-1")])))).

Definition demo_rest (base_url : string) : RestSettings :=
  mkRest base_url ["pay.example"] (f_of_Z 10) "Idempotency-Key" (Some "env://PAY_TOKEN")
    "Authorization" "Bearer" (mkOpenApi "openapi.json" digest64)
    (mkOperation "createRefund" "POST" "/refunds" [("order", "$.parameters.order_id")] [])
    (Some (mkOperation "getRefund" "GET" "/refunds/status" [] [("key", "$.idempotency_key")]))
    (mkStatuses [200; 201] [202] [400; 404; 409])%Z (Some "provider_operation_id") [].

Definition demo_binding (version base_url : string) (enabled : bool) : ActionConnectorBinding :=
  mkBinding "issue_refund" "pay" version "1" enabled (RestTransport (demo_rest base_url)).

Definition demo_config1 : ActionRegistryConfig :=
  mkRegistryConfig 1 [demo_binding "1" "https://pay.example/v1" true].
Definition demo_config2 : ActionRegistryConfig :=
  mkRegistryConfig 2 [ demo_binding "1" "https://pay.example/v1" false;
                       demo_binding "2" "https://pay.example/v2" true ].

Definition no_factory (factory : string) (b : ActionConnectorBinding) :
    result (option (ActionConnector (list string))) := inr None.

Definition demo_registry (config : ActionRegistryConfig) : ActionConnectorRegistry :=
  match create_registry no_factory config PRODUCTION [] with
  | inr rg => rg | inl _ => mkConnectorRegistry [] [] end.

Lemma demo_config1_valid : model_validate demo_config1 = inr demo_config1.
Proof. vm_compute. reflexivity. Qed.
Lemma demo_config2_valid : model_validate demo_config2 = inr demo_config2.
Proof. vm_compute. reflexivity. Qed.
Lemma demo_registry1_created :
  create_registry no_factory demo_config1 PRODUCTION [] = inr (demo_registry demo_config1).
Proof. reflexivity. Qed.
Lemma demo_registry2_created :
  create_registry no_factory demo_config2 PRODUCTION [] = inr (demo_registry demo_config2).
Proof. reflexivity. Qed.

Example registry_resolves_configured_witness :
  ∃ b, b ∈ rg_bindings demo_config2 ∧ ab_enabled b = true ∧ ab_action_name b = "issue_refund".
Proof.
  destruct (registry_resolves_configured no_factory [] demo_config2 PRODUCTION
              (demo_registry demo_config2) demo_config2_valid demo_registry2_created) as [Hact _].
  destruct (registry_resolve (demo_registry demo_config2) "issue_refund" None None None) as [e|r] eqn:Hr;
    [vm_compute in Hr; discriminate Hr|].
  destruct (proj1 (Hact "issue_refund" r) Hr) as (b & Hb & He & Hn & _). by exists b.
Defined.

Definition demo_rest_gateway (config : ActionRegistryConfig) : ActionGateway (list string) :=
  mkGateway (Resolver (registry_resolve (demo_registry config))) true
    (Some (policy_service_resolver demo_signer)).

Definition demo_pinned : World (list string) * result ActionRecord :=
  run (authorize (demo_rest_gateway demo_config1) demo_command 5) demo_governed.
Definition demo_pinned_action : ActionRecord := or_else demo_action demo_pinned.2.
Definition demo_redispatched : World (list string) * result ActionRecord :=
  run (dispatch demo_signer (demo_rest_gateway demo_config2) demo_pinned_action) demo_pinned.1.

Lemma demo_rest_resolver_laws config pv :
  gw_policy_resolver (demo_rest_gateway config) = Some pv → PolicyResolverLaws pv.
Proof. intros [= <-]. apply _. Qed.

Lemma demo_pinned_inv : db_inv (w_core demo_pinned.1).
Proof.
  pose proof (authorize_calm (demo_rest_gateway demo_config1)
                (demo_rest_resolver_laws demo_config1) demo_command 5) as Hcalm.
  destruct (run_calm _ demo_governed _ _ Hcalm demo_db_inv (surjective_pairing _)) as (Hinv & _).
  exact Hinv.
Qed.

(** The action authorized for version 1 is executed by version 1, although version
    2 has replaced it. *)
Example pinned_binding_never_drifts_witness :
  w_ext demo_redispatched.1 = ["https://pay.example/v1/refunds"] ∧
  ∃ b2, b2 ∈ rg_bindings demo_config2 ∧ ab_binding_version b2 = "1".
Proof.
  split; [vm_compute; reflexivity|].
  destruct (pinned_binding_never_drifts demo_signer no_factory no_factory [] []
    demo_config1 demo_config2 PRODUCTION PRODUCTION (demo_registry demo_config1)
    (demo_registry demo_config2) (demo_rest_gateway demo_config1) (demo_rest_gateway demo_config2)
    demo_config1_valid demo_config2_valid demo_registry1_created demo_registry2_created
    eq_refl eq_refl (demo_rest_resolver_laws demo_config2)
    demo_command 5 demo_governed demo_pinned.1 demo_pinned_action demo_pinned.1
    demo_redispatched.1 demo_redispatched.2)
    as (b1 & Hb1 & _ & _ & [Ht|(b2 & cn & x & Hb2 & Hk & _)]).
  - exact demo_db_inv.
  - vm_compute. reflexivity.
  - exact demo_pinned_inv.
  - apply surjective_pairing.
  - exfalso. vm_compute in Ht. discriminate Ht.
  - exists b2. split; [done|]. apply list_elem_of_singleton in Hb1 as ->.
    unfold binding_key in Hk. by injection Hk as _ _ ->.
Defined.

Example rest_execute_outcome_witness :
  ∃ o, (_execute (demo_rest "https://pay.example/v1") (rest_execute (demo_rest "")) demo_command None
          []).2 = inr o ∧ oc_status o = SUCCEEDED.
Proof.
  destruct (rest_execute_outcome (demo_rest "https://pay.example/v1") (rest_execute (demo_rest ""))
    demo_command None [] ["https://pay.example/v1/refunds"]
    (_execute (demo_rest "https://pay.example/v1") (rest_execute (demo_rest "")) demo_command None
       []).2) as [(Hx & _)|(call & answer & Hcall & _ & _ & _ & Hans)].
  - vm_compute. reflexivity.
  - vm_compute. reflexivity.
  - discriminate Hx.
  - injection Hcall as _ <-. destruct Hans as (o & Ho & _ & Hs & _). exists o. split; [exact Ho|].
    apply Hs. right. left.
Defined.
