(* ===== verification/DomainProps.v ===== *)
(** * Properties of the domain decisions *)

From Stdlib Require Import SpecFloat.
From S2P Require Import Prelude PyValue Prog Table ActionSpecs Policy KernelData World KernelStore KernelInv CaseKernel Fixtures PolicyStore PolicyProps Auth Conversation Gateway AtMostOnce GatewayProps ActionService Domains ServiceProps.

(** ** Refunds *)

(** The conditions of an eligible refund; a NaN amount passes the last one. *)
Definition refundable (svc : RefundDecisionService) (authenticated owner status : string) (days : Z)
    (amount : float) : Prop :=
  authenticated = owner ∧ status ∈ ["delivered"; "completed"] ∧
  (days ≤ refund_window_days svc)%Z ∧ f_leb amount (S754_zero false) = false.

Lemma evaluate_refund_spec svc order authenticated owner status days amount :
  let d := evaluate_refund svc order authenticated owner status days amount in
  (rd_eligible d = true ↔ refundable svc authenticated owner status days amount) ∧
  rd_amount d = amount ∧ rd_idempotency_key d = "refund:" +:+ order.
Proof.
  cbv zeta. unfold evaluate_refund, refundable.
  destruct (String.eqb_spec authenticated owner) as [->|Hne]; cbn [negb]; [|by naive_solver].
  case_bool_decide as Hs; cbn [negb]; [|by naive_solver].
  destruct (refund_window_days svc <? days)%Z eqn:Hd; [apply Z.ltb_lt in Hd|apply Z.ltb_ge in Hd].
  { split; [|done]. split; [done|]. intros (_ & _ & ? & _). lia. }
  destruct (f_leb amount _) eqn:Ha; [by naive_solver|]. by naive_solver.
Qed.

Section refunds.
Context `{Hmac} (sg : PolicySigner) `{Oracle} `{Render} {Ext : Type} (gw : ActionGateway Ext).
Context (refund_policy : RefundDecisionService).
Context (Hpv : ∀ pv, gw_policy_resolver gw = Some pv → PolicyResolverLaws pv).
Implicit Types w : World Ext.

(** C32: a refund reaches a provider only when the refund policy finds it eligible:
    the authenticated customer owns the delivered order, the window is still
    open and the amount is a positive number; the provider is then asked once,
    for that order, that customer and the order's own amount, under the order's
    key.  An ineligible refund is refused before anything is read or written. *)
Theorem refund_only_eligible cid customer actor policy version order reason consent w w' r :
  db_inv (w_core w) →
  tget action_idem ("refund:" +:+ os_order_id order) (t_actions (w_core w)) = None →
  run (process_refund sg gw refund_policy cid customer actor policy version order reason consent) w
    = (w', r) →
  (w_trace w' = w_trace w ∨
   (refundable refund_policy customer (os_customer_id order) (os_status order)
      (os_days_since_delivery order) (os_amount order) ∧
    positive (os_amount order) = true ∧
    ∃ c, w_trace w' = w_trace w ++ [EffDispatch c] ∧ c_action c = "issue_refund" ∧
      c_idempotency_key c = "refund:" +:+ os_order_id order ∧
      let expected :=
        [ ("order_id", VStr (os_order_id order)); ("customer_id", VStr customer);
          ("refund_amount", VFloat (os_amount order)); ("currency", VStr "USD");
          ("payment_method", VStr (os_payment_method order)); ("reason", VStr reason) ] in
      c_parameters c = expected ∨ dict_eqb (c_parameters c) expected = true)) ∧
  (¬ refundable refund_policy customer (os_customer_id order) (os_status order)
      (os_days_since_delivery order) (os_amount order) →
   w' = w ∧ ∃ reason, r = inl (ValueError ("Refund is not eligible: " +:+ reason))).
Proof.
  intros Hw Hkey Hrun. unfold process_refund in Hrun.
  destruct (evaluate_refund_spec refund_policy (os_order_id order) customer (os_customer_id order)
    (os_status order) (os_days_since_delivery order) (os_amount order)) as (Hel & Ham & Hk).
  set (d := evaluate_refund _ _ _ _ _ _ _) in *. rewrite run_bind, run_require in Hrun.
  destruct (rd_eligible d) eqn:He.
  2: { injection Hrun as <- <-. split; [by left|]. intros _. split; [done|]. by eexists. }
  assert (refundable refund_policy customer (os_customer_id order) (os_status order)
    (os_days_since_delivery order) (os_amount order)) as Href by by apply Hel.
  split; [|done].
  rewrite run_bind, run_require in Hrun.
  destruct (request_valid _) eqn:Hq; [|injection Hrun as <- _; by left].
  apply run_submit in Hrun; [|done|apply _|done|by cbn; rewrite Hk].
  destruct Hrun as [Ht|(spec & c & upstream & _ & Ht & (Ha & _ & Hi & _ & _ & _ & Hp) & _)]; [by left|].
  right. split; [done|]. split.
  { unfold request_valid in Hq. cbn in Hq. by reflect_bools. }
  exists c. split; [done|]. split; [exact Ha|]. split; [by rewrite Hi; cbn; rewrite Hk|exact Hp].
Qed.
End refunds.

(** ** Regulation E *)

(** The Regulation E decision is total and tiered: a claim is eligible exactly
    when the payment method is a covered transfer and it was reported within 60
    days; liability is then capped at 50 within two days and at 500 after; an
    ineligible claim leaves the customer liable for the whole amount. *)
Theorem reg_e_tiers payment_method days amount :
  let d := evaluate_reg_e payment_method days amount in
  (re_eligible d = true ↔
     str_lower payment_method ∈ covered_methods ∧ (days ≤ 60)%Z) ∧
  (re_eligible d = true →
     re_max_liability d = f_of_Z (if decide (days ≤ 2)%Z then 50 else 500) ∧
     re_liability_tier d = (if decide (days ≤ 2)%Z then "tier_1" else "tier_2")) ∧
  (re_eligible d = false → re_max_liability d = amount).
Proof.
  cbv zeta. unfold evaluate_reg_e. case_bool_decide as Hm; cbn [negb]; [|by naive_solver].
  destruct (days <=? 2)%Z eqn:H2; [apply Z.leb_le in H2|apply Z.leb_gt in H2].
  { cbn. rewrite !decide_True by done. split_and!; [split; [split; [done|lia]|done]|done|done]. }
  destruct (days <=? 60)%Z eqn:H60; [apply Z.leb_le in H60|apply Z.leb_gt in H60]; cbn.
  - rewrite !decide_False by lia. by split_and!.
  - split_and!; [|done|done]. split; [done|]. intros [_ ?]. lia.
Qed.

(** ** Jurisdiction *)

(** The jurisdiction guard: chat is never held up; on IVR each finding is
    reported exactly once, as a block when the guard enforces and as a warning
    when it only monitors; the interaction is allowed exactly when there is
    nothing to block; and an enforcing guard lets a call through only with every
    consent the profile demands and no secret outside secure capture. *)
Theorem jurisdiction_guard_enforces g channel consent dtmf secure :
  let d := evaluate_inbound g channel consent dtmf secure in
  let p := jg_profile g in
  let findings := inbound_findings p channel consent dtmf secure in
  (channel = CHAT → jd_allowed d = true ∧ jd_blocks d = [] ∧ jd_warnings d = []) ∧
  jd_blocks d ++ jd_warnings d = findings ∧ NoDup findings ∧
  (jd_allowed d = true ↔ jd_blocks d = []) ∧
  (jg_enforce g = true → channel = IVR → jd_allowed d = true →
     (jp_recording_consent_required p = true → truthy (dget_none "recording" consent) = true) ∧
     (jp_transcription_consent_required p = true →
        truthy (dget_none "transcription" consent) = true) ∧
     (dtmf = true → jp_secure_dtmf_required p = true → secure = true)).
Proof.
  cbv zeta. unfold evaluate_inbound. cbn.
  split_and!.
  - intros ->. unfold inbound_findings. cbn. by destruct (jg_enforce g).
  - destruct (jg_enforce g); [apply app_nil_r|done].
  - unfold inbound_findings. destruct (decide _); [|apply NoDup_nil_2].
    destruct (_ && negb (truthy (dget_none "recording" _))), (_ && negb (truthy _)),
      (dtmf && _ && _); apply (decide_by_eval (NoDup _)); vm_compute; reflexivity.
  - destruct (jg_enforce g); rewrite orb_comm; cbn; [|done]. rewrite bool_decide_eq_true. done.
  - intros -> ->. cbn. rewrite orb_false_r, bool_decide_eq_true. unfold inbound_findings. cbn.
    intros Hnil. apply app_nil in Hnil as [H1 Hnil]. apply app_nil in Hnil as [H2 H3].
    split_and!.
    + intros Hr. rewrite Hr in H1. by destruct (truthy (dget_none "recording" consent)).
    + intros Hr. rewrite Hr in H2. by destruct (truthy (dget_none "transcription" consent)).
    + intros -> Hr. rewrite Hr in H3. by destruct secure.
Qed.

(** ** Routing *)

(** The catalog entry is named by one of the words. *)
Definition mentioned (text : string) (e : catalog_entry) : Prop :=
  ∃ word, word ∈ split_words (str_lower text) "" ∧ word ∈ ce_keywords e.

#[export] Instance route_le_total : Total route_le.
Proof.
  intros a b. unfold route_le.
  destruct (str_contains "dispute" a), (str_contains "dispute" b); cbn; auto.
  all: destruct (String.leb_total a b); auto.
Qed.

Lemma str_leb_trans a b c :
  String.leb a b = true → String.leb b c = true → String.leb a c = true.
Proof.
  revert b c; induction a as [|x a IH]; intros b c; [by destruct c|].
  destruct b as [|y b]; [done|]. destruct c as [|z c]; [by cbn; destruct (String.leb _ _)|].
  specialize (IH b c). unfold String.leb in *. cbn [String.compare] in *.
  unfold Ascii.compare.
  destruct (N.compare_spec (Ascii.N_of_ascii x) (Ascii.N_of_ascii y)) as [E1|E1|E1]; [| |done];
    destruct (N.compare_spec (Ascii.N_of_ascii y) (Ascii.N_of_ascii z)) as [E2|E2|E2]; try done;
    destruct (N.compare_spec (Ascii.N_of_ascii x) (Ascii.N_of_ascii z)) as [E3|E3|E3];
    try done; try lia.
Qed.

#[export] Instance route_le_trans : Transitive route_le.
Proof.
  intros a b c [[Ha Hb]|[Hab Hle]] [[Hb' Hc]|[Hbc Hle']]; unfold route_le.
  - congruence.
  - left. split; congruence.
  - left. split; congruence.
  - right. split; [congruence|by eapply str_leb_trans].
Qed.

Lemma map_fst_pair {V} (f : string → V) l : (map (λ i, (i, f i)) l).*1 = l.
Proof. induction l as [|x l IH]; cbn; [done|by rewrite IH]. Qed.

(** Routing is decided by the catalog alone: a current route is kept; without
    one the procedures whose keywords occur in the text are all routed to, each
    once and each with its catalog version, a dispute procedure before any other
    and otherwise by name; and no match is an error. *)
Theorem routing_deterministic (catalog : dict catalog_entry) text :
  NoDup (dkeys catalog) →
  (∀ current, route catalog text (Some current) = inr current) ∧
  match route catalog text None with
  | inl e => e = ValueError "No deterministic procedure match" ∧
             ∀ i entry, (i, entry) ∈ catalog → ¬ mentioned text entry
  | inr r =>
      let ids := rt_primary_procedure r :: rt_subprocedures r in
      NoDup ids ∧
      (∀ i, i ∈ ids ↔ ∃ entry, dget i catalog = Some entry ∧ mentioned text entry) ∧
      (∀ i, i ∈ ids → route_le (rt_primary_procedure r) i) ∧
      (∀ i, i ∈ ids → ∃ entry, dget i catalog = Some entry ∧
                               dget i (rt_versions r) = Some (ce_version entry))
  end.
Proof.
  intros Hnd. split; [done|]. unfold route.
  set (hit := λ e : string * catalog_entry, existsb _ _).
  assert (∀ e, hit e = true ↔ mentioned text e.2) as Hhit.
  { intros e. unfold hit, mentioned. rewrite existsb_exists. split.
    - intros (word & ?%list_elem_of_In & Hw). exists word. by apply bool_decide_eq_true in Hw.
    - intros (word & ? & ?). exists word. rewrite <- list_elem_of_In. by rewrite bool_decide_true. }
  set (names := dkeys (select_where hit catalog)).
  assert (∀ i, i ∈ names ↔ ∃ entry, dget i catalog = Some entry ∧ mentioned text entry) as Hnames.
  { intros i. unfold names, dkeys. rewrite list_elem_of_fmap. split.
    - intros ([i' entry] & -> & [Hin Hh]%elem_of_select_where). exists entry.
      split; [by apply dget_unique|by apply (Hhit (i', entry))].
    - intros (entry & Hg & Hm). exists (i, entry). split; [done|]. apply elem_of_select_where.
      split; [by apply dget_elem_of|by apply Hhit]. }
  assert (NoDup names) as Hndn.
  { unfold names, dkeys in *. clear -Hnd. induction catalog as [|e l IH]; cbn; [apply NoDup_nil_2|].
    cbn in Hnd. apply NoDup_cons in Hnd as [He Hl]. destruct (hit e); cbn; [|by apply IH].
    apply NoDup_cons. split; [|by apply IH].
    intros (e' & Heq & [? _]%elem_of_select_where)%list_elem_of_fmap.
    apply He, list_elem_of_fmap. by exists e'. }
  pose proof (merge_sort_Permutation route_le names) as Hperm.
  pose proof (StronglySorted_merge_sort route_le names) as Hsorted.
  destruct (merge_sort route_le names) as [|p rest] eqn:Hms.
  - split; [done|]. intros i entry Hin Hm.
    assert (i ∈ names) as Hi by (apply Hnames; exists entry; split; [by apply dget_unique|done]).
    rewrite <- Hperm in Hi. by apply not_elem_of_nil in Hi.
  - cbn [rt_primary_procedure rt_subprocedures rt_versions].
    assert (∀ i, i ∈ p :: rest ↔ ∃ entry, dget i catalog = Some entry ∧ mentioned text entry) as Hids
      by (intros i; by rewrite Hperm).
    split_and!.
    + by rewrite Hperm.
    + exact Hids.
    + intros i [->|Hi]%elem_of_cons; [right; split; [done|]|].
      * destruct (String.leb_total p p); done.
      * inversion Hsorted as [|?? _ Hall]; subst. by eapply Forall_forall in Hall.
    + intros i Hi. pose proof Hi as (entry & Hg & _)%Hids. exists entry. split; [done|].
      assert (NoDup (p :: rest)) as Hnd' by by rewrite Hperm.
      apply dget_unique.
      * unfold dkeys. by rewrite (map_fst_pair _ (p :: rest)).
      * apply list_elem_of_fmap. exists i. by rewrite Hg.
Qed.

(** ** Proposals of the interpretation graph *)

Lemma validated_is_asserted p v :
  validate_proposal p = inr v →
  vp_candidate v = p ∧ vp_fact_authority v = ASSERTED ∧
  ∀ k, k ∈ dkeys (cp_extracted_facts p) → k ∈ dkeys (cp_evidence_spans p).
Proof.
  unfold validate_proposal. case_bool_decide as Hm; [|done]. intros [= <-].
  split_and!; [done|done|]. intros k Hk.
  assert (k ∈ dkeyset (cp_extracted_facts p)) as Hk' by (by apply elem_of_list_to_set).
  apply empty_difference_subseteq_L in Hm. assert (k ∈ dkeyset (cp_evidence_spans p)) as Hin by (by apply Hm).
  by apply elem_of_list_to_set in Hin.
Qed.

(** ** Witnesses *)

Definition demo_catalog : dict catalog_entry :=
  [ ("cs_refund", mkEntry ["refund"; "return"] "1.0.0");
    ("cs_eft_dispute", mkEntry ["dispute"; "unauthorized"] "2.0.0");
    ("cs_complaint", mkEntry ["complaint"] "1.0.0") ].

Example routing_deterministic_witness :
  route demo_catalog "I want a Refund, and to dispute it" None
    = inr (mkRoute "cs_eft_dispute" ["cs_refund"]
             [("cs_eft_dispute", "2.0.0"); ("cs_refund", "1.0.0")]) ∧
  ∀ c, route demo_catalog "refund" (Some c) = inr c.
Proof.
  split; [vm_compute; reflexivity|].
  refine (proj1 (routing_deterministic demo_catalog "refund" _)).
  apply (decide_by_eval (NoDup _)). vm_compute. reflexivity.
Defined.

Definition demo_snapshot : OrderSnapshot :=
  mkOrder "ORD-1" "CUST-1" "delivered" 3 (f_of_Z 40) "card" "order:ORD-1".

Definition demo_refund_package : PolicyPackage :=
  or_else demo_draft (rbind (approve demo_signer
    (mkPackage "PKG-2" "cs_refund" "1" "US" "alice"
       [("allowed_actions", VList [VStr "issue_refund"])] DRAFT None None None None) "bob")
    (activate demo_signer)).

Definition demo_refund_start : World (list string) :=
  mkWorld empty_core_db (mkSys 0 0) [row_of demo_refund_package] empty_registry [] [].

Definition demo_refunded : World (list string) * result ActionRecord :=
  run (process_refund demo_signer demo_gateway (mkRefundService 30) "CASE-9" "CUST-1" "CUST-1"
         "PKG-2" "1" demo_snapshot "damaged" (Some "MSG-1")) demo_refund_start.

Example refund_only_eligible_witness :
  ∃ c, w_trace demo_refunded.1 = [EffDispatch c] ∧ c_idempotency_key c = "refund:ORD-1".
Proof.
  destruct (refund_only_eligible demo_signer demo_gateway (mkRefundService 30) demo_resolver_laws
    "CASE-9" "CUST-1" "CUST-1" "PKG-2" "1" demo_snapshot "damaged" (Some "MSG-1")
    demo_refund_start demo_refunded.1 demo_refunded.2)
    as [[Ht|(_ & _ & c & Ht & _ & Hk & _)] _].
  - apply db_inv_empty.
  - vm_compute. reflexivity.
  - apply surjective_pairing.
  - exfalso. vm_compute in Ht. discriminate Ht.
  - exists c. split; [exact Ht|exact Hk].
Defined.
