(* ===== verification/BridgeProps.v ===== *)
(** * Properties of the proposal bridge *)

From Stdlib Require Import SpecFloat.
From S2P Require Import Prelude PyValue Numerals Prog Table ActionSpecs Policy KernelData World KernelStore KernelInv CaseKernel Fixtures PolicyStore PolicyProps Auth Gateway GatewayProps ActionService Domains Bridge ServiceProps.

(** No action was recorded, queued or dispatched. *)
Definition no_action {Ext} (w w' : World Ext) : Prop :=
  w_trace w' = w_trace w ∧ t_actions (w_core w') = t_actions (w_core w) ∧
  t_outbox (w_core w') = t_outbox (w_core w).

#[export] Instance no_action_preorder {Ext} : PreOrder (@no_action Ext).
Proof.
  split; [by intros w|]. intros w1 w2 w3 (?&?&?) (?&?&?). split_and!; congruence.
Qed.

Section bridge.
Context `{Hmac} (sg : PolicySigner) `{Oracle} `{Render} `{Pydantic} `{Digest} {Ext : Type}.
Context (gw : ActionGateway Ext) (rp : ResourceProvider Ext) (br : ActionBridge Ext).
Context `{!ResourceProviderLaws rp}.
Implicit Types w : World Ext.

Lemma run_idle {A} (p : prog (World Ext) A) w w' r :
  steps idle p → run p w = (w', r) → idle w w'.
Proof. intros Hp Hr. pose proof (steps_run idle p w Hp) as Hi. by rewrite Hr in Hi. Qed.

(** ** Running the parts alone *)

Lemma run_get_owned pid customer actor w :
  run (_get_owned pid customer actor) w =
  (w, match tget p_proposal_id pid (t_proposals (w_core w)) with
      | None => inl (KeyError pid)
      | Some p =>
          if String.eqb (p_customer_id p) customer then
            if match actor with Some a => String.eqb (p_actor_id p) a | None => true end
            then inr p
            else inl (ValueError "Action proposal does not belong to this actor")
          else inl (ValueError "Action proposal does not belong to this customer")
      end).
Proof.
  unfold _get_owned, get_action_proposal. rewrite run_bind, run_query.
  cbn [tbl_get action_proposals].
  change (select_one _ _) with (tget p_proposal_id pid (t_proposals (w_core w))).
  destruct (tget p_proposal_id pid _) as [p|]; [|done].
  rewrite run_bind, run_require. destruct (String.eqb _ _); [|done].
  rewrite run_bind, run_require. by destruct (match actor with Some _ => _ | None => _ end).
Qed.

(** A proposal update changes no action. *)
Lemma transition_no_action pid s s' ev aid :
  steps (@no_action Ext) (transition_action_proposal pid s s' ev aid).
Proof.
  unfold transition_action_proposal. apply steps_bind; [|intros now; apply steps_bind].
  - apply steps_atomically. by intros w.
  - apply steps_atomically. intros w. unfold mbind, tx_bind, sql_update. by destruct (Nat.eqb _ 1).
  - intros []. unfold get_action_proposal. apply steps_bind.
    + apply steps_atomically. by intros w.
    + intros [r|]; [apply steps_ret|apply steps_throw].
Qed.

Lemma reread_no_action pid : steps (@no_action Ext) (reread pid).
Proof.
  unfold reread, get_action_proposal. apply steps_bind; [|intros [r|]; auto with wf].
  apply steps_atomically. by intros w.
Qed.

Lemma expire_no_action p w w' r : run (_expire p) w = (w', r) → no_action w w'.
Proof.
  intros Hr. assert (steps no_action (_expire p : prog (World Ext) _)) as Hs.
  { unfold _expire, on_conflict. apply steps_try; [apply transition_no_action|].
    intros e. destruct e; try apply steps_throw. apply reread_no_action. }
  pose proof (steps_run no_action _ w Hs) as Hi. by rewrite Hr in Hi.
Qed.

(** ** Proposing *)

(** What a refund proposal is made of: the order's own record, evaluated by the
    refund policy for the authenticated customer. *)
Definition refund_from_record (intent : ActionIntent) (p : ActionProposal) : Prop :=
  ∃ resource order,
    refund_terms br (p_customer_id p) (ai_arguments intent) (res_payload resource)
      = inr (p_payload p, p_preview p) ∧
    dget "order_id" (p_payload p) = Some (VStr order) ∧
    p_idempotency_key p = "refund:" +:+ order.

(** A generic payload is a validated one, stored as it was dumped. *)
Definition validated_payload (p : ActionProposal) : Prop :=
  ∃ d payload, validate_payload d = inr payload ∧ p_payload p = payload_dump payload.

Lemma refund_terms_order customer arguments payload terms :
  refund_terms br customer arguments payload = inr terms →
  ∃ order, dget "order_id" terms.1 = Some (VStr order).
Proof.
  unfold refund_terms, rbind. repeat (case_match; [done|]).
  destruct (rd_eligible _); [|done]. case_match; [done|]. intros [= <-]. by eexists.
Qed.

(** What a proposal records of its context. *)
Definition bound_to (context : TrustedActionContext) (intent : ActionIntent) (p : ActionProposal) :
    Prop :=
  p_action p = ai_action intent ∧ p_customer_id p = ta_customer_id context ∧
  p_actor_id p = ta_actor_id context ∧ p_case_id p = ta_case_id context ∧
  p_policy_package_id p = ta_policy_package_id context ∧
  p_conversation_id p = ta_conversation_id context ∧ p_message_id p = ta_message_id context ∧
  p_status p = P_PENDING ∧
  p_expires_at p = (p_created_at p + seconds (br_ttl_seconds br))%Z.

Lemma run_prepare intent context w w' prepared :
  run (if String.eqb (ai_action intent) "issue_refund"
       then _prepare_refund rp br intent context else _prepare_generic rp intent context) w
    = (w', inr prepared) →
  idle w w' ∧
  if String.eqb (ai_action intent) "issue_refund"
  then ∃ resource, refund_terms br (ta_customer_id context) (ai_arguments intent)
                     (res_payload resource) = inr (pp_payload prepared, pp_preview prepared)
  else ∃ d payload, validate_payload d = inr payload ∧ pp_payload prepared = payload_dump payload.
Proof.
  destruct (String.eqb _ _).
  - unfold _prepare_refund. rewrite run_bind, run_require. destruct (truthy _); [|done].
    intros [(e & _ & [=])|(w1 & [resource|] & Hl & Hr)]%run_bind_cases; [|done].
    apply run_idle in Hl as Hi; [|by apply _load_resource_idle].
    rewrite run_bind, run_lift in Hr.
    destruct (refund_terms _ _ _ _) as [e|terms] eqn:Ht; [done|]. injection Hr as <- <-.
    split; [done|]. exists resource. by destruct terms.
  - unfold _prepare_generic. destruct (dget _ ACTION_SPECIFICATIONS) as [spec|]; [|done].
    intros [(e & _ & [=])|(w1 & resource & Hl & Hr)]%run_bind_cases.
    apply run_idle in Hl as Hi; [|by apply _load_resource_idle].
    rewrite run_bind, run_lift in Hr. destruct (generic_payload _ _ _ _) as [e|d]; [done|].
    rewrite run_bind, run_lift in Hr. destruct (validate_payload d) as [e|payload] eqn:Hv; [done|].
    injection Hr as <- <-. split; [done|]. by exists d, payload.
Qed.

(** What a run of [propose] leaves behind. *)
Definition proposed (intent : ActionIntent) (context : TrustedActionContext) w w'
    (r : result ActionProposal) : Prop :=
  match r with
  | inl _ => idle w w'
  | inr p =>
      w_trace w' = w_trace w ∧
      w_core w' = tbl_set action_proposals (t_proposals (w_core w) ++ [p]) (w_core w) ∧
      bound_to context intent p ∧ dhas (p_action p) ACTION_SPECIFICATIONS = true ∧
      (if String.eqb (ai_action intent) "issue_refund" then refund_from_record intent p
       else validated_payload p)
  end.

Lemma run_propose intent context w w' r :
  run (propose rp br intent context) w = (w', r) → proposed intent context w w' r.
Proof.
  intros Hr. unfold proposed, propose in *. rewrite run_bind, run_require in Hr.
  destruct (dhas (ai_action intent) _) eqn:Hcat; [|by injection Hr as <- <-].
  apply run_bind_cases in Hr as [(e & Hc & ->)|(w1 & context' & Hc & Hr)].
  { destruct (br_connector_resolver br) as [resolve|]; [|done]. rewrite run_bind, run_lift in Hc.
    destruct (resolve _ _ _ _); [by injection Hc as <- <-|done]. }
  assert (w1 = w ∧ bound_to context intent = bound_to context' intent ∧
          ta_customer_id context' = ta_customer_id context) as (-> & -> & Hcust).
  { destruct (br_connector_resolver br) as [resolve|]; [|by injection Hc as <- <-].
    rewrite run_bind, run_lift in Hc. destruct (resolve _ _ _ _); [done|]. by injection Hc as <- <-. }
  apply run_bind_cases in Hr as [(e & Hp & ->)|(w2 & prepared & Hp & Hr)].
  { destruct (String.eqb _ _); (eapply run_idle; [|exact Hp]);
      [unfold _prepare_refund|unfold _prepare_generic]; step_through. }
  apply run_prepare in Hp as [Hi Hprep].
  rewrite run_bind in Hr. unfold read_clock in Hr. rewrite run_atomically in Hr.
  cbv beta iota in Hr. rewrite run_bind in Hr. unfold new_uuid in Hr.
  rewrite run_atomically in Hr. cbv beta iota in Hr. rewrite run_bind, run_lift in Hr.
  destruct (_idempotency_key _ _ _) as [e|key] eqn:Hkey; [by injection Hr as <- <-|].
  rewrite run_bind, run_lift in Hr.
  destruct (validate_version _) as [e|version]; [by injection Hr as <- <-|].
  unfold create_action_proposal in Hr.
  apply run_bind_cases in Hr as [(e & Hins & ->)|(w3 & [] & Hins & Hr)].
  { rewrite run_commit in Hins. unfold sql_insert, tinsert in Hins.
    destruct (tget _ _ _); [by injection Hins as <- _|done]. }
  apply run_commit_inr in Hins as (s & d & Ht & ->). apply sql_insert_inr in Ht as (-> & _ & ->).
  injection Hr as <- <-. destruct Hi as [Hcore Htr].
  split; [exact Htr|]. split; [cbn; by rewrite Hcore|]. split; [by unfold bound_to|].
  split; [exact Hcat|].
  unfold _idempotency_key in Hkey. destruct (String.eqb _ _).
  - destruct Hprep as (resource & Hterms).
    pose proof (refund_terms_order _ _ _ _ Hterms) as [order Ho]. cbn in Ho.
    unfold dindex in Hkey. rewrite Ho in Hkey. injection Hkey as <-.
    exists resource, order. by split_and!.
  - exact Hprep.
Qed.

(** Proposing executes nothing: on success the one change is a new pending
    proposal for a catalogued action, bound to the host's context (never to the
    intent's arguments) and expiring after the configured time; a refund's terms
    and its key come from the order's record under the refund policy, any other
    payload is a validated one; on an error nothing is recorded. *)
Theorem propose_only_proposes intent context w w' r :
  run (propose rp br intent context) w = (w', r) →
  match r with
  | inl _ => idle w w'
  | inr p =>
      w_trace w' = w_trace w ∧
      w_core w' = tbl_set action_proposals (t_proposals (w_core w) ++ [p]) (w_core w) ∧
      bound_to context intent p ∧ dhas (p_action p) ACTION_SPECIFICATIONS = true ∧
      (if String.eqb (ai_action intent) "issue_refund" then refund_from_record intent p
       else validated_payload p)
  end.
Proof. exact (run_propose intent context w w' r). Qed.

(** ** Confirming *)

(** The resource the proposal was made from is still at the proposed version. *)
Definition resource_unchanged (p : ActionProposal) w : Prop :=
  match p_resource_type p, p_resource_id p with
  | Some t, Some i =>
      ∃ r, (run (get_resource rp t i) w).2 = inr (Some r) ∧
           py_eqb (res_version r)
             match p_resource_version p with Some z => VInt z | None => VNone end = true
  | _, _ => True
  end.

Lemma run_verify_resource p w w' :
  run (_verify_resource_version rp p) w = (w', inr tt) → resource_unchanged p w.
Proof.
  unfold _verify_resource_version, resource_unchanged.
  destruct (p_resource_type p) as [t|]; [|done]. destruct (p_resource_id p) as [i|]; [|done].
  unfold _load_resource. destruct (negb _ && negb _); [done|]. destruct (negb _ || negb _); [done|].
  change (default "" (Some t)) with t. change (default "" (Some i)) with i. rewrite !run_bind.
  destruct (run (get_resource rp t i) w) as [w1 [e|[r|]]] eqn:Hg; [done| |done].
  cbn [option_map]. rewrite run_ret, run_require. destruct (py_eqb _ _) eqn:Hv; [|done].
  intros _. by exists r.
Qed.

(** The world after one reading of the clock. *)
Definition after_reading w : World Ext :=
  set_sys (mkSys (S (n_clock (w_sys w))) (n_uuid (w_sys w))) w.

(** The conditions under which a confirmation reaches the gateway, all of the world
    it starts from: the expiry by the first reading of its clock, the resource as
    the system of record returns it next. *)
Record confirmable (p : ActionProposal) (context : ActionConfirmationContext)
    (spec : ActionSpecification) (payload : ActionPayload) w : Prop := {
  cf_pending : p_status p = P_PENDING;
  cf_customer : p_customer_id p = ac_customer_id context;
  cf_actor : p_actor_id p = ac_actor_id context;
  cf_fresh : (now_at (n_clock (w_sys w)) < p_expires_at p)%Z;
  cf_resource : resource_unchanged p (after_reading w);
  cf_binding : _verify_connector_binding br p = inr tt;
  cf_catalog : dget (p_action p) ACTION_SPECIFICATIONS = Some spec;
  cf_consent : requires_consent spec = true → str_truthy (ac_consent_evidence_ref context) = true;
  cf_approval : requires_approval spec = true → str_truthy (ac_approval_evidence_ref context) = true;
  cf_payload : validate_payload (p_payload p) = inr payload;
  cf_request : request_valid (request_of p context spec payload) = true
}.

Lemma check_evidence_ok action spec context :
  check_evidence action spec context = inr tt →
  (requires_consent spec = true → str_truthy (ac_consent_evidence_ref context) = true) ∧
  (requires_approval spec = true → str_truthy (ac_approval_evidence_ref context) = true).
Proof.
  unfold check_evidence. destruct (requires_consent spec), (str_truthy (ac_consent_evidence_ref context)),
    (requires_approval spec), (str_truthy (ac_approval_evidence_ref context)); done.
Qed.

(** Where a confirmation ends: without an action, or at the gateway. *)
Definition confirm_reaches pid context w w' (r : result ActionProposal) : Prop :=
  no_action w w' ∨
  ∃ p spec payload w1,
    tget p_proposal_id pid (t_proposals (w_core w)) = Some p ∧
    confirmable p context spec payload w ∧ idle w w1 ∧
    run (execute sg gw rp p context (request_of p context spec payload)) w1 = (w', r).

Lemma run_confirm pid context w w' r :
  run (confirm sg gw rp br pid context) w = (w', r) → confirm_reaches pid context w w' r.
Proof.
  intros Hr. unfold confirm in Hr. rewrite run_bind, run_get_owned in Hr.
  destruct (tget p_proposal_id pid _) as [p|] eqn:Hp; [|by injection Hr as <- _; left].
  destruct (String.eqb_spec (p_customer_id p) (ac_customer_id context)) as [Hcu|];
    [|by injection Hr as <- _; left].
  destruct (String.eqb_spec (p_actor_id p) (ac_actor_id context)) as [Hac|]; [|by injection Hr as <- _; left].
  destruct (p_status p) eqn:Hst; [|by injection Hr as <- _; left..].
  unfold confirm_pending in Hr. rewrite run_bind in Hr. unfold read_clock in Hr.
  rewrite run_atomically in Hr. cbv beta iota in Hr. set (w0 := set_sys _ w) in Hr.
  destruct (p_expires_at p <=? _)%Z eqn:Hexp.
  { left. apply expire_no_action in Hr as (?&?&?). by split_and!. }
  apply Z.leb_gt in Hexp.
  assert (∀ w2, idle w0 w2 → no_action w w2) as Hna.
  { intros w2 [Hc2 Ht2]. split_and!; [exact Ht2|by rewrite Hc2..]. }
  assert (steps idle (_verify_resource_version rp p)) as Hvi
    by (unfold _verify_resource_version; step_through).
  apply run_bind_cases in Hr as [(e & Hv & _)|(w2 & [] & Hv & Hr)];
    apply (run_idle _ _ _ _ Hvi) in Hv as Hi; [left; auto|].
  apply run_verify_resource in Hv. rewrite run_bind, run_lift in Hr.
  destruct (_verify_connector_binding br p) as [e|[]] eqn:Hb; [injection Hr as <- _; left; auto|].
  destruct (dget (p_action p) _) as [spec|] eqn:Hspec; [|injection Hr as <- _; left; auto].
  rewrite run_bind, run_lift in Hr.
  destruct (check_evidence _ _ _) as [e|[]] eqn:Hev; [injection Hr as <- _; left; auto|].
  rewrite run_bind, run_lift in Hr.
  destruct (validate_payload _) as [e|payload] eqn:Hpl; [injection Hr as <- _; left; auto|].
  rewrite run_bind, run_require in Hr.
  destruct (request_valid _) eqn:Hq; [|injection Hr as <- _; left; auto].
  apply check_evidence_ok in Hev as [Hcon Happ].
  right. exists p, spec, payload, w2. split_and!; [done| |exact Hi|exact Hr].
  by split.
Qed.

(** A confirmation reaches the gateway only for a stored proposal that is
    pending, of this very customer and actor, not expired, whose resource is at
    the proposed version and whose connector binding is the proposed one, with
    the consent or approval the catalog demands; what is submitted is then the
    stored payload and nothing else.  In every other case no action is recorded,
    queued or dispatched. *)
Theorem confirm_guards pid context w w' r :
  run (confirm sg gw rp br pid context) w = (w', r) →
  no_action w w' ∨
  ∃ p spec payload w1,
    tget p_proposal_id pid (t_proposals (w_core w)) = Some p ∧
    confirmable p context spec payload w ∧ idle w w1 ∧
    run (execute sg gw rp p context (request_of p context spec payload)) w1 = (w', r).
Proof. exact (run_confirm pid context w w' r). Qed.
End bridge.

(** ** From the proposal to the effect *)
Section effect.
Context `{Hmac} (sg : PolicySigner) `{Oracle} `{Render} `{Pydantic} `{Digest} {Ext : Type}.
Context (gw : ActionGateway Ext) (rp : ResourceProvider Ext) (br : ActionBridge Ext).
Context (Hpv : ∀ pv, gw_policy_resolver gw = Some pv → PolicyResolverLaws pv).
Context `{!ResourceProviderLaws rp}.
Implicit Types w : World Ext.

Lemma on_conflict_transition_no_action pid s s' ev aid h w w' r :
  (∀ e, steps (@no_action Ext) (h e)) →
  run (on_conflict (transition_action_proposal pid s s' ev aid) h) w = (w', r) →
  no_action w w'.
Proof.
  intros Hh Hr.
  assert (steps no_action (on_conflict (transition_action_proposal pid s s' ev aid) h)) as Hs.
  { unfold on_conflict. apply steps_try; [apply transition_no_action|].
    intros e. destruct e; auto with wf. }
  pose proof (steps_run no_action _ w Hs) as Hi. by rewrite Hr in Hi.
Qed.

Lemma get_owned_no_action pid customer actor :
  steps (@no_action Ext) (_get_owned pid customer actor).
Proof.
  unfold _get_owned, get_action_proposal. apply steps_bind.
  - apply steps_atomically. by intros w.
  - intros [p|]; [|apply steps_throw]. step_through.
Qed.

(** C14: what a confirmation makes a provider execute is what was proposed: for a
    key not used before, either no provider is called, or one is, once, with the
    case, key, policy and payload of the stored proposal, which was confirmable,
    and the evidence of this very confirmation. *)
Theorem confirm_executes_proposal pid context w w' r p :
  db_inv (w_core w) →
  tget p_proposal_id pid (t_proposals (w_core w)) = Some p →
  tget action_idem (p_idempotency_key p) (t_actions (w_core w)) = None →
  run (confirm sg gw rp br pid context) w = (w', r) →
  w_trace w' = w_trace w ∨
  ∃ spec payload c,
    confirmable rp br p context spec payload w ∧
    w_trace w' = w_trace w ++ [EffDispatch c] ∧
    c_action c = payload_action payload ∧ c_case_id c = p_case_id p ∧
    c_idempotency_key c = p_idempotency_key p ∧
    c_policy_package_id c = p_policy_package_id p ∧
    c_consent_evidence_ref c =
      (if requires_consent spec then ac_consent_evidence_ref context else None) ∧
    c_approval_evidence_ref c =
      (if requires_approval spec then ac_approval_evidence_ref context else None) ∧
    (c_parameters c = model_dump payload ∨ dict_eqb (c_parameters c) (model_dump payload) = true).
Proof.
  intros Hw Hp Hkey Hr.
  apply run_confirm in Hr as [(Ht & _)|(p' & spec & payload & w1 & Hp' & Hcf & [Hc1 Ht1] & Hr)];
    [by left| |done].
  rewrite Hp in Hp'. injection Hp' as <-. unfold execute in Hr.
  assert (∃ w2 r2, run (submit sg gw rp (request_of p context spec payload) (ac_actor_id context)) w1
                     = (w2, r2) ∧ w_trace w' = w_trace w2) as (w2 & r2 & Hs & Ht2).
  { apply run_bind_cases in Hr as [(e & Hs & _)|(w2 & a & Hs & Hr)]; [by eexists _, _|].
    apply on_conflict_transition_no_action in Hr as (Ht2 & _); [by eexists _, _|].
    intros e. apply steps_bind; [apply get_owned_no_action|]. intros current.
    by destruct (decide _). }
  apply run_submit in Hs; [|done..|by rewrite Hc1|by rewrite Hc1].
  unfold submitted_effect in Hs. rewrite Ht1, <- Ht2 in Hs.
  destruct Hs as [Hs|(? & c & ? & _ & Hs & (? & ? & ? & ? & ? & ? & ?) & _)]; [by left|right].
  exists spec, payload, c. by split_and!.
Qed.

(** The decision on a stored proposal, alone. *)
Lemma run_transition_proposal pid p s s' ev aid w :
  db_inv (w_core w) →
  tget p_proposal_id pid (t_proposals (w_core w)) = Some p → p_status p = s →
  let f := set_proposal_status s' ev aid (now_at (n_clock (w_sys w))) in
  run (transition_action_proposal pid s s' ev aid) w =
    (set_core (tbl_set action_proposals
                 (update_where (proposal_in pid s) f (t_proposals (w_core w))) (w_core w))
       (mkSys (S (n_clock (w_sys w))) (n_uuid (w_sys w))) w, inr (f p)).
Proof.
  intros Hw Hp Hst f. assert (p_proposal_id p = pid) as Hid by by apply tget_key in Hp as [? _].
  assert (proposal_in pid s p = true) as Hin.
  { unfold proposal_in. by rewrite Hid, Hst, !bool_decide_true by done. }
  unfold transition_action_proposal. rewrite run_bind. unfold read_clock.
  rewrite run_atomically. cbv beta iota. rewrite run_bind, run_commit.
  assert (rowcount (proposal_in pid s) (t_proposals (w_core w)) = 1) as Hn.
  { rewrite (rowcount_key p_proposal_id pid), Hp; [by rewrite Hin|apply Hw|].
    intros r. unfold proposal_in. intros. by reflect_bools. }
  unfold mbind at 1, tx_bind at 1, sql_update at 1.
  cbn [tbl_get action_proposals w_core set_core set_sys w_sys]. rewrite Hn.
  cbn [tx_require Nat.eqb mret tx_ret]. unfold tx_ret. rewrite run_bind.
  unfold get_action_proposal. rewrite run_query.
  cbn [tbl_get action_proposals w_core set_core tbl_set t_proposals].
  change (select_one (λ r, bool_decide (p_proposal_id r = pid)) ?l) with (tget p_proposal_id pid l).
  rewrite (tget_update p_proposal_id) by by apply keeps_key_all.
  rewrite Hp. cbn. by rewrite Hin.
Qed.

(** An owned pending proposal that has expired is never executed: confirming
    it, or asking its status, marks it expired, and records, queues and
    dispatches nothing. *)
Theorem expired_never_executes pid context w p :
  db_inv (w_core w) →
  tget p_proposal_id pid (t_proposals (w_core w)) = Some p →
  p_status p = P_PENDING → p_customer_id p = ac_customer_id context →
  p_actor_id p = ac_actor_id context → (p_expires_at p ≤ now_at (n_clock (w_sys w)))%Z →
  run (confirm sg gw rp br pid context) w =
    run (status pid (ac_customer_id context) (Some (ac_actor_id context))) w ∧
  ∃ w' p', run (confirm sg gw rp br pid context) w = (w', inr p') ∧ no_action w w' ∧
    p_status p' = P_EXPIRED ∧ p_proposal_id p' = pid ∧
    tget p_proposal_id pid (t_proposals (w_core w')) = Some p'.
Proof.
  intros Hw Hp Hst Hcu Hac Hexp.
  assert (run (confirm sg gw rp br pid context) w =
          run (status pid (ac_customer_id context) (Some (ac_actor_id context))) w ∧
          run (confirm sg gw rp br pid context) w =
          run (_expire p) (set_sys (mkSys (S (n_clock (w_sys w))) (n_uuid (w_sys w))) w))
    as [Heq Hrun].
  { unfold confirm, status. rewrite !run_bind, run_get_owned, Hp, Hcu, Hac, !String.eqb_refl, Hst.
    unfold confirm_pending. rewrite !run_bind. unfold read_clock. rewrite !run_atomically.
    cbv beta iota. apply Z.leb_le in Hexp. by rewrite Hexp. }
  split; [exact Heq|]. rewrite Hrun.
  set (w0 := set_sys _ w). assert (p_proposal_id p = pid) as Hid by by apply tget_key in Hp as [? _].
  unfold _expire, on_conflict. rewrite run_try, Hid.
  rewrite (run_transition_proposal pid p) by done.
  eexists _, _. split; [reflexivity|]. split_and!; [done..|].
  cbn [tbl_get action_proposals w_core set_core tbl_set t_proposals w0 set_sys].
  by rewrite (tget_update p_proposal_id), Hp by (by apply keeps_key_all); cbn;
    unfold proposal_in; rewrite Hid, Hst, !bool_decide_true by done.
Qed.
End effect.

(** ** A concrete bridge *)

(** A validator that accepts exactly the dumped form. *)
Definition str_field (k : string) (d : dict value) : option string :=
  match dget k d with Some (VStr s) => Some s | _ => None end.
Definition float_field (k : string) (d : dict value) : option float :=
  match dget k d with Some (VFloat f) => Some f | Some (VInt z) => Some (f_of_Z z) | _ => None end.

Definition strict_payload (d : dict value) : option ActionPayload :=
  let s k := str_field k d in
  let f k := float_field k d in
  match dget "action" d with
  | Some (VStr action) =>
      if String.eqb action "issue_refund" then
        o ← s "order_id"; c ← s "customer_id"; a ← f "refund_amount"; u ← s "currency";
        m ← s "payment_method"; r ← s "reason"; mret (IssueRefundPayload o c a u m r)
      else if String.eqb action "issue_store_credit" then
        o ← s "order_id"; c ← s "customer_id"; a ← f "amount"; u ← s "currency"; r ← s "reason";
        mret (StoreCreditPayload o c a u r)
      else if String.eqb action "update_case_status" then
        t ← s "target_status"; r ← s "reason"; mret (CaseStatusPayload t r)
      else if String.eqb action "file_eft_dispute" then
        c ← s "customer_id"; t ← s "transaction_id"; a ← f "amount"; y ← s "dispute_type";
        mret (EftDisputePayload c t a y)
      else if String.eqb action "issue_provisional_credit" then
        c ← s "customer_id"; i ← s "dispute_id"; a ← f "amount";
        mret (ProvisionalCreditPayload c i a)
      else if String.eqb action "escalate_to_supervisor" then
        r ← s "reason"; p ← s "priority"; mret (EscalationPayload r p)
      else if String.eqb action "add_case_note" then n ← s "note"; mret (CaseNotePayload n)
      else if String.eqb action "flag_account" then
        a ← s "account_id"; r ← s "reason"; x ← s "restriction";
        mret (AccountRestrictionPayload a r x)
      else if String.eqb action "submit_sar" then
        a ← s "account_id"; i ← s "alert_id"; n ← s "narrative_ref"; mret (SarPayload a i n)
      else if String.eqb action "close_alert" then
        i ← s "alert_id"; r ← s "resolution"; mret (CloseAlertPayload i r)
      else None
  | _ => None
  end.

#[export] Instance demo_pydantic : Pydantic := {
  validate_payload d :=
    match strict_payload d with
    | Some p => if payload_valid p then inr p else inl (OtherError "ValidationError")
    | None => inl (OtherError "ValidationError")
    end;
  validate_version v :=
    match v with
    | VInt z => inr (Some z)
    | VNone => inr None
    | _ => inl (OtherError "ValidationError")
    end
}.

#[export] Instance demo_pydantic_laws : PydanticLaws.
Proof.
  split; try done; cbn -[strict_payload payload_valid].
  - intros d p. destruct (strict_payload d) as [q|]; [|done].
    destruct (payload_valid q) eqn:E; [|done]. by intros [= <-].
  - intros d p. unfold strict_payload. destruct (dget "action" d) as [[| | | |a| |]|]; try done.
    repeat (match goal with |- context [String.eqb a ?b] => destruct (String.eqb_spec a b) as [->|_] end;
      [repeat match goal with
       | |- context [str_field ?k d] => destruct (str_field k d); [|done]
       | |- context [float_field ?k d] => destruct (float_field k d); [|done]
       end; cbn -[payload_valid]; destruct (payload_valid _); [by intros [= <-]|done]|]).
    done.
  - intros p Hp. destruct p; cbn -[payload_valid]; by rewrite Hp.
Qed.

#[export] Instance demo_digest : Digest := λ _, "0123456789abcdef01234567".

Definition demo_bridge : ActionBridge (list string) :=
  mkBridge None (mkRefundService 30) 900.
Definition demo_context : TrustedActionContext :=
  mkTrusted "CUST-1" "CUST-1" "CASE-9" "refund_request" "1" "PKG-1" None None None None None.
Definition demo_confirmation : ActionConfirmationContext :=
  mkConfirmation "CUST-1" "CUST-1" (Some "MSG-2") None.
Definition demo_intent : ActionIntent := mkIntent "issue_refund" [("order_id", VStr "ORD-1")] None None.

Definition demo_proposing : World (list string) * result ActionProposal :=
  run (propose demo_resources demo_bridge demo_intent demo_context) demo_start.
Definition demo_proposed : ActionProposal := or_else demo_proposal demo_proposing.2.
Definition demo_with_proposal : World (list string) := demo_proposing.1.

(** Two hours later. *)
Definition demo_later : World (list string) :=
  set_sys (mkSys 7200 5) demo_with_proposal.

Definition demo_confirmed : World (list string) * result ActionProposal :=
  run (confirm demo_signer demo_gateway demo_resources demo_bridge "APR-0" demo_confirmation)
    demo_with_proposal.

Lemma demo_with_proposal_inv : db_inv (w_core demo_with_proposal).
Proof.
  replace (w_core demo_with_proposal)
    with (tbl_set action_proposals [demo_proposed] empty_core_db) by (vm_compute; reflexivity).
  split; try (apply (decide_by_eval (NoDup _)); vm_compute; reflexivity);
    intros ? ?%not_elem_of_nil; done.
Qed.

Example propose_only_proposes_witness :
  w_trace demo_proposing.1 = [] ∧ p_status demo_proposed = P_PENDING.
Proof.
  destruct (propose_only_proposes demo_resources demo_bridge demo_intent demo_context demo_start
    demo_proposing.1 (inr demo_proposed)) as (Ht & _ & (_ & _ & _ & _ & _ & _ & _ & Hp & _) & _).
  - vm_compute. reflexivity.
  - split; [exact Ht|exact Hp].
Defined.

Example confirm_guards_witness :
  ∃ p spec payload,
    confirmable demo_resources demo_bridge p demo_confirmation spec payload demo_with_proposal.
Proof.
  destruct (confirm_guards demo_signer demo_gateway demo_resources demo_bridge "APR-0"
    demo_confirmation demo_with_proposal demo_confirmed.1 demo_confirmed.2)
    as [[Ht _]|(p & spec & payload & w1 & _ & Hc & _)].
  - apply surjective_pairing.
  - exfalso. vm_compute in Ht. discriminate Ht.
  - exists p, spec, payload. exact Hc.
Defined.

Example confirm_executes_proposal_witness :
  ∃ c, w_trace demo_confirmed.1 = [EffDispatch c] ∧ c_idempotency_key c = "refund:ORD-1".
Proof.
  destruct (confirm_executes_proposal demo_signer demo_gateway demo_resources demo_bridge
    demo_resolver_laws "APR-0" demo_confirmation demo_with_proposal demo_confirmed.1
    demo_confirmed.2 demo_proposed demo_with_proposal_inv)
    as [Ht|(spec & payload & c & _ & Ht & _ & _ & Hk & _)].
  - vm_compute. reflexivity.
  - vm_compute. reflexivity.
  - apply surjective_pairing.
  - exfalso. vm_compute in Ht. discriminate Ht.
  - exists c. split; [exact Ht|exact Hk].
Defined.

Example expired_never_executes_witness :
  ∃ w' p', run (confirm demo_signer demo_gateway demo_resources demo_bridge "APR-0"
                  demo_confirmation) demo_later = (w', inr p') ∧ p_status p' = P_EXPIRED.
Proof.
  destruct (expired_never_executes demo_signer demo_gateway demo_resources demo_bridge "APR-0"
    demo_confirmation demo_later demo_proposed demo_with_proposal_inv)
    as (_ & w' & p' & Hr & _ & Hp & _); [vm_compute; reflexivity..|vm_compute; discriminate|].
  exists w', p'. split; [exact Hr|exact Hp].
Defined.

(** ** Two things the bridge does not prevent *)

(** [cancel] asks whether the action exists and then cancels in two steps, and
    [confirm] submits before it moves the proposal: a cancellation that falls in
    between leaves a cancelled proposal whose refund was executed. *)
Definition demo_race : list (prog (World (list string)) ActionProposal) :=
  [ confirm demo_signer demo_gateway demo_resources demo_bridge "APR-0" demo_confirmation;
    cancel "APR-0" demo_confirmation ].

(** The cancellation reads the proposal and the (absent) action; the confirmation
    submits; the cancellation takes effect; the confirmation ends. *)
Definition demo_race_schedule : list nat :=
  [1; 1] ++ replicate 34 0 ++ replicate 3 1 ++ replicate 5 0.

Definition dispatched_actions (l : list effect) : list (string * string) :=
  omap (λ e, match e with
             | EffDispatch c => Some (c_action c, c_idempotency_key c)
             | EffReconcile _ => None
             end) l.

Example cancelled_yet_executed :
  let s := schedule demo_race_schedule demo_with_proposal demo_race in
  map p_status (t_proposals (w_core s.1)) = [P_CANCELLED] ∧
  dispatched_actions (w_trace s.1) = [("issue_refund", "refund:ORD-1")] ∧
  map (λ p, option_map is_ok (finished p)) s.2 = [Some false; Some true].
Proof. vm_compute. split_and!; reflexivity. Qed.

(** The arguments of a generic intent may name another action: the discriminator
    of the payload is theirs, not the intent's.  An order outside the refund
    window, whose refund the policy rejects, is refunded through a store-credit
    intent, under a key that does not protect the order. *)
Definition late_order : Resource :=
  mkResource
    [ ("order_id", VStr "ORD-2"); ("customer_id", VStr "CUST-1"); ("amount", VFloat (f_of_Z 40));
      ("currency", VStr "USD"); ("payment_method", VStr "card");
      ("days_since_delivery", VInt 90) ] (VInt 1).

Definition late_resources : ResourceProvider (list string) :=
  mkResourceProvider (λ t i,
    mret (if String.eqb t "order" && String.eqb i "ORD-2" then Some late_order else None)).

Definition late_refund : ActionIntent :=
  mkIntent "issue_refund" [] (Some "order") (Some "ORD-2").
Definition smuggled_refund : ActionIntent :=
  mkIntent "issue_store_credit"
    [ ("action", VStr "issue_refund"); ("refund_amount", VInt 40);
      ("payment_method", VStr "card"); ("reason", VStr "late") ] (Some "order") (Some "ORD-2").

Definition smuggled : World (list string) :=
  (run (propose late_resources demo_bridge smuggled_refund demo_context) demo_start).1.

Example smuggled_action_executes :
  (run (propose late_resources demo_bridge late_refund demo_context) demo_start).2
    = inl (ValueError "Refund is not eligible: outside_refund_window") ∧
  map p_action (t_proposals (w_core smuggled)) = ["issue_store_credit"] ∧
  dispatched_actions (w_trace (run (confirm demo_signer demo_gateway late_resources demo_bridge
                                      "APR-0" demo_confirmation) smuggled).1)
    = [("issue_refund", "issue_store_credit:0123456789abcdef01234567")].
Proof. vm_compute. split_and!; reflexivity. Qed.
