(* ===== verification/ConnectorProps.v ===== *)
(** * Theorems about the adapters over the reference database *)

From Stdlib Require Import SpecFloat.
From S2P Require Import Prelude PyValue PyString Numerals Prog RelyGuarantee Table ActionSpecs Policy KernelData World Fixtures Auth Gateway ActionService Domains Sandbox Reference Connectors.

Lemma lift_bind {W A B} (x : A) (k : A → prog W B) : lift_result (inr x) ≫= k = k x.
Proof. done. Qed.

(** ** Rows and constraints *)

Lemma text_is_spec column s (r : row) : text_is column s r = true ↔ dget column r = Some (VStr s).
Proof.
  unfold text_is. destruct (dget column r) as [[]|]; try (split; [done|intros [=]]).
  rewrite String.eqb_eq. split; [by intros ->|by intros [= ->]].
Qed.

Lemma same_text_spec column s (r r' : row) :
  dget column r = Some (VStr s) → same_text column r r' = text_is column s r'.
Proof. unfold same_text. by intros ->. Qed.

(** The values of a column never repeat. *)
Definition column_unique (column : string) (t : list row) : Prop :=
  NoDup (map (dget_none column) t).

Lemma column_unique_insert column s (r : row) t :
  dget column r = Some (VStr s) → conflicts column r t = false →
  column_unique column t → column_unique column (t ++ [r]).
Proof.
  intros Hr Hc Hu. unfold column_unique. rewrite map_app. apply NoDup_app. split_and!; [done| |apply NoDup_singleton].
  intros v (r' & -> & Hr')%list_elem_of_fmap Hv%list_elem_of_singleton.
  assert (text_is column s r' = true) as Ht.
  { apply text_is_spec. revert Hv. unfold dget_none, dget_or. rewrite Hr.
    by destruct (dget column r') as [v|] eqn:?; [intros ->|intros [=]]. }
  enough (conflicts column r t = true) by congruence.
  apply existsb_exists. exists r'. split; [by apply list_elem_of_In|]. by rewrite (same_text_spec _ s).
Qed.

Lemma rows_of_set s t d : rows_of s (set_rows s t d) = t.
Proof. unfold rows_of, set_rows, dget_or. cbn. by rewrite dget_dset_eq. Qed.

Lemma rows_of_set_other s s' t d :
  sc_name s ≠ sc_name s' → rows_of s (set_rows s' t d) = rows_of s d.
Proof. intros Hne. unfold rows_of, set_rows, dget_or. cbn. by rewrite dget_dset_ne. Qed.

(** ** Refunds under any interleaving *)

Section refunds.
Context `{Oracle} `{TextDigest} (iso : Z → string).

(** A call of the connector: the gateway makes many, from any coroutine. *)
Inductive refund_call :=
  | RefundDispatch (c : ActionCommand)
  | RefundReconcile (c : ActionCommand) (prior : option (dict value)).
Definition command_of_call (r : refund_call) : ActionCommand :=
  match r with RefundDispatch c | RefundReconcile c _ => c end.
Definition make_call (r : refund_call) : prog Reference ConnectorOutcome :=
  match r with
  | RefundDispatch c => refund_dispatch iso c
  | RefundReconcile c prior => refund_reconcile c prior
  end.

(** One refund per order. *)
Definition refunded_once (d : Reference) : Prop :=
  column_unique "order_id" (rows_of refunds d).

Definition order_found (order_id : string) (d : Reference) : option row :=
  head (omap (with_customer d) (select_where (text_is "order_id" order_id) (rows_of orders d))).

(** What the connector may record: the full amount of an order of the command's
    customer, delivered or completed within thirty days. *)
Definition owed (d : Reference) (calls : list refund_call) (r : row) : Prop :=
  ∃ c order_id order f reason now,
    RefundDispatch c ∈ calls ∧ order_found order_id d = Some order ∧
    facts_of_order order = inr f ∧
    text_parameter "order_id" c = inr order_id ∧
    text_parameter "customer_id" c = inr (of_customer f) ∧
    of_status f ∈ ["delivered"; "completed"] ∧ (of_days f <= 30)%Z ∧
    f_leb (of_total f) (S754_zero false) = false ∧
    r = refund_row (refund_id_of c) order_id (VFloat (of_total f)) reason
          (py_or (dget_none "payment_method" order) (VStr "original_payment_method")) (iso now).

(** The refund of an order is in the table. *)
Definition refunded (order_id : string) (d : Reference) : Prop :=
  ∃ r, r ∈ rows_of refunds d ∧ text_is "order_id" order_id r = true.

Section race.
Context (d0 : Reference) (calls : list refund_call).

Definition refunds_inv (d : Reference) : Prop :=
  refunded_once d ∧ rows_of orders d = rows_of orders d0 ∧ rows_of customers d = rows_of customers d0 ∧
  ∀ r, r ∈ rows_of refunds d → r ∈ rows_of refunds d0 ∨ owed d0 calls r.

Definition refunds_kept (d d' : Reference) : Prop :=
  ∀ r, r ∈ rows_of refunds d → r ∈ rows_of refunds d'.
#[export] Instance refunds_kept_preorder : PreOrder refunds_kept.
Proof. split; [by intros d r|]. intros d1 d2 d3 H1 H2 r ?. by apply H2, H1. Qed.

Definition refunds_guar (_ : unit) (d : Reference) (_ : unit) (d' : Reference) : Prop :=
  refunds_inv d → refunds_inv d' ∧ refunds_kept d d'.
#[export] Instance refunds_guar_laws : GuaranteeLaws refunds_inv refunds_kept refunds_guar.
Proof. split; intros g d g' d' Hg Hd; by apply Hg. Qed.

Abbreviation triple := (rg refunds_inv refunds_kept refunds_guar).
Definition success_recorded (r : refund_call) (d : Reference) (_ : unit) (x : result ConnectorOutcome) : Prop :=
  match x with
  | inr o => oc_status o = SUCCEEDED →
             ∃ order_id, text_parameter "order_id" (command_of_call r) = inr order_id ∧ refunded order_id d
  | inl _ => True
  end.

Lemma rg_reference_read {A} d g (f : Reference → A) Q :
  (∀ d', refunds_inv d' → refunds_kept d d' → Q d' tt (inr (f d'))) →
  triple d g (reference_read f) Q.
Proof.
  intros HQ. apply rg_atomically. intros d' Hd' Hk. exists tt. split; [|by apply HQ].
  intros _. by split.
Qed.

Lemma order_found_inv order_id d : refunds_inv d → order_found order_id d = order_found order_id d0.
Proof. intros (_ & Ho & Hc & _). unfold order_found, with_customer. by rewrite Ho, Hc. Qed.

Lemma same_rows_inv d d' :
  (∀ s, rows_of s d' = rows_of s d) → refunds_inv d → refunds_inv d' ∧ refunds_kept d d'.
Proof.
  intros Hs Hd. unfold refunds_inv, refunded_once, refunds_kept. rewrite !Hs. by split.
Qed.

(** Recording a refund that is owed. *)
Lemma rg_refund_create d g c order_id order f reason now Q :
  RefundDispatch c ∈ calls → order_found order_id d0 = Some order → facts_of_order order = inr f →
  text_parameter "order_id" c = inr order_id →
  text_parameter "customer_id" c = inr (of_customer f) →
  of_status f ∈ ["delivered"; "completed"] → (of_days f <= 30)%Z →
  f_leb (of_total f) (S754_zero false) = false →
  (∀ d', refunded order_id d' → Q d' tt (inr tt)) → (∀ d' e, Q d' tt (inl e)) →
  triple d g (refund_create (refund_id_of c) order_id (VFloat (of_total f)) reason
      (py_or (dget_none "payment_method" order) (VStr "original_payment_method")) (iso now)) Q.
Proof.
  intros Hc Ho Hf Hid Hcust Hst Hday Htot Hok Herr. apply rg_atomically. intros d' Hd' _. exists tt.
  cbn [ref_get reference_self]. unfold insert_row, insert_check.
  set (r := refund_row _ _ _ _ _ _).
  destruct (forallb _ _); cbn [rbind fst snd]; [|split; [by intros _|done]].
  destruct (existsb _ _) eqn:Hex; cbn [negb rbind fst snd]; [split; [by intros _|done]|].
  cbn [ref_set reference_self].
  assert (r ∈ rows_of refunds d' ++ [r]) as Hr by (apply elem_of_app; right; by apply list_elem_of_singleton).
  split.
  - intros (Hu & Hor & Hcu & Hall). split.
    + unfold refunds_inv, refunded_once. rewrite rows_of_set, !rows_of_set_other by done.
      split_and!; [|done..|].
      * apply (column_unique_insert _ order_id); [done| |done].
        apply orb_false_iff in Hex as [_ Hex]. by apply orb_false_iff in Hex as [Hex _].
      * intros r' [Hr'| ->%list_elem_of_singleton]%elem_of_app; [auto|]. right.
        exists c, order_id, order, f, reason, now. split_and!; done.
    + intros r' Hr'. rewrite rows_of_set. apply elem_of_app. by left.
  - apply Hok. exists r. rewrite rows_of_set. split; [done|]. by apply text_is_spec.
Qed.

Lemma evaluate_refund_eligible svc order_id customer f_customer status days total :
  rd_eligible (evaluate_refund svc order_id customer f_customer status days total) = true →
  customer = f_customer ∧ status ∈ ["delivered"; "completed"] ∧ (days <= refund_window_days svc)%Z ∧
  f_leb total (S754_zero false) = false.
Proof.
  unfold evaluate_refund. destruct (String.eqb_spec customer f_customer); cbn; [|done].
  case_bool_decide; cbn; [|done]. destruct (_ <? _)%Z eqn:Hd; cbn; [done|].
  destruct (f_leb _ _) eqn:Ht; cbn; [done|]. apply Z.ltb_ge in Hd. auto.
Qed.

Lemma refunded_found order_id d r :
  select_one (text_is "order_id" order_id) (rows_of refunds d) = Some r → refunded order_id d.
Proof. intros [Hr Ht]%select_one_Some. by exists r. Qed.

Lemma dispatch_records c d g :
  RefundDispatch c ∈ calls →
  triple d g (refund_dispatch iso c) (success_recorded (RefundDispatch c)).
Proof.
  intros Hc. unfold refund_dispatch.
  destruct (text_parameter "order_id" c) as [e|order_id] eqn:Hid; [done|]. rewrite lift_bind.
  eapply rg_bind; [by apply (rg_reference_read d g) with (Q := λ d' _ r, r = inr (order_found order_id d0));
    intros d' Hd' _; rewrite <- (order_found_inv order_id d') by done| |done].
  intros d1 [] order [= ->]. destruct (order_found order_id d0) as [order|] eqn:Ho; [|done].
  destruct (text_parameter "customer_id" c) as [e|customer] eqn:Hcust; [done|].
  destruct (facts_of_order order) as [e|f] eqn:Hf; [done|]. cbv beta iota.
  rewrite lift_bind. cbv beta.
  rewrite lift_bind. cbv beta zeta.
  destruct (rd_eligible _) eqn:Hel; cbn [negb]; [|done].
  apply evaluate_refund_eligible in Hel as (-> & Hst & Hday & Htot).
  destruct (rbind (parameter "refund_amount" c) py_float) as [e|requested]; [done|].
  rewrite lift_bind. cbv beta.
  destruct (negb (f_eqb _ _)); [done|]. unfold record_refund.
  eapply rg_bind; [apply (rg_reference_read d1) with (Q := λ d' _ r,
      match r with inr (Some _) => refunded order_id d' | _ => True end)| |by intros d2 [] e _].
  { intros d' _ _. destruct (select_one _ _) as [r|] eqn:Hr; [by eapply refunded_found|done]. }
  intros d2 [] existing Hex. destruct existing as [refund|]; [intros _; by exists order_id|].
  eapply rg_bind; [apply rg_atomically with (Q := λ _ _ _, True)| |by intros d3 [] e _].
  { intros d' Hd' _. exists tt. split; [|done]. intros _. by apply same_rows_inv. }
  intros d3 [] now _. destruct (parameter "reason" c) as [e|reason]; [done|].
  rewrite lift_bind. cbv beta zeta.
  assert (dget_none "total" order = VFloat (of_total f)) as ->.
  { revert Hf. unfold facts_of_order. repeat case_match; try done. by intros [= <-]. }
  eapply rg_bind; [eapply rg_refund_create with
    (Q := λ d' _ r, match r with inr _ => refunded order_id d' | inl _ => True end); try done| |by intros d4 [] e _].
  intros d4 [] [] Hr _. by exists order_id.
Qed.

Lemma reconcile_records c prior d g :
  triple d g (refund_reconcile c prior) (success_recorded (RefundReconcile c prior)).
Proof.
  unfold refund_reconcile. destruct (text_parameter "order_id" c) as [e|order_id] eqn:Hid; [done|]. rewrite lift_bind.
  eapply rg_bind; [apply (rg_reference_read d g) with (Q := λ d' _ r,
      match r with inr (Some _) => refunded order_id d' | _ => True end)| |by intros d2 [] e _].
  { intros d' _ _. destruct (select_one _ _) as [r|] eqn:Hr; [by eapply refunded_found|done]. }
  intros d2 [] [refund|] Hex; [intros _; by exists order_id|]. by repeat case_match.
Qed.

Lemma call_records r d g : r ∈ calls → triple d g (make_call r) (success_recorded r).
Proof. destruct r; [apply dispatch_records|intros _; apply reconcile_records]. Qed.
End race.

(** C31: Whatever calls of the refund connector race, under whatever interleaving of
    their queries: no order is refunded twice, every new refund is the full
    amount of an order of the customer the command names, delivered or completed
    within thirty days, no refund is lost, and every reported success is a refund
    of its order that is in the table. *)
Theorem refunds_recorded_once (calls : list refund_call) (d d' : Reference) ps' :
  refunded_once d → star pool_step (d, map make_call calls) (d', ps') →
  refunded_once d' ∧
  (∀ r, r ∈ rows_of refunds d → r ∈ rows_of refunds d') ∧
  (∀ r, r ∈ rows_of refunds d' → r ∈ rows_of refunds d ∨ owed d calls r) ∧
  (∀ i call o, calls !! i = Some call → ps' !! i = Some (Done (inr o)) → oc_status o = SUCCEEDED →
     ∃ order_id, text_parameter "order_id" (command_of_call call) = inr order_id ∧ refunded order_id d').
Proof.
  intros Hd Hstar.
  set (Q := λ i d (g : unit) x, ∀ call, calls !! i = Some call → success_recorded call d g x).
  destruct (pool_rg (refunds_inv d calls) refunds_kept (refunds_guar d calls) (λ _ _, True)
    (λ _ _ _ _ _ _ _ _ _ _, I) Q) with (s := (d, map make_call calls)) (s' := (d', ps'))
    (gs := replicate (length calls) tt) as (gs' & Hok & Hkept); [|done| |].
  - intros i d1 d2 [] [e|o] Hk HQ call Hcall; [done|]. intros Hs.
    destruct (HQ call Hcall Hs) as (order_id & ? & r & Hr & ?). exists order_id. split; [done|].
    exists r. split; [by apply Hk|done].
  - split_and!; [split_and!; [done..|by left]|done|cbn; by rewrite length_replicate, length_map|].
    intros i p (call & -> & Hcall)%list_lookup_fmap_Some. exists tt. split.
    { apply lookup_replicate. split; [done|]. by eapply lookup_lt_Some. }
    eapply rg_conseq; [|apply call_records; by eapply list_elem_of_lookup_2].
    intros d1 [] x Hx call' Hcall'. by simplify_eq.
  - cbn in Hkept. destruct Hok as ((Hu & _ & _ & Hall) & Hok). split_and!; [done|done|done|].
    intros i call o Hcall Hi. destruct Hok as (_ & _ & Hps). destruct (Hps i _ Hi) as (g & _ & HQ).
    by apply (HQ call).
Qed.
End refunds.

(** ** Witness: two keys race for one order, a reconciliation follows *)

#[local] Instance plain_digest : TextDigest := λ s, "0123456789abcdef" +:+ s.
Definition demo_iso_text (z : Z) : string := "2026-01-01T00:00:00".

Definition demo_reference : Reference :=
  mkReference
    [ ("customers", [[("customer_id", VStr "CUST-1"); ("name", VStr "Jane"); ("email", VStr "j@x.y")]]);
      ("orders", [[ ("order_id", VStr "ORD-1"); ("customer_id", VStr "CUST-1");
                    ("merchant_name", VStr "Shop"); ("total", VFloat (f_of_Z 79));
                    ("status", VStr "delivered"); ("order_date", VStr "2026-01-01");
                    ("delivery_date", VNone); ("days_since_delivery", VInt 5);
                    ("payment_method", VStr "card"); ("shipping_address", VNone) ]]) ] [] 0.

Definition demo_refund_command (key : string) (amount : Z) : ActionCommand :=
  mkCommand "issue_refund" "CASE-1" "refund@1.0.0:NAM" "CUST-1" key
    [ ("order_id", VStr "ORD-1"); ("customer_id", VStr "CUST-1");
      ("refund_amount", VFloat (f_of_Z amount)); ("currency", VStr "USD");
      ("payment_method", VStr "card"); ("reason", VStr "late") ] [] [] None None None None None None.

Definition demo_refund_calls : list refund_call :=
  [ RefundDispatch (demo_refund_command "refund:ORD-1" 79);
    RefundDispatch (demo_refund_command "another-key" 79);
    RefundReconcile (demo_refund_command "another-key" 79) None ].

Definition demo_refunded : Reference * list (prog Reference ConnectorOutcome) :=
  schedule ([0; 1; 0; 1; 0; 1; 0; 1] ++ [2]) demo_reference (map (make_call demo_iso_text) demo_refund_calls).

(** The second key loses the race at the unique index; its reconciliation finds
    the refund. *)
Example demo_refund_race :
  map (λ p, match finished p with Some (inr o) => Some (oc_status o) | _ => None end) demo_refunded.2 =
    [Some SUCCEEDED; None; Some SUCCEEDED] ∧
  length (rows_of refunds demo_refunded.1) = 1.
Proof. split; vm_compute; reflexivity. Qed.

Example refunds_recorded_once_witness :
  refunded_once demo_reference ∧ refunded_once demo_refunded.1.
Proof.
  assert (refunded_once demo_reference) as Hd by apply NoDup_nil_2.
  split; [exact Hd|].
  exact (proj1 (refunds_recorded_once demo_iso_text demo_refund_calls demo_reference demo_refunded.1
    demo_refunded.2 Hd (schedule_reaches _ _ _))).
Defined.

(** ** What the reference data cannot answer

    The table [transactions] has no column [transaction_id]: every lookup of a
    transaction is an error of the statement. *)
Example transaction_lookup_fails `{HasReference Ext} `{Oracle} `{JsonDumps} resource_id (w : World Ext) :
  run (reference_get_resource "transaction" resource_id) w = (w, inl (OtherError "OperationalError")).
Proof. reflexivity. Qed.
