(* ===== verification/OutboxProps.v ===== *)
(** * Outbox leases

    [claim_outbox] leases due records to one worker at a time. *)

From S2P Require Import Prelude PyValue Prog Table KernelData World KernelStore KernelInv Fixtures.

(** One claim: who asks, at what time, until when, and how many. *)
Record claim := mkClaim { cl_owner : string; cl_now : Z; cl_until : Z; cl_limit : Z }.

(** The ids a claim leases, and the records it leaves. *)
Definition claimed_ids (c : claim) (t : list OutboxRecord) : list string :=
  map o_outbox_id (limit (cl_limit c) (order_by o_created_at (select_where (outbox_due (cl_now c)) t))).

Definition lease (c : claim) (oid : string) (t : list OutboxRecord) : list OutboxRecord :=
  update_where (λ r, bool_decide (o_outbox_id r = oid))
    (set_outbox_leased (cl_owner c) (cl_until c) (cl_now c)) t.

Definition after_claim (c : claim) (t : list OutboxRecord) : list OutboxRecord :=
  fold_left (λ t oid, lease c oid t) (claimed_ids c t) t.

Section claims.
Context `{Oracle}.

(** The transaction leases exactly these. *)
Lemma claim_outbox_tx_eq c d s :
  claim_outbox_tx (cl_owner c) (cl_now c) (cl_until c) (cl_limit c) d s =
  (s, inr (claimed_ids c (t_outbox d), tbl_set core_outbox (after_claim c (t_outbox d)) d)).
Proof.
  unfold claim_outbox_tx, mbind, tx_bind, sql_select. cbn [tbl_get core_outbox].
  unfold after_claim. fold (claimed_ids c (t_outbox d)).
  assert (∀ ids d, tx_for ids (λ oid, _ ← sql_update core_outbox
            (λ r, bool_decide (o_outbox_id r = oid))
            (set_outbox_leased (cl_owner c) (cl_until c) (cl_now c)); mret tt) d s
          = (s, inr (tt, tbl_set core_outbox (fold_left (λ t oid, lease c oid t) ids (t_outbox d)) d)))
    as Hfor.
  { induction ids as [|oid ids IH]; intros d0; cbn [tx_for fold_left]; [by destruct d0|].
    unfold mbind, tx_bind, sql_update. cbn. unfold mbind, tx_bind, sql_update in IH.
    rewrite IH. cbn. done. }
  unfold mbind, tx_bind in Hfor. by rewrite Hfor.
Qed.

(** The record is leased to [owner] until [until]. *)
Definition leased (oid owner : string) (until : Z) (t : list OutboxRecord) : Prop :=
  ∃ r, tget o_outbox_id oid t = Some r ∧ o_status r = O_LEASED ∧
       o_lease_owner r = Some owner ∧ o_lease_until r = Some until.

Lemma tget_lease c oid oid' t :
  tget o_outbox_id oid' (lease c oid t) =
  if bool_decide (oid' = oid)
  then set_outbox_leased (cl_owner c) (cl_until c) (cl_now c) <$> tget o_outbox_id oid' t
  else tget o_outbox_id oid' t.
Proof.
  unfold lease. rewrite tget_update by by apply keeps_key_all.
  destruct (tget o_outbox_id oid' t) as [r|] eqn:Hr; cbn; [|by case_bool_decide].
  apply tget_key in Hr as [-> _]. by case_bool_decide.
Qed.

Lemma tget_leases c ids oid t :
  NoDup ids →
  tget o_outbox_id oid (fold_left (λ t oid, lease c oid t) ids t) =
  if bool_decide (oid ∈ ids)
  then set_outbox_leased (cl_owner c) (cl_until c) (cl_now c) <$> tget o_outbox_id oid t
  else tget o_outbox_id oid t.
Proof.
  revert t; induction ids as [|i ids IH]; intros t; cbn.
  { intros _. by rewrite bool_decide_false by apply not_elem_of_nil. }
  intros [Hi Hids]%NoDup_cons. rewrite IH, tget_lease by done.
  destruct (decide (oid = i)) as [->|Hne].
  - rewrite (bool_decide_false (i ∈ ids)) by done. rewrite (bool_decide_true (i = i)) by done.
    by rewrite bool_decide_true by left.
  - rewrite (bool_decide_false (oid = i)) by done.
    rewrite (bool_decide_ext (oid ∈ i :: ids) (oid ∈ ids)); [done|].
    rewrite elem_of_cons. tauto.
Qed.

Lemma claimed_ids_sound c t oid :
  oid ∈ claimed_ids c t → ∃ r, r ∈ t ∧ o_outbox_id r = oid ∧ outbox_due (cl_now c) r = true.
Proof.
  intros (r & -> & Hr)%list_elem_of_fmap.
  apply elem_of_limit, elem_of_order_by, elem_of_select_where in Hr as [Hr Hd].
  by exists r.
Qed.

Lemma claimed_ids_nodup c t : unique o_outbox_id t → NoDup (claimed_ids c t).
Proof.
  intros Hu. unfold claimed_ids, limit.
  assert (NoDup (map o_outbox_id (order_by o_created_at (select_where (outbox_due (cl_now c)) t))))
    as Hall.
  { change (map ?f ?l) with (f <$> l). rewrite order_by_perm.
    revert Hu. unfold unique. clear. induction t as [|r t IH]; cbn; [done|].
    intros [Hr Ht]%NoDup_cons. destruct (outbox_due _ r); cbn; [|auto].
    apply NoDup_cons. split; [|auto]. intros (r' & Heq & [Hr' _]%elem_of_select_where)%list_elem_of_fmap.
    apply Hr, list_elem_of_fmap. by exists r'. }
  case_match; [done|]. change (map ?f ?l) with (f <$> l) in *.
  rewrite <- (take_drop (Z.to_nat (cl_limit c)) (order_by _ _)), fmap_app in Hall.
  by apply NoDup_app in Hall as [? _].
Qed.

(** Outbox rows of a claim, as [after_claim] leaves them. *)
Lemma tget_after_claim c oid t :
  unique o_outbox_id t →
  tget o_outbox_id oid (after_claim c t) =
  if bool_decide (oid ∈ claimed_ids c t)
  then set_outbox_leased (cl_owner c) (cl_until c) (cl_now c) <$> tget o_outbox_id oid t
  else tget o_outbox_id oid t.
Proof. intros Hu. by apply tget_leases, claimed_ids_nodup. Qed.

Lemma after_claim_unique c t : unique o_outbox_id t → unique o_outbox_id (after_claim c t).
Proof.
  unfold after_claim. generalize (claimed_ids c t). intros ids. revert t.
  induction ids as [|i ids IH]; intros t Hu; cbn; [done|].
  apply IH. by apply unique_update; [apply keeps_key_all|].
Qed.

(** A later claim, made before the lease runs out, passes the record by. *)
Lemma leased_not_due c oid owner until t :
  unique o_outbox_id t → leased oid owner until t → (cl_now c ≤ until)%Z →
  oid ∉ claimed_ids c t ∧ leased oid owner until (after_claim c t).
Proof.
  intros Hu (r & Hr & Hs & Ho & Hl) Hnow.
  assert (oid ∉ claimed_ids c t) as Hn.
  { intros (r' & Hr' & Hid & Hdue)%claimed_ids_sound.
    assert (r' = r) as ->.
    { apply (tget_elem o_outbox_id) in Hr'; [|done]. congruence. }
    unfold outbox_due in Hdue. rewrite Hs, Hl in Hdue. apply andb_true_iff in Hdue as [_ Hdue].
    rewrite bool_decide_false in Hdue.
    - cbn in Hdue. lia.
    - intros Hin. by repeat (apply elem_of_cons in Hin as [[=]|Hin]);
        apply not_elem_of_nil in Hin. }
  split; [done|]. exists r. rewrite tget_after_claim, bool_decide_false by done. done.
Qed.

(** ** What else happens to the outbox

    The transactions that write it: the claims of workers; the update that
    completes, fails or quarantines a record ([complete_outbox], [fail_outbox]); the
    insertion of a new record. *)
Inductive outbox_write :=
  | Claim (c : claim)
  | Settle (oid : string) (st : OutboxStatus) (available : Z) (error : option string) (now : Z)
  | Insert (r : OutboxRecord).

(** The database a transaction leaves. *)
Definition committed {A} (t : tx A) (d : core_db) (s : sys) : core_db :=
  match t d s with (_, inr (_, d')) => d' | (_, inl _) => d end.

Definition write_outbox (x : outbox_write) (d : core_db) (s : sys) : core_db :=
  match x with
  | Claim c => committed (claim_outbox_tx (cl_owner c) (cl_now c) (cl_until c) (cl_limit c)) d s
  | Settle oid st available error now =>
      committed (sql_update core_outbox (λ r, bool_decide (o_outbox_id r = oid))
                   (set_outbox_status st available error now)) d s
  | Insert r => committed (sql_insert core_outbox o_outbox_id "core_outbox.outbox_id" r) d s
  end.

(** One after the other, in any order. *)
Definition outbox_writes (xs : list outbox_write) (d : core_db) (s : sys) : core_db :=
  fold_left (λ d x, write_outbox x d s) xs d.

(** A write that happens within the lease of a record and does not settle it. *)
Definition spares (oid : string) (until : Z) (x : outbox_write) : Prop :=
  match x with
  | Claim c => (cl_now c ≤ until)%Z
  | Settle oid' _ _ _ _ => oid' ≠ oid
  | Insert _ => True
  end.

Lemma write_spares x oid owner until d s :
  unique o_outbox_id (t_outbox d) → leased oid owner until (t_outbox d) → spares oid until x →
  unique o_outbox_id (t_outbox (write_outbox x d s)) ∧
  leased oid owner until (t_outbox (write_outbox x d s)).
Proof.
  intros Hu Hl Hx. destruct x as [c|oid' st available error now|r]; cbn [write_outbox]; unfold committed.
  - rewrite claim_outbox_tx_eq. cbn [t_outbox tbl_set core_outbox].
    split; [by apply after_claim_unique|by apply leased_not_due].
  - unfold sql_update. cbn [tbl_get tbl_set core_outbox t_outbox].
    split; [by apply unique_update; [apply keeps_key_all|]|].
    destruct Hl as (r & Hr & Hl). exists r. split; [|done].
    rewrite tget_update by by apply keeps_key_all. rewrite Hr. cbn.
    apply tget_key in Hr as [Hk _]. rewrite bool_decide_false; [done|]. cbn in Hx. congruence.
  - unfold sql_insert, tinsert. cbn [tbl_get core_outbox].
    destruct (tget o_outbox_id (o_outbox_id r) (t_outbox d)) eqn:E; [done|].
    cbn [tbl_set core_outbox t_outbox]. split; [by apply unique_snoc|].
    destruct Hl as (r' & Hr & Hl). exists r'. split; [|done]. by rewrite tget_snoc, Hr.
Qed.

Lemma writes_spare xs oid owner until d s :
  unique o_outbox_id (t_outbox d) → leased oid owner until (t_outbox d) →
  (∀ x, x ∈ xs → spares oid until x) →
  unique o_outbox_id (t_outbox (outbox_writes xs d s)) ∧
  leased oid owner until (t_outbox (outbox_writes xs d s)).
Proof.
  revert d; induction xs as [|x xs IH]; intros d Hu Hl Hxs; [done|]. cbn [outbox_writes fold_left].
  destruct (write_spares x oid owner until d s) as [Hu' Hl']; [done..|apply Hxs; by left|].
  apply IH; [done..|]. intros y Hy. apply Hxs. by right.
Qed.

(** C23: a claim leases only records that are due, at most as many as asked, each
    with one more attempt.  Whatever transactions then write the outbox, in any
    order -- claims of any workers within the lease, the settling of other records,
    new records -- the lease stands, and no claim within it leases the record
    again.  What ends a lease early is the settling of that very record, by
    whomever: the record then has no lease, and one that failed is due again from
    the time it was put off to. *)
Theorem outbox_lease_exclusive c d s ids s' d' :
  unique o_outbox_id (t_outbox d) →
  claim_outbox_tx (cl_owner c) (cl_now c) (cl_until c) (cl_limit c) d s = (s', inr (ids, d')) →
  NoDup ids ∧ ((0 ≤ cl_limit c)%Z → length ids ≤ Z.to_nat (cl_limit c)) ∧
  ∀ oid, oid ∈ ids →
    (∃ r r', tget o_outbox_id oid (t_outbox d) = Some r ∧
             tget o_outbox_id oid (t_outbox d') = Some r' ∧
             outbox_due (cl_now c) r = true ∧ o_attempts r' = (o_attempts r + 1)%Z) ∧
    ∀ xs s2, (∀ x, x ∈ xs → spares oid (cl_until c) x) →
      let d2 := outbox_writes xs d' s2 in
      leased oid (cl_owner c) (cl_until c) (t_outbox d2) ∧
      (∀ c' s3 s4 ids' d3,
         claim_outbox_tx (cl_owner c') (cl_now c') (cl_until c') (cl_limit c') d2 s3 = (s4, inr (ids', d3)) →
         (cl_now c' ≤ cl_until c)%Z → oid ∉ ids') ∧
      (∀ st available error now, ∃ r,
         tget o_outbox_id oid (t_outbox (write_outbox (Settle oid st available error now) d2 s2)) = Some r ∧
         o_status r = st ∧ o_lease_owner r = None ∧ o_lease_until r = None ∧
         (st = O_FAILED → ∀ later, outbox_due later r = (available <=? later)%Z)).
Proof.
  intros Hu Ht. rewrite claim_outbox_tx_eq in Ht. injection Ht as <- <- <-. cbn [t_outbox tbl_set core_outbox].
  split_and!; [by apply claimed_ids_nodup| |].
  { intros Hlim. unfold claimed_ids. rewrite length_map. by apply length_limit. }
  intros oid Hoid. destruct (claimed_ids_sound _ _ _ Hoid) as (r & Hr & Hid & Hdue).
  assert (tget o_outbox_id oid (t_outbox d) = Some r) as Hget by (subst oid; by apply tget_elem).
  assert (tget o_outbox_id oid (after_claim c (t_outbox d))
          = Some (set_outbox_leased (cl_owner c) (cl_until c) (cl_now c) r)) as Hget'.
  { by rewrite tget_after_claim, bool_decide_true, Hget. }
  split; [by eexists _, _|]. intros xs s2 Hxs.
  destruct (writes_spare xs oid (cl_owner c) (cl_until c)
              (tbl_set core_outbox (after_claim c (t_outbox d)) d) s2) as [Hu2 Hl2];
    [by apply after_claim_unique|eexists; split; [exact Hget'|done]|done|].
  cbv zeta. set (d2 := outbox_writes xs _ s2) in *. clearbody d2. split; [exact Hl2|]. split.
  - intros c' s3 s4 ids' d3 Hc' Hnow. rewrite claim_outbox_tx_eq in Hc'. injection Hc' as <- <- <-.
    by eapply leased_not_due.
  - intros st available error now. destruct Hl2 as (r2 & Hr2 & _).
    eexists. cbn [write_outbox]. unfold committed, sql_update. cbn [tbl_get tbl_set core_outbox t_outbox].
    rewrite tget_update by by apply keeps_key_all. rewrite Hr2. cbn.
    apply tget_key in Hr2 as [Hk _]. rewrite bool_decide_true by done.
    split_and!; [reflexivity|done..|]. intros -> later. unfold outbox_due. cbn. by rewrite andb_true_r.
Qed.
End claims.

(** Two records; while the first one's lease holds, other workers ask and another
    record is settled. *)
Definition demo_outbox : core_db :=
  tbl_set core_outbox
    [ mkOutbox "OUT-1" "action.dispatch" "ACT-1" [] O_PENDING 0 0 None None None 0 0;
      mkOutbox "OUT-2" "action.dispatch" "ACT-2" [] O_FAILED 2 0 None None None 1 1 ] empty_core_db.

Definition demo_claim : claim := mkClaim "worker-1" 10 100 1.
Definition demo_later : list outbox_write :=
  [ Claim (mkClaim "worker-2" 50 150 10); Settle "OUT-2" O_FAILED 60 (Some "Timeout") 55;
    Claim (mkClaim "worker-3" 100 200 10) ].

Example outbox_lease_exclusive_witness :
  leased "OUT-1" "worker-1" 100
    (t_outbox (outbox_writes demo_later (tbl_set core_outbox (after_claim demo_claim (t_outbox demo_outbox)) demo_outbox)
                 (mkSys 0 0))).
Proof.
  refine (proj1 (proj2 (proj2 (proj2 (outbox_lease_exclusive demo_claim demo_outbox
    (mkSys 0 0) ["OUT-1"] (mkSys 0 0) _ _ eq_refl)) "OUT-1" _) demo_later (mkSys 0 0) _)).
  - apply (decide_by_eval (NoDup _)). vm_compute. reflexivity.
  - by left.
  - intros x Hx. repeat (apply elem_of_cons in Hx as [->|Hx]; [done|]). by apply not_elem_of_nil in Hx.
Defined.

(** A worker whose lease ran out still closes the record another worker has
    leased since: the update checks neither the owner nor the lease. *)
Definition demo_second_lease : list OutboxRecord :=
  after_claim (mkClaim "worker-2" 200 300 10) (after_claim demo_claim (t_outbox demo_outbox)).

Example stale_worker_completes :
  leased "OUT-1" "worker-2" 300 demo_second_lease ∧
  tget o_outbox_id "OUT-1" (t_outbox (w_core (run (complete_outbox "OUT-1")
    (demo_world tt (tbl_set core_outbox demo_second_lease empty_core_db))).1))
  = Some (mkOutbox "OUT-1" "action.dispatch" "ACT-1" [] O_DELIVERED 2 0 None None None 0 0).
Proof. split; [by eexists|by vm_compute]. Qed.
