(* ===== verification/Workers.v ===== *)
(** * Delivery and reconciliation workers ([core/workers.py]) *)

From S2P Require Import Prelude PyValue Prog RelyGuarantee Table ActionSpecs Policy KernelData World KernelStore KernelInv CaseKernel KernelRaces PolicyStore Gateway Outside AtMostOnce.

Record WorkerRun := mkWorkerRun { wr_claimed : nat; wr_completed : nat; wr_failed : nat }.

Record ActionDeliveryWorker := mkDelivery {
  dw_owner : string; dw_lease_seconds : Z; dw_max_attempts : Z
}.

Record ReconciliationWorker := mkReconciliation { rw_dispatch_stale_seconds : Z }.

(** [min(300, 2 ** max(0, attempts - 1))] *)
Definition backoff_seconds (attempts : Z) : Z := Z.min 300 (2 ^ Z.max 0 (attempts - 1)).

Section workers.
Context `{Hmac} (sg : PolicySigner) `{Oracle} {Ext : Type} (gw : ActionGateway Ext).
Abbreviation prog := (prog (World Ext)).

(** The [except] branch: retry later, or give up. *)
Definition delivery_failed (dw : ActionDeliveryWorker) (record : OutboxRecord) (exc : exn) :
    prog unit :=
  let quarantine := (dw_max_attempts dw <=? o_attempts record)%Z in
  retry_at ←
    (if quarantine then mret None
     else now ← read_clock; mret (Some (now + seconds (backoff_seconds (o_attempts record)))%Z));
  _ ← fail_outbox (o_outbox_id record) (exn_name exc) retry_at quarantine;
  mret tt.

(** One record: [true] when it was completed. *)
Definition deliver (dw : ActionDeliveryWorker) (record : OutboxRecord) : prog bool :=
  if negb (String.eqb (o_topic record) "action.dispatch") then
    _ ← fail_outbox (o_outbox_id record) ("unsupported_topic:" +:+ o_topic record) None true;
    mret false
  else
    match dget "action_id" (o_payload record) with
    | Some (VStr aid) =>
        action ← get_action aid;
        match action with
        | None =>
            _ ← fail_outbox (o_outbox_id record) "action_not_found" None true;
            mret false
        | Some action =>
            try_except
              (_ ← dispatch sg gw action;
               _ ← complete_outbox (o_outbox_id record);
               mret true)
              (λ exc, _ ← delivery_failed dw record exc; mret false)
        end
    | _ => mthrow (KeyError "action_id")
    end.

Definition delivery_run_once (dw : ActionDeliveryWorker) (lim : Z) : prog WorkerRun :=
  records ← claim_outbox (dw_owner dw) (dw_lease_seconds dw) lim;
  counts ← for_each records (0, 0) (λ counts record,
    completed ← deliver dw record;
    mret (if completed : bool then (S counts.1, counts.2) else (counts.1, S counts.2)));
  mret (mkWorkerRun (length records) counts.1 counts.2).

(** One action: [true] when it is settled. *)
Definition reconcile_one (action : ActionRecord) : prog bool :=
  try_except
    (result ← reconcile gw action;
     mret (bool_decide (a_status result ∈ [RECONCILED; FAILED])))
    (λ _, mret false).

(** [l[:n]] *)
Definition slice {A} (n : Z) (l : list A) : list A :=
  if (n <? 0)%Z then take (Z.to_nat (Z.of_nat (length l) + n)) l else take (Z.to_nat n) l.

Definition reconciliation_run_once (rw : ReconciliationWorker) (lim : Z) : prog WorkerRun :=
  unknown ← list_actions (Some UNKNOWN) lim;
  dispatched ← list_actions (Some DISPATCHED) lim;
  now ← read_clock;
  let stale_before := (now - seconds (rw_dispatch_stale_seconds rw))%Z in
  let due := select_where (λ a, (a_updated_at a <=? stale_before)%Z) in
  let actions := slice lim (due unknown ++ due dispatched) in
  counts ← for_each actions (0, 0) (λ counts action,
    completed ← reconcile_one action;
    mret (if completed : bool then (S counts.1, counts.2) else (counts.1, S counts.2)));
  mret (mkWorkerRun (length actions) counts.1 counts.2).

(** ** Safety of the workers' provider calls *)
Context `{Outside Ext} `{!GatewayLaws gw}.
Context (Hpv : ∀ pv, gw_policy_resolver gw = Some pv → PolicyResolverLaws pv).

Lemma delivery_failed_calm dw r e : steps (@calm Ext) (delivery_failed dw r e).
Proof. unfold delivery_failed. step_through. Qed.
Lemma delivery_failed_steady dw r e : steps steady (delivery_failed dw r e).
Proof. unfold delivery_failed. step_through. Qed.
Hint Resolve delivery_failed_calm delivery_failed_steady : wf.

Lemma deliver_token dw record : token_safe (deliver dw record).
Proof.
  unfold deliver. case_match; [apply token_safe_still, still_steps; step_through|].
  destruct (dget "action_id" (o_payload record)) as [[| | | |aid| |]|];
    try (apply token_safe_still; apply steps_throw).
  unfold get_action. apply token_query_action; [|apply token_safe_still, still_steps; step_through].
  intros w g a Hst. apply (rg_try _ _ _ _ _ _ _ (λ _ _ _, True)); [|done|].
  - apply (rg_bind _ _ _ _ _ _ _ (λ _ _ _, True)); [by apply dispatch_token| |done].
    intros w' g' r _. apply token_safe_still, still_steps; step_through.
  - intros w' g' e _. apply token_safe_still, still_steps; step_through.
Qed.

Lemma delivery_run_once_token dw lim : token_safe (delivery_run_once dw lim).
Proof.
  unfold delivery_run_once. apply token_safe_bind; [apply token_safe_still; auto with wf|].
  intros records. apply token_safe_bind; [|intros counts; by apply token_safe_still].
  apply token_safe_for_each. intros acc r. apply token_safe_bind; [apply deliver_token|].
  intros b. by apply token_safe_still.
Qed.

(** One action of a reconciliation run, read from the store. *)
Lemma reconcile_one_token a (w0 : World Ext) g :
  stored a (w_core w0) → rg sound moves token_guar w0 g (reconcile_one a) (λ _ _ _, True).
Proof.
  intros Hst. unfold reconcile_one. apply (rg_try _ _ _ _ _ _ _ (λ _ _ _, True)); [|done|done].
  eapply rg_bind; [by apply reconcile_token|done|done].
Qed.

Lemma reconcile_all_token l acc (w0 : World Ext) g :
  (∀ a, a ∈ l → stored a (w_core w0)) →
  rg sound moves token_guar w0 g
    (for_each l acc (λ counts action,
       completed ← reconcile_one action;
       mret (if completed : bool then (S counts.1, counts.2) else (counts.1, S counts.2))))
    (λ _ _ _, True).
Proof.
  revert acc w0 g; induction l as [|a l IH]; intros acc w0 g Hall; [done|]. cbn [for_each].
  eapply rg_bind with (Q := λ w _ _, moves w0 w); [|intros w1 g1 acc' Hm|done].
  - eapply rg_bind with (Q := λ w _ _, moves w0 w); [|by intros w1 g1 b|done].
    eapply rg_conseq; [|eapply (rg_know sound moves token_guar); apply reconcile_one_token,
      Hall; by left]. by intros w1 g1 r [_ ?].
  - apply IH. intros b Hb. eapply stored_stays; [apply Hm|]. apply Hall. by right.
Qed.

Lemma reconciliation_run_once_token rw lim : token_safe (reconciliation_run_once rw lim).
Proof.
  intros w0 g. unfold reconciliation_run_once.
  eapply rg_bind; [eapply (rg_know sound moves token_guar), rg_list_actions| |done].
  intros w1 g1 unknown [Hu _].
  eapply rg_bind; [eapply (rg_know sound moves token_guar), rg_list_actions| |done].
  intros w2 g2 dispatched [Hd Hm2].
  apply rg_still_then; [auto with wf|intros w3 now Hm3|done].
  eapply rg_bind with (Q := λ _ _ _, True); [|done|done].
  apply reconcile_all_token. intros a Ha.
  eapply stored_stays; [apply Hm3|].
  assert (a ∈ unknown ∨ a ∈ dispatched) as [Hin|Hin].
  { assert (∀ {A} n (l : list A) x, x ∈ slice n l → x ∈ l) as Hslice.
    { intros A n l x. unfold slice. case_match; apply subseteq_take. }
    apply Hslice in Ha as Ha'. apply elem_of_app in Ha' as [[? _]%elem_of_select_where|[? _]%elem_of_select_where]; auto. }
  - eapply stored_stays; [apply Hm2|by apply Hu].
  - by apply Hd.
Qed.
End workers.
