(* ===== verification/WorkersProps.v ===== *)
(** * Properties of the workers *)

From S2P Require Import Prelude PyValue Prog RelyGuarantee Table ActionSpecs Policy KernelData World KernelStore KernelInv CaseKernel Fixtures KernelRaces PolicyStore PolicyProps Gateway Outside AtMostOnce GatewayProps ActionService ServiceProps OutboxProps Workers.

Section settle.
Context `{Hmac} (sg : PolicySigner) `{Oracle} {Ext : Type} (gw : ActionGateway Ext).
Context (Hpv : ∀ pv, gw_policy_resolver gw = Some pv → PolicyResolverLaws pv).
Implicit Types w : World Ext.

#[local] Existing Instance outside_any.
#[local] Existing Instance any_gateway_laws.

(** A token-safe program, alone, keeps the invariant and lets the database only
    evolve. *)
Lemma token_safe_run {A} (p : prog (World Ext) A) w w' r :
  token_safe p → db_inv (w_core w) → run p w = (w', r) →
  db_inv (w_core w') ∧ evolves (w_core w) (w_core w').
Proof.
  intros Hp Hw Hrun. pose proof (rg_know sound moves token_guar w [] p _ (Hp w [])) as Htok.
  apply (rg_run sound moves token_guar) in Htok as (g' & (_ & Hmv) & Hi); [|by apply any_sound].
  rewrite Hrun in Hmv, Hi. split; [apply Hi|apply Hmv].
Qed.

(** Reconciling keeps the invariant, whatever record it is given. *)
Lemma reconcile_good a : steps (on_core good) (reconcile gw a : prog (World Ext) _).
Proof.
  assert (∀ aid st out, steps (@on_core Ext good) (record_outcome aid st out)) as Hrec.
  { intros. eapply steps_impl; [|apply record_outcome_calm]. by intros w1 w2 [? _]. }
  unfold reconcile. step_through; try apply Hrec.
  apply steps_atomically. intros w1. unfold on_core. cbn. reflexivity.
Qed.

(** An outbox row, once inserted, is found by every later update. *)
Lemma run_update_outbox oid st retry err w row :
  tget o_outbox_id oid (t_outbox (w_core w)) = Some row →
  ∃ w' now,
    run (_update_outbox oid st retry err) w =
      (w', inr (set_outbox_status st (default now retry) err now row)) ∧
    now = now_at (n_clock (w_sys w)) ∧
    tget o_outbox_id oid (t_outbox (w_core w')) =
      Some (set_outbox_status st (default now retry) err now row).
Proof.
  intros Hrow. unfold _update_outbox. rewrite run_bind. unfold read_clock.
  rewrite run_atomically. cbv beta iota. rewrite run_bind, run_commit.
  unfold sql_update. cbn [w_core set_sys set_core w_sys tbl_get core_outbox].
  rewrite run_bind, run_query. cbn [w_core set_core tbl_get core_outbox tbl_set t_outbox].
  set (now := now_at _). set (f := set_outbox_status _ _ _ _).
  change (select_one (λ r, bool_decide (o_outbox_id r = oid)) ?l) with (tget o_outbox_id oid l).
  assert (tget o_outbox_id oid (update_where (λ r, bool_decide (o_outbox_id r = oid)) f
            (t_outbox (w_core w))) = Some (f row)) as Hf.
  { rewrite (tget_update o_outbox_id) by by apply keeps_key_all. rewrite Hrow. cbn.
    apply tget_key in Hrow as [Hid _]. by rewrite bool_decide_true. }
  rewrite Hf. eexists _, now. split; [reflexivity|]. split; [done|exact Hf].
Qed.

Definition has_row (oid : string) w : Prop := is_Some (tget o_outbox_id oid (t_outbox (w_core w))).

Lemma has_row_stays oid w w' : evolves (w_core w) (w_core w') → has_row oid w → has_row oid w'.
Proof. intros Hev [r Hr]. destruct (ev_outbox _ _ Hev oid r Hr) as (r' & ? & _). by exists r'. Qed.

(** The action a record is about, as stored when its turn comes. *)
Definition target (record : OutboxRecord) w : option ActionRecord :=
  match dget "action_id" (o_payload record) with
  | Some (VStr aid) => tget a_action_id aid (t_actions (w_core w))
  | _ => None
  end.

(** What the delivery of [record] from [w] makes of its row: delivered, when the
    dispatch returned; when it raised, put off for the backoff of its attempts,
    from the clock as the dispatch left it, or quarantined when they are used up;
    quarantined without a dispatch when it is of another topic or of no action. *)
Inductive outcome dw (record : OutboxRecord) w (row : OutboxRecord) : bool → Prop :=
  | out_delivered a q w1 :
      o_topic record = "action.dispatch" → target record w = Some a →
      run (dispatch sg gw a) w = (w1, inr q) →
      o_status row = O_DELIVERED → outcome dw record w row true
  | out_retry a e w1 :
      o_topic record = "action.dispatch" → target record w = Some a →
      run (dispatch sg gw a) w = (w1, inl e) →
      (o_attempts record < dw_max_attempts dw)%Z →
      o_status row = O_FAILED → o_last_error row = Some (exn_name e) →
      (∃ delay, o_available_at row = (now_at (n_clock (w_sys w1)) + seconds delay)%Z ∧
         delay = Z.min 300 (2 ^ Z.max 0 (o_attempts record - 1)) ∧ (1 ≤ delay ≤ 300)%Z) →
      outcome dw record w row false
  | out_exhausted a e w1 :
      o_topic record = "action.dispatch" → target record w = Some a →
      run (dispatch sg gw a) w = (w1, inl e) →
      (dw_max_attempts dw ≤ o_attempts record)%Z →
      o_status row = O_QUARANTINED → o_last_error row = Some (exn_name e) →
      outcome dw record w row false
  | out_missing :
      o_topic record = "action.dispatch" → target record w = None →
      o_status row = O_QUARANTINED → o_last_error row = Some "action_not_found" →
      outcome dw record w row false
  | out_unsupported :
      o_topic record ≠ "action.dispatch" → o_status row = O_QUARANTINED →
      outcome dw record w row false.

(** The row of [record] after its delivery from [w] to [w']: its lease is gone. *)
Definition settled dw record w w' (completed : bool) : Prop :=
  ∃ row, tget o_outbox_id (o_outbox_id record) (t_outbox (w_core w')) = Some row ∧
    o_lease_owner row = None ∧ o_lease_until row = None ∧ outcome dw record w row completed.

(** The backoff doubles with the attempts, from one second to five minutes. *)
Lemma backoff_bounds n : (1 ≤ backoff_seconds n ≤ 300)%Z.
Proof.
  unfold backoff_seconds. pose proof (Z.pow_le_mono_r 2 0 (Z.max 0 (n - 1))). lia.
Qed.

(** The [except] branch: the row it leaves, by the attempts. *)
Lemma run_delivery_failed dw record e w :
  has_row (o_outbox_id record) w →
  ∃ w' row, run (delivery_failed dw record e) w = (w', inr tt) ∧
    tget o_outbox_id (o_outbox_id record) (t_outbox (w_core w')) = Some row ∧
    o_lease_owner row = None ∧ o_lease_until row = None ∧ o_last_error row = Some (exn_name e) ∧
    (if (dw_max_attempts dw <=? o_attempts record)%Z then o_status row = O_QUARANTINED
     else o_status row = O_FAILED ∧
       o_available_at row =
         (now_at (n_clock (w_sys w)) + seconds (backoff_seconds (o_attempts record)))%Z).
Proof.
  intros [row0 Hrow]. unfold delivery_failed. rewrite run_bind.
  destruct (dw_max_attempts dw <=? o_attempts record)%Z.
  - rewrite run_ret, run_bind. unfold fail_outbox.
    destruct (run_update_outbox (o_outbox_id record) O_QUARANTINED None (Some (exn_name e)) w row0
                Hrow) as (w' & now & Hr & _ & Ht).
    rewrite Hr. eexists w', _. split; [reflexivity|]. by split; [exact Ht|].
  - rewrite run_bind. unfold read_clock. rewrite run_atomically. cbv beta iota.
    rewrite run_ret, run_bind. unfold fail_outbox.
    edestruct (run_update_outbox (o_outbox_id record) O_FAILED) as (w' & now & Hr & _ & Ht);
      [|rewrite Hr; eexists w', _; split; [reflexivity|]; by split; [exact Ht|]].
    exact Hrow.
Qed.

(** The payload of a dispatch record names its action. *)
Definition names_action (r : OutboxRecord) : Prop :=
  o_topic r = "action.dispatch" → ∃ aid, dget "action_id" (o_payload r) = Some (VStr aid).

Lemma run_quarantine oid e w :
  has_row oid w →
  ∃ w' row, run (fail_outbox oid e None true) w = (w', inr row) ∧
    tget o_outbox_id oid (t_outbox (w_core w')) = Some row ∧
    o_status row = O_QUARANTINED ∧ o_last_error row = Some e ∧
    o_lease_owner row = None ∧ o_lease_until row = None.
Proof.
  intros [row0 Hrow]. unfold fail_outbox.
  destruct (run_update_outbox oid O_QUARANTINED None (Some e) w row0 Hrow)
    as (w' & now & Hr & _ & Ht).
  eexists w', _. split; [exact Hr|]. split; [exact Ht|]. done.
Qed.

(** A record that is quarantined without a dispatch. *)
Lemma run_unsettled dw record e w w' r :
  has_row (o_outbox_id record) w →
  run (_ ← fail_outbox (o_outbox_id record) e None true; mret false) w = (w', r) →
  (∀ row, o_status row = O_QUARANTINED → o_last_error row = Some e → outcome dw record w row false) →
  r = inr false ∧ settled dw record w w' false.
Proof.
  intros Hrow Hrun Hout.
  destruct (run_quarantine (o_outbox_id record) e w Hrow) as (w1 & row & Hq & Ht & Hs & He & Ho & Hu).
  rewrite run_bind, Hq, run_ret in Hrun. injection Hrun as <- <-.
  split; [done|]. exists row. split_and!; auto.
Qed.

(** Delivering one record always ends, without an exception, with the record
    settled. *)
Lemma deliver_settles dw record w w' r :
  db_inv (w_core w) → has_row (o_outbox_id record) w → names_action record →
  run (deliver sg gw dw record) w = (w', r) →
  ∃ completed, r = inr completed ∧ settled dw record w w' completed.
Proof.
  intros Hw Hrow Hname Hrun. unfold deliver in Hrun.
  destruct (String.eqb_spec (o_topic record) "action.dispatch") as [Ht|Ht]; cbn [negb] in Hrun.
  2: { eapply run_unsettled in Hrun; [eauto|done|]. intros. by apply out_unsupported. }
  destruct (Hname Ht) as [aid Haid].
  assert (target record w = tget a_action_id aid (t_actions (w_core w))) as Htg
    by (unfold target; by rewrite Haid).
  rewrite Haid in Hrun. unfold get_action in Hrun. rewrite run_bind, run_query in Hrun.
  cbn [tbl_get action_attempts] in Hrun.
  change (select_one _ (t_actions (w_core w))) with (tget a_action_id aid (t_actions (w_core w))) in Hrun.
  destruct (tget a_action_id aid _) as [a|].
  2: { eapply run_unsettled in Hrun; [eauto|done|]. intros. by apply out_missing. }
  rewrite run_try, run_bind in Hrun. destruct (run (dispatch sg gw a) w) as [w1 r1] eqn:Hd.
  pose proof Hd as Hev. apply run_dispatch in Hev as [Hev _]; [|done..].
  apply (has_row_stays _ _ _ Hev) in Hrow. destruct r1 as [e|a'].
  - rewrite run_bind in Hrun.
    destruct (run_delivery_failed dw record e w1 Hrow) as (w2 & row & Hf & Hr2 & Ho & Hu & He & Hs).
    rewrite Hf, run_ret in Hrun. injection Hrun as <- <-. exists false. split; [done|].
    exists row. split_and!; [done..|]. destruct (Z.leb_spec (dw_max_attempts dw) (o_attempts record)).
    + by eapply out_exhausted.
    + destruct Hs as [Hs Ha]. eapply out_retry; try done.
      exists (backoff_seconds (o_attempts record)). split_and!; [done..|apply backoff_bounds|apply backoff_bounds].
  - rewrite run_bind in Hrun. unfold complete_outbox in Hrun. destruct Hrow as [row0 Hrow].
    destruct (run_update_outbox (o_outbox_id record) O_DELIVERED None None w1 row0 Hrow)
      as (w2 & now & Hc & _ & Hr2).
    rewrite Hc in Hrun. injection Hrun as <- <-. exists true. split; [done|].
    eexists. split_and!; [exact Hr2|done..|]. by eapply out_delivered.
Qed.

(** Reconciling dispatches nothing. *)
Lemma reconcile_never_calls a w w' r :
  db_inv (w_core w) → run (reconcile gw a) w = (w', r) →
  dispatched_keys (w_trace w') = dispatched_keys (w_trace w).
Proof.
  intros Hw Hrun.
  assert (steps (λ w w' : World Ext, dispatched_keys (w_trace w') = dispatched_keys (w_trace w))
            (reconcile gw a)) as Hs.
  { assert (∀ A (p : prog (World Ext) A), steps calm p →
      steps (λ w w' : World Ext, dispatched_keys (w_trace w') = dispatched_keys (w_trace w)) p) as Hc.
    { intros A p. apply steps_impl. by intros ? ? [_ ->]. }
    unfold reconcile. apply steps_bind; [apply Hc; step_through|intros a'].
    destruct (negb _); [auto with wf|]. apply steps_bind; [auto with wf|intros rc].
    apply steps_bind; [|intros oc; apply Hc; auto with wf].
    apply steps_atomically. intros w0. cbn. by rewrite dispatched_keys_app, app_nil_r. }
  assert (PreOrder (λ w w' : World Ext, dispatched_keys (w_trace w') = dispatched_keys (w_trace w)))
    as Hpre by (split; [by intros ?|by intros ??? <-]).
  pose proof (steps_run _ _ w Hs) as Hr. by rewrite Hrun in Hr.
Qed.

(** ** What a claim returns *)

Definition all_named (d : core_db) : Prop := ∀ o, o ∈ t_outbox d → names_action o.

Lemma lease_named c oid t :
  (∀ o, o ∈ t → names_action o) → ∀ o, o ∈ lease c oid t → names_action o.
Proof.
  intros Ht o (r & Hr & ->)%elem_of_update_where. specialize (Ht r Hr). by destruct (bool_decide _).
Qed.

Lemma run_claim_outbox owner lease_s lim w :
  db_inv (w_core w) → all_named (w_core w) →
  ∃ w1 records, run (claim_outbox owner lease_s lim) w = (w1, inr records) ∧
    db_inv (w_core w1) ∧ evolves (w_core w) (w_core w1) ∧ w_trace w1 = w_trace w ∧
    (∀ r, r ∈ records → has_row (o_outbox_id r) w1 ∧ names_action r).
Proof.
  intros Hw Hnamed. destruct (run (claim_outbox owner lease_s lim) w) as [w1 res] eqn:Hrun.
  pose proof Hrun as Hcalm.
  apply (run_calm _ _ _ _ (claim_outbox_calm owner lease_s lim) Hw) in Hcalm as (Hw1 & Hev & Ht).
  unfold claim_outbox in Hrun. rewrite run_bind in Hrun. unfold read_clock in Hrun.
  rewrite run_atomically in Hrun. cbv beta iota in Hrun. rewrite run_bind, run_atomically in Hrun.
  cbv beta iota in Hrun. rewrite run_bind, run_commit in Hrun.
  set (w0 := set_sys _ (set_sys _ w)) in Hrun. set (now := now_at (n_clock (w_sys w))) in Hrun.
  set (until := (now_at _ + seconds lease_s)%Z) in Hrun.
  pose proof (claim_outbox_tx_eq (OutboxProps.mkClaim owner now until lim) (w_core w0) (w_sys w0)) as Heq.
  cbn [cl_owner cl_now cl_until cl_limit] in Heq. rewrite Heq in Hrun.
  set (c := OutboxProps.mkClaim owner now until lim) in *.
  assert (∀ o, o ∈ after_claim c (t_outbox (w_core w)) → names_action o) as Hafter.
  { unfold after_claim. generalize (claimed_ids c (t_outbox (w_core w))). intros ids.
    revert Hnamed. unfold all_named. generalize (t_outbox (w_core w)).
    induction ids as [|i ids IH]; intros t Hnm; cbn; [done|]. apply IH. by apply lease_named. }
  exists w1. destruct (claimed_ids c _) as [|i ids]; cbn [fst snd] in Hrun.
  - injection Hrun as <- <-. exists []. split_and!; [done..|]. by intros r ?%not_elem_of_nil.
  - rewrite run_select in Hrun. injection Hrun as <- <-. eexists. split; [reflexivity|].
    split_and!; [done..|]. intros r [Hr _]%elem_of_select_where. split; [|by apply Hafter].
    exists r. by apply tget_elem; [apply Hw1|].
Qed.

(** The deliveries of a run, one after the other from [w] to [w']: the first record
    from [w], each next from where the one before ended, each settled. *)
Fixpoint in_turn dw (records : list OutboxRecord) (completed : list bool) w w' : Prop :=
  match records, completed with
  | [], [] => w' = w
  | x :: records', c :: completed' =>
      ∃ wm, run (deliver sg gw dw x) w = (wm, inr c) ∧ settled dw x w wm c ∧
        in_turn dw records' completed' wm w'
  | _, _ => False
  end.

Definition count (b : bool) (l : list bool) : nat := length (List.filter (Bool.eqb b) l).

(** The loop of a delivery run. *)
Lemma run_delivery_loop dw records counts w w' r :
  db_inv (w_core w) → (∀ x, x ∈ records → has_row (o_outbox_id x) w ∧ names_action x) →
  run (for_each records counts (λ counts record,
         completed ← deliver sg gw dw record;
         mret (if completed : bool then (S counts.1, counts.2) else (counts.1, S counts.2)))) w
    = (w', r) →
  ∃ completed, r = inr (counts.1 + count true completed, counts.2 + count false completed) ∧
    in_turn dw records completed w w'.
Proof.
  revert counts w; induction records as [|x records IH]; intros counts w Hw Hrec Hrun.
  { injection Hrun as <- <-. exists []. cbn. by rewrite !Nat.add_0_r, <- surjective_pairing. }
  cbn [for_each] in Hrun. rewrite run_bind, run_bind in Hrun.
  destruct (run (deliver sg gw dw x) w) as [w1 r1] eqn:Hd.
  destruct (Hrec x) as [Hrow Hname]; [by left|].
  assert (db_inv (w_core w1) ∧ evolves (w_core w) (w_core w1)) as [Hw1 Hev1].
  { eapply token_safe_run; [by apply deliver_token|done|exact Hd]. }
  destruct (deliver_settles dw x w w1 r1 Hw Hrow Hname Hd) as (c & -> & Hs). rewrite run_ret in Hrun.
  apply IH in Hrun as (cs & -> & Hin); [|done|].
  2: { intros y Hy. destruct (Hrec y) as [? ?]; [by right|]. split; [|done].
       by eapply has_row_stays. }
  exists (c :: cs). split; [unfold count; destruct c; cbn; do 2 f_equal; lia|]. by exists w1.
Qed.

Lemma in_turn_length dw records cs w w' : in_turn dw records cs w w' → length records = length cs.
Proof.
  revert cs w; induction records as [|x records IH]; intros [|c cs] w; try done.
  intros (wm & _ & _ & Hin). cbn. f_equal. by eapply IH.
Qed.

Lemma count_both cs : count true cs + count false cs = length cs.
Proof.
  unfold count. induction cs as [|b cs IH]; [done|]. cbn [List.filter length]. rewrite <- IH.
  destruct b; cbn; lia.
Qed.

(** C39: a delivery run always ends, whatever the providers answer or raise, provided
    that every queued dispatch names its action (as those the kernel queues do): the
    records it leased are delivered one after the other, each counted once, as
    completed or as failed.  A record is marked delivered when its dispatch
    returned.  When the dispatch raised, it is put off, while attempts remain, for
    as many seconds as the backoff of its attempts, at least one and at most 300,
    counted from the clock at the failure, with the exception as its error; or
    quarantined, when its attempts are used up.  It is quarantined without a
    dispatch when its topic is not the dispatch of actions or its action is
    unknown.  In every case its lease is gone. *)
Theorem delivery_run_settles dw lim w w' r :
  db_inv (w_core w) → all_named (w_core w) →
  run (delivery_run_once sg gw dw lim) w = (w', r) →
  ∃ w1 records completed,
    run (claim_outbox (dw_owner dw) (dw_lease_seconds dw) lim) w = (w1, inr records) ∧
    in_turn dw records completed w1 w' ∧
    r = inr (mkWorkerRun (length records) (count true completed) (count false completed)) ∧
    length records = count true completed + count false completed.
Proof.
  intros Hw Hnamed Hrun. unfold delivery_run_once in Hrun.
  destruct (run_claim_outbox (dw_owner dw) (dw_lease_seconds dw) lim w Hw Hnamed)
    as (w1 & records & Hc & Hw1 & _ & _ & Hrec).
  rewrite run_bind, Hc, run_bind in Hrun.
  destruct (run (for_each records _ _) w1) as [w2 r2] eqn:Hl.
  apply run_delivery_loop in Hl as (cs & -> & Hin); [|done..].
  rewrite run_ret in Hrun. injection Hrun as <- <-.
  exists w1, records, cs. split_and!; [done..|].
  rewrite count_both. by eapply in_turn_length.
Qed.

(** ** Reconciliation *)

(** A reconciliation run always ends, whatever the providers answer or
    raise: it takes at most [limit] actions, counts each once, and never
    dispatches. *)
Theorem reconciliation_run_accounts rw lim w w' r :
  db_inv (w_core w) → (0 ≤ lim)%Z →
  run (reconciliation_run_once gw rw lim) w = (w', r) →
  ∃ res, r = inr res ∧ wr_claimed res = wr_completed res + wr_failed res ∧
    (Z.of_nat (wr_claimed res) ≤ lim)%Z ∧
    dispatched_keys (w_trace w') = dispatched_keys (w_trace w) ∧ db_inv (w_core w') ∧
    evolves (w_core w) (w_core w').
Proof.
  intros Hw Hlim Hrun. pose proof Hrun as Hinv.
  eapply token_safe_run in Hinv as [Hw' Hev']; [|by apply reconciliation_run_once_token|done].
  unfold reconciliation_run_once, list_actions in Hrun.
  rewrite !run_bind, run_select, run_bind, run_select, run_bind in Hrun.
  unfold read_clock in Hrun. rewrite run_atomically in Hrun. cbv beta iota zeta in Hrun.
  set (actions := slice _ _) in Hrun. set (w0 := set_sys _ w) in Hrun. rewrite run_bind in Hrun.
  assert (∀ l counts wa wb rb,
    db_inv (w_core wa) →
    run (for_each l counts (λ counts action,
      completed ← reconcile_one gw action;
      mret (if completed : bool then (S counts.1, counts.2) else (counts.1, S counts.2)))) wa
      = (wb, rb) →
    ∃ n m, rb = inr (counts.1 + n, counts.2 + m) ∧ n + m = length l ∧
      dispatched_keys (w_trace wb) = dispatched_keys (w_trace wa)) as Hloop.
  { clear. intros l. induction l as [|a l IH]; intros counts wa wb rb Hwa Hr.
    { injection Hr as <- <-. exists 0, 0. by rewrite !Nat.add_0_r, <- surjective_pairing. }
    cbn [for_each] in Hr. rewrite !run_bind in Hr.
    destruct (run (reconcile_one gw a) wa) as [w1 r1] eqn:H1.
    assert (∃ b, r1 = inr b ∧ db_inv (w_core w1) ∧
              dispatched_keys (w_trace w1) = dispatched_keys (w_trace wa)) as (b & -> & Hw1 & Ht1).
    { unfold reconcile_one in H1. rewrite run_try, run_bind in H1.
      destruct (run (reconcile gw a) wa) as [w2 r2] eqn:H2.
      pose proof (steps_run (on_core good) _ wa (reconcile_good a)) as Hw2.
      rewrite H2 in Hw2. destruct (Hw2 Hwa) as [Hw2' _].
      apply reconcile_never_calls in H2; [|done].
      destruct r2; injection H1 as <- <-; eexists; by split_and!. }
    rewrite run_ret in Hr. apply IH in Hr as (n & m & -> & Hnm & Ht); [|done].
    exists (if b then S n else n), (if b then m else S m).
    split_and!; [destruct b; cbn; do 2 f_equal; lia|destruct b; cbn; lia|congruence]. }
  destruct (run (for_each actions _ _) w0) as [w1 r1] eqn:Hl.
  apply Hloop in Hl as (n & m & -> & Hnm & Ht); [|exact Hw].
  rewrite run_ret in Hrun. injection Hrun as <- <-. eexists. split; [reflexivity|]. cbn.
  split_and!; [lia| |exact Ht|done|done].
  unfold actions, slice. destruct (lim <? 0)%Z eqn:E; [lia|]. rewrite length_take. lia.
Qed.
End settle.

(** ** Witnesses *)

Definition demo_delivery : ActionDeliveryWorker := mkDelivery "worker-1" 60 5.
Definition demo_delivered : World (list string) * result WorkerRun :=
  run (delivery_run_once demo_signer demo_gateway demo_delivery 10) demo_gw_authorized.

Lemma demo_gw_authorized_inv : db_inv (w_core demo_gw_authorized).
Proof.
  destruct (run_calm (authorize demo_gateway demo_command 5) demo_governed demo_gw_authorized
    (inr demo_gw_action)) as [Hinv _]; [apply authorize_calm, demo_resolver_laws|exact demo_db_inv| |done].
  vm_compute. reflexivity.
Qed.

Example delivery_run_settles_witness :
  ∃ w1 x, in_turn demo_signer demo_gateway demo_delivery [x] [true] w1 demo_delivered.1 ∧
    demo_delivered.2 = inr (mkWorkerRun 1 1 0).
Proof.
  destruct (delivery_run_settles demo_signer demo_gateway demo_resolver_laws demo_delivery 10
    demo_gw_authorized demo_delivered.1 demo_delivered.2 demo_gw_authorized_inv)
    as (w1 & records & completed & Hc & Hin & Hr & Hn).
  - intros o Ho. replace (t_outbox (w_core demo_gw_authorized))
      with [mkOutbox "OUT-3" "action.dispatch" "ACT-0" [("action_id", VStr "ACT-0")] O_PENDING 0
              3000000 None None None 3000000 3000000] in Ho by (vm_compute; reflexivity).
    apply list_elem_of_singleton in Ho as ->. intros _. by exists "ACT-0".
  - apply surjective_pairing.
  - assert (demo_delivered.2 = inr (mkWorkerRun 1 1 0)) as Hd by (vm_compute; reflexivity).
    exists w1. rewrite Hd in Hr. injection Hr as Hl Ht Hf.
    destruct records as [|x [|y records]]; try discriminate Hl. exists x. split; [|exact Hd].
    destruct completed as [|[] [|c completed]]; try discriminate Hn; try discriminate Ht;
      [exact Hin|destruct Hin as (? & _ & _ & Hin); destruct Hin..].
Defined.

(** The action claimed, and its outcome unknown. *)
Definition demo_unknown : World (list string) :=
  (run (_ ← mark_dispatched "ACT-0"; record_outcome "ACT-0" UNKNOWN None) demo_gw_authorized).1.

Lemma demo_unknown_inv : db_inv (w_core demo_unknown).
Proof.
  destruct (run_calm (_ ← mark_dispatched "ACT-0"; record_outcome "ACT-0" UNKNOWN None)
    demo_gw_authorized demo_unknown
    (run (_ ← mark_dispatched "ACT-0"; record_outcome "ACT-0" UNKNOWN None) demo_gw_authorized).2)
    as [Hinv _]; [step_through|exact demo_gw_authorized_inv|apply surjective_pairing|exact Hinv].
Qed.

Definition demo_reconciled : World (list string) * result WorkerRun :=
  run (reconciliation_run_once demo_gateway (mkReconciliation 0) 10) demo_unknown.

Example reconciliation_run_accounts_witness :
  demo_reconciled.2 = inr (mkWorkerRun 1 0 1) ∧
  ∃ res, demo_reconciled.2 = inr res ∧ (Z.of_nat (wr_claimed res) ≤ 10)%Z.
Proof.
  split; [vm_compute; reflexivity|].
  destruct (reconciliation_run_accounts demo_gateway (mkReconciliation 0) 10 demo_unknown
    demo_reconciled.1 demo_reconciled.2 demo_unknown_inv) as (res & Hr & _ & Hl & _).
  - lia.
  - apply surjective_pairing.
  - exists res. split; [exact Hr|exact Hl].
Defined.
