(* ===== verification/EngineSteps.v ===== *)
(** * What the engine's operations do at each await

    Every operation of the engine is made of still steps, of claims followed by
    one provider call each, and of outcomes recorded as the provider told them:
    the token-safe programs of [AtMostOnce]. *)

From S2P Require Import Prelude PyValue Prog RelyGuarantee Table ActionSpecs Policy KernelData World KernelStore KernelInv CaseKernel KernelRaces PolicyStore Auth Conversation Gateway Outside AtMostOnce ActionService Domains Bridge ServiceProps.

(** Reading the system of record takes no applied key back. *)
Class ResourceProviderSteady {Ext} `{Outside Ext} (rp : ResourceProvider Ext) :=
  get_resource_steady t i : steps steady (get_resource rp t i).

Lemma any_resources_steady {Ext} (rp : ResourceProvider Ext) :
  ResourceProviderLaws rp → @ResourceProviderSteady Ext outside_any rp.
Proof.
  intros Hrp t i. eapply steps_impl; [|apply Hrp]. intros w w' [Hc _].
  split; [rewrite Hc; reflexivity|done].
Qed.

#[export] Hint Resolve get_resource_steady : wf.

Section steady.
Context `{Hmac} (sg : PolicySigner) `{Oracle} `{Render} `{Pydantic} `{Digest} {Ext : Type}.
Context `{Outside Ext} (gw : ActionGateway Ext) (rp : ResourceProvider Ext) (br : ActionBridge Ext).
Context `{!ResourceProviderSteady rp}.

(** ** The action service *)
Lemma bind_resource_steady request spec : steps steady (bind_resource rp request spec).
Proof. unfold bind_resource. case_match; [done|]. step_through. Qed.
Lemma open_case_steady request : steps (@steady Ext _) (open_case request).
Proof. unfold open_case. step_through. Qed.
Lemma commit_parameter_steady request upstream ev acc p :
  steps (@steady Ext _) (commit_parameter request upstream ev acc p).
Proof. unfold commit_parameter. step_through. Qed.

(** ** The bridge *)
Lemma _load_resource_steady t i : steps steady (_load_resource rp t i).
Proof. unfold _load_resource. step_through. Qed.
Hint Resolve _load_resource_steady : wf.
Lemma propose_steady intent context : steps steady (propose rp br intent context).
Proof. unfold propose, _prepare_refund, _prepare_generic. step_through. Qed.
Lemma _get_owned_steady pid c a : steps (@steady Ext _) (_get_owned pid c a).
Proof. unfold _get_owned. step_through. Qed.
Lemma _verify_resource_version_steady p : steps steady (_verify_resource_version rp p).
Proof. unfold _verify_resource_version. step_through. Qed.
Lemma on_conflict_steady {A} (p : prog (World Ext) A) h :
  steps steady p → (∀ e, steps steady (h e)) → steps steady (on_conflict p h).
Proof. intros. unfold on_conflict. step_through. Qed.
Lemma reread_steady pid : steps (@steady Ext _) (reread pid).
Proof. unfold reread. step_through. Qed.
Hint Resolve _get_owned_steady _verify_resource_version_steady reread_steady : wf.
Lemma _expire_steady p : steps (@steady Ext _) (_expire p).
Proof. unfold _expire. apply on_conflict_steady; auto with wf. Qed.
Lemma _recover_confirmed_steady p a : steps (@steady Ext _) (_recover_confirmed p a).
Proof. unfold _recover_confirmed. apply on_conflict_steady; auto with wf. Qed.
Hint Resolve _expire_steady _recover_confirmed_steady : wf.
Lemma cancel_steady pid context : steps (@steady Ext _) (cancel pid context).
Proof. unfold cancel. step_through. Qed.
Lemma status_steady pid c a : steps (@steady Ext _) (status pid c a).
Proof. unfold status. step_through. Qed.
End steady.

#[export] Hint Resolve bind_resource_steady open_case_steady commit_parameter_steady
  propose_steady _get_owned_steady _verify_resource_version_steady _expire_steady
  _recover_confirmed_steady cancel_steady status_steady bind_resource_calm open_case_calm
  commit_parameter_calm : wf.

(** ** Policies *)
Section policies.
Context `{Hmac} (sg : PolicySigner) {Ext : Type}.
Hint Resolve offline_policy_commit offline_registry_call : wf.
Abbreviation is_offline := (steps (@offline Ext)).

Lemma hydrate_offline : is_offline (hydrate sg).
Proof. unfold hydrate, repo_list. step_through. Qed.
Lemma create_draft_offline p : is_offline (create_draft p).
Proof. unfold create_draft, repo_get, repo_save. step_through. Qed.
Lemma service_approve_offline i a : is_offline (service_approve sg i a).
Proof. unfold service_approve, _require, repo_get, repo_save. step_through. Qed.
Lemma service_activate_offline i : is_offline (service_activate sg i).
Proof. unfold service_activate, _require, repo_get, repo_list, replace_active. step_through. Qed.
Lemma service_retire_offline i : is_offline (service_retire sg i).
Proof. unfold service_retire, _require, repo_get, repo_save. step_through. Qed.
End policies.

#[export] Hint Resolve hydrate_offline create_draft_offline service_approve_offline
  service_activate_offline service_retire_offline : wf.

(** ** Operations that reach a provider *)
Section tokens.
Context `{Hmac} (sg : PolicySigner) `{Oracle} `{Render} `{Pydantic} `{Digest} {Ext : Type}.
Context `{Outside Ext} (gw : ActionGateway Ext) (rp : ResourceProvider Ext) (br : ActionBridge Ext).
Context (refund_policy : RefundDecisionService).
Context (processor : TurnContext → string → prog (World Ext) GeneratedTurn).
Context (Hpv : ∀ pv, gw_policy_resolver gw = Some pv → PolicyResolverLaws pv).
Context `{!GatewayLaws gw} `{!ResourceProviderLaws rp} `{!ResourceProviderSteady rp}.
Context (Hproc : ∀ context text, token_safe (processor context text)).
Abbreviation triple := (rg sound moves token_guar).

Lemma resubmit_token request duplicate (w0 : World Ext) g :
  stored duplicate (w_core w0) → triple w0 g (resubmit sg gw request duplicate) (λ _ _ _, True).
Proof.
  intros Hst. unfold resubmit.
  apply rg_still_then; [auto with wf|intros w1 [] Hm1|done].
  apply rg_still_then; [auto with wf|intros w2 case Hm2|done].
  apply rg_still_then; [auto with wf|intros w3 [] Hm3|done].
  apply dispatch_token; [done..|]. eapply stored_stays; [|exact Hst].
  etrans; [apply Hm1|]. etrans; [apply Hm2|apply Hm3].
Qed.

Lemma submit_new_token request actor : token_safe (submit_new sg gw rp request actor).
Proof.
  intros w0 g. unfold submit_new. destruct (dget _ ACTION_SPECIFICATIONS) as [spec|]; [|done].
  apply rg_still_then; [auto with wf|intros w1 bound _|done].
  apply rg_still_then; [auto with wf|intros w2 case _|done].
  apply rg_still_then;
    [apply still_steps; apply steps_for_each; auto with wf|intros w3 acc _|done].
  eapply rg_bind; [by apply rg_authorize_gateway| |done].
  intros w4 g4 a Hst. by apply dispatch_token.
Qed.

Lemma submit_token request actor : token_safe (submit sg gw rp request actor).
Proof.
  unfold submit, get_action_by_key. apply token_query_action; [|by apply submit_new_token].
  intros w g a Hst. by apply resubmit_token.
Qed.

Lemma confirm_token pid context : token_safe (confirm sg gw rp br pid context).
Proof.
  unfold confirm. apply token_safe_bind; [apply token_safe_still; auto with wf|intros proposal].
  destruct (p_status proposal); try (apply token_safe_still; auto with wf; done).
  unfold confirm_pending. apply token_safe_bind; [apply token_safe_still; auto with wf|intros now].
  destruct (_ <=? _)%Z; [apply token_safe_still; auto with wf|].
  apply token_safe_bind; [apply token_safe_still; auto with wf|intros []].
  apply token_safe_bind; [by apply token_safe_still|intros []].
  destruct (dget _ ACTION_SPECIFICATIONS) as [spec|]; [|by apply token_safe_still].
  apply token_safe_bind; [by apply token_safe_still|intros []].
  apply token_safe_bind; [by apply token_safe_still|intros payload].
  apply token_safe_require. intros _. unfold execute.
  apply token_safe_bind; [apply submit_token|intros a]. apply token_safe_still, still_steps.
  - apply on_conflict_calm; [auto with wf|intros e; step_through].
  - apply on_conflict_steady; [auto with wf|intros e; step_through].
Qed.

(** An action named by its id, as the API and the workers reach it. *)
Definition with_action (aid : string) (k : ActionRecord → prog (World Ext) ActionRecord) :
    prog (World Ext) ActionRecord :=
  row ← get_action aid;
  match row with Some a => k a | None => mthrow (KeyError aid) end.

Lemma with_action_token aid k :
  (∀ w g a, stored a (w_core w) → triple w g (k a) (λ _ _ _, True)) →
  token_safe (with_action aid k).
Proof. intros Hk. apply token_query_action; [done|by intros w g]. Qed.

Lemma process_turn_token e actor role permissions owner :
  token_safe (process_turn processor e actor role permissions owner).
Proof.
  unfold process_turn. apply token_safe_bind; [|intros acc].
  { apply token_safe_still, still_steps; [unfold accept_result|]; auto with wf. }
  destruct (negb _); [by apply token_safe_still|].
  apply token_safe_bind; [apply Hproc|intros g]. by apply token_safe_still.
Qed.
End tokens.

(** The refund service reads the order it was given, and nothing else. *)
Section refund.
Context `{Hmac} (sg : PolicySigner) `{Oracle} `{Render} {Ext : Type} `{Outside Ext}.
Context (gw : ActionGateway Ext) (refund_policy : RefundDecisionService).
Context (Hpv : ∀ pv, gw_policy_resolver gw = Some pv → PolicyResolverLaws pv).
Context `{!GatewayLaws gw}.

Instance single_order_steady order : ResourceProviderSteady (@single_order_provider Ext order).
Proof. intros t i. cbn. by case_match. Qed.

Lemma process_refund_token cid customer actor policy version order reason consent :
  token_safe (process_refund sg gw refund_policy cid customer actor policy version order reason
                consent).
Proof.
  unfold process_refund. apply token_safe_require. intros _. apply token_safe_require. intros _.
  apply submit_token; apply _ || done.
Qed.
End refund.
