(* ===== verification/Channels.v ===== *)
(** * Channels ([channels/])

    The unified message format, the HTTP and WebSocket adapters, the registry of
    adapters, and the normalization of an IVR turn.  Pydantic's field types are
    the checks of [inbound]; attachments are never set by an adapter. *)

From S2P Require Import Prelude PyValue Numerals Prog KernelData World.

Inductive ChannelType :=
  | HTTP_REST | WEBSOCKET | EMAIL | SMS | WHATSAPP | VOICE_IVR | MOBILE_APP | SLACK | TEAMS.
#[export] Instance ChannelType_eq_dec : EqDecision ChannelType.
Proof. solve_decision. Defined.

Definition channel_type_value (c : ChannelType) : string :=
  match c with
  | HTTP_REST => "http_rest" | WEBSOCKET => "websocket" | EMAIL => "email" | SMS => "sms"
  | WHATSAPP => "whatsapp" | VOICE_IVR => "voice_ivr" | MOBILE_APP => "mobile_app"
  | SLACK => "slack" | TEAMS => "teams"
  end.

Record InboundMessage := mkInbound {
  in_channel : ChannelType; in_channel_message_id : option string; in_user_id : string;
  in_session_id : option string; in_text : string; in_timestamp : Z; in_metadata : dict value
}.

Record OutboundMessage := mkOutbound {
  out_channel : ChannelType; out_user_id : string; out_session_id : string; out_text : string;
  out_timestamp : Z; out_metadata : dict value; out_quick_replies : list string;
  out_cards : list (dict value)
}.

(** ** Field types *)

Definition str_field (v : value) : result string :=
  match v with VStr s => inr s | _ => inl (OtherError "ValidationError") end.
Definition opt_str_field (v : value) : result (option string) :=
  match v with
  | VStr s => inr (Some s) | VNone => inr None | _ => inl (OtherError "ValidationError")
  end.
Definition dict_field (v : value) : result (dict value) :=
  match v with VDict d => inr d | _ => inl (OtherError "ValidationError") end.

(** [raw_data[k]] *)
Definition raw_index (k : string) (raw : dict value) : result value :=
  match dget k raw with Some v => inr v | None => inl (KeyError k) end.

(** The message built of a raw one, before its timestamp. *)
Definition inbound (channel : ChannelType) (raw : dict value) (now : Z) : result InboundMessage :=
  (let? user := raw_index "user_id" raw in
   let? message := raw_index "message" raw in
   let? message_id := opt_str_field (dget_none "message_id" raw) in
   let? user_id := str_field user in
   let? session_id := opt_str_field (dget_none "session_id" raw) in
   let? text := str_field message in
   let? metadata := dict_field (dget_or "metadata" (VDict []) raw) in
   inr (mkInbound channel message_id user_id session_id text now metadata))%wf.

Section channels.
Context `{Oracle} {Ext : Type}.
Abbreviation prog := (prog (World Ext)).

(** [HttpChannel.receive] and [WebSocketChannel.receive] *)
Definition receive (channel : ChannelType) (raw : dict value) : prog InboundMessage :=
  now ← read_clock;
  lift_result (inbound channel raw now).

(** [iso] is the text of a timestamp. *)
Context (iso : Z → string).

Definition http_format_response (m : OutboundMessage) : dict value :=
  [("response", VStr (out_text m)); ("session_id", VStr (out_session_id m))]
  ++ match out_quick_replies m with
     | [] => [] | l => [("quick_replies", VList (map VStr l))] end
  ++ match out_cards m with [] => [] | l => [("cards", VList (map VDict l))] end
  ++ match out_metadata m with [] => [] | d => [("metadata", VDict d)] end.

Definition http_send (m : OutboundMessage) : dict value :=
  [("status", VStr "delivered"); ("channel", VStr (channel_type_value HTTP_REST))].

Definition ws_format_response (m : OutboundMessage) : dict value :=
  [ ("type", VStr "agent_response"); ("text", VStr (out_text m));
    ("session_id", VStr (out_session_id m)); ("timestamp", VStr (iso (out_timestamp m)));
    ("quick_replies", VList (map VStr (out_quick_replies m)));
    ("cards", VList (map VDict (out_cards m))); ("metadata", VDict (out_metadata m)) ].

Definition ws_send (m : OutboundMessage) : dict value := ws_format_response m.
End channels.

(** ** [ChannelRegistry] *)

Section registry.
Context {Channel : Type} (channel_type : Channel → ChannelType).
Abbreviation registry := (list (ChannelType * Channel)).

(** A dict keyed by the type: a registered type keeps its place. *)
Fixpoint register (c : Channel) (r : registry) : registry :=
  match r with
  | [] => [(channel_type c, c)]
  | (t, c') :: r' =>
      if decide (t = channel_type c) then (t, c) :: r' else (t, c') :: register c r'
  end.

Fixpoint channel_get (t : ChannelType) (r : registry) : option Channel :=
  match r with
  | [] => None
  | (t', c) :: r' => if decide (t' = t) then Some c else channel_get t r'
  end.

Definition list_channels (r : registry) : list ChannelType := r.*1.

(** The last channel registered for a type answers for it, and for no other. *)
Lemma channel_get_register c t r :
  channel_get t (register c r) =
  if decide (t = channel_type c) then Some c else channel_get t r.
Proof.
  induction r as [|[t' c'] r IH]; cbn.
  - repeat case_decide; congruence.
  - destruct (decide (t' = channel_type c)) as [->|Hne]; cbn;
      repeat case_decide; try congruence; rewrite IH; by case_decide.
Qed.

Lemma elem_of_register t c r :
  t ∈ list_channels (register c r) → t = channel_type c ∨ t ∈ list_channels r.
Proof.
  induction r as [|[t' c'] r IH]; cbn.
  - rewrite list_elem_of_singleton. by left.
  - case_decide; cbn; [by right|]. rewrite !elem_of_cons. intros [->|Ht]; [by right; left|].
    destruct (IH Ht); auto.
Qed.

Lemma list_channels_register c r : NoDup (list_channels r) → NoDup (list_channels (register c r)).
Proof.
  induction r as [|[t' c'] r IH]; cbn; [intros _; apply NoDup_singleton|].
  intros [Hni Hnd]%NoDup_cons. case_decide; cbn; apply NoDup_cons; [done|].
  split; [|auto]. by intros [?|?]%elem_of_register.
Qed.
End registry.

(** ** [channels/ivr.py] *)

Record IvrTurn := mkIvrTurn {
  ivr_provider_message_id : string; ivr_conversation_id : string; ivr_customer_id : string;
  ivr_transcript : string; ivr_asr_confidence : float; ivr_interrupted : bool;
  ivr_proposed_authority : FactAuthority; ivr_requires_readback : bool
}.

Record IvrAdapter := mkIvrAdapter { min_verification_confidence : float }.
(** The default, [0.9]. *)
Definition default_ivr_adapter : IvrAdapter := mkIvrAdapter (decimal_float false 9 (-1)).

(** [Field(ge=0, le=1)] *)
Definition confidence_valid (x : float) : bool := f_leb (f_of_Z 0) x && f_leb x (f_of_Z 1).

Definition normalize (a : IvrAdapter) (provider_message_id conversation_id customer_id
    transcript : string) (asr_confidence : float) (interrupted : bool) : result IvrTurn :=
  let requires_readback := interrupted || f_ltb asr_confidence (min_verification_confidence a) in
  if confidence_valid asr_confidence then
    inr (mkIvrTurn provider_message_id conversation_id customer_id transcript asr_confidence
           interrupted ASSERTED requires_readback)
  else inl (OtherError "ValidationError").
