(* ===== verification/Mcp.v ===== *)
(** * The MCP facade ([mcp/server.py])

    Two tools and two resources over the proposal bridge: a model can prepare a
    proposal and read its status.  The resolver of the trusted context is the
    host's; the server framework and the texts of its prompts are left out. *)

From S2P Require Import Prelude PyValue Prog Table ActionSpecs Policy KernelData World KernelStore KernelInv CaseKernel Auth Conversation Gateway Outside AtMostOnce ActionService Domains Bridge EngineSteps.

Definition _TRUSTED_ARGUMENT_NAMES : list string :=
  [ "actor_id"; "customer_id"; "case_id"; "procedure_id"; "procedure_version";
    "policy_package_id"; "idempotency_key"; "consent_evidence_ref"; "approval_evidence_ref";
    "provider_url"; "base_url"; "connector_binding_id"; "connector_binding_version";
    "contract_version" ].

(** The names of [_TRUSTED_ARGUMENT_NAMES.intersection(arguments)]. *)
Definition trusted_arguments (arguments : dict value) : list string :=
  List.filter (λ name, dhas name arguments) _TRUSTED_ARGUMENT_NAMES.

Definition _reject_trusted_arguments (arguments : dict value) : result unit :=
  match trusted_arguments arguments with
  | [] => inr tt
  | rejected =>
      inl (ValueError ("Trusted action context cannot be supplied through MCP arguments: "
                         +:+ join ", " (sorted_strs rejected)))
  end.

Definition catalog_item (e : string * ActionSpecification) : value :=
  VDict
    [ ("name", VStr e.1);
      ("required_arguments", VList (map VStr (sorted_set (required_parameters e.2))));
      ("authoritative_arguments", VList (map VStr (sorted_set (authoritative_parameters e.2))));
      ("requires_customer_confirmation", VBool (requires_consent e.2));
      ("requires_host_approval", VBool (requires_approval e.2)) ].

Definition _catalog : dict value :=
  [("actions", VList (map catalog_item (sort_dict ACTION_SPECIFICATIONS)))].

Definition ovalue (s : option string) : value :=
  match s with Some s => VStr s | None => VNone end.

(** [iso] is the text of a timestamp. *)
Definition _safe_proposal (iso : Z → string) (p : ActionProposal) : dict value :=
  [ ("proposal_id", VStr (p_proposal_id p)); ("action", VStr (p_action p));
    ("preview", VDict (p_preview p)); ("status", VStr (proposal_status_value (p_status p)));
    ("expires_at", VStr (iso (p_expires_at p))); ("action_id", ovalue (p_action_id p)) ].

Section server.
Context `{Hmac} `{Oracle} `{Render} `{Pydantic} `{Digest} {Ext : Type}.
Context (rp : ResourceProvider Ext) (br : ActionBridge Ext) (iso : Z → string).
(** [TrustedContextResolver]: a protocol; [C] is the framework's request context. *)
Context {C : Type}.
Context (context_resolver : C → option string → option (dict value) →
                            prog (World Ext) TrustedActionContext).
Abbreviation prog := (prog (World Ext)).

Definition actions_prepare (action : string) (arguments : dict value) (context : C)
    (resource_type resource_id : option string) : prog (dict value) :=
  _ ← lift_result (_reject_trusted_arguments arguments);
  trusted ← context_resolver context (Some action) (Some arguments);
  proposal ← propose rp br (mkIntent action arguments resource_type resource_id) trusted;
  mret (_safe_proposal iso proposal).

Definition actions_get_status (proposal_id : string) (context : C) : prog (dict value) :=
  trusted ← context_resolver context None None;
  proposal ← status proposal_id (ta_customer_id trusted) (Some (ta_actor_id trusted));
  mret (_safe_proposal iso proposal).

(** [json.dumps(..., sort_keys=True)] of the result is a text of this value. *)
Definition action_proposal_status (proposal_id : string) (context : C) : prog value :=
  trusted ← context_resolver context None None;
  proposal ← status proposal_id (ta_customer_id trusted) (Some (ta_actor_id trusted));
  mret (canonical_json (VDict (_safe_proposal iso proposal))).

Definition actions_catalog : prog value := mret (canonical_json (VDict _catalog)).

(** Everything a client of the server can call. *)
Inductive McpCall :=
  | McpPrepare (action : string) (arguments : dict value)
      (resource_type resource_id : option string)
  | McpStatus (proposal_id : string)
  | McpCatalog
  | McpProposal (proposal_id : string).

Definition mcp_serve (context : C) (c : McpCall) : prog value :=
  match c with
  | McpPrepare action arguments t i =>
      d ← actions_prepare action arguments context t i; mret (VDict d)
  | McpStatus pid => d ← actions_get_status pid context; mret (VDict d)
  | McpCatalog => actions_catalog
  | McpProposal pid => action_proposal_status pid context
  end.

(** ** What the server does to the engine's state *)
Context `{!ResourceProviderLaws rp}.
Context (Hres : ∀ c a args, steps offline (context_resolver c a args)).

Lemma mcp_serve_calm context c : steps calm (mcp_serve context c).
Proof.
  assert (∀ a args, steps calm (context_resolver context a args)) as Hcalm
    by (intros; by apply offline_calm).
  destruct c; cbn [mcp_serve];
    unfold actions_prepare, actions_get_status, action_proposal_status, actions_catalog;
    step_through.
Qed.

Lemma mcp_serve_steady `{Outside Ext} `{!ResourceProviderSteady rp} context c :
  steps steady (mcp_serve context c).
Proof.
  assert (∀ a args, steps steady (context_resolver context a args)) as Hst
    by (intros; by apply offline_steady).
  destruct c; cbn [mcp_serve];
    unfold actions_prepare, actions_get_status, action_proposal_status, actions_catalog;
    step_through.
Qed.
End server.

(** ** Facts *)

Lemma trusted_arguments_spec arguments :
  _reject_trusted_arguments arguments = inr tt ↔
  ∀ name, name ∈ _TRUSTED_ARGUMENT_NAMES → dhas name arguments = false.
Proof.
  unfold _reject_trusted_arguments.
  assert (trusted_arguments arguments = [] ↔
          ∀ name, name ∈ _TRUSTED_ARGUMENT_NAMES → dhas name arguments = false) as <-.
  { unfold trusted_arguments. induction _TRUSTED_ARGUMENT_NAMES as [|n l IH]; cbn.
    - split; [by intros _ n ?%elem_of_nil|done].
    - destruct (dhas n arguments) eqn:Hn.
      + split; [done|]. intros Hall. rewrite (Hall n) in Hn; [done|by left].
      + rewrite IH. split; [|by intros Hall m Hm; apply Hall; right].
        by intros Hall m [->|Hm]%elem_of_cons; [|apply Hall]. }
  destruct (trusted_arguments arguments); [done|]. split; done.
Qed.

(** A prepared proposal carries nothing of the trusted context. *)
Lemma safe_proposal_keys iso p :
  dkeys (_safe_proposal iso p) =
  ["proposal_id"; "action"; "preview"; "status"; "expires_at"; "action_id"].
Proof. done. Qed.
