(* ===== verification/Startup.v ===== *)
(** * Start-up ([main.py], module level and [lifespan])

    What the module builds before the first request: the policy signer, the three
    bootstrap policies, the connectors of the upstream mode, the gateway, the
    bridge and the workers; and what [lifespan] does to the stores.  The
    provider bundle, the document of the action registry and the jurisdiction profile are
    given; the sandbox and the reference database create their tables outside.  The
    worker process ([worker.py]) builds the same application and turns a loop. *)

From Stdlib Require Import SpecFloat.
From S2P Require Import Prelude PyValue Prog Table ActionSpecs Policy KernelData World KernelStore KernelInv CaseKernel PolicyStore Auth Settings Conversation Gateway Outside ActionService Sandbox ConnectorRegistry Domains Bridge Workers EngineSteps.

(** ** The bootstrap policies *)

Section policies.
Context `{Hmac}.

Definition policy_signer (s : Settings) : result PolicySigner :=
  PolicySigner_init (policy_signing_key s) (policy_signing_key_id s) (policy_verification_keys s).

(** [PolicyPackage(...)] of a draft. *)
Definition draft_package (s : Settings) (prefix procedure_id : string) (rules : dict value) :
    PolicyPackage :=
  mkPackage (prefix +:+ "@1.0.0:" +:+ jurisdiction_profile s) procedure_id "1.0.0"
    (jurisdiction_profile s) (policy_author s) rules DRAFT None None None None.

Definition names (l : list string) : value := VList (map VStr l).

Definition refund_rules : dict value :=
  [ ("refund_window_days", VInt 30); ("requires_explicit_consent", VBool true);
    ("allowed_actions", names [ "issue_refund"; "issue_store_credit"; "update_case_status";
                                "escalate_to_supervisor"; "add_case_note" ]) ].
Definition reg_e_rules : dict value :=
  [("allowed_actions", names [ "file_eft_dispute"; "issue_provisional_credit";
                               "escalate_to_supervisor"; "add_case_note" ])].
Definition fraud_rules : dict value :=
  [("allowed_actions", names [ "flag_account"; "submit_sar"; "close_alert";
                               "escalate_to_supervisor"; "add_case_note" ])].

(** [policy_signer.activate(policy_signer.approve(..., approver=...))] *)
Definition activated (s : Settings) (sg : PolicySigner) (p : PolicyPackage) : result PolicyPackage :=
  (let? approved := approve sg p (policy_approver s) in activate sg approved)%wf.

Definition active_refund_policy (s : Settings) (sg : PolicySigner) : result PolicyPackage :=
  activated s sg (draft_package s "refund" "cs_refund" refund_rules).
Definition active_reg_e_policy (s : Settings) (sg : PolicySigner) : result PolicyPackage :=
  activated s sg (draft_package s "reg-e" "cs_eft_dispute" reg_e_rules).
Definition active_fraud_policy (s : Settings) (sg : PolicySigner) : result PolicyPackage :=
  activated s sg (draft_package s "fraud" "fraud_alert_triage" fraud_rules).

(** [_POLICY_BY_PROCEDURE], in the order of [bootstrap_policies]. *)
Definition bootstrap_policies (s : Settings) (sg : PolicySigner) : result (dict PolicyPackage) :=
  (let? refund := active_refund_policy s sg in
   let? reg_e := active_reg_e_policy s sg in
   let? fraud := active_fraud_policy s sg in
   inr [("cs_refund", refund); ("cs_eft_dispute", reg_e); ("fraud_alert_triage", fraud)])%wf.
End policies.

(** ** The connectors *)

Section startup.
Context `{Hmac} {Ext : Type} `{Oracle} `{Render} `{HttpClient Ext} `{UrlJoin} `{Secrets} `{Documents}.
Context (python_factory : string → ActionConnectorBinding → result (option (ActionConnector Ext))).

(** What the deployment supplies. *)
Record Deployment := mkDeployment {
  dp_settings : Settings;
  dp_sandbox : ActionConnector Ext;            (* [sandbox_action_connector] *)
  dp_refunds : ActionConnector Ext;            (* [DatabaseRefundConnector()] *)
  dp_provider : option (ActionConnector Ext);  (* [provider_bundle.action] *)
  dp_configured : option ActionRegistryConfig; (* the document of [action_registry_path] *)
  dp_profile : JurisdictionProfile;
  dp_worker_owner : string
}.
Implicit Types dp : Deployment.

Definition default_action_connector dp : result (ActionConnector Ext) :=
  match effective_upstream_mode (dp_settings dp) with
  | UP_PROVIDER =>
      match dp_provider dp with
      | Some c => inr c
      | None => inl (ValueError "Adapter factory must use 'package.module:callable' format")
      end
  | UP_SANDBOX => inr (dp_sandbox dp)
  | UP_DISABLED => inr disabled_connector
  end.

Definition demo_bindings : list ActionConnectorBinding :=
  map (λ name, mkBinding name ("sqlite-demo:" +:+ name) "1" "v1" true 
              (SqliteTransport "sqlite+aiosqlite:///data/upstream_sandbox.db"))
    (dkeys ACTION_SPECIFICATIONS).

Definition sqlite_connectors dp : dict (ActionConnector Ext) :=
  dset "issue_refund" (dp_refunds dp) (map (λ name, (name, dp_sandbox dp)) (dkeys ACTION_SPECIFICATIONS)).

(** [load_action_connector_registry(...)]: the configured registry, if there is one. *)
Definition load_action_connector_registry dp :
    result (option (ActionConnectorRegistry (Ext := Ext))) :=
  match dp_configured dp with
  | None => inr None
  | Some document =>
      (let? config := model_validate document in
       let? registry := create_registry python_factory config (environment (dp_settings dp))
                          (sqlite_connectors dp) in
       inr (Some registry))%wf
  end.

(** [action_connectors]: a registry, or a mapping from every action to the
    default connector. *)
Definition action_connectors dp : result (ActionConnectorRegistry (Ext := Ext) + dict (ActionConnector Ext)) :=
  (let? default := default_action_connector dp in
   let? configured := load_action_connector_registry dp in
   match configured with
   | Some registry => inr (inl registry)
   | None =>
       match effective_upstream_mode (dp_settings dp) with
       | UP_SANDBOX =>
           let? config := model_validate (mkRegistryConfig 1 demo_bindings) in
           let? registry := create_registry python_factory config (environment (dp_settings dp))
                              (sqlite_connectors dp) in
           inr (inl registry)
       | _ => inr (inr (dupdate [("issue_refund", default)]
                          (map (λ e, (e.1, default)) ACTION_PERMISSIONS)))
       end
   end)%wf.

(** ** The services *)

Record App := mkApp {
  app_settings : Settings;
  app_signer : PolicySigner;
  app_policies : dict PolicyPackage;            (* [_POLICY_BY_PROCEDURE] *)
  app_connectors : ActionConnectorRegistry (Ext := Ext) + dict (ActionConnector Ext);
  app_guard : JurisdictionGuard;
  app_action_worker : ActionDeliveryWorker;
  app_reconciliation_worker : ReconciliationWorker
}.

Definition core_gateway (a : App) : ActionGateway Ext :=
  mkGateway match app_connectors a with
            | inl registry => Resolver (registry_resolve registry)
            | inr m => Mapping m
            end true (Some (policy_service_resolver (app_signer a))).

Definition refund_decisions : RefundDecisionService := mkRefundService 30.

Definition action_bridge (a : App) : ActionBridge Ext :=
  mkBridge match app_connectors a with
           | inl registry => Some (registry_resolve registry)
           | inr _ => None
           end refund_decisions 900.

Definition create_app dp : result App :=
  let s := dp_settings dp in
  (let? sg := policy_signer s in
   let? policies := bootstrap_policies s sg in
   let? connectors := action_connectors dp in
   inr (mkApp s sg policies connectors
          (mkGuard (dp_profile dp) (effective_jurisdiction_enforcement s))
          (mkDelivery (dp_worker_owner dp) (action_worker_lease_seconds s) 5)
          (mkReconciliation (action_reconciliation_delay_seconds s))))%wf.

(** ** [lifespan] *)
Abbreviation prog := (prog (World Ext)).

(** A bootstrap package is saved unless the table has one of its id. *)
Definition save_bootstrap (p : PolicyPackage) : prog unit :=
  existing ← repo_get (pk_package_id p);
  match existing with None => repo_save p | Some _ => mret tt end.

Definition lifespan (a : App) : prog unit :=
  _ ← initialize;
  _ ← for_each (map snd (app_policies a)) tt (λ _ p, save_bootstrap p);
  _ ← registry_call (λ rg, inr (registry_clear rg));
  hydrate (app_signer a).
End startup.
Arguments App : clear implicits.
Arguments Deployment : clear implicits.

(** ** The worker process ([worker.py])

    It makes sure the tables exist, and turns a loop until it is told to stop.  The
    number of turns is a parameter; waiting between turns changes nothing. *)
Section worker.
Context `{Hmac} `{Oracle} {Ext : Type} (app : App Ext).
Abbreviation prog := (prog (World Ext)).

(** One turn: an exception of either worker is logged and ends the turn. *)
Definition worker_turn : prog unit :=
  try_except
    (_ ← delivery_run_once (app_signer app) (core_gateway app) (app_action_worker app) 10;
     _ ← reconciliation_run_once (core_gateway app) (app_reconciliation_worker app) 100;
     mret tt)
    (λ _, mret tt).

Fixpoint worker_loop (turns : nat) : prog unit :=
  match turns with
  | 0 => mret tt
  | S turns' => _ ← worker_turn; worker_loop turns'
  end.

(** [run], after [from main import ...].  The tables of the policy repository and of
    the provider bundle are there before any call (their creation is idempotent). *)
Definition worker_run (turns : nat) : prog unit := _ ← initialize; worker_loop turns.

(** [main]: the parser refuses a poll interval that is not positive. *)
Definition worker_main (poll_seconds : float) (turns : nat) : prog unit :=
  if f_leb poll_seconds (S754_zero false) then mthrow (OtherError "SystemExit")
  else worker_run turns.
End worker.
