(* ===== verification/Api.v ===== *)
(** * The application layer ([main.py]): access, proposals, turns

    What the HTTP, WebSocket and MCP endpoints share: who may do what, which
    policy governs an action, how a proposal is derived from an untrusted intent,
    the trusted context of an MCP request, and the generation of one turn.  The
    agent runtime is the class [Adk]. *)

From Stdlib Require Import Ascii SpecFloat.
From S2P Require Import Prelude PyValue PyString Prog Table ActionSpecs Policy KernelData World KernelStore KernelInv CaseKernel PolicyStore Errors Auth Settings Conversation Gateway ActionService ToolCatalog Sandbox Domains Bridge Guardrails ConnectorRegistry Startup Mcp.

(** ** Access *)

Definition _require_permission (actor : UserContext) (permission : Permission) : result unit :=
  if negb (bool_decide (user_role actor = ADMIN)) && negb (has_permission actor permission)
  then inl (AuthorizationError ("Operation requires " +:+ permission_value permission)
              (Some (permission_value permission)))
  else inr tt.

Definition _require_action_access (actor : UserContext) (action : string) : result unit :=
  match dget action ACTION_PERMISSIONS with
  | None => inl (ValidationError ("Unknown consequential action: " +:+ action) None [])
  | Some permission =>
      if bool_decide (user_role actor = CUSTOMER) && String.eqb action "issue_refund" then inr tt
      else _require_permission actor permission
  end.

Definition upstream_unavailable : exn :=
  HTTPException 503
    [ "No upstream provider adapter is configured. The built-in sandbox "
        +:+ "is available only in development." ].

Definition _require_upstream_available (s : Settings) : result unit :=
  if decide (effective_upstream_mode s = UP_DISABLED) then inl upstream_unavailable else inr tt.

(** ** The policy of an action *)

Definition _DEFAULT_PROCEDURE_BY_ACTION : dict string :=
  [ ("issue_refund", "cs_refund"); ("issue_store_credit", "cs_refund");
    ("update_case_status", "cs_refund"); ("file_eft_dispute", "cs_eft_dispute");
    ("issue_provisional_credit", "cs_eft_dispute"); ("escalate_to_supervisor", "cs_refund");
    ("add_case_note", "cs_refund"); ("flag_account", "fraud_alert_triage");
    ("submit_sar", "fraud_alert_triage"); ("close_alert", "fraud_alert_triage") ].

Definition index {V} (k : string) (d : dict V) : result V :=
  match dget k d with Some v => inr v | None => inl (KeyError k) end.

(** [action in set(policy.rules.get("allowed_actions", []))] *)
Definition allows (policy : PolicyPackage) (action : string) : result bool :=
  (let? allowed := py_set (dget_or "allowed_actions" (VList []) (pk_rules policy)) in
   inr (existsb (py_eqb (VStr action)) allowed))%wf.

Definition _action_policy (policies : dict PolicyPackage) (action : string)
    (requested_procedure : option string) : result (string * PolicyPackage) :=
  (let? procedure_id :=
     match requested_procedure with
     | Some p => if dhas p policies then inr p else index action _DEFAULT_PROCEDURE_BY_ACTION
     | None => index action _DEFAULT_PROCEDURE_BY_ACTION
     end in
   let? policy := index procedure_id policies in
   let? allowed := allows policy action in
   if allowed then inr (procedure_id, policy)
   else
     let? procedure_id := index action _DEFAULT_PROCEDURE_BY_ACTION in
     let? policy := index procedure_id policies in
     inr (procedure_id, policy))%wf.

(** ** Case identifiers *)

(** [s.replace("_", "-")] *)
Fixpoint dashes (s : string) : string :=
  match s with
  | EmptyString => ""
  | String c s' => String (if Ascii.eqb c "_" then "-"%char else c) (dashes s')
  end.

Section case_ids.
Context `{Render} `{Digest} `{TextDigest}.

(** [sha256(...).hexdigest()[:16].upper()] *)
Definition short_digest (hex : string) : string := str_upper (String.substring 0 16 hex).

Definition _action_case_id (action customer_id : string) (conversation_id : option string)
    (arguments : dict value) : string :=
  let order_id := dget_none "order_id" arguments in
  if String.eqb action "issue_refund" && truthy order_id then
    "CASE-REFUND-" +:+ short_digest (text_digest (customer_id +:+ ":" +:+ py_str order_id))
  else
    "CASE-" +:+ String.substring 0 32 (str_upper (dashes action)) +:+ "-"
      +:+ short_digest (repr_digest
            (VList [VStr customer_id; ovalue conversation_id; VStr action; VDict arguments])).
End case_ids.

(** ** Views *)

Definition zvalue (z : option Z) : value := match z with Some z => VInt z | None => VNone end.

(** [proposal.model_dump(mode="json")] with [preview] renamed and [state] added;
    [iso] is the text of a timestamp. *)
Definition _proposal_view (iso : Z → string) (p : ActionProposal) : dict value :=
  [ ("proposal_id", VStr (p_proposal_id p)); ("action", VStr (p_action p));
    ("payload", VDict (p_payload p)); ("case_id", VStr (p_case_id p));
    ("customer_id", VStr (p_customer_id p)); ("actor_id", VStr (p_actor_id p));
    ("procedure_id", VStr (p_procedure_id p)); ("procedure_version", VStr (p_procedure_version p));
    ("policy_package_id", VStr (p_policy_package_id p));
    ("idempotency_key", VStr (p_idempotency_key p));
    ("resource_type", ovalue (p_resource_type p)); ("resource_id", ovalue (p_resource_id p));
    ("resource_version", zvalue (p_resource_version p));
    ("conversation_id", ovalue (p_conversation_id p)); ("message_id", ovalue (p_message_id p));
    ("connector_binding_id", ovalue (p_connector_binding_id p));
    ("connector_binding_version", ovalue (p_connector_binding_version p));
    ("contract_version", ovalue (p_contract_version p));
    ("status", VStr (proposal_status_value (p_status p)));
    ("confirmation_evidence_ref", ovalue (p_confirmation_evidence_ref p));
    ("action_id", ovalue (p_action_id p)); ("created_at", VStr (iso (p_created_at p)));
    ("expires_at", VStr (iso (p_expires_at p))); ("updated_at", VStr (iso (p_updated_at p)));
    ("confirmed_at", ovalue (option_map iso (p_confirmed_at p)));
    ("cancelled_at", ovalue (option_map iso (p_cancelled_at p)));
    ("safe_preview", VDict (p_preview p));
    ("state", VStr (proposal_status_value (p_status p))) ].

(** [AuthoritativeResourceRef.model_validate(v)] *)
Definition resource_ref_of (v : value) : result AuthoritativeResourceRef :=
  match v with
  | VDict d =>
      match dget "resource_type" d, dget "resource_id" d with
      | Some (VStr t), Some (VStr i) => inr (mkResourceRef t i)
      | _, _ => inl (OtherError "ValidationError")
      end
  | _ => inl (OtherError "ValidationError")
  end.

(** ** The agent runtime *)

(** An event of a run: its author and the texts of its parts. *)
Record AdkEvent := mkAdkEvent { ae_author : string; ae_parts : list (option string) }.

(** The session service and the runner.  [adk_run] is given what the caller's
    session object holds, and returns the events and what that object holds when
    the run is over: whether the two are shared is the runtime's affair. *)
Class Adk (Ext : Type) := {
  adk_get_session : string → string → prog (World Ext) (option (dict value));
  adk_create_session : string → string → dict value → prog (World Ext) (dict value);
  adk_list_sessions : string → prog (World Ext) (list (string * dict value));
  adk_run : string → string → dict value → string →
            prog (World Ext) (list AdkEvent * dict value)
}.

(** One part of an event: a text that repeats the previous one is dropped. *)
Definition add_part (parts : list string) (p : option string) : list string :=
  match p with
  | Some text =>
      let candidate := str_strip text in
      if negb (String.eqb candidate "") &&
         match parts with
         | [] => true
         | _ => negb (String.eqb candidate (str_strip (List.last parts "")))
         end
      then parts ++ [text] else parts
  | None => parts
  end.

Definition add_event (parts : list string) (e : AdkEvent) : list string :=
  if String.eqb (ae_author e) "router_agent" then parts else fold_left add_part (ae_parts e) parts.

Definition blank_line : string := String "010" (String "010" "").

Definition no_response : string :=
  "I'm sorry, I wasn't able to process your request. "
    +:+ "Could you please rephrase or provide more details?".

Definition response_of (events : list AdkEvent) : string :=
  let text := PyValue.join blank_line (fold_left add_event events []) in
  if String.eqb (str_strip text) "" then no_response else text.

(** [session.state.get(k)] of a key whose value is a text or [None]. *)
Definition state_text (k : string) (state : dict value) : option string :=
  match dget_none k state with VStr s => Some s | _ => None end.

Definition risk_of (procedure_id : option string) : RiskLevel :=
  match procedure_id with
  | Some p =>
      if String.eqb p "cs_eft_dispute" then REGULATED
      else if String.eqb p "cs_refund" || String.eqb p "fraud_alert_triage" then CONSEQUENTIAL
      else INFORMATIONAL
  | None => INFORMATIONAL
  end.

Definition not_prepared : string :=
  blank_line +:+ "I could not prepare that action safely. No action was "
    +:+ "executed; please verify the requested resource and details.".

Section api.
Context `{Hmac} `{Oracle} `{Render} `{Pydantic} `{Digest} `{TextDigest} {Ext : Type} `{Adk Ext}.
Context `{Reasoning.Z3, Reasoning.Sympy}.
Context (app : App Ext) (rp : ResourceProvider Ext) (iso iso_date : Z → string).
(** The parsed procedure files and the surroundings of the guardrails. *)
Context (procedures : dict (dict value)) (env : Surroundings (W := World Ext)).
Abbreviation prog := (prog (World Ext)).

(** ** Proposals *)

Definition _create_action_proposal (actor : UserContext) (customer_id action : string)
    (arguments : dict value) (resource : option AuthoritativeResourceRef)
    (conversation_id message_id requested_procedure : option string) : prog ActionProposal :=
  _ ← lift_result (_require_action_access actor action);
  selected ← lift_result (_action_policy (app_policies app) action requested_procedure);
  propose rp (action_bridge app)
    (mkIntent action arguments (option_map rr_type resource) (option_map rr_id resource))
    (mkTrusted (user_id actor) customer_id
       (_action_case_id action customer_id conversation_id arguments) selected.1
       (pk_version selected.2) (pk_package_id selected.2) conversation_id message_id
       None None None).

(** ** The trusted context of an MCP request *)

Record McpRequest := mkMcpRequest {
  mr_user : option UserContext;
  mr_customer : option string;       (* X-Workflow-Customer-ID *)
  mr_procedure : option string;      (* X-Workflow-Procedure-ID *)
  mr_conversation : option string;   (* X-Workflow-Conversation-ID *)
  mr_message : option string         (* X-Workflow-Message-ID *)
}.
Record McpContext := mkMcpContext { mc_request : option McpRequest; mc_request_id : string }.

(** [header or default] *)
Definition header_or (h : option string) (fallback : string) : string :=
  if str_truthy h then default "" h else fallback.

Definition mcp_customer (actor : UserContext) (header : option string) : option string :=
  if decide (user_role actor = CUSTOMER) then Some (user_id actor)
  else if negb (str_truthy header) && is_dev (app_settings app) then Some "CUST-456"
  else header.

Definition mcp_context (context : McpContext) (action : option string)
    (arguments : option (dict value)) : result TrustedActionContext :=
  match mc_request context with
  | None => inl (AuthorizationError "MCP request context is unavailable" None)
  | Some request =>
      match mr_user request with
      | None => inl (AuthorizationError "MCP request is not authenticated" None)
      | Some actor =>
          (let requested_customer := mcp_customer actor (mr_customer request) in
           ensure str_truthy requested_customer else
             (AuthorizationError "MCP host must bind X-Workflow-Customer-ID" None) in
           let? customer := resolve_customer_context actor (default "" requested_customer) in
           let selected_action := if str_truthy action then default "" action else "issue_refund" in
           let? _ := match action with
                     | Some action => _require_action_access actor action
                     | None => inr tt
                     end in
           let? selected := _action_policy (app_policies app) selected_action
                              (mr_procedure request) in
           let conversation_id := header_or (mr_conversation request) (mc_request_id context) in
           let message_id := header_or (mr_message request) (mc_request_id context) in
           inr (mkTrusted (user_id actor) (cc_customer_id customer)
                  (_action_case_id selected_action (cc_customer_id customer)
                     (Some conversation_id) (default [] arguments)) selected.1
                  (pk_version selected.2) (pk_package_id selected.2) (Some conversation_id)
                  (Some message_id) None None None))%wf
      end
  end.

Definition _resolve_mcp_action_context (context : McpContext) (action : option string)
    (arguments : option (dict value)) : prog TrustedActionContext :=
  lift_result (mcp_context context action arguments).

(** The server mounted at [/mcp]. *)
Definition action_mcp_server : McpContext → McpCall → prog value :=
  mcp_serve rp (action_bridge app) iso _resolve_mcp_action_context.

(** ** One turn *)

Definition session_state (context : TurnContext) (today : string) : dict value :=
  [ ("customer_id", VStr (tc_customer_id context)); ("actor_id", VStr (tc_actor_id context));
    ("actor_role", VStr (tc_actor_role context));
    ("actor_permissions", VList (map VStr (tc_actor_permissions context)));
    ("current_date", VStr today); ("channel", VStr (channel_value (tc_channel context)));
    ("locale", VStr (tc_locale context)); ("timezone", VStr (tc_timezone context)) ].

(** [date.today().isoformat()] *)
Definition today : prog string := now ← read_clock; mret (iso_date now).

Definition open_session (context : TurnContext) : prog (dict value) :=
  session ← adk_get_session (tc_owner_id context) (tc_conversation_id context);
  state ← match session with
          | Some state => mret state
          | None =>
              date ← today;
              adk_create_session (tc_owner_id context) (tc_conversation_id context)
                (session_state context date)
          end;
  date ← today;
  mret (dset "channel" (VStr (channel_value (tc_channel context)))
          (dset "current_date" (VStr date)
             (dset "customer_id" (VStr (tc_customer_id context)) state))).

(** One pending intent of the model: the proposal it became, if any. *)
Definition prepare_intent (context : TurnContext) (actor : UserContext)
    (active_procedure : option string) (raw_intent : value) : prog (option (dict value)) :=
  try_except
    (resource_data ← lift_result (py_get "resource" VNone raw_intent);
     resource ← lift_result (if truthy resource_data
                             then rbind (resource_ref_of resource_data) (λ r, inr (Some r))
                             else inr None);
     action ← lift_result match raw_intent with
                          | VDict d => index "action" d
                          | _ => inl (TypeError "object is not subscriptable")
                          end;
     raw_arguments ← lift_result (py_get "arguments" (VDict []) raw_intent);
     arguments ← lift_result (py_dict raw_arguments);
     proposal ← _create_action_proposal actor (tc_customer_id context) (py_str action) arguments
                  resource (Some (tc_conversation_id context)) (Some (tc_message_id context))
                  active_procedure;
     mret (Some (_proposal_view iso proposal)))
    (* the warning names the action of the intent *)
    (λ _, _ ← lift_result (py_get "action" VNone raw_intent); mret None).

Definition prepare_intents (context : TurnContext) (actor : UserContext)
    (active_procedure : option string) (pending : list value) (text : string) :
    prog (string * list (dict value)) :=
  for_each pending (text, []) (λ acc raw_intent,
    view ← prepare_intent context actor active_procedure raw_intent;
    mret match view with
         | Some view => (acc.1, acc.2 ++ [view])
         | None => (acc.1 +:+ not_prepared, acc.2)
         end).

Definition _generate_safe_turn (context : TurnContext) (text : string) : prog GeneratedTurn :=
  state ← open_session context;
  ran ← adk_run (tc_owner_id context) (tc_conversation_id context) state text;
  let '(events, state) := ran in
  let active_procedure := state_text "current_procedure" state in
  steered ← steer_response env (response_of events) state active_procedure
              (state_text "current_step" state)
              match active_procedure with Some p => dget p procedures | None => None end
              None (Some 2%Z);
  let '(text, _, _) := steered in
  pending ← lift_result (py_list (dget_or "pending_action_intents" (VList []) state));
  role ← lift_result (role_of (tc_actor_role context));
  let actor := mkUser (tc_actor_id context) role (list_to_set (tc_actor_permissions context)) None in
  prepared ← prepare_intents context actor active_procedure pending text;
  mret (mkGenerated prepared.1 (risk_of active_procedure) None prepared.2).
End api.
