(* ===== verification/Endpoints.v ===== *)
(** * The endpoints ([main.py])

    One definition per handler of the HTTP and WebSocket API, over the request the
    framework has validated and the actor the authentication middleware found.
    Provider adapters are the ports of [integrations/contracts.py]; serialized
    models are their records. *)

From Stdlib Require Import Ascii SpecFloat.
From S2P Require Import Prelude PyValue PyString Numerals Prog Table ActionSpecs Procedures KernelData Policy World AuditTrail KernelStore KernelInv CaseKernel PolicyStore Errors Auth Settings Conversation Gateway ActionService Reference Sandbox Domains Bridge Workers Channels ConnectorRegistry Startup Mcp Guardrails Api.

(** ** Requests *)

Record ChatRequest := mkChat {
  ch_message : string; ch_session_id : option string; ch_message_id : option string;
  ch_provider_id : string; ch_user_id : string
}.
Definition length_between (lo hi : nat) (s : string) : bool :=
  Nat.leb lo (String.length s) && Nat.leb (String.length s) hi.
(** What pydantic accepts. *)
Definition chat_valid (r : ChatRequest) : bool :=
  length_between 1 10000 (ch_message r) && length_between 1 100 (ch_provider_id r) &&
  length_between 1 100 (ch_user_id r).

Record ChatResponse := mkChatResponse {
  cr_response : string; cr_session_id : string; cr_action_proposals : list (dict value)
}.

Record ActionProposalRequest := mkProposalRequest {
  ap_customer_id : string; ap_action : string; ap_arguments : dict value;
  ap_resource : option AuthoritativeResourceRef;
  ap_conversation_id : option string; ap_message_id : option string
}.

Record RefundCommandRequest := mkRefundCommand {
  rc_customer_id : string; rc_order_id : string; rc_reason : string;
  rc_consent_evidence_ref : string
}.
Definition refund_command_valid (r : RefundCommandRequest) : bool :=
  length_between 1 100 (rc_customer_id r) && length_between 1 100 (rc_order_id r) &&
  length_between 3 1000 (rc_reason r) && length_between 3 500 (rc_consent_evidence_ref r).

Record IvrTurnRequest := mkIvrRequest {
  iv_provider_id : string; iv_message_id : string; iv_conversation_id : string;
  iv_customer_id : string; iv_transcript : string; iv_asr_confidence : float;
  iv_interrupted : bool
}.
Record IvrTurnResponse := mkIvrResponse {
  ir_accepted : bool; ir_requires_readback : bool; ir_proposed_authority : FactAuthority
}.

Record ConversationTurnRequest := mkTurnRequest {
  cq_provider_id : string; cq_message_id : string; cq_conversation_id : string;
  cq_customer_id : string; cq_channel : ChannelKind; cq_text : string; cq_locale : string;
  cq_timezone : string; cq_sequence : option Z; cq_asr_confidence : option float;
  cq_interrupted : bool; cq_consent_snapshot : dict value; cq_contains_dtmf_secret : bool;
  cq_secure_dtmf_capture : bool
}.

Record WebSocketTurnFrame := mkFrame {
  wf_provider_id : string; wf_message_id : string; wf_session_id : option string;
  wf_user_id : string; wf_message : string; wf_sequence : option Z; wf_locale : string;
  wf_timezone : string; wf_consent_snapshot : dict value
}.

Record CreateHandoffRequest := mkHandoffRequest {
  hq_conversation_id : string; hq_case_id : string; hq_customer_id : string;
  hq_queue : string; hq_priority : string; hq_context : dict value
}.

Record PolicyDraftRequest := mkPolicyDraft {
  pd_package_id : string; pd_procedure_id : string; pd_version : string;
  pd_jurisdiction : string; pd_rules : dict value
}.

Record ChatDeliveryRequest := mkDeliveryRequest {
  cd_message_id : option string; cd_conversation_id : string; cd_customer_id : string;
  cd_text : string; cd_metadata : dict value
}.

(** ** Ports *)

Record TtsRequest := mkTtsRequest {
  tts_provider_id : string; tts_request_id : string; tts_call_id : string; tts_text : string;
  tts_locale : string; tts_voice : string; tts_ssml : bool
}.
Record TtsResult := mkTtsResult {
  ttr_provider_id : string; ttr_request_id : string; ttr_call_id : string;
  ttr_playback_id : string; ttr_media_ref : string; ttr_simulated : bool
}.
Record TelephonyEvent := mkTelephony {
  te_provider_id : string; te_event_id : string; te_call_id : string; te_event_type : string;
  te_sequence : Z; te_occurred_at : string; te_payload : dict value
}.
Record HandoffTicketRequest := mkTicketRequest {
  ht_handoff_id : string; ht_conversation_id : string; ht_case_id : string; ht_queue : string;
  ht_priority : string; ht_context : dict value
}.

Record Providers (Ext : Type) := mkProviders {
  pr_transcribe : SttRequest → prog (World Ext) SttResult;
  pr_synthesize : TtsRequest → prog (World Ext) TtsResult;
  pr_accept_event : TelephonyEvent → prog (World Ext) ProviderReceipt;
  pr_send : dict value → prog (World Ext) ProviderReceipt;
  pr_enqueue : HandoffTicketRequest → prog (World Ext) HandoffReceipt;
  pr_record_receipt : ProviderReceipt → prog (World Ext) ProviderReceipt;
  pr_list_receipts : Z → prog (World Ext) (list ProviderReceipt)
}.
Arguments mkProviders {Ext}.
Arguments pr_transcribe {Ext}.
Arguments pr_synthesize {Ext}.
Arguments pr_accept_event {Ext}.
Arguments pr_send {Ext}.
Arguments pr_enqueue {Ext}.
Arguments pr_record_receipt {Ext}.
Arguments pr_list_receipts {Ext}.

Definition _ALLOWED_TABLES : list string :=
  [ "customers"; "orders"; "order_items"; "accounts"; "transactions"; "fraud_alerts"; "devices";
    "login_history"; "risk_indicators"; "cases"; "case_notes"; "disputes"; "escalations";
    "refunds"; "knowledge_articles" ].

Definition _WORKFLOW_STATE_KEYS : list string :=
  [ "current_procedure"; "current_procedure_name"; "current_step"; "steps_completed";
    "workflow_status"; "workflow_started_at"; "workflow_resolution"; "workflow_completed_at";
    "escalation_reason"; "escalated_at" ].

(** [str(uuid.uuid4())] of the 32 digits of [uuid.uuid4().hex] *)
Definition dashed (h : string) : string :=
  String.substring 0 8 h +:+ "-" +:+ String.substring 8 4 h +:+ "-" +:+ String.substring 12 4 h
    +:+ "-" +:+ String.substring 16 4 h +:+ "-" +:+ String.substring 20 12 h.

(** [LIMIT ? OFFSET ?] *)
Definition page {A} (lim offset : Z) (l : list A) : list A :=
  limit lim (drop (Z.to_nat offset) l).

Section endpoints.
Context `{Hmac} `{Oracle} `{Render} `{Pydantic} `{Digest} `{TextDigest} {Ext : Type} `{Adk Ext}.
Context `{Reasoning.Z3, Reasoning.Sympy} `{HasReference Ext}.
Context (app : App Ext) (rp : ResourceProvider Ext) (providers : Providers Ext).
Context (iso iso_date : Z → string).
Context (procedures : dict (dict value)) (env : Surroundings (W := World Ext)).
Abbreviation prog := (prog (World Ext)).
Abbreviation settings := (app_settings app).
Abbreviation gateway := (core_gateway app).
Abbreviation bridge := (action_bridge app).
Abbreviation processor := (_generate_safe_turn app rp iso iso_date procedures env).

Definition guard {A} (r : result A) : prog A := lift_result r.

(** ** Conversations *)

(** [x or f"{prefix}{uuid.uuid4().hex}"] and [x or str(uuid.uuid4())] *)
Definition or_fresh (x : option string) (prefix : string) : prog string :=
  if str_truthy x then mret (default "" x) else new_uuid prefix.
Definition or_session (x : option string) : prog string :=
  if str_truthy x then mret (default "" x) else (h ← new_uuid ""; mret (dashed h)).

(** Only integrations and administrators name the provider of a message. *)
Definition provider_of (actor : UserContext) (given direct : string) : string :=
  if bool_decide (user_role actor ∈ [ADMIN; INTEGRATION]) then given else direct.

Definition process (actor : UserContext) (owner_id : string) (e : MessageEnvelope) : prog TurnResult :=
  process_turn processor e (user_id actor) (role_value (user_role actor))
    (sorted_set (user_permissions actor)) owner_id.

Definition duplicate_response : string := "This message was already received.".

Definition chat_v1 (request : ChatRequest) (actor : UserContext) : prog ChatResponse :=
  inbound ← receive HTTP_REST
    [ ("message", VStr (ch_message request)); ("user_id", VStr (ch_user_id request));
      ("session_id", Mcp.ovalue (ch_session_id request));
      ("message_id", Mcp.ovalue (ch_message_id request)) ];
  customer ← guard (resolve_customer_context actor (in_user_id inbound));
  let owner_id := session_owner_id (user_id actor) (cc_customer_id customer) in
  session_id ← or_session (in_session_id inbound);
  _ ← initialize;
  message_id ← or_fresh (in_channel_message_id inbound) "local:";
  correlation ← new_uuid "";
  r ← process actor owner_id
        (mkEnvelope (provider_of actor (ch_provider_id request) "direct-api") message_id session_id
           (cc_customer_id customer) CHAT (in_text inbound) "en-US" "America/Chicago" None
           correlation None [] []);
  mret (if tr_duplicate r then mkChatResponse duplicate_response session_id []
        else mkChatResponse (default "" (tr_response r)) session_id (tr_action_proposals r)).

Definition accept_ivr_turn (request : IvrTurnRequest) (actor : UserContext) : prog IvrTurnResponse :=
  customer ← guard (resolve_customer_context actor (iv_customer_id request));
  turn ← guard (normalize default_ivr_adapter (iv_message_id request) (iv_conversation_id request)
                  (cc_customer_id customer) (iv_transcript request) (iv_asr_confidence request)
                  (iv_interrupted request));
  _ ← initialize;
  correlation ← new_uuid "";
  accepted ← accept
    (mkEnvelope (iv_provider_id request) (ivr_provider_message_id turn) (ivr_conversation_id turn)
       (ivr_customer_id turn) IVR (ivr_transcript turn) "en-US" "America/Chicago" None correlation
       None [] [ ("asr_confidence", VFloat (ivr_asr_confidence turn));
                 ("interrupted", VBool (ivr_interrupted turn)) ]);
  mret (mkIvrResponse accepted (ivr_requires_readback turn) (ivr_proposed_authority turn)).

Definition jurisdiction_blocked (d : JurisdictionDecision) : exn :=
  HTTPException 409 ("JURISDICTION_CONTROL_BLOCKED" :: jd_profile_id d :: jd_blocks d).

(** The capabilities of a turn: those of the normalized speech, for a voice turn. *)
Definition turn_capabilities (request : ConversationTurnRequest) (customer_id : string) :
    result (dict value) :=
  if decide (cq_channel request = IVR) then
    match cq_asr_confidence request with
    | None => inl (ValidationError "IVR turns require asr_confidence" None [])
    | Some confidence =>
        (let? turn := normalize default_ivr_adapter (cq_message_id request)
                        (cq_conversation_id request) customer_id (cq_text request) confidence
                        (cq_interrupted request) in
         inr [ ("asr_confidence", VFloat (ivr_asr_confidence turn));
               ("interrupted", VBool (ivr_interrupted turn));
               ("requires_readback", VBool (ivr_requires_readback turn)) ])%wf
    end
  else inr [].

(** What a turn is admitted by, before anything is stored: its customer and its
    capabilities. *)
Definition admit_turn (request : ConversationTurnRequest) (actor : UserContext) :
    result (CustomerContext * dict value) :=
  (let? customer := resolve_customer_context actor (cq_customer_id request) in
   let? _ := if decide (user_role actor = INTEGRATION)
             then _require_permission actor CHANNEL_INGEST else inr tt in
   let decision := evaluate_inbound (app_guard app) (cq_channel request)
                     (cq_consent_snapshot request) (cq_contains_dtmf_secret request)
                     (cq_secure_dtmf_capture request) in
   ensure jd_allowed decision else (jurisdiction_blocked decision) in
   let? capabilities := turn_capabilities request (cc_customer_id customer) in
   inr (customer, capabilities))%wf.

Definition process_conversation_turn (request : ConversationTurnRequest) (actor : UserContext) :
    prog TurnResult :=
  admitted ← guard (admit_turn request actor);
  _ ← initialize;
  correlation ← new_uuid "";
  process actor (session_owner_id (user_id actor) (cc_customer_id admitted.1))
    (mkEnvelope (provider_of actor (cq_provider_id request) "direct-api") (cq_message_id request)
       (cq_conversation_id request) (cc_customer_id admitted.1) (cq_channel request)
       (cq_text request) (cq_locale request) (cq_timezone request) (cq_sequence request)
       correlation None (cq_consent_snapshot request) admitted.2).

(** ** Actions *)

Definition connector_capabilities : option (list (dict value)) :=
  match app_connectors app with inl registry => Some (capabilities registry) | inr _ => None end.

(** [binding_capabilities.get(name)]: the last item of the name. *)
Definition binding_of (items : list (dict value)) (name : string) : option (dict value) :=
  List.find (λ item, py_eqb (dget_none "action_name" item) (VStr name)) (rev items).

Definition action_visible (actor : UserContext) (name : string) : bool :=
  bool_decide (user_role actor = ADMIN) ||
  match dget name ACTION_PERMISSIONS with Some p => has_permission actor p | None => false end ||
  (bool_decide (user_role actor = CUSTOMER) && String.eqb name "issue_refund").

Definition catalog_entry (e : string * ActionSpecification) : dict value :=
  let binding := binding_of (default [] connector_capabilities) e.1 in
  [ ("name", VStr e.1);
    ("required_parameters", VList (map VStr (sorted_set (required_parameters e.2))));
    ("authoritative_parameters", VList (map VStr (sorted_set (authoritative_parameters e.2))));
    ("requires_consent", VBool (requires_consent e.2));
    ("requires_approval", VBool (requires_approval e.2));
    ("permission", match dget e.1 ACTION_PERMISSIONS with
                   | Some p => VStr (permission_value p) | None => VNone end);
    ("available", VBool match connector_capabilities with
                        | Some _ => bool_decide (is_Some binding) | None => true end);
    ("binding", match binding with Some b => VDict b | None => VNone end) ].

Definition list_action_catalog (actor : UserContext) : prog (list (dict value)) :=
  mret (map catalog_entry (List.filter (λ e, action_visible actor e.1) ACTION_SPECIFICATIONS)).

Definition create_action_proposal_ep (request : ActionProposalRequest) (actor : UserContext) :
    prog (dict value) :=
  customer ← guard (resolve_customer_context actor (ap_customer_id request));
  _ ← guard (_require_upstream_available settings);
  _ ← initialize;
  proposal ← _create_action_proposal app rp actor (cc_customer_id customer) (ap_action request)
               (ap_arguments request) (ap_resource request) (ap_conversation_id request)
               (ap_message_id request) None;
  mret (_proposal_view iso proposal).

Definition list_action_proposals_ep (conversation_id : option string) (actor : UserContext) :
    prog (list (dict value)) :=
  _ ← initialize;
  proposals ← list_action_proposals None conversation_id None 100;
  mret (map (_proposal_view iso)
          (List.filter (λ p, String.eqb (p_actor_id p) (user_id actor)) proposals)).

Definition _owned_proposal (proposal_id : string) (actor : UserContext) : prog ActionProposal :=
  proposal ← get_action_proposal proposal_id;
  match proposal with
  | None => mthrow (NotFoundError "ActionProposal" proposal_id)
  | Some proposal =>
      _ ← guard (resolve_customer_context actor (p_customer_id proposal));
      _ ← require (String.eqb (p_actor_id proposal) (user_id actor))
            (AuthorizationError "Action proposal belongs to a different actor" None);
      mret proposal
  end.

Definition get_action_proposal_ep (proposal_id : string) (actor : UserContext) : prog (dict value) :=
  _ ← initialize;
  proposal ← _owned_proposal proposal_id actor;
  proposal ← status (p_proposal_id proposal) (p_customer_id proposal) (Some (user_id actor));
  mret (_proposal_view iso proposal).

(** The response and the action record, when the proposal has one. *)
Definition confirm_action_proposal (proposal_id : string) (actor : UserContext) :
    prog (dict value * option ActionRecord) :=
  _ ← guard (_require_upstream_available settings);
  _ ← initialize;
  proposal ← _owned_proposal proposal_id actor;
  _ ← guard (_require_action_access actor (p_action proposal));
  evidence ← new_uuid ("host-confirmation:" +:+ proposal_id +:+ ":");
  confirmed ← confirm (app_signer app) gateway rp bridge proposal_id
                (mkConfirmation (user_id actor) (p_customer_id proposal) (Some evidence)
                   (Some evidence));
  action ← (if str_truthy (p_action_id confirmed)
            then get_action (default "" (p_action_id confirmed)) else mret None);
  mret (_proposal_view iso confirmed, action).

Definition cancel_action_proposal (proposal_id : string) (actor : UserContext) : prog (dict value) :=
  _ ← initialize;
  proposal ← _owned_proposal proposal_id actor;
  cancelled ← cancel proposal_id (mkConfirmation (user_id actor) (p_customer_id proposal) None None);
  mret (_proposal_view iso cancelled).

Definition get_action_status (action_id : string) (actor : UserContext) :
    prog (ActionRecord * list ActionEvent) :=
  _ ← initialize;
  action ← get_action action_id;
  match action with
  | None => mthrow (NotFoundError "Action" action_id)
  | Some action =>
      let cid := c_case_id (a_command action) in
      case ← get_case cid;
      match case with
      | None => mthrow (NotFoundError "Case" cid)
      | Some case =>
          _ ← guard (resolve_customer_context actor (case_customer_id case));
          _ ← require (String.eqb (c_actor_id (a_command action)) (user_id actor))
                (AuthorizationError "Action belongs to a different actor" None);
          events ← list_action_events action_id;
          mret (action, events)
      end
  end.

Definition submit_consequential_action (request : ConsequentialActionRequest) (actor : UserContext) :
    prog ActionRecord :=
  customer ← guard (resolve_customer_context actor (r_customer_id request));
  permission ← guard (index (payload_action (r_payload request)) ACTION_PERMISSIONS);
  _ ← guard (_require_permission actor permission);
  _ ← guard (_require_upstream_available settings);
  _ ← require (String.eqb (cc_customer_id customer) (r_customer_id request))
        (AuthorizationError "Action customer binding mismatch" None);
  _ ← initialize;
  submit (app_signer app) gateway rp request (user_id actor).

(** Field validation of the snapshot of an order row. *)
Definition int_of_field (v : value) : result Z :=
  (let? z := validate_version v in
   match z with Some z => inr z | None => inl (OtherError "ValidationError") end)%wf.
Definition float_of_field (v : value) : result float :=
  match py_float v with inr x => inr x | inl _ => inl (OtherError "ValidationError") end.

Definition order_snapshot (order : row) : result OrderSnapshot :=
  let field k := index k order in
  (let? order_id := field "order_id" in
   let? customer_id := field "customer_id" in
   let? status := field "status" in
   let? days := field "days_since_delivery" in
   let? total := field "total" in
   let? payment_method := field "payment_method" in
   let? order_date := field "order_date" in
   let? order_text := str_field order_id in
   let? customer_text := str_field customer_id in
   let? status_text := str_field status in
   let? days := int_of_field (py_or days (VInt 0)) in
   let? amount := float_of_field total in
   let? method := str_field (py_or payment_method (VStr "original_payment_method")) in
   inr (mkOrder order_text customer_text status_text days amount method
          ("orders-db:" +:+ py_str order_id +:+ ":" +:+ py_str order_date)))%wf.

Definition refund_forbidden : exn :=
  AuthorizationError "Refund command requires refund write permission"
    (Some (permission_value REFUND_WRITE)).

Definition create_refund_command (request : RefundCommandRequest) (actor : UserContext) :
    prog ActionRecord :=
  customer ← guard (resolve_customer_context actor (rc_customer_id request));
  _ ← guard (_require_upstream_available settings);
  _ ← require (bool_decide (user_role actor = CUSTOMER) || has_permission actor REFUND_WRITE)
        refund_forbidden;
  order ← order_get_by_id (rc_order_id request);
  match order with
  | None => mthrow (NotFoundError "Order" (rc_order_id request))
  | Some order =>
      owner ← guard (index "customer_id" order);
      _ ← require (py_eqb owner (VStr (cc_customer_id customer)))
            (NotFoundError "Order" (rc_order_id request));
      _ ← initialize;
      policy ← guard (index "cs_refund" (app_policies app));
      snapshot ← guard (order_snapshot order);
      process_refund (app_signer app) gateway refund_decisions
        ("CASE-REFUND-" +:+ short_digest
           (text_digest (cc_customer_id customer +:+ ":" +:+ rc_order_id request)))
        (cc_customer_id customer) (user_id actor) (pk_package_id policy) "1.0.0" snapshot
        (rc_reason request) (Some (rc_consent_evidence_ref request))
  end.
End endpoints.
