(* ===== verification/Operations.v ===== *)
(** * Operational endpoints ([main.py])

    Provider integration, human handoff, policy governance, operations, sessions,
    data browsing, the WebSocket conversation, the probes, the legacy aliases, the
    endpoints of development and of running procedures. *)

From Stdlib Require Import Ascii SpecFloat.
From S2P Require Import Prelude PyValue PyString Numerals Prog Table ActionSpecs Procedures KernelData Policy World AuditTrail KernelStore KernelInv CaseKernel PolicyStore Errors Auth Settings Conversation Gateway ActionService Reference Sandbox Domains Bridge Workers Channels ConnectorRegistry Startup Mcp Guardrails Api Endpoints.

(** A frame the WebSocket receives: valid, refused by its model, or the end. *)
Inductive ws_received := WsFrame (f : WebSocketTurnFrame) | WsInvalid (errors : value).

(** What it sends. *)
Inductive ws_sent :=
  | WsClose (code : Z) (reason : string)
  | WsValidationError (errors : value)
  | WsDuplicate (session_id : string)
  | WsQuarantined (session_id message_id : string)
  | WsResponse (session_id : string) (text : option string) (risk : RiskLevel) (streams : bool)
      (action_proposals : list (dict value))
  | WsStreamEnd (session_id : string).

(** [__init__.py] *)
Definition version : string := "3.2.0".

Definition environment_value (e : Environment) : string :=
  match e with DEV => "dev" | STAGING => "staging" | PRODUCTION => "production" end.
Definition upstream_mode_value (m : UpstreamMode) : string :=
  match m with UP_DISABLED => "disabled" | UP_SANDBOX => "sandbox" | UP_PROVIDER => "provider" end.

Section operations.
Context `{Hmac} `{Oracle} `{Render} `{Pydantic} `{Digest} `{TextDigest} `{ChainHash}.
Context {Ext : Type} `{Adk Ext} `{Reasoning.Z3, Reasoning.Sympy} `{HasReference Ext}.
Context (app : App Ext) (rp : ResourceProvider Ext) (providers : Providers Ext).
Context (iso iso_date : Z → string).
Context (procedures : dict (dict value)) (env : Surroundings (W := World Ext)).
Abbreviation prog := (prog (World Ext)).
Abbreviation settings := (app_settings app).
Abbreviation gateway := (core_gateway app).

(** ** Provider integration *)

Definition transcribe_ivr (request : SttRequest) (actor : UserContext) : prog SttResult :=
  _ ← guard (_require_permission actor CHANNEL_INGEST);
  _ ← guard (_require_upstream_available settings);
  pr_transcribe providers request.

Definition synthesize_ivr (request : TtsRequest) (actor : UserContext) : prog TtsResult :=
  _ ← guard (_require_permission actor CHANNEL_DELIVERY);
  _ ← guard (_require_upstream_available settings);
  pr_synthesize providers request.

Definition accept_telephony_event (event : TelephonyEvent) (actor : UserContext) :
    prog ProviderReceipt :=
  _ ← guard (_require_permission actor CHANNEL_INGEST);
  _ ← guard (_require_upstream_available settings);
  pr_accept_event providers event.

(** [{**request.model_dump(), "customer_id": ...}] *)
Definition delivery_message (request : ChatDeliveryRequest) (customer_id : string) : dict value :=
  dset "customer_id" (VStr customer_id)
    [ ("message_id", Mcp.ovalue (cd_message_id request));
      ("conversation_id", VStr (cd_conversation_id request));
      ("customer_id", VStr (cd_customer_id request)); ("text", VStr (cd_text request));
      ("metadata", VDict (cd_metadata request)) ].

Definition deliver_chat_message (request : ChatDeliveryRequest) (actor : UserContext) :
    prog ProviderReceipt :=
  customer ← guard (resolve_customer_context actor (cd_customer_id request));
  _ ← guard (_require_permission actor CHANNEL_DELIVERY);
  _ ← guard (_require_upstream_available settings);
  pr_send providers (delivery_message request (cc_customer_id customer)).

Definition record_chat_receipt (receipt : ProviderReceipt) (actor : UserContext) :
    prog ProviderReceipt :=
  _ ← guard (_require_permission actor PROVIDER_CALLBACK);
  _ ← guard (_require_upstream_available settings);
  pr_record_receipt providers receipt.

(** The profile, and whether it is enforced. *)
Definition current_jurisdiction_profile : JurisdictionProfile * bool :=
  (jg_profile (app_guard app), effective_jurisdiction_enforcement settings).

(** ** Human handoff *)

Definition create_handoff_ep (request : CreateHandoffRequest) (actor : UserContext) :
    prog (HandoffRow * HandoffReceipt) :=
  customer ← guard (resolve_customer_context actor (hq_customer_id request));
  _ ← guard (_require_permission actor ESCALATION_CREATE);
  _ ← guard (_require_upstream_available settings);
  case ← get_case (hq_case_id request);
  match case with
  | None => mthrow (NotFoundError "Core case" (hq_case_id request))
  | Some case =>
      _ ← require (String.eqb (case_customer_id case) (cc_customer_id customer))
            (AuthorizationError "Handoff case does not belong to the serviced customer" None);
      record ← request_handoff (hq_conversation_id request) (hq_case_id request)
                 (dset "customer_id" (VStr (cc_customer_id customer)) (hq_context request));
      receipt ← pr_enqueue providers
                  (mkTicketRequest (h_handoff_id record) (h_conversation_id record)
                     (h_case_id record) (hq_queue request) (hq_priority request)
                     (h_context record));
      queued ← transition_handoff (h_handoff_id record) H_QUEUED None;
      mret (queued, receipt)
  end.

Definition get_handoff_ep (handoff_id : string) (actor : UserContext) : prog HandoffRow :=
  _ ← guard (_require_permission actor CASE_READ);
  record ← get_handoff handoff_id;
  match record with
  | None => mthrow (NotFoundError "Handoff" handoff_id)
  | Some record => mret record
  end.

Definition update_handoff_from_provider (handoff_id : string) (status : HandoffStatus)
    (assigned_agent_id : option string) (actor : UserContext) : prog HandoffRow :=
  _ ← guard (_require_permission actor PROVIDER_CALLBACK);
  _ ← guard (_require_upstream_available settings);
  transition_handoff handoff_id status assigned_agent_id.

(** ** Policy governance *)

Definition list_policies (actor : UserContext) : prog (list PolicyPackage) :=
  _ ← guard (_require_permission actor ADMIN_READ);
  repo_list None.

Definition create_policy_draft (request : PolicyDraftRequest) (actor : UserContext) :
    prog PolicyPackage :=
  _ ← guard (_require_permission actor ADMIN_WRITE);
  create_draft
    (mkPackage (pd_package_id request) (pd_procedure_id request) (pd_version request)
       (pd_jurisdiction request) (user_id actor) (pd_rules request) DRAFT None None None None).

Definition approve_policy (package_id : string) (actor : UserContext) : prog PolicyPackage :=
  _ ← guard (_require_permission actor ADMIN_WRITE);
  service_approve (app_signer app) package_id (user_id actor).

Definition activate_policy (package_id : string) (actor : UserContext) : prog PolicyPackage :=
  _ ← guard (_require_permission actor ADMIN_WRITE);
  service_activate (app_signer app) package_id.

Definition retire_policy (package_id : string) (actor : UserContext) : prog PolicyPackage :=
  _ ← guard (_require_permission actor ADMIN_WRITE);
  service_retire (app_signer app) package_id.

(** ** Operations *)

Definition list_core_actions (status : option ActionStatus) (lim : Z) (actor : UserContext) :
    prog (list ActionRecord) :=
  _ ← guard (_require_permission actor ADMIN_READ);
  list_actions status (Z.min lim 1000).

Definition list_core_outbox (status : option OutboxStatus) (lim : Z) (actor : UserContext) :
    prog (list OutboxRecord) :=
  _ ← guard (_require_permission actor ADMIN_READ);
  list_outbox status (Z.min lim 1000).

Definition list_core_action_events (action_id : string) (actor : UserContext) :
    prog (list ActionEvent) :=
  _ ← guard (_require_permission actor ADMIN_READ);
  action ← get_action action_id;
  match action with
  | None => mthrow (NotFoundError "Action" action_id)
  | Some _ => list_action_events action_id
  end.

Definition list_conversation_quarantine (lim : Z) (actor : UserContext) : prog (list InboxRow) :=
  _ ← guard (_require_permission actor ADMIN_READ);
  list_quarantined_messages (Z.min lim 1000).

Definition list_delivery_receipts (lim : Z) (actor : UserContext) : prog (list ProviderReceipt) :=
  _ ← guard (_require_permission actor ADMIN_READ);
  pr_list_receipts providers (Z.min lim 1000).

Definition verify_audit_integrity (actor : UserContext) : prog verification :=
  _ ← guard (_require_permission actor ADMIN_READ);
  audit_verify_chain.

Definition run_action_worker (actor : UserContext) : prog WorkerRun :=
  _ ← guard (_require_permission actor ADMIN_WRITE);
  delivery_run_once (app_signer app) gateway (app_action_worker app) 10.

Definition run_reconciliation_worker (actor : UserContext) : prog WorkerRun :=
  _ ← guard (_require_permission actor ADMIN_WRITE);
  reconciliation_run_once gateway (app_reconciliation_worker app) 100.

(** ** Sessions and data *)

Definition list_procedures_v1 : list (string * dict value) :=
  map (λ p, (p.1,
    [ ("id", VStr p.1); ("name", dget_or "name" (VStr "") p.2);
      ("description", dget_or "description" (VStr "") p.2);
      ("trigger_intents", dget_or "trigger_intents" (VList []) p.2);
      ("version", dget_none "version" p.2) ])) procedures.

(** [{k: v for k, v in raw_state.items() if k in _WORKFLOW_STATE_KEYS}] *)
Definition workflow_state (state : dict value) : dict value :=
  List.filter (λ p, bool_decide (p.1 ∈ _WORKFLOW_STATE_KEYS)) state.

Definition get_session_state_v1 (session_id user : string) (actor : UserContext) :
    prog (dict value) :=
  customer ← guard (resolve_customer_context actor user);
  session ← adk_get_session (session_owner_id (user_id actor) (cc_customer_id customer)) session_id;
  match session with
  | None => mthrow (NotFoundError "Session" session_id)
  | Some state => mret (workflow_state state)
  end.

Definition session_item (s : string * dict value) : dict value :=
  [ ("session_id", VStr s.1); ("procedure", dget_or "current_procedure_name" (VStr "") s.2);
    ("status", dget_or "workflow_status" (VStr "") s.2) ].

Definition list_sessions_v1 (user : string) (actor : UserContext) : prog (list (dict value)) :=
  customer ← guard (resolve_customer_context actor user);
  sessions ← adk_list_sessions (session_owner_id (user_id actor) (cc_customer_id customer));
  mret (map session_item sessions).

Definition list_customers_v1 (lim offset : Z) : prog (list row) :=
  reference_read (λ d, page lim offset (map (columns ["customer_id"; "name"]) (rows_of customers d))).

Definition not_browsable (table_name : string) : exn :=
  ValidationError ("Table '" +:+ table_name +:+ "' is not browsable") (Some "table_name")
    (sorted_strs _ALLOWED_TABLES).

Definition get_table_data_v1 (table_name : string) (lim offset : Z) : prog (list row) :=
  if bool_decide (table_name ∈ _ALLOWED_TABLES)
  then reference_read (λ d, page lim offset (dget_or table_name [] (rf_tables d)))
  else mthrow (not_browsable table_name).

(** ** WebSocket *)

(** Who is connected; [None] is a connection closed with the code 4401. *)
Definition ws_actor `{Jwt} (authorization : string) (now : Z) :
    result (UserContext + (Z * string)) :=
  if auth_enabled (auth settings) then
    let token := if starts_with "Bearer " authorization
                 then String.substring 7 (String.length authorization) authorization else "" in
    if String.eqb token "" then inr (inr (4401%Z, "Authentication required"))
    else
      match decode_access_token (auth settings) token now with
      | inr actor => inr (inl actor)
      | inl e => match workflow_error e with
                 | Some _ => inr (inr (4401%Z, "Invalid authentication"))
                 | None => inl e
                 end
      end
  else inr (inl (build_user_context "dev-user" ADMIN None)).

Definition ws_turn (frame : WebSocketTurnFrame) (actor : UserContext) : prog (list ws_sent) :=
  inbound ← receive WEBSOCKET
    [ ("type", VStr "user_turn"); ("provider_id", VStr (wf_provider_id frame));
      ("message_id", VStr (wf_message_id frame)); ("session_id", Mcp.ovalue (wf_session_id frame));
      ("user_id", VStr (wf_user_id frame)); ("message", VStr (wf_message frame));
      ("sequence", zvalue (wf_sequence frame)); ("locale", VStr (wf_locale frame));
      ("timezone", VStr (wf_timezone frame)); ("consent_snapshot", VDict (wf_consent_snapshot frame)) ];
  customer ← guard (resolve_customer_context actor (in_user_id inbound));
  session_id ← or_session (in_session_id inbound);
  _ ← initialize;
  message_id ← or_fresh (in_channel_message_id inbound) "ws:";
  correlation ← new_uuid "";
  r ← process app rp iso iso_date procedures env actor
        (session_owner_id (user_id actor) (cc_customer_id customer))
        (mkEnvelope (provider_of actor (wf_provider_id frame) "direct-websocket") message_id
           session_id (cc_customer_id customer) CHAT (in_text inbound) (wf_locale frame)
           (wf_timezone frame) (wf_sequence frame) correlation None (wf_consent_snapshot frame) []);
  mret (if tr_duplicate r then [WsDuplicate session_id]
        else if tr_quarantined r then [WsQuarantined session_id (tr_message_id r)]
        else [ WsResponse session_id (tr_response r) (tr_risk r) (tr_may_stream r)
                 (tr_action_proposals r); WsStreamEnd session_id ]).

(** The loop, until the client disconnects or a turn raises. *)
Definition websocket_loop (received : list ws_received) (actor : UserContext) : prog (list ws_sent) :=
  for_each received [] (λ sent data,
    new ← match data with
          | WsFrame frame => ws_turn frame actor
          | WsInvalid errors => mret [WsValidationError errors]
          end;
    mret (sent ++ new)).

Definition websocket_chat `{Jwt} (authorization : string) (received : list ws_received) :
    prog (list ws_sent) :=
  now ← read_clock;
  actor ← guard (ws_actor authorization now);
  match actor with
  | inl actor => websocket_loop received actor
  | inr (code, reason) => mret [WsClose code reason]
  end.

(** ** Metrics and probes *)

Definition all_statuses : list ActionStatus :=
  [REQUESTED; AUTHORIZED; DISPATCHED; SUCCEEDED; FAILED; UNKNOWN; RECONCILED].
Definition all_outbox : list OutboxStatus :=
  [O_PENDING; O_LEASED; O_DELIVERED; O_FAILED; O_QUARANTINED].

Record Metrics := mkMetrics {
  mx_actions : list (ActionStatus * nat); mx_outbox : list (OutboxStatus * nat);
  mx_active_policy_packages : nat
}.

Definition metrics_v1 (actor : UserContext) : prog Metrics :=
  _ ← guard (_require_permission actor ADMIN_READ);
  _ ← initialize;
  actions ← list_actions None 1000;
  outbox ← list_outbox None 1000;
  active ← repo_list (Some ACTIVE);
  mret (mkMetrics
          (map (λ s, (s, rowcount (λ a, bool_decide (a_status a = s)) actions)) all_statuses)
          (map (λ s, (s, rowcount (λ o, bool_decide (o_status o = s)) outbox)) all_outbox)
          (length active)).

Definition registry_source (configured : bool) : string :=
  if configured then "configured"
  else if decide (effective_upstream_mode settings = UP_SANDBOX) then "generated-demo"
  else "legacy-provider-bundle".

(** Whether there is an active policy, and how many. *)
Definition readiness : prog (bool * nat) :=
  active ← try_except (_ ← initialize; repo_list (Some ACTIVE))
             (λ exc, mthrow (HTTPException 503 [exn_name exc]));
  mret (match active with [] => false | _ => true end, length active).

Definition health : dict value :=
  [ ("status", VStr "ok"); ("version", VStr version);
    ("environment", VStr (environment_value (environment settings)));
    ("procedures_loaded", VInt (Z.of_nat (length procedures)));
    ("auth_enabled", VBool (auth_enabled (auth settings)));
    ("upstream_mode", VStr (upstream_mode_value (effective_upstream_mode settings)));
    ("jurisdiction_profile", VStr (jp_profile_id (jg_profile (app_guard app)))) ].

(** [schema model] is the JSON schema of a request model, [profile] the profile of
    the jurisdiction as JSON. *)
Definition integration_contracts (api_prefix : string) (schema : string → value)
    (profile : value) : dict value :=
  [ ("version", VStr version);
    ("upstream_mode", VStr (upstream_mode_value (effective_upstream_mode settings)));
    ("websocket_url", VStr (api_prefix +:+ "/ws/chat"));
    ("websocket_request_schema", schema "WebSocketTurnFrame");
    ("websocket_response_schema", schema "WebSocketResponseFrame");
    ("conversation_turn_schema", schema "ConversationTurnRequest");
    ("action_schema", schema "ConsequentialActionRequest");
    ("action_proposal_schema", schema "ActionProposalRequest");
    ("action_proposal_endpoints", VDict
       [ ("catalog", VStr (api_prefix +:+ "/actions/catalog"));
         ("collection", VStr (api_prefix +:+ "/action-proposals"));
         ("confirm", VStr (api_prefix +:+ "/action-proposals/{proposal_id}/confirm"));
         ("cancel", VStr (api_prefix +:+ "/action-proposals/{proposal_id}/cancel"));
         ("status", VStr (api_prefix +:+ "/actions/{action_id}")) ]);
    ("mcp", VDict
       [ ("url", VStr "/mcp"); ("transport", VStr "streamable-http");
         ("model_tools", VList [VStr "actions_prepare"; VStr "actions_get_status"]);
         ("host_confirmation_tool_exposed", VBool false) ]);
    ("stt_schema", schema "SttRequest"); ("tts_schema", schema "TtsRequest");
    ("telephony_event_schema", schema "TelephonyEvent");
    ("chat_delivery_schema", schema "ChatDeliveryRequest");
    ("delivery_receipt_schema", schema "ProviderReceipt");
    ("jurisdiction_profile", profile) ].

(** ** The aliases of older clients: each calls its versioned endpoint, the ones
    that page with the default page. *)

Definition chat_legacy (request : ChatRequest) (actor : UserContext) :=
  chat_v1 app rp iso iso_date procedures env request actor.

Definition list_procedures_legacy : list (string * dict value) := list_procedures_v1.

Definition get_session_state_legacy (session_id user : string) (actor : UserContext) :
    prog (dict value) :=
  get_session_state_v1 session_id user actor.

Definition list_customers_legacy : prog (list row) := list_customers_v1 100 0.

Definition get_table_data_legacy (table_name : string) : prog (list row) :=
  get_table_data_v1 table_name 100 0.

Definition list_sessions_legacy (user : string) (actor : UserContext) : prog (list (dict value)) :=
  list_sessions_v1 user actor.
End operations.

(** ** Endpoints of development

    The two endpoints that seed the provider sandbox, which exist in development
    only. *)

Section development.
Context `{Oracle} (s : Settings).

Record SandboxResourceRequest := mkSandboxResource {
  sr_resource_type : string; sr_resource_id : string; sr_payload : dict value
}.
Record SandboxScenarioRequest := mkSandboxScenario {
  sq_idempotency_key : string; sq_scenario : SandboxScenario
}.

Inductive DevRequest :=
  | DevResource (r : SandboxResourceRequest)
  | DevScenario (r : SandboxScenarioRequest).

Definition put_sandbox_resource (r : SandboxResourceRequest) (actor : UserContext) :
    prog Sandbox (option resource_row) :=
  _ ← lift_result (_require_permission actor ADMIN_WRITE);
  row ← put_resource (sr_resource_type r) (sr_resource_id r) (sr_payload r);
  mret (Some row).

Definition put_sandbox_scenario (r : SandboxScenarioRequest) (actor : UserContext) :
    prog Sandbox (option resource_row) :=
  _ ← lift_result (_require_permission actor ADMIN_WRITE);
  _ ← set_scenario (sq_idempotency_key r) (sq_scenario r);
  mret None.

(** [if settings.is_dev:] the routes are registered; an unknown route is not found. *)
Definition serve_dev (actor : UserContext) (q : DevRequest) : prog Sandbox (option resource_row) :=
  if is_dev s then
    match q with
    | DevResource r => put_sandbox_resource r actor
    | DevScenario r => put_sandbox_scenario r actor
    end
  else mthrow (HTTPException 404 ["Not Found"]).

(** Seeding the sandbox applies nothing and forgets nothing that was applied. *)
Definition same_effects (x x' : Sandbox) : Prop := sx_effects x' = sx_effects x.

Lemma serve_dev_same_effects actor q : steps same_effects (serve_dev actor q).
Proof.
  unfold serve_dev. destruct (is_dev s); [|apply steps_throw]. destruct q as [r|r].
  - apply steps_bind; [apply steps_lift|]. intros _. apply steps_bind; [|intros; apply steps_ret].
    unfold put_resource. apply steps_require_bind. intros _.
    apply steps_bind; [by apply steps_atomically|]. intros _.
    apply steps_bind; [by apply steps_atomically|]. intros [row|]; [apply steps_ret|apply steps_throw].
  - apply steps_bind; [apply steps_lift|]. intros _.
    apply steps_bind; [by apply steps_atomically|]. intros _. apply steps_ret.
Qed.

(** Outside development, and for a caller who may not administer, nothing changes. *)
Lemma serve_dev_refused actor q x :
  is_dev s = false ∨ is_ok (_require_permission actor ADMIN_WRITE) = false →
  ∃ e, run (serve_dev actor q) x = (x, inl e).
Proof.
  unfold serve_dev. destruct (is_dev s); [|by eexists]. intros [?|Hp]; [done|].
  destruct q; [unfold put_sandbox_resource|unfold put_sandbox_scenario]; rewrite run_bind, run_lift;
    (destruct (_require_permission actor ADMIN_WRITE); [by eexists|done]).
Qed.
End development.

(** ** The executors of the sessions *)

Definition list_active_procedures (rg : dict ProcedureExecutor) : dict value :=
  let active := list_active rg in
  [ ("active_procedures", VDict (map (λ e, (e.1, VDict e.2)) active));
    ("count", VInt (Z.of_nat (length active))) ].

Definition get_session_procedure (session_id : string) (rg : dict ProcedureExecutor) : dict value :=
  match registry_get session_id rg with
  | None =>
      [ ("session_id", VStr session_id); ("procedure", VNone);
        ("message", VStr "No active procedure for this session.") ]
  | Some executor =>
      [ ("session_id", VStr session_id); ("procedure", VDict (get_progress executor));
        ("step_history", VList (map VDict (get_step_history executor))) ]
  end.
