(* ===== verification/ApiSteps.v ===== *)
(** * What the endpoints do at each await

    Every endpoint as one type of calls.  All but five of them only make still
    steps: they cannot reach a provider of actions. *)

From Stdlib Require Import SpecFloat.
From S2P Require Import Prelude PyValue PyString Numerals Prog RelyGuarantee Table ActionSpecs Procedures KernelData Policy World AuditTrail KernelStore KernelInv CaseKernel KernelRaces PolicyStore Errors Auth Settings Conversation Gateway Outside AtMostOnce ActionService Reference Sandbox Domains Bridge ServiceProps Workers EngineSteps Channels ConnectorRegistry Startup Mcp Reasoning Guardrails GuardrailsProps Api Endpoints Operations.

Section still.
Context `{Hmac} `{Oracle} `{Render} `{Pydantic} `{Digest} `{TextDigest} `{ChainHash}.
Context {Ext : Type} `{Adk Ext} `{Reasoning.Z3, Reasoning.Sympy} `{HasReference Ext} `{Outside Ext}.
Context (app : App Ext) (rp : ResourceProvider Ext) (providers : Providers Ext).
Context (iso iso_date : Z → string).
Context (procedures : dict (dict value)) (env : Surroundings (W := World Ext)).
Abbreviation World := (World Ext).
Abbreviation is_still := (steps (@still Ext _)).

(** What the application relies on of its surroundings: the agent runtime, the
    adapters of the channels and the audit trail neither move actions nor take
    back what a provider applied. *)
Class AdkLaws := {
  get_session_still u s : is_still (adk_get_session u s);
  create_session_still u s st : is_still (adk_create_session u s st);
  list_sessions_still u : is_still (adk_list_sessions u);
  run_still u s st t : is_still (adk_run u s st t)
}.
Class ProviderLaws := {
  transcribe_still r : is_still (pr_transcribe providers r);
  synthesize_still r : is_still (pr_synthesize providers r);
  event_still r : is_still (pr_accept_event providers r);
  send_still r : is_still (pr_send providers r);
  enqueue_still r : is_still (pr_enqueue providers r);
  record_still r : is_still (pr_record_receipt providers r);
  receipts_still l : is_still (pr_list_receipts providers l)
}.
Context `{!AdkLaws} `{!ProviderLaws} (Henv : surroundings_keep still env).
Context `{!ResourceProviderLaws rp} `{!ResourceProviderSteady rp}.

Hint Resolve get_session_still create_session_still list_sessions_still run_still transcribe_still
  synthesize_still event_still send_still enqueue_still record_still receipts_still : wf.

#[export] Instance still_preorder : PreOrder (@still Ext _).
Proof.
  split; [by intros w; split|]. intros w1 w2 w3 [??] [??]. split; by etrans.
Qed.

Lemma reference_read_still {A} (f : Reference → A) : is_still (reference_read f).
Proof. apply steps_atomically. intros w. reflexivity. Qed.
Hint Resolve reference_read_still : wf.

Lemma offline_still {A} (p : prog World A) : steps offline p → is_still p.
Proof. intros Hp. apply still_steps; [by apply offline_calm|by apply offline_steady]. Qed.
Hint Resolve offline_policy_commit offline_registry_call : wf.
Lemma repo_list_still l : is_still (repo_list l).
Proof. apply offline_still. unfold repo_list. auto with wf. Qed.
Lemma repo_get_still i : is_still (repo_get i).
Proof. apply offline_still. unfold repo_get. auto with wf. Qed.
Hint Resolve repo_list_still repo_get_still : wf.

Lemma read_clock_still : is_still read_clock.
Proof. auto with wf. Qed.
Lemma new_uuid_still p : is_still (new_uuid p).
Proof. auto with wf. Qed.
Lemma initialize_still : is_still initialize.
Proof. auto with wf. Qed.
Lemma get_case_still c : is_still (get_case c).
Proof. auto with wf. Qed.
Lemma get_action_still a : is_still (get_action a).
Proof. auto with wf. Qed.
Lemma get_handoff_still h : is_still (get_handoff h).
Proof. auto with wf. Qed.
Lemma get_proposal_still p : is_still (get_action_proposal p).
Proof. auto with wf. Qed.
Lemma list_proposals_still c v s l : is_still (list_action_proposals c v s l).
Proof. auto with wf. Qed.
Lemma list_actions_still s l : is_still (list_actions s l).
Proof. auto with wf. Qed.
Lemma list_outbox_still s l : is_still (list_outbox s l).
Proof. unfold list_outbox. auto with wf. Qed.
Lemma list_events_still a : is_still (list_action_events a).
Proof. unfold list_action_events. auto with wf. Qed.
Lemma list_quarantined_still l : is_still (list_quarantined_messages l).
Proof. unfold list_quarantined_messages. auto with wf. Qed.
Lemma accept_still e : is_still (accept e).
Proof. apply still_steps; [apply accept_calm|apply accept_steady]. Qed.
Lemma accept_result_still e : is_still (accept_result e).
Proof. apply still_steps; [unfold accept_result|]; auto with wf. Qed.
Lemma propose_still i c : is_still (propose rp (action_bridge app) i c).
Proof. apply still_steps; auto with wf. Qed.
Lemma cancel_still p c : is_still (cancel p c).
Proof. apply still_steps; auto with wf. Qed.
Lemma status_still p c a : is_still (status p c a).
Proof. apply still_steps; auto with wf. Qed.
Lemma request_handoff_still c i x : is_still (request_handoff c i x).
Proof. apply still_steps; [apply request_handoff_calm|apply request_handoff_steady]. Qed.
Lemma transition_handoff_still h s a : is_still (transition_handoff h s a).
Proof. apply still_steps; [apply transition_handoff_calm|apply transition_handoff_steady]. Qed.
Hint Resolve read_clock_still new_uuid_still initialize_still get_case_still get_action_still
  get_handoff_still get_proposal_still list_proposals_still list_actions_still list_outbox_still
  list_events_still list_quarantined_still accept_still accept_result_still propose_still cancel_still status_still
  request_handoff_still transition_handoff_still : wf.

(** ** A turn *)

Lemma create_proposal_still actor c a args r v m p :
  is_still (_create_action_proposal app rp actor c a args r v m p).
Proof. unfold _create_action_proposal. step_through. Qed.
Hint Resolve create_proposal_still : wf.

Lemma prepare_intent_still context actor p raw :
  is_still (prepare_intent app rp iso context actor p raw).
Proof. unfold prepare_intent. step_through. Qed.
Hint Resolve prepare_intent_still : wf.

Lemma open_session_still context : is_still (open_session iso_date context).
Proof. unfold open_session, today. step_through. Qed.
Hint Resolve open_session_still : wf.

Lemma generate_still context text :
  is_still (_generate_safe_turn app rp iso iso_date procedures env context text).
Proof.
  unfold _generate_safe_turn, prepare_intents. apply steps_bind; [auto with wf|intros st].
  apply steps_bind; [auto with wf|intros [events st']].
  apply steps_bind; [by apply steer_response_steps|intros [[? ?] ?]]. step_through.
Qed.

Lemma process_still actor owner e :
  is_still (process app rp iso iso_date procedures env actor owner e).
Proof.
  unfold process, process_turn. apply steps_bind; [auto with wf|intros acc].
  destruct (negb (acc_accepted acc)); [apply steps_ret|].
  apply steps_bind; [apply generate_still|intros g].
  apply steps_ret.
Qed.
Hint Resolve process_still : wf.

Lemma receive_still c raw : is_still (receive c raw).
Proof. unfold receive. step_through. Qed.
Lemma or_fresh_still x p : is_still (or_fresh x p).
Proof. unfold or_fresh. step_through. Qed.
Lemma or_session_still x : is_still (or_session x).
Proof. unfold or_session. step_through. Qed.
Lemma owned_still p a : is_still (_owned_proposal p a).
Proof. unfold _owned_proposal, guard. step_through. Qed.
Hint Resolve receive_still or_fresh_still or_session_still owned_still : wf.

(** ** The endpoints *)

Inductive legacy_call :=
  | LegacyChat (r : ChatRequest)
  | LegacyProcedures
  | LegacySessionState (session_id user : string)
  | LegacyCustomers
  | LegacyTable (table_name : string)
  | LegacySessions (user : string).

Inductive api_call :=
  | ApiChat (r : ChatRequest)
  | ApiIvrTurn (r : IvrTurnRequest)
  | ApiTurn (r : ConversationTurnRequest)
  | ApiWebSocket (received : list ws_received)
  | ApiCatalog
  | ApiPropose (r : ActionProposalRequest)
  | ApiListProposals (conversation_id : option string)
  | ApiGetProposal (proposal_id : string)
  | ApiConfirm (proposal_id : string)
  | ApiCancel (proposal_id : string)
  | ApiActionStatus (action_id : string)
  | ApiSubmit (r : ConsequentialActionRequest)
  | ApiRefund (r : RefundCommandRequest)
  | ApiTranscribe (r : SttRequest)
  | ApiSynthesize (r : TtsRequest)
  | ApiTelephony (e : TelephonyEvent)
  | ApiDeliver (r : ChatDeliveryRequest)
  | ApiReceipt (r : ProviderReceipt)
  | ApiCreateHandoff (r : CreateHandoffRequest)
  | ApiGetHandoff (handoff_id : string)
  | ApiHandoffCallback (handoff_id : string) (status : HandoffStatus) (agent : option string)
  | ApiListPolicies
  | ApiDraftPolicy (r : PolicyDraftRequest)
  | ApiApprovePolicy (package_id : string)
  | ApiActivatePolicy (package_id : string)
  | ApiRetirePolicy (package_id : string)
  | ApiListActions (status : option ActionStatus) (lim : Z)
  | ApiListOutbox (status : option OutboxStatus) (lim : Z)
  | ApiActionEvents (action_id : string)
  | ApiQuarantine (lim : Z)
  | ApiReceipts (lim : Z)
  | ApiAuditIntegrity
  | ApiRunDelivery
  | ApiRunReconciliation
  | ApiSessionState (session_id user : string)
  | ApiSessions (user : string)
  | ApiCustomers (lim offset : Z)
  | ApiTable (table_name : string) (lim offset : Z)
  | ApiMetrics
  | ApiReady
  | ApiHealth
  | ApiProcedures
  | ApiJurisdiction
  | ApiLegacy (c : legacy_call)
  | ApiMcp (request : McpContext) (c : McpCall).

(** The response is its caller's business. *)
Definition answer {A} (p : prog World A) : prog World unit := _ ← p; mret tt.

Definition serve_legacy (actor : UserContext) (c : legacy_call) : prog World unit :=
  match c with
  | LegacyChat r => answer (chat_legacy app rp iso iso_date procedures env r actor)
  | LegacyProcedures => answer (mret (list_procedures_legacy procedures))
  | LegacySessionState s u => answer (get_session_state_legacy s u actor)
  | LegacyCustomers => answer list_customers_legacy
  | LegacyTable t => answer (get_table_data_legacy t)
  | LegacySessions u => answer (list_sessions_legacy u actor)
  end.

Definition serve (actor : UserContext) (c : api_call) : prog World unit :=
  match c with
  | ApiChat r => answer (chat_v1 app rp iso iso_date procedures env r actor)
  | ApiIvrTurn r => answer (accept_ivr_turn r actor)
  | ApiTurn r => answer (process_conversation_turn app rp iso iso_date procedures env r actor)
  | ApiWebSocket received =>
      answer (websocket_loop app rp iso iso_date procedures env received actor)
  | ApiCatalog => answer (list_action_catalog app actor)
  | ApiPropose r => answer (create_action_proposal_ep app rp iso r actor)
  | ApiListProposals c => answer (list_action_proposals_ep iso c actor)
  | ApiGetProposal p => answer (get_action_proposal_ep iso p actor)
  | ApiConfirm p => answer (confirm_action_proposal app rp iso p actor)
  | ApiCancel p => answer (cancel_action_proposal iso p actor)
  | ApiActionStatus a => answer (get_action_status a actor)
  | ApiSubmit r => answer (submit_consequential_action app rp r actor)
  | ApiRefund r => answer (create_refund_command app r actor)
  | ApiTranscribe r => answer (transcribe_ivr app providers r actor)
  | ApiSynthesize r => answer (synthesize_ivr app providers r actor)
  | ApiTelephony e => answer (accept_telephony_event app providers e actor)
  | ApiDeliver r => answer (deliver_chat_message app providers r actor)
  | ApiReceipt r => answer (record_chat_receipt app providers r actor)
  | ApiCreateHandoff r => answer (create_handoff_ep app providers r actor)
  | ApiGetHandoff h => answer (get_handoff_ep h actor)
  | ApiHandoffCallback h s a => answer (update_handoff_from_provider app h s a actor)
  | ApiListPolicies => answer (list_policies actor)
  | ApiDraftPolicy r => answer (create_policy_draft r actor)
  | ApiApprovePolicy i => answer (approve_policy app i actor)
  | ApiActivatePolicy i => answer (activate_policy app i actor)
  | ApiRetirePolicy i => answer (retire_policy app i actor)
  | ApiListActions s l => answer (list_core_actions s l actor)
  | ApiListOutbox s l => answer (list_core_outbox s l actor)
  | ApiActionEvents a => answer (list_core_action_events a actor)
  | ApiQuarantine l => answer (list_conversation_quarantine l actor)
  | ApiReceipts l => answer (list_delivery_receipts providers l actor)
  | ApiAuditIntegrity => answer (verify_audit_integrity actor)
  | ApiRunDelivery => answer (run_action_worker app actor)
  | ApiRunReconciliation => answer (run_reconciliation_worker app actor)
  | ApiSessionState s u => answer (get_session_state_v1 s u actor)
  | ApiSessions u => answer (list_sessions_v1 u actor)
  | ApiCustomers l o => answer (list_customers_v1 l o)
  | ApiTable t l o => answer (get_table_data_v1 t l o)
  | ApiMetrics => answer (metrics_v1 actor)
  | ApiReady => answer readiness
  | ApiHealth => answer (mret (health app procedures))
  | ApiProcedures => answer (mret (list_procedures_v1 procedures))
  | ApiJurisdiction => answer (mret (current_jurisdiction_profile app))
  | ApiLegacy c => serve_legacy actor c
  | ApiMcp request c => answer (action_mcp_server app rp iso request c)
  end.

(** The endpoints through which a provider can be reached. *)
Definition executes (c : api_call) : bool :=
  match c with
  | ApiConfirm _ | ApiSubmit _ | ApiRefund _ | ApiRunDelivery | ApiRunReconciliation => true
  | _ => false
  end.

Lemma mcp_still request c : is_still (action_mcp_server app rp iso request c).
Proof.
  assert (∀ c a args, steps (@offline Ext) (_resolve_mcp_action_context app c a args)) as Hres
    by (intros; apply steps_lift).
  apply still_steps; [by apply mcp_serve_calm|by apply mcp_serve_steady].
Qed.
Hint Resolve mcp_still : wf.

Lemma ws_turn_still frame actor :
  is_still (ws_turn app rp iso iso_date procedures env frame actor).
Proof. unfold ws_turn, guard. step_through. Qed.
Hint Resolve ws_turn_still : wf.

(** A governance endpoint is its guard and an offline operation. *)
Lemma guarded_offline {A B} (g : result A) (p : prog World B) :
  steps offline p → is_still (_ ← guard g; p).
Proof. intros Hp. apply steps_bind; [apply steps_lift|intros _]. by apply offline_still. Qed.

Lemma legacy_still actor c : is_still (serve_legacy actor c).
Proof.
  destruct c; cbn [serve_legacy]; unfold answer; (apply steps_bind; [|intros; apply steps_ret]).
  all: unfold chat_legacy, chat_v1, get_session_state_legacy, get_session_state_v1,
    list_customers_legacy, list_customers_v1, get_table_data_legacy, get_table_data_v1,
    list_sessions_legacy, list_sessions_v1, guard; step_through.
Qed.

Lemma serve_still actor c : executes c = false → is_still (serve actor c).
Proof.
  destruct c; intros Hx; try discriminate Hx; cbn [serve]; try apply legacy_still; unfold answer;
    (apply steps_bind; [|intros; apply steps_ret]).
  all: try solve [apply guarded_offline; auto with wf].
  all: try solve [unfold chat_v1, accept_ivr_turn, process_conversation_turn, websocket_loop,
    list_action_catalog, create_action_proposal_ep, list_action_proposals_ep, get_action_proposal_ep,
    cancel_action_proposal, get_action_status, transcribe_ivr, synthesize_ivr, accept_telephony_event,
    deliver_chat_message, record_chat_receipt, create_handoff_ep, get_handoff_ep,
    update_handoff_from_provider, list_policies, list_core_actions, list_core_outbox,
    list_core_action_events, list_conversation_quarantine, list_delivery_receipts,
    verify_audit_integrity, audit_verify_chain, get_session_state_v1, list_sessions_v1,
    list_customers_v1, get_table_data_v1, metrics_v1, readiness, guard; step_through].
Qed.
End still.
