(* ===== verification/SandboxProps.v ===== *)
(** * Properties of the provider sandbox *)

From stdpp Require Import pretty.
From S2P Require Import Prelude PyValue Prog RelyGuarantee Table KernelData World Fixtures Gateway Outside ActionService EngineSteps Sandbox.

(** The sandbox is a resource provider the engine may rely on. *)
Lemma on_ext_idle {A} (p : prog Sandbox A) : steps idle (on_ext p).
Proof. induction p as [r|f k IH]; cbn; [done|]. intros w. split; [by split|apply IH]. Qed.

#[export] Instance sandbox_resources_laws : ResourceProviderLaws sandbox_resources.
Proof.
  intros t i. apply (steps_bind idle (on_ext (sandbox_get_resource t i))); [apply on_ext_idle|].
  intros r. apply steps_ret.
Qed.

(** So is a chain of such providers. *)
Lemma chained_idle {Ext} (providers : list (ResourceProvider Ext)) t i :
  Forall ResourceProviderLaws providers → steps idle (first_resource providers t i).
Proof.
  induction 1 as [|p providers Hp _ IH]; [done|].
  apply (steps_bind idle (get_resource p t i)); [apply Hp|]. intros [r|]; [done|apply IH].
Qed.

#[export] Instance chained_laws {Ext} (providers : list (ResourceProvider Ext)) :
  Forall ResourceProviderLaws providers → ResourceProviderLaws (ChainedResourceProvider providers).
Proof. intros Hps t i. by apply chained_idle. Qed.

(** ** Effects *)
Section effects.
Context `{Oracle} `{TextDigest} (iso : Z → string).

(** Both unique columns of the table. *)
Definition effects_ok (x : Sandbox) : Prop :=
  unique ef_key (sx_effects x) ∧ unique ef_provider_action_id (sx_effects x).

Lemma insert_effect_ok e rows :
  unique ef_key rows → unique ef_provider_action_id rows →
  unique ef_key (insert_effect e rows) ∧ unique ef_provider_action_id (insert_effect e rows).
Proof.
  intros Hk Hp. unfold insert_effect. destruct (tget ef_key (ef_key e) rows) eqn:E1; [by split|].
  destruct (tget ef_provider_action_id (ef_provider_action_id e) rows) eqn:E2; [by split|].
  split; by apply unique_snoc.
Qed.

Lemma insert_effect_app e rows :
  insert_effect e rows = rows ∨ insert_effect e rows = rows ++ [e].
Proof. unfold insert_effect. repeat case_match; auto. Qed.

(** An effect of one of the commands [cs]. *)
Definition effect_of (cs : list ActionCommand) (e : effect_row) : Prop :=
  ef_command e ∈ cs ∧ ef_key e = c_idempotency_key (ef_command e) ∧
  ef_action e = c_action (ef_command e).

(** The sandbox only ever adds effects of [cs]. *)
Definition extends (cs : list ActionCommand) (x x' : Sandbox) : Prop :=
  (effects_ok x → effects_ok x') ∧
  ∃ new, sx_effects x' = sx_effects x ++ new ∧ Forall (effect_of cs) new.

#[local] Instance extends_preorder cs : PreOrder (extends cs).
Proof.
  split.
  - intros x. split; [done|]. exists []. by rewrite app_nil_r.
  - intros x1 x2 x3 [Ho1 (n1 & H1 & F1)] [Ho2 (n2 & H2 & F2)]. split; [auto|].
    exists (n1 ++ n2). rewrite H2, H1, app_assoc. split; [done|]. by apply Forall_app.
Qed.

Lemma extends_same cs x x' : sx_effects x' = sx_effects x → extends cs x x'.
Proof.
  intros Heq. split; [unfold effects_ok; by rewrite Heq|]. exists []. by rewrite app_nil_r.
Qed.

Definition extends_guar (cs : list ActionCommand) (g : unit) x (g' : unit) x' : Prop :=
  extends cs x x'.

#[local] Instance extends_laws cs : GuaranteeLaws effects_ok (extends cs) (extends_guar cs).
Proof. split; [intros g x g' x' [Ho _]; exact Ho|by intros g x g' x' ?]. Qed.

(** A success the sandbox reports is backed by an effect it holds. *)
Definition backed (c : ActionCommand) x (o : ConnectorOutcome) : Prop :=
  oc_status o = SUCCEEDED → ∃ e, tget ef_key (c_idempotency_key c) (sx_effects x) = Some e ∧
    dget "provider_action_id" (oc_details o) = Some (VStr (ef_provider_action_id e)).

Lemma backed_later cs c x x' o : extends cs x x' → backed c x o → backed c x' o.
Proof.
  intros [_ (new & Heq & _)] Hb Hs. destruct (Hb Hs) as (e & He & ?). exists e. split; [|done].
  by rewrite Heq, tget_app, He.
Qed.

(** ** The calls of the clients of a sandbox *)

Inductive sandbox_call :=
  | CallDispatch (c : ActionCommand)
  | CallReconcile (c : ActionCommand) (prior : option (dict value))
  | CallScenario (key : string) (scenario : SandboxScenario)
  | CallPut (resource_type resource_id : string) (payload : dict value).

(** The outcome of a call of the action provider. *)
Definition perform_call (k : sandbox_call) : prog Sandbox (option ConnectorOutcome) :=
  match k with
  | CallDispatch c => o ← sandbox_dispatch iso c; mret (Some o)
  | CallReconcile c prior => o ← sandbox_reconcile iso c prior; mret (Some o)
  | CallScenario key scenario => _ ← set_scenario key scenario; mret None
  | CallPut t i payload => _ ← put_resource t i payload; mret None
  end.

Definition dispatched (calls : list sandbox_call) : list ActionCommand :=
  omap (λ k, match k with CallDispatch c => Some c | _ => None end) calls.

Definition asked (k : sandbox_call) : option ActionCommand :=
  match k with CallDispatch c | CallReconcile c _ => Some c | _ => None end.

(** What a call may return. *)
Definition call_post (k : sandbox_call) x (g : unit) (r : result (option ConnectorOutcome)) : Prop :=
  ∀ c o, asked k = Some c → r = inr (Some o) → backed c x o.

Lemma call_post_stable cs k : stable (extends cs) (call_post k).
Proof. intros x x' g r Hx Hp c o Hk Hr. eapply backed_later; [done|]. by apply Hp. Qed.

Abbreviation rgs cs := (rg effects_ok (extends cs) (extends_guar cs)).

(** A read of the sandbox. *)
Lemma rg_read {A} cs x0 g (f : Sandbox → A) (Q : Sandbox → unit → result A → Prop) :
  (∀ x, effects_ok x → extends cs x0 x → Q x g (inr (f x))) → rgs cs x0 g (sandbox_read f) Q.
Proof.
  intros HQ. apply rg_atomically. intros x Hx Hr0. exists g. split; [by apply extends_same|auto].
Qed.

Definition has_effect (c : ActionCommand) x (e : effect_row) : Prop :=
  tget ef_key (c_idempotency_key c) (sx_effects x) = Some e.

Lemma backed_effect c x e o :
  has_effect c x e →
  dget "provider_action_id" (oc_details o) = Some (VStr (ef_provider_action_id e)) → backed c x o.
Proof. intros He Hd _. by exists e. Qed.

Lemma rg_commit cs x0 c :
  c ∈ cs →
  rgs cs x0 tt (_commit c) (λ x _ r, match r with inr e => has_effect c x e | inl _ => True end).
Proof.
  intros Hc. unfold _commit. eapply rg_bind with (Q := λ _ _ _, True); [|intros x g _ _|done].
  - apply rg_atomically. intros x Hx Hr0. exists tt. split; [|done]. cbn.
    set (e := mkEffect _ _ _ _ _). split.
    + intros [Hk Hp]. by apply insert_effect_ok.
    + cbn. destruct (insert_effect_app e (sx_effects x)) as [->| ->].
      * exists []. by rewrite app_nil_r.
      * exists [e]. split; [done|]. apply Forall_singleton. by split_and!.
  - eapply rg_bind with (Q := λ x _ r, match r with inr (Some e) => has_effect c x e | _ => True end).
    + apply rg_read. intros x1 _ _. unfold has_effect. by destruct (tget ef_key _ _).
    + intros x1 [] [e|] He; done.
    + done.
Qed.

Lemma rg_call cs k x0 :
  (∀ c, k = CallDispatch c → c ∈ cs) → rgs cs x0 tt (perform_call k) (call_post k).
Proof.
  intros Hk. destruct k as [c|c prior|key scenario|t i payload]; cbn [perform_call].
  - eapply rg_bind with (Q := λ x _ r, match r with inr o => backed c x o | _ => True end);
      [|by intros x g o Hb c' o' [= <-] [= <-]|by intros x g e _ c' o' _].
    unfold sandbox_dispatch.
    eapply rg_bind with (Q := λ x _ r, match r with inr (Some e) => has_effect c x e | _ => True end);
      [apply rg_read; intros x1 _ _; unfold has_effect; by destruct (tget ef_key _ _)| |done].
    intros x1 [] [e|] He.
    { by eapply backed_effect. }
    eapply rg_bind with (Q := λ _ _ _, True); [by apply rg_read| |done].
    intros x2 [] scenario _. destruct scenario; cbv iota; [|done|done|].
    + eapply rg_bind; [apply rg_commit; by apply Hk| |done]. intros x3 [] e Hef. by eapply backed_effect.
    + eapply rg_bind; [apply rg_commit; by apply Hk| |done]. by intros x3 [] e Hef.
  - eapply rg_bind with (Q := λ x _ r, match r with inr o => backed c x o | _ => True end);
      [|by intros x g o Hb c' o' [= <-] [= <-]|by intros x g e _ c' o' _].
    unfold sandbox_reconcile.
    eapply rg_bind with (Q := λ x _ r, match r with inr (Some e) => has_effect c x e | _ => True end);
      [apply rg_read; intros x1 _ _; unfold has_effect; by destruct (tget ef_key _ _)| |done].
    intros x1 [] [e|] He; [|done].
    by eapply backed_effect.
  - eapply rg_bind with (Q := λ _ _ _, True); [|done..].
    apply rg_atomically. intros x Hx _. exists tt. split; [by apply extends_same|done].
  - eapply rg_bind with (Q := λ _ _ _, True); [|done..].
    unfold put_resource. apply rg_require; [intros _|done].
    eapply rg_bind with (Q := λ _ _ _, True); [|intros x1 [] _ _|done].
    { apply rg_atomically. intros x Hx _. exists tt. split; [by apply extends_same|done]. }
    eapply rg_bind with (Q := λ _ _ _, True); [by apply rg_read| |done].
    by intros x2 [] [r|] _.
Qed.

Lemma dispatch_replays c x e :
  has_effect c x e →
  run (sandbox_dispatch iso c) x =
    (x, inr (outcome_succeeded (_details iso e [("idempotent_replay", VBool true)]))).
Proof.
  unfold has_effect, sandbox_dispatch, _effect, sandbox_read. intros He.
  by rewrite run_bind, run_atomically, He.
Qed.

(** The action provider applies a key once: however the dispatches,
    reconciliations, scenario changes and resource updates of any number of
    clients interleave, no effect is lost or altered, an idempotency key and a
    provider id name at most one effect, every new effect is that of a command
    dispatched under its own key, a success reported to a client is backed by an
    effect of its key, with the provider id it was told; and once a key has its
    effect, dispatching it again changes nothing and reports that effect. *)
Theorem sandbox_applies_once calls x x' pool :
  effects_ok x → star pool_step (x, map perform_call calls) (x', pool) →
  effects_ok x' ∧
  (∃ new, sx_effects x' = sx_effects x ++ new ∧ Forall (effect_of (dispatched calls)) new) ∧
  (∀ i k c o, calls !! i = Some k → asked k = Some c → pool !! i = Some (Done (inr (Some o))) →
     oc_status o = SUCCEEDED →
     ∃ e, has_effect c x' e ∧
          dget "provider_action_id" (oc_details o) = Some (VStr (ef_provider_action_id e))) ∧
  (∀ c e, has_effect c x' e →
     run (sandbox_dispatch iso c) x' =
       (x', inr (outcome_succeeded (_details iso e [("idempotent_replay", VBool true)])))).
Proof.
  intros Hx Hstar.
  destruct (pool_rg effects_ok (extends (dispatched calls)) (extends_guar (dispatched calls))
    (λ _ _, True) (λ _ _ _ _ _ _ _ _ _ _, I)
    (λ i x g r, ∀ k, calls !! i = Some k → call_post k x g r)
    (λ i x1 x2 g r Hr Hp k Hk, call_post_stable _ k x1 x2 g r Hr (Hp k Hk))
    _ _ (replicate (length calls) tt) Hstar) as (gs & (Hok & _ & _ & Hps) & _ & Hnew).
  { split_and!; [done|done|cbn; by rewrite length_replicate, length_fmap|].
    intros i p Hp. apply list_lookup_fmap_Some in Hp as (k & -> & Hk). exists tt.
    split; [apply lookup_replicate; split; [done|by eapply lookup_lt_Some]|].
    eapply rg_conseq; [|apply (rg_call (dispatched calls) k)].
    - intros x1 g r Hr k' Hk'. rewrite Hk in Hk'. by injection Hk' as <-.
    - intros c ->. apply list_elem_of_omap. eexists. split; [by eapply list_elem_of_lookup_2|done]. }
  split; [done|]. split; [done|]. split; [|intros c e; apply dispatch_replays].
  intros i k c o Hk Hc Hi Hs. destruct (Hps i _ Hi) as (g & _ & HQ).
  exact (HQ k Hk c o Hc eq_refl Hs).
Qed.
End effects.

(** ** The sandbox behind the engine

    A key is applied when the sandbox holds its effect. *)
#[export] Instance sandbox_outside : Outside Sandbox := λ k x, is_Some (tget ef_key k (sx_effects x)).

Section behind.
Context `{Oracle} `{TextDigest} (iso : Z → string).

Lemma effects_grow x x' :
  sx_effects x' = sx_effects x ∨ (∃ e, sx_effects x' = sx_effects x ++ [e]) → keeps_applied x x'.
Proof.
  intros Hx k [e He]. unfold applied, sandbox_outside in *.
  destruct Hx as [-> |[e' ->]]; [by exists e|]. exists e. by rewrite tget_app, He.
Qed.

Lemma sandbox_read_grows {A} (f : Sandbox → A) : steps keeps_applied (sandbox_read f).
Proof. apply steps_atomically. intros x. by apply effects_grow; left. Qed.
Hint Resolve sandbox_read_grows : wf.

Lemma _commit_grows c : steps keeps_applied (_commit c).
Proof.
  unfold _commit, _effect. step_through. apply steps_atomically. intros x. apply effects_grow. cbn.
  destruct (insert_effect_app (mkEffect (c_idempotency_key c)
    (provider_action_id (c_idempotency_key c)) (c_action c) c (now_at (sx_clock x)))
    (sx_effects x)) as [->| ->]; [by left|by right; eexists].
Qed.
Hint Resolve _commit_grows : wf.

Lemma sandbox_dispatch_grows c : steps keeps_applied (sandbox_dispatch iso c).
Proof. unfold sandbox_dispatch, _effect, _scenario. step_through. Qed.
Lemma sandbox_reconcile_grows c prior : steps keeps_applied (sandbox_reconcile iso c prior).
Proof. unfold sandbox_reconcile, _effect. step_through. Qed.

(** [_commit] returns only once the key has its effect. *)
Lemma commit_applied c x x' e :
  run (_commit c) x = (x', inr e) → applied (c_idempotency_key c) x'.
Proof.
  unfold _commit, _effect, sandbox_read. rewrite run_bind, run_atomically, run_bind, run_atomically.
  set (x1 := set_effects _ _). cbn [fst snd].
  destruct (tget ef_key (c_idempotency_key c) (sx_effects x1)) as [e'|] eqn:E; [|done].
  intros [= <- <-]. by exists e'.
Qed.

#[export] Instance sandbox_connector_laws : ConnectorLaws (sandbox_connector iso).
Proof.
  split; intros; cbn [cn_dispatch cn_reconcile sandbox_connector]; split.
  - apply (steps_run keeps_applied), sandbox_dispatch_grows.
  - unfold sandbox_dispatch, _effect, _scenario, sandbox_read. rewrite run_bind, run_atomically.
    cbn [fst snd]. destruct (tget ef_key _ _) as [e|] eqn:E; [by intros o _ _; exists e|].
    rewrite run_bind, run_atomically. cbn [fst snd].
    destruct (match tget sc_key _ _ with Some r => _ | None => _ end);
      try (intros o [= <-]; by intros [[=]|[=]]);
      rewrite run_bind; destruct (run (_commit c) x) as [x' [e|e]] eqn:Ec; try done;
      intros o _ _; by eapply commit_applied.
  - apply (steps_run keeps_applied), sandbox_reconcile_grows.
  - unfold sandbox_reconcile, _effect, sandbox_read. rewrite run_bind, run_atomically.
    cbn [fst snd]. destruct (tget ef_key _ _) as [e|] eqn:E; [by intros o _ _; exists e|].
    intros o [= <-]. by intros [[=]|[=]].
Qed.

Lemma on_ext_steady {A} (p : prog Sandbox A) : steps keeps_applied p → steps steady (on_ext p).
Proof.
  induction p as [r|f k IH]; cbn; [done|]. intros Hp w. destruct (Hp (w_ext w)) as [Hf Hk].
  split; [split; [cbn; reflexivity|exact Hf]|by apply IH].
Qed.

#[export] Instance sandbox_resources_steady : ResourceProviderSteady sandbox_resources.
Proof.
  intros t i. apply (steps_bind steady (on_ext (sandbox_get_resource t i)));
    [apply on_ext_steady, sandbox_read_grows|]. intros r. apply steps_ret.
Qed.
End behind.

(** A disabled connector never claims a success. *)
#[export] Instance disabled_connector_laws {Ext} `{Outside Ext} :
  ConnectorLaws (@disabled_connector Ext).
Proof. split; intros; (split; [by intros k|]); intros o [= <-]; by intros [[=]|[=]]. Qed.

(** ** Witness: two dispatches of one key race, one of them told to time out. *)

#[export] Instance demo_text_digest : TextDigest := λ s, "0123456789abcdef0123" +:+ s.
Definition demo_iso (t : Z) : string := pretty t.

Definition demo_sandbox : Sandbox := mkSandbox [] [] [] [] [] 0.
Definition demo_calls : list sandbox_call :=
  [ CallDispatch demo_command; CallScenario "KEY-1" TIMEOUT_AFTER_COMMIT;
    CallDispatch demo_command; CallReconcile demo_command None ].
Definition demo_race : Sandbox * list (prog Sandbox (option ConnectorOutcome)) :=
  schedule [0; 2; 0; 1; 2; 2; 0; 0; 2; 3] demo_sandbox (map (perform_call demo_iso) demo_calls).

Example sandbox_applies_once_witness :
  length (sx_effects demo_race.1) = 1 ∧ effects_ok demo_race.1.
Proof.
  split; [by vm_compute|].
  refine (proj1 (sandbox_applies_once demo_iso demo_calls demo_sandbox demo_race.1 demo_race.2 _ _)).
  - split; apply NoDup_nil_2.
  - rewrite <- surjective_pairing. apply schedule_star.
Defined.
