(* ===== verification/Engine.v ===== *)
(** * The engine under concurrency

    Every entry point of the core as one type of calls, and what any number of
    them, interleaved at every [await], can do together. *)

From stdpp Require Import pretty.
From S2P Require Import Prelude PyValue Prog RelyGuarantee Table ActionSpecs Policy KernelData World KernelStore KernelInv CaseKernel Fixtures KernelRaces PolicyStore PolicyProps Auth Conversation Gateway Outside AtMostOnce GatewayProps ActionService Domains Bridge ServiceProps BridgeProps Workers EngineSteps Sandbox SandboxProps.

Section engine.
Context `{Hmac} (sg : PolicySigner) `{Oracle} `{Render} `{Pydantic} `{Digest} {Ext : Type}.
Context (gw : ActionGateway Ext) (rp : ResourceProvider Ext) (br : ActionBridge Ext).
Context (refund_policy : RefundDecisionService).
(** The turn processor of the deployment. *)
Context (processor : TurnContext → string → prog (World Ext) GeneratedTurn).
Abbreviation World := (World Ext).

(** A call into the engine, with the arguments it is made with. *)
Inductive engine_call :=
  | CallInitialize
  | CallCreateCase (cid customer_id procedure_id version : string)
  | CallCommitFact (cid : string) (proposal : FactProposal) (expected_version : Z)
  | CallAuthorizeAction (command : ActionCommand) (expected_version : Z)
  | CallRecordOutcome (aid : string) (status : ActionStatus) (outcome : option (dict value))
  | CallAuthorize (command : ActionCommand) (expected_version : Z)
  | CallDispatch (aid : string)
  | CallReconcile (aid : string)
  | CallSubmit (request : ConsequentialActionRequest) (actor_id : string)
  | CallRefund (cid customer_id actor_id policy_package_id procedure_version : string)
      (order : OrderSnapshot) (reason : string) (consent : option string)
  | CallPropose (intent : ActionIntent) (context : TrustedActionContext)
  | CallConfirm (pid : string) (context : ActionConfirmationContext)
  | CallCancel (pid : string) (context : ActionConfirmationContext)
  | CallStatus (pid customer_id : string) (actor_id : option string)
  | CallDeliver (worker : ActionDeliveryWorker) (lim : Z)
  | CallReconcileDue (worker : ReconciliationWorker) (lim : Z)
  | CallAccept (e : MessageEnvelope)
  | CallTurn (e : MessageEnvelope) (actor_id actor_role : string) (permissions : list string)
      (owner_id : string)
  | CallRequestHandoff (conversation_id cid : string) (context : dict value)
  | CallAcceptHandoff (hid agent_id : string)
  | CallTransitionHandoff (hid : string) (status : HandoffStatus) (agent_id : option string)
  | CallEnqueue (topic aggregate_id : string) (payload : dict value)
  | CallHydratePolicies
  | CallCreateDraft (package : PolicyPackage)
  | CallApprovePolicy (package_id approver : string)
  | CallActivatePolicy (package_id : string)
  | CallRetirePolicy (package_id : string).

(** The result of a call is its caller's business. *)
Definition discard {A} (p : prog World A) : prog World unit := _ ← p; mret tt.

Definition perform (c : engine_call) : prog World unit :=
  match c with
  | CallInitialize => initialize
  | CallCreateCase cid customer procedure version =>
      discard (create_case cid customer procedure version)
  | CallCommitFact cid proposal v => discard (commit_fact cid proposal v)
  | CallAuthorizeAction command v => discard (authorize_action command v)
  | CallRecordOutcome aid st out => discard (record_outcome aid st out)
  | CallAuthorize command v => discard (authorize gw command v)
  | CallDispatch aid => discard (with_action aid (dispatch sg gw))
  | CallReconcile aid => discard (with_action aid (reconcile gw))
  | CallSubmit request actor => discard (submit sg gw rp request actor)
  | CallRefund cid customer actor policy version order reason consent =>
      discard (process_refund sg gw refund_policy cid customer actor policy version order reason
                 consent)
  | CallPropose intent context => discard (propose rp br intent context)
  | CallConfirm pid context => discard (confirm sg gw rp br pid context)
  | CallCancel pid context => discard (cancel pid context)
  | CallStatus pid customer actor => discard (status pid customer actor)
  | CallDeliver worker lim => discard (delivery_run_once sg gw worker lim)
  | CallReconcileDue worker lim => discard (reconciliation_run_once gw worker lim)
  | CallAccept e => discard (accept e)
  | CallTurn e actor role permissions owner =>
      discard (process_turn processor e actor role permissions owner)
  | CallRequestHandoff conversation cid context => discard (request_handoff conversation cid context)
  | CallAcceptHandoff hid agent => discard (accept_handoff hid agent)
  | CallTransitionHandoff hid st agent => discard (transition_handoff hid st agent)
  | CallEnqueue topic aggregate payload => discard (enqueue_outbox topic aggregate payload)
  | CallHydratePolicies => hydrate sg
  | CallCreateDraft package => discard (create_draft package)
  | CallApprovePolicy package approver => discard (service_approve sg package approver)
  | CallActivatePolicy package => discard (service_activate sg package)
  | CallRetirePolicy package => discard (service_retire sg package)
  end.

(** ** Every call keeps to its claims *)
Section safety.
Context `{Outside Ext} `{!GatewayLaws gw}.
Context (Hpv : ∀ pv, gw_policy_resolver gw = Some pv → PolicyResolverLaws pv).
Context `{!ResourceProviderLaws rp} `{!ResourceProviderSteady rp}.
Context (Hproc : ∀ context text, token_safe (processor context text)).

Hint Resolve offline_calm offline_steady authorize_calm authorize_steady request_handoff_calm
  accept_handoff_calm transition_handoff_calm accept_calm : wf.

Lemma perform_token c :
  (∀ aid st out, c = CallRecordOutcome aid st out → token_safe (record_outcome aid st out)) →
  token_safe (perform c).
Proof.
  intros Hrec. destruct c; cbn [perform]; unfold discard;
    try (apply token_safe_bind; [|by intros a w g]);
    try solve [apply token_safe_still; auto with wf].
  - by eapply Hrec.
  - apply with_action_token. intros w g a Hst. by apply dispatch_token.
  - apply with_action_token. intros w g a Hst. by apply reconcile_token.
  - by apply submit_token.
  - by apply process_refund_token.
  - by apply confirm_token.
  - by apply delivery_run_once_token.
  - by apply reconciliation_run_once_token.
  - by apply process_turn_token.
Qed.

Lemma perform_all_token calls :
  (∀ aid st out, CallRecordOutcome aid st out ∈ calls → token_safe (record_outcome aid st out)) →
  Forall token_safe (map perform calls).
Proof.
  intros Hrec. apply Forall_forall. intros p (c & -> & Hc)%list_elem_of_fmap.
  apply perform_token. intros aid st out ->. by apply Hrec.
Qed.
End safety.

(** ** Every interleaving *)
Context (Hpv : ∀ pv, gw_policy_resolver gw = Some pv → PolicyResolverLaws pv).
Context `{!ResourceProviderLaws rp}.

(** C1: any number of concurrent calls into the engine, interleaved in any way at
    their awaits and stopped at any point, dispatch at most once per idempotency
    key; every dispatched key is that of a stored action past authorization; the
    database keeps its invariant and only evolves.  Nothing is assumed of what
    the providers answer. *)
Theorem at_most_once_dispatch (calls : list engine_call) (w w' : World) ps' :
  (∀ context text, @token_safe _ outside_any _ (processor context text)) →
  db_inv (w_core w) → w_trace w = [] →
  star pool_step (w, map perform calls) (w', ps') →
  NoDup (dispatched_keys (w_trace w')) ∧
  (∀ k, k ∈ dispatched_keys (w_trace w') →
     ∃ a, tget action_idem k (t_actions (w_core w')) = Some a ∧
          a_status a ∉ [REQUESTED; AUTHORIZED]) ∧
  db_inv (w_core w') ∧ evolves (w_core w) (w_core w').
Proof.
  intros Hproc Hw Ht Hstar.
  destruct (@token_pool _ outside_any _ w w' (map perform calls) ps') as ([? _] & [? _] & ? & ?);
    [by apply any_sound|done| |done|by split_and!].
  pose proof (any_gateway_laws gw) as Hgw. pose proof (any_resources_steady rp _) as Hrp.
  apply (@perform_all_token outside_any Hgw Hpv _ Hrp Hproc).
  - intros aid st out _. apply token_safe_any, record_outcome_calm.
Qed.

(** C9: over honest connectors, whatever calls into the engine interleave and
    wherever they are stopped, every action stored as succeeded or reconciled was
    applied by its provider under its own key, and no provider takes an applied
    key back. *)
Theorem recorded_success_is_applied `{Outside Ext} `{!GatewayLaws gw}
    `{!ResourceProviderSteady rp} (calls : list engine_call) (w w' : World) ps' :
  (∀ context text, token_safe (processor context text)) →
  (∀ aid st out, CallRecordOutcome aid st out ∈ calls → ¬ successful st) →
  db_inv (w_core w) → backed_db w → w_trace w = [] →
  star pool_step (w, map perform calls) (w', ps') →
  (∀ a, a ∈ t_actions (w_core w') → a_status a = SUCCEEDED ∨ a_status a = RECONCILED →
     applied (action_idem a) (w_ext w')) ∧
  (∀ k, applied k (w_ext w) → applied k (w_ext w')).
Proof.
  intros Hproc Hrec Hw Hb Ht Hstar.
  destruct (token_pool w w' (map perform calls) ps') as ([_ Hb'] & [_ Hk] & _);
    [by split|done| |done|by split].
  apply perform_all_token; try done. intros aid st out Hc.
  apply token_safe_still. specialize (Hrec aid st out Hc). auto with wf.
Qed.
End engine.

(** ** Witness: a client, its retry, a delivery worker and a confirmation race *)

Definition demo_processor (context : TurnContext) (text : string) :
    prog (World (list string)) GeneratedTurn :=
  mret (mkGenerated ("You said: " +:+ text) INFORMATIONAL None []).

Definition demo_calls : list engine_call :=
  [ CallSubmit demo_request "CUST-1"; CallSubmit demo_request "CUST-1";
    CallConfirm "APR-0" demo_confirmation; CallDeliver (mkDelivery "worker-1" 60 5) 10 ].

Definition demo_perform : engine_call → prog (World (list string)) unit :=
  perform demo_signer demo_gateway demo_resources demo_bridge (mkRefundService 30) demo_processor.

(** Turn by turn for [n] rounds, then each coroutine to its end. *)
Definition round_robin (n width : nat) : list nat :=
  concat (replicate n (seq 0 width)) ++
  concat (map (λ i, replicate 60 i) (seq 0 width)).

Definition demo_run : World (list string) * list (prog (World (list string)) unit) :=
  schedule (round_robin 12 4) demo_with_proposal (map demo_perform demo_calls).

Example at_most_once_dispatch_witness :
  NoDup (dispatched_keys (w_trace demo_run.1)) ∧
  dispatched_keys (w_trace demo_run.1) = ["refund:ORD-1"].
Proof.
  split; [|vm_compute; reflexivity].
  refine (proj1 (at_most_once_dispatch demo_signer demo_gateway demo_resources demo_bridge
    (mkRefundService 30) demo_processor demo_resolver_laws demo_calls demo_with_proposal
    demo_run.1 demo_run.2 _ demo_with_proposal_inv _ (schedule_reaches _ _ _))).
  - intros context text w g. exact I.
  - vm_compute. reflexivity.
Defined.

(** ** Witness: the engine over the provider sandbox

    The sandbox commits the refund and then times out while a retry and a delivery
    worker race with the request; a reconciliation follows. *)

Definition sandbox_gateway : ActionGateway Sandbox :=
  mkGateway (Mapping [("issue_refund", sandbox_connector demo_iso)]) true
    (Some (policy_service_resolver demo_signer)).

Lemma sandbox_resolver_laws pv :
  gw_policy_resolver sandbox_gateway = Some pv → PolicyResolverLaws pv.
Proof. intros [= <-]. apply _. Qed.

#[export] Instance sandbox_gateway_laws : GatewayLaws sandbox_gateway.
Proof.
  intros c pinned rc. unfold _resolve_connector. cbn.
  destruct (String.eqb _ _); [|done]. intros [= <-]. cbn. apply _.
Qed.

Definition sandbox_processor (context : TurnContext) (text : string) :
    prog (World Sandbox) GeneratedTurn :=
  mret (mkGenerated ("You said: " +:+ text) INFORMATIONAL None []).

Definition sandbox_start : World Sandbox :=
  mkWorld empty_core_db (mkSys 0 0) [row_of demo_active] empty_registry []
    (mkSandbox [mkResourceRow "order" "ORD-1" (res_payload demo_order) 1 0]
       [mkScenarioRow "refund:ORD-1" TIMEOUT_AFTER_COMMIT] [] [] [] 0).

Definition sandbox_calls : list engine_call :=
  [ CallSubmit demo_request "CUST-1"; CallSubmit demo_request "CUST-1";
    CallDeliver (mkDelivery "worker-1" 60 5) 10; CallReconcileDue (mkReconciliation 0) 10 ].

Definition sandbox_run : World Sandbox * list (prog (World Sandbox) unit) :=
  schedule (round_robin 12 3 ++ replicate 60 3) sandbox_start
    (map (perform demo_signer sandbox_gateway sandbox_resources (mkBridge None (mkRefundService 30) 900)
            (mkRefundService 30) sandbox_processor) sandbox_calls).

Lemma hd_elem {A} (x : A) l : l ≠ [] → hd x l ∈ l.
Proof. destruct l; [done|left]. Qed.

(** The refund is recorded, and it is in the provider's table. *)
Example recorded_success_is_applied_witness :
  map (λ a, (action_idem a, a_status a)) (t_actions (w_core sandbox_run.1)) =
    [("refund:ORD-1", RECONCILED)] ∧
  applied "refund:ORD-1" (w_ext sandbox_run.1).
Proof.
  split; [vm_compute; reflexivity|].
  refine (proj1 (recorded_success_is_applied demo_signer sandbox_gateway sandbox_resources
    (mkBridge None (mkRefundService 30) 900) (mkRefundService 30) sandbox_processor
    sandbox_resolver_laws sandbox_calls sandbox_start sandbox_run.1 sandbox_run.2 _ _ _ _ _
    (schedule_reaches _ _ _)) (hd demo_action (t_actions (w_core sandbox_run.1))) _ _).
  - intros context text w g. exact I.
  - intros aid st out Hc. repeat (apply elem_of_cons in Hc as [[=]|Hc]). by apply not_elem_of_nil in Hc.
  - apply db_inv_empty.
  - intros a Ha. by apply not_elem_of_nil in Ha.
  - reflexivity.
  - apply hd_elem. vm_compute. discriminate.
  - right. vm_compute. reflexivity.
Defined.
