(* ===== verification/ConversationProps.v ===== *)
(** * Properties of conversations and of the inbox *)

From S2P Require Import Prelude PyValue Prog Table KernelData World KernelStore KernelInv Fixtures Conversation.

Section inbox.
Context `{Oracle}.

Definition message_key (e : dict value) : string * string :=
  (env_str "provider_id" "local" e, env_str "message_id" "" e).
Definition conversation_key (e : dict value) : string * string :=
  (env_str "provider_id" "local" e, env_str "conversation_id" "" e).

(** Messages offered one after the other (each is one transaction, so every
    interleaving of deliveries is such a sequence), each at its own moment
    [s]: the messages that were accepted, and the database they leave. *)
Fixpoint accept_all (offers : list (dict value * sys)) (d : core_db) :
    list (dict value) * core_db :=
  match offers with
  | [] => ([], d)
  | (e, s) :: offers' =>
      match (accept_message_tx e d s).2 with
      | inl _ => accept_all offers' d
      | inr (r, d') =>
          let '(l, d2) := accept_all offers' d' in
          (if acc_accepted r then e :: l else l, d2)
      end
  end.

(** The message will never be accepted again. *)
Definition settled (k : string * string) (d : core_db) : Prop :=
  ∃ r, tget inbox_key k (t_inbox d) = Some r ∧ i_ordering_status r ≠ "quarantined".

Definition last_sequence (k : string * string) (d : core_db) : option Z :=
  option_map q_last_sequence (tget sequence_key k (t_sequences d)).

Lemma settled_stays k d d' : evolves d d' → settled k d → settled k d'.
Proof.
  intros Hev (r & Hr & Hq). destruct (ev_inbox d d' Hev k r Hr) as (r' & Hr' & [?| ->]); [done|].
  by exists r.
Qed.

Lemma sequence_recorded_inbox e st s d : t_inbox (sequence_recorded e st s d) = t_inbox d.
Proof. unfold sequence_recorded. by repeat case_match. Qed.

Lemma message_recorded_sequences e st s d : t_sequences (message_recorded e st s d) = t_sequences d.
Proof. done. Qed.

(** One accepted message: it was not settled before and is after; its sequence
    number, if it has one, is the next of its conversation. *)
Lemma accepted_message e d s r d' :
  (accept_message_tx e d s).2 = inr (r, d') → acc_accepted r = true →
  ¬ settled (message_key e) d ∧ settled (message_key e) d' ∧
  match env_sequence e with
  | None => ∀ k, last_sequence k d' = last_sequence k d
  | Some q =>
      match last_sequence (conversation_key e) d with Some l => q = (l + 1)%Z | None => True end ∧
      last_sequence (conversation_key e) d' = Some q ∧
      ∀ k, k ≠ conversation_key e → last_sequence k d' = last_sequence k d
  end.
Proof.
  rewrite accept_message_tx_eq. cbv zeta. fold (message_key e) (conversation_key e).
  set (existing := tget inbox_key (message_key e) (t_inbox d)).
  destruct (match existing with Some r => _ | None => _ end) eqn:Hdup; [by intros [= <- _]|].
  fold (last_sequence (conversation_key e) d).
  destruct (ordering _ (env_sequence e)) as [[st reason]|] eqn:Ho; [|by intros [= <- _]].
  intros [= <- <-]. cbn [acc_accepted]. intros Hst%String.eqb_eq. subst st.
  split_and!.
  - intros (r & Hr & Hq). subst existing. rewrite Hr in Hdup.
    by destruct (String.eqb_spec (i_ordering_status r) "quarantined").
  - unfold settled. rewrite sequence_recorded_inbox. unfold message_recorded. cbn [t_inbox tbl_set
      conversation_inbox_v3]. fold (message_key e). fold existing.
    destruct existing as [x|] eqn:Ex; subst existing.
    + exists (set_inbox e "accepted" (now_at (n_clock s)) x). split; [|done].
      rewrite tget_update by by apply keeps_key_all. rewrite Ex. cbn.
      by rewrite bool_decide_true by apply (tget_key _ _ _ _ Ex).
    + eexists. split; [rewrite tget_snoc, Ex, bool_decide_true by done; reflexivity|done].
  - unfold sequence_recorded. rewrite String.eqb_refl.
    destruct (env_sequence e) as [q|]; [|done]. split_and!.
    + destruct (last_sequence _ d) as [l|]; [|done]. by eapply accepted_next.
    + unfold last_sequence. cbn. rewrite (tget_upsert sequence_key) by (intros r' Hr'; exact Hr').
      rewrite bool_decide_true by done.
      by destruct (tget sequence_key (conversation_key e) (t_sequences d)).
    + intros k Hk. unfold last_sequence. cbn.
      rewrite (tget_upsert sequence_key) by (intros r' Hr'; exact Hr').
      by rewrite bool_decide_false by (intros Hk'; by destruct Hk).
Qed.

(** A message that is not accepted moves no sequence. *)
Lemma refused_message e d s r d' k :
  (accept_message_tx e d s).2 = inr (r, d') → acc_accepted r = false →
  last_sequence k d' = last_sequence k d.
Proof.
  rewrite accept_message_tx_eq. cbv zeta.
  match goal with |- context [if ?b then (mkAcceptance _ _ _, d) else _] => destruct b end;
    [by intros [= _ <-]|].
  destruct (ordering _ (env_sequence e)) as [[st reason]|]; [|by intros [= _ <-]].
  intros [= <- <-]. cbn [acc_accepted]. intros Hst. unfold sequence_recorded. rewrite Hst.
  by destruct (env_sequence e).
Qed.

Lemma accept_step_evolves e d s r d' :
  db_inv d → (accept_message_tx e d s).2 = inr (r, d') → db_inv d' ∧ evolves d d'.
Proof.
  intros Hd Ht. destruct (accept_message_tx e d s) as [s' x] eqn:E. cbn in Ht. subst x.
  exact (accept_message_keeps e d s s' r d' E Hd).
Qed.

(** The sequence numbers of one conversation among the accepted messages. *)
Definition sequences_of (k : string * string) (l : list (dict value)) : list Z :=
  omap (λ e, if bool_decide (conversation_key e = k) then env_sequence e else None) l.

(** [l] counts up from [last] without a gap (from anywhere, if nothing came before). *)
Fixpoint consecutive (last : option Z) (l : list Z) : Prop :=
  match l with
  | [] => True
  | q :: l' => match last with Some x => q = (x + 1)%Z | None => True end ∧ consecutive (Some q) l'
  end.

(** C24: however providers deliver, redeliver and reorder messages, each message
    id is accepted at most once, and never when it was already processed; and
    the numbered messages accepted in a conversation are consecutive, starting
    right after the last one processed before. *)
Theorem inbox_exactly_once_in_order offers d :
  db_inv d →
  let accepted := (accept_all offers d).1 in
  NoDup (map message_key accepted) ∧
  (∀ e, e ∈ accepted → ¬ settled (message_key e) d) ∧
  ∀ k, consecutive (last_sequence k d) (sequences_of k accepted).
Proof.
  revert d; induction offers as [|[e s] offers IH]; intros d Hd; cbn.
  { split_and!; [apply NoDup_nil_2|by intros e ?%not_elem_of_nil|done]. }
  destruct ((accept_message_tx e d s).2) as [x|[r d']] eqn:Ht; [by apply IH|].
  destruct (accept_step_evolves e d s r d' Hd Ht) as [Hd' Hev].
  specialize (IH d' Hd'). destruct (accept_all offers d') as [l d2]. cbn in IH.
  destruct IH as (Hnd & Hset & Hcons).
  assert (∀ e', e' ∈ l → ¬ settled (message_key e') d) as Hset'
    by (intros e' He' Hs; apply (Hset e' He'); by eapply settled_stays).
  destruct (acc_accepted r) eqn:Ha; cbn.
  - destruct (accepted_message e d s r d' Ht Ha) as (Hn & Hy & Hq). split_and!.
    + apply NoDup_cons. split; [|done]. intros (e' & Heq & He')%list_elem_of_fmap.
      apply (Hset e' He'). by rewrite <- Heq.
    + by intros e' [->|He']%elem_of_cons; [|apply Hset'].
    + intros k. unfold sequences_of. cbn. specialize (Hcons k). unfold sequences_of in Hcons.
      destruct (env_sequence e) as [q|]; [|case_bool_decide; by rewrite Hq in Hcons].
      destruct Hq as (Hnext & Hlast & Hother). case_bool_decide as Hk.
      * subst k. cbn. rewrite Hlast in Hcons. by split.
      * by rewrite Hother in Hcons.
  - split_and!; [done..|]. intros k. specialize (Hcons k).
    by rewrite (refused_message e d s r d' k Ht Ha) in Hcons.
Qed.
End inbox.

(** Deliveries of a numbered conversation: the second is redelivered, the
    fourth arrives early and is accepted once the third has been. *)
Definition demo_message (id : string) (q : Z) : dict value :=
  [ ("provider_id", VStr "chat"); ("message_id", VStr id); ("conversation_id", VStr "CONV-1");
    ("sequence", VInt q) ].

Definition demo_offers : list (dict value * sys) :=
  map (λ m, (m, mkSys 0 0))
    [ demo_message "M1" 1; demo_message "M2" 2; demo_message "M2" 2; demo_message "M4" 4;
      demo_message "M3" 3; demo_message "M4" 4; demo_message "M1" 5 ].

Example inbox_exactly_once_in_order_witness :
  sequences_of ("chat", "CONV-1") (accept_all demo_offers demo_db).1 = [1; 2; 3; 4]%Z ∧
  consecutive (last_sequence ("chat", "CONV-1") demo_db)
    (sequences_of ("chat", "CONV-1") (accept_all demo_offers demo_db).1).
Proof.
  split; [vm_compute; reflexivity|].
  exact (proj2 (proj2 (inbox_exactly_once_in_order demo_offers demo_db demo_db_inv))
           ("chat", "CONV-1")).
Defined.

(** ** Turns *)

Section turns.
Context `{Oracle} {Ext : Type}.
Context (processor : TurnContext → string → prog (World Ext) GeneratedTurn).
Implicit Types w : World Ext.

(** C25: a turn whose message was not accepted runs no processor and has no
    effect beyond the inbox, and answers with nothing; an accepted turn runs the
    processor exactly once and may claim success only on an authoritative
    succeeded or reconciled status, never streams a consequential answer, and
    reads it back on a voice channel. *)
Theorem turn_runs_once_and_is_bounded e actor_id actor_role permissions owner_id w w' result :
  run (process_turn processor e actor_id actor_role permissions owner_id) w = (w', inr result) →
  ∃ w1 acc, run (accept_result e) w = (w1, inr acc) ∧
    if acc_accepted acc then
      ∃ context generated,
        run (processor context (me_text e)) w1 = (w', inr generated) ∧
        tc_customer_id context = me_customer_id e ∧ tc_actor_id context = actor_id ∧
        tr_response result = Some (gt_text generated) ∧
        (tr_may_claim_success result = true ↔
           gt_authoritative_status generated = Some "succeeded" ∨
           gt_authoritative_status generated = Some "reconciled") ∧
        (gt_risk generated ≠ INFORMATIONAL → tr_may_stream result = false) ∧
        (gt_risk generated ≠ INFORMATIONAL → me_channel e = IVR → tr_requires_readback result = true) ∧
        (tr_requires_approved_content result = true ↔ gt_risk generated = REGULATED)
    else
      w' = w1 ∧ tr_response result = None ∧ tr_may_claim_success result = false ∧
      tr_action_proposals result = [] ∧ tr_acceptance_status result = acc_status acc.
Proof.
  intros Hrun. unfold process_turn in Hrun. rewrite run_bind in Hrun.
  destruct (run (accept_result e) w) as [w1 [x|acc]] eqn:Hacc; [done|].
  exists w1, acc. split; [done|].
  destruct (acc_accepted acc) eqn:Ha; cbn [negb] in Hrun.
  - cbv zeta in Hrun. rewrite run_bind in Hrun.
    match type of Hrun with context [run (processor ?c ?t) w1] => set (context := c) in * end.
    destruct (run (processor context (me_text e)) w1) as [w2 [x|generated]] eqn:Hp; [done|].
    injection Hrun as <- <-. exists context, generated. cbn. split_and!; try done.
    + rewrite bool_decide_eq_true, !elem_of_cons. split; [|tauto].
      intros [?|[?|[]%not_elem_of_nil]]; auto.
    + destruct (gt_risk generated); [done|..]; intros _; done.
    + intros Hr Hc. rewrite Hc. destruct (gt_risk generated); [done|..]; done.
    + by rewrite bool_decide_eq_true.
  - injection Hrun as <- <-. by split_and!.
Qed.
End turns.

Definition demo_envelope : MessageEnvelope :=
  mkEnvelope "chat" "M1" "CONV-1" "CUST-1" IVR "hello" "en-US" "America/Chicago" (Some 1%Z)
    "COR-1" None [] [].

(** A processor that asks for a regulated action and has no authoritative status. *)
Definition demo_processor (c : TurnContext) (text : string) : prog (World unit) GeneratedTurn :=
  mret (mkGenerated "I will file that." REGULATED None []).

Example turn_runs_once_and_is_bounded_witness :
  ∃ w1 acc, run (accept_result demo_envelope) demo = (w1, inr acc).
Proof.
  edestruct (turn_runs_once_and_is_bounded demo_processor demo_envelope "CUST-1" "customer" []
    "owner" demo) as (w1 & acc & Hacc & _); [vm_compute; reflexivity|].
  exists w1, acc. exact Hacc.
Defined.
