(* ===== verification/StartupProps.v ===== *)
(** * Properties of start-up

    The bootstrap policies govern every action of the catalog; [lifespan] leaves
    the stored policies alone and makes the registry their image; a production
    deployment does not depend on the sandbox it builds. *)

From S2P Require Import Prelude PyValue Prog Table ActionSpecs Policy KernelData World KernelStore KernelInv CaseKernel PolicyStore PolicyProps RateLimiter Auth Settings Conversation Gateway Outside ActionService Sandbox ConnectorRegistry ConnectorRegistryProps Domains Bridge Workers EngineSteps Startup Fixtures ServiceProps SandboxProps Api.

(** ** The bootstrap policies *)

(** An action's own policy: what [_action_policy] must find. *)
Record governs (sg : PolicySigner) `{Hmac} (s : Settings) (action : string) (p : PolicyPackage) :
    Prop := {
  gv_active : pk_lifecycle p = ACTIVE;
  gv_signed : verify sg p = true;
  gv_duties : pk_author p = policy_author s ∧ pk_approver p = Some (policy_approver s) ∧
              pk_author p ≠ policy_approver s;
  gv_jurisdiction : pk_jurisdiction p = jurisdiction_profile s;
  gv_allows : allows p action = inr true
}.

(** Validation separates the duties, in every environment. *)
Lemma validate_duties s0 s : validate s0 = inr s → policy_author s ≠ policy_approver s.
Proof.
  unfold validate. destruct (validate_log_level _) as [|l]; [done|]. cbn [rbind].
  destruct (fields_valid s0); [|done].
  destruct (validate_production_secrets s0) as [|[]] eqn:Hv; [done|]. intros [= <-].
  revert Hv. unfold validate_production_secrets. do 2 (case_match; [|done]).
  destruct (String.eqb_spec (policy_author s0) (policy_approver s0)); [done|]. by intros _.
Qed.

(** The rules of the three packages, by procedure. *)
Definition bootstrap_rules : dict (dict value) :=
  [("cs_refund", refund_rules); ("cs_eft_dispute", reg_e_rules); ("fraud_alert_triage", fraud_rules)].

Section bootstrap.
Context `{HmacLaws} (sg : PolicySigner) (Hsg : signer_wf sg) (s : Settings).
Context (Hduties : policy_author s ≠ policy_approver s).

Lemma activated_ok prefix pid rules :
  ∃ p, activated s sg (draft_package s prefix pid rules) = inr p ∧
    pk_lifecycle p = ACTIVE ∧ verify sg p = true ∧ pk_author p = policy_author s ∧
    pk_approver p = Some (policy_approver s) ∧ pk_jurisdiction p = jurisdiction_profile s ∧
    pk_rules p = rules ∧ pk_procedure_id p = pid ∧
    pk_package_id p = prefix +:+ "@1.0.0:" +:+ jurisdiction_profile s.
Proof.
  unfold activated, approve. destruct (String.eqb_spec (policy_approver s)
    (pk_author (draft_package s prefix pid rules))) as [He|_]; [by cbn in He; congruence|].
  cbn [rbind]. unfold activate. set (q := with_signature _ _).
  assert (verify sg q = true) as Hq by (by apply verify_signed; [|left|..]).
  rewrite bool_decide_true, Hq by done. cbn [negb orb].
  eexists. split; [reflexivity|]. split; [done|]. split; [|done].
  apply verify_signed; [done|right; by left|done..].
Qed.

Lemma bootstrap_ok :
  ∃ policies, bootstrap_policies s sg = inr policies ∧
    (∀ pid, is_Some (dget pid policies) ↔ is_Some (dget pid bootstrap_rules)) ∧
    ∀ pid p, dget pid policies = Some p →
      pk_lifecycle p = ACTIVE ∧ verify sg p = true ∧ pk_author p = policy_author s ∧
      pk_approver p = Some (policy_approver s) ∧ pk_jurisdiction p = jurisdiction_profile s ∧
      dget pid bootstrap_rules = Some (pk_rules p).
Proof.
  unfold bootstrap_policies, active_refund_policy, active_reg_e_policy, active_fraud_policy.
  destruct (activated_ok "refund" "cs_refund" refund_rules) as (p1 & -> & ? & ? & ? & ? & ? & ? & _).
  destruct (activated_ok "reg-e" "cs_eft_dispute" reg_e_rules)
    as (p2 & -> & ? & ? & ? & ? & ? & ? & _).
  destruct (activated_ok "fraud" "fraud_alert_triage" fraud_rules)
    as (p3 & -> & ? & ? & ? & ? & ? & ? & _).
  eexists. split; [reflexivity|]. split.
  - intros pid. unfold bootstrap_rules. cbn.
    repeat (destruct (String.eqb _ _); [by split; eexists|]). by split; intros [? [=]].
  - intros pid p. unfold bootstrap_rules. cbn.
    repeat (destruct (String.eqb _ _); [intros [= <-]; split_and!; congruence|]). done.
Qed.
End bootstrap.

(** ** The policy of an action *)

(** What rules allow; [allows] looks at nothing else of a package. *)
Definition rules_allow (rules : dict value) (action : string) : bool :=
  match dget "allowed_actions" rules with
  | Some (VList l) => existsb (py_eqb (VStr action)) l
  | _ => false
  end.

Lemma allows_rules p action pid rules :
  pk_rules p = rules → (pid, rules) ∈ bootstrap_rules → allows p action = inr (rules_allow rules action).
Proof.
  unfold allows. intros ->.
  intros [[= _ ->]|[[= _ ->]|[[= _ ->]|[]%not_elem_of_nil]%elem_of_cons]%elem_of_cons]%elem_of_cons;
    reflexivity.
Qed.

(** The default procedure of every action of the catalog allows it. *)
Lemma defaults_allow action :
  dhas action ACTION_SPECIFICATIONS = true →
  ∃ pid rules, dget action _DEFAULT_PROCEDURE_BY_ACTION = Some pid ∧
    dget pid bootstrap_rules = Some rules ∧ rules_allow rules action = true.
Proof.
  intros [spec Ha%dget_elem_of]%dhas_spec.
  assert (forallb (λ e, match dget e.1 _DEFAULT_PROCEDURE_BY_ACTION with
                        | Some pid => match dget pid bootstrap_rules with
                                      | Some rules => rules_allow rules e.1 | None => false end
                        | None => false end) ACTION_SPECIFICATIONS = true) as Hall
    by (vm_compute; reflexivity).
  rewrite List.forallb_forall in Hall. apply list_elem_of_In in Ha. specialize (Hall _ Ha).
  cbn [fst] in Hall. destruct (dget action _) as [pid|]; [|done].
  destruct (dget pid bootstrap_rules) as [rules|] eqn:Hr; [|done]. by exists pid, rules.
Qed.

(** Whatever is requested, the policy found is one of the policies and allows. *)
Lemma action_policy_found policies action requested d pd :
  (∀ pid p, dget pid policies = Some p → ∃ b, allows p action = inr b) →
  dget action _DEFAULT_PROCEDURE_BY_ACTION = Some d → dget d policies = Some pd →
  allows pd action = inr true →
  ∃ pid p, _action_policy policies action requested = inr (pid, p) ∧
    dget pid policies = Some p ∧ allows p action = inr true.
Proof.
  intros Htot Hd Hpd Hal. unfold _action_policy, index. rewrite Hd. cbn [rbind].
  assert (∀ pid p, dget pid policies = Some p → ∃ b, allows p action = inr b ∧
    ∃ pid' p', (if b : bool then inr (pid, p) else inr (d, pd)) = @inr exn _ (pid', p') ∧
      dget pid' policies = Some p' ∧ allows p' action = inr true) as Hyes.
  { intros pid p Hp. destruct (Htot pid p Hp) as [[] Ha]; (eexists; split; [exact Ha|]).
    - by exists pid, p.
    - by exists d, pd. }
  destruct requested as [r|]; cbn [rbind]; [destruct (dhas r policies) eqn:Hr; cbn [rbind]|].
  - apply dhas_spec in Hr as [p Hp]. rewrite Hp. cbn [rbind].
    destruct (Hyes r p Hp) as (b & -> & Hb). cbn [rbind]. by rewrite Hpd.
  - destruct (Hyes d pd Hpd) as (b & Hb & Hf). rewrite Hpd. cbn [rbind]. rewrite Hb. cbn [rbind].
    exact Hf.
  - destruct (Hyes d pd Hpd) as (b & Hb & Hf). rewrite Hpd. cbn [rbind]. rewrite Hb. cbn [rbind].
    exact Hf.
Qed.

(** C26: Start-up leaves no action ungoverned: under validated settings and an
    accepted signing key the three bootstrap policies exist, and whatever
    procedure a request names, every action of the catalog is given a policy that
    allows it, is active, verifies, and was written and approved by two different
    people for the deployment's jurisdiction. *)
Theorem bootstrap_governs_every_action `{HmacLaws} s0 s sg :
  validate s0 = inr s → policy_signer s = inr sg →
  ∃ policies, bootstrap_policies s sg = inr policies ∧
    ∀ action requested, dhas action ACTION_SPECIFICATIONS = true →
      ∃ pid p, _action_policy policies action requested = inr (pid, p) ∧
        dget pid policies = Some p ∧ governs sg s action p.
Proof.
  intros Hv%validate_duties Hsg%init_signer_wf.
  destruct (bootstrap_ok sg Hsg s Hv) as (policies & Hb & Hkeys & Hall).
  exists policies. split; [exact Hb|]. intros action requested Ha.
  destruct (defaults_allow action Ha) as (d & rules & Hd & Hrules & Hallow).
  destruct (proj2 (Hkeys d)) as [pd Hpd]; [by eexists|].
  assert (∀ pid p, dget pid policies = Some p → ∃ rules, dget pid bootstrap_rules = Some rules ∧
            allows p action = inr (rules_allow rules action)) as Hal.
  { intros pid p Hp. destruct (Hall pid p Hp) as (_ & _ & _ & _ & _ & Hr). eexists. split; [exact Hr|].
    eapply allows_rules; [done|]. by apply dget_elem_of. }
  destruct (action_policy_found policies action requested d pd) as (pid & p & Hf & Hp & Halw);
    [intros pid p Hp; destruct (Hal pid p Hp) as (? & _ & ?); by eexists|done|done| |].
  - destruct (Hal d pd Hpd) as (r & Hr & ->). congruence.
  - exists pid, p. split; [done|]. split; [done|].
    destruct (Hall pid p Hp) as (? & ? & ? & ? & ? & _). split; try done.
    split_and!; congruence.
Qed.

(** ** [lifespan] *)
Section lifespan.
Context `{HmacLaws} (sg : PolicySigner) {Ext : Type}.
Abbreviation World := (World Ext).

Lemma NoDup_filter_key {A K} (key : A → K) (f : A → bool) l :
  NoDup (key <$> l) → NoDup (key <$> List.filter f l).
Proof.
  induction l as [|x l IH]; cbn; [done|]. intros [Hx Hl]%NoDup_cons.
  destruct (f x); [|auto]. cbn. apply NoDup_cons. split; [|auto]. intros (y & Hy & Hin)%list_elem_of_fmap.
  apply Hx. rewrite Hy. apply list_elem_of_fmap. exists y. split; [done|].
  apply list_elem_of_In, List.filter_In in Hin as [? _]. by apply list_elem_of_In.
Qed.

Lemma select_where_filter {A} (f : A → bool) t : select_where f t = List.filter f t.
Proof. induction t as [|x t IH]; cbn; [done|]. by rewrite IH. Qed.

(** What hydration makes of a list of packages. *)
Definition kept (p : PolicyPackage) : bool := bool_decide (pk_lifecycle p ∈ [ACTIVE; RETIRED]).

Lemma run_hydrate_loop ps : ∀ (w w' : World) r,
  run (for_each ps tt (λ _ p,
         if kept p then registry_call (registry_load_history sg p) else mret tt)) w = (w', r) →
  ∃ rg, w' = set_registry rg w ∧
    (r = inr tt → NoDup (pk_package_id <$> ps) →
     (∀ p, p ∈ ps → kept p = true → verify sg p = true) ∧
     ∀ i, dget i (rg_active rg) =
       match List.find (λ p, bool_decide (pk_lifecycle p = ACTIVE) && bool_decide (pk_package_id p = i)) ps with
       | Some p => Some p
       | None => dget i (rg_active (w_registry w))
       end).
Proof.
  induction ps as [|p ps IH]; intros w w' r; cbn [for_each].
  - rewrite run_ret. intros [= <- <-]. exists (w_registry w). split; [by destruct w|].
    intros _ _. split; [by intros p ?%not_elem_of_nil|done].
  - rewrite run_bind. unfold kept at 1. case_bool_decide as Hk.
    2: { rewrite run_ret. intros (rg & -> & Hrg)%IH. exists rg. split; [done|].
         intros Hr [_ Hnd]%NoDup_cons. destruct (Hrg Hr Hnd) as [Hv Hget]. split.
         - intros q [->|Hq]%elem_of_cons; [unfold kept; by rewrite bool_decide_false|auto].
         - intros i. rewrite Hget. cbn [List.find].
           rewrite (bool_decide_false (pk_lifecycle p = ACTIVE)); [done|].
           intros Ha. apply Hk. rewrite Ha. by left. }
    unfold registry_call. rewrite run_atomically. unfold registry_load_history at 1.
    rewrite bool_decide_true by done. cbn [negb].
    destruct (verify sg p) eqn:Hv; cbn [negb].
    2: { intros [= <- <-]. exists (w_registry w). split; [by destruct w|done]. }
    intros (rg & -> & Hrg)%IH. exists rg. split; [done|].
    intros Hr [Hni Hnd]%NoDup_cons. destruct (Hrg Hr Hnd) as [Hvs Hget]. split.
    + intros q [->|Hq]%elem_of_cons; auto.
    + intros i. rewrite Hget. cbn [List.find w_registry set_registry rg_active].
      destruct (decide (pk_package_id p = i)) as [<-|Hne];
        [rewrite (bool_decide_true (pk_package_id p = _)) by done
        |rewrite (bool_decide_false (pk_package_id p = i)) by done]; rewrite ?andb_true_r, ?andb_false_r.
      * destruct (List.find _ ps) as [q|] eqn:Hf.
        { apply find_some in Hf as [Hq Hqi]. reflect_bools. exfalso. apply Hni.
          apply list_elem_of_fmap. by exists q. }
        case_decide as Ha; [|by rewrite bool_decide_false].
        rewrite bool_decide_true by done. by rewrite dget_dset_eq.
      * case_decide; [|done]. by rewrite dget_dset_ne by congruence.
Qed.

(** What saving the bootstrap packages [bs] does to a table. *)
Record supplements (bs : list PolicyPackage) (t t' : list policy_row) : Prop := {
  sp_kept i r : tget pr_package_id i t = Some r → tget pr_package_id i t' = Some r;
  sp_new r : r ∈ t' → r ∈ t ∨ ∃ p, p ∈ bs ∧ r = row_of p ∧ tget pr_package_id (pk_package_id p) t = None;
  sp_present p : p ∈ bs → is_Some (tget pr_package_id (pk_package_id p) t')
}.

Lemma run_save_bootstrap p (w w' : World) :
  run (save_bootstrap p) w = (w', inr tt) → policies_ok (w_policies w) →
  policies_ok (w_policies w') ∧ supplements [p] (w_policies w) (w_policies w').
Proof.
  unfold save_bootstrap. rewrite run_bind, run_repo_get. intros Hr Hok.
  destruct (tget pr_package_id (pk_package_id p) (w_policies w)) as [row|] eqn:Hg;
    cbn [option_map] in Hr.
  { injection Hr as <-. split; [done|]. split; [done|by left|].
    intros q ->%list_elem_of_singleton. by eexists. }
  unfold repo_save, policy_commit in Hr. rewrite run_atomically in Hr.
  destruct (upsert_package p (w_policies w)) as [e|t] eqn:Hup; [done|]. injection Hr as <-.
  split; [by eapply upsert_package_ok; [|apply Hok..]|].
  unfold upsert_package in Hup. case_bool_decide; [|done]. injection Hup as <-.
  cbn [w_policies set_policies]. unfold tupsert. change (pr_package_id (row_of p)) with (pk_package_id p).
  rewrite Hg. split.
  - intros i r Hi. by rewrite tget_app, Hi.
  - intros r [?| ->%list_elem_of_singleton]%elem_of_app; [by left|]. right. exists p.
    split_and!; [by left|done|done].
  - intros q ->%list_elem_of_singleton. rewrite tget_snoc. change (pr_package_id (row_of p)) with (pk_package_id p).
    by rewrite Hg, bool_decide_true.
Qed.

Lemma supplements_trans p bs t1 t2 t3 :
  supplements [p] t1 t2 → supplements bs t2 t3 → supplements (p :: bs) t1 t3.
Proof.
  intros [K1 N1 P1] [K2 N2 P2]. split; [auto| |].
  - intros r [Hr|(q & Hq & -> & Hn)]%N2.
    + destruct (N1 r Hr) as [|(q & ->%list_elem_of_singleton & -> & ?)]; [by left|].
      right. exists p. split_and!; [by left|done|done].
    + right. exists q. split_and!; [by right|done|].
      destruct (tget pr_package_id (pk_package_id q) t1) as [r|] eqn:E; [|done].
      apply K1 in E. congruence.
  - intros q [->|Hq]%elem_of_cons; [|auto].
    destruct (P1 p) as [r Hr]; [by left|]. exists r. by apply K2.
Qed.

Lemma run_save_loop bs : ∀ w w' : World,
  run (for_each bs tt (λ _ p, save_bootstrap p)) w = (w', inr tt) → policies_ok (w_policies w) →
  policies_ok (w_policies w') ∧ supplements bs (w_policies w) (w_policies w').
Proof.
  induction bs as [|p bs IH]; intros w w'; cbn [for_each].
  - rewrite run_ret. intros [= <-] Hok. split; [done|]. split; [done|by left|].
    by intros p ?%not_elem_of_nil.
  - intros [(e & _ & [=])|(w1 & [] & Hs & Hr)]%run_bind_cases Hok.
    apply run_save_bootstrap in Hs as [Hok1 Hs]; [|done]. apply IH in Hr as [Hok' Hr]; [|done].
    split; [done|]. by eapply supplements_trans.
Qed.

(** The registry is the image of the stored active policies. *)
Definition mirrors (t : list policy_row) (rg : PolicyRegistry) : Prop :=
  ∀ i p, dget i (rg_active rg) = Some p ↔
    ∃ r, r ∈ t ∧ pr_lifecycle r = ACTIVE ∧ pr_package_id r = i ∧ pr_package r = p.

Lemma run_hydrate (w w' : World) :
  run (hydrate sg) (set_registry empty_registry w) = (w', inr tt) → policies_ok (w_policies w) →
  w_policies w' = w_policies w ∧ mirrors (w_policies w) (w_registry w') ∧
  ∀ r, r ∈ w_policies w → pr_lifecycle r ∈ [ACTIVE; RETIRED] → verify sg (pr_package r) = true.
Proof.
  intros Hr [Hids _ Hrows]. unfold hydrate in Hr. rewrite run_bind in Hr.
  unfold repo_list, policy_commit in Hr. rewrite run_atomically in Hr. cbn in Hr.
  set (t := w_policies w) in *.
  apply run_hydrate_loop in Hr as (rg & -> & Hrg). cbn [w_policies set_registry w_registry set_policies].
  split; [done|].
  assert (∀ r, r ∈ order_le row_le t ↔ r ∈ t) as Hin by (intros; apply elem_of_order_le).
  assert (NoDup (pk_package_id <$> map pr_package (order_le row_le t))) as Hnd.
  { assert (pk_package_id <$> map pr_package (order_le row_le t) = pr_package_id <$> order_le row_le t) as ->.
    { change (map pr_package ?l) with (pr_package <$> l). rewrite <- list_fmap_compose.
      apply list_fmap_ext. intros i r Hr%list_elem_of_lookup_2%Hin. symmetry. apply (Hrows r Hr). }
    by rewrite order_le_perm. }
  destruct (Hrg eq_refl Hnd) as [Hv Hget]. split.
  - intros i p. rewrite Hget. cbn [rg_active empty_registry dget]. split.
    + destruct (List.find _ _) as [q|] eqn:Hf; [|done]. intros [= <-].
      apply find_some in Hf as [Hq Hb]. reflect_bools.
      apply list_elem_of_fmap in Hq as (r & -> & Hr%Hin). destruct (Hrows r Hr) as [Hi Hl].
      exists r. split_and!; congruence.
    + intros (r & Hr & Ha & <- & <-). destruct (Hrows r Hr) as [Hi Hl].
      assert (pr_package r ∈ map pr_package (order_le row_le t)) as Hm
        by (apply list_elem_of_fmap; exists r; by rewrite Hin).
      rewrite Hi, (find_unique pk_package_id (λ y, bool_decide (pk_lifecycle y = ACTIVE)));
        [done|by apply NoDup_filter_key|done|]. apply bool_decide_eq_true. congruence.
  - intros r Hr Hk. apply Hv.
    + apply list_elem_of_fmap. exists r. by rewrite Hin.
    + unfold kept. apply bool_decide_eq_true. by destruct (Hrows r Hr) as [_ <-].
Qed.

Lemma hydrate_loop_ok ps : ∀ w : World,
  (∀ p, p ∈ ps → kept p = true → verify sg p = true) →
  (run (for_each ps tt (λ _ p,
         if kept p then registry_call (registry_load_history sg p) else mret tt)) w).2 = inr tt.
Proof.
  induction ps as [|p ps IH]; intros w Hv; cbn [for_each]; [by rewrite run_ret|].
  assert (∀ w', (run (for_each ps tt (λ _ p,
    if kept p then registry_call (registry_load_history sg p) else mret tt)) w').2 = inr tt) as IH'
    by (intros w'; apply IH; intros q Hq; apply Hv; by right).
  rewrite run_bind. destruct (kept p) eqn:Hk; [|rewrite run_ret; apply IH'].
  destruct (run_history sg p w) as (rg & -> & _); [by apply bool_decide_eq_true in Hk| |apply IH'].
  apply Hv; [by left|done].
Qed.
End lifespan.

Section start.
Context `{HmacLaws} `{Oracle} {Ext : Type} (app : App Ext).
Abbreviation World := (World Ext).
Abbreviation bootstrap := (map snd (app_policies app)).

Lemma initialize_keeps_policies (w w1 : World) r :
  run initialize w = (w1, r) → w_policies w1 = w_policies w.
Proof.
  unfold initialize. rewrite run_commit. destruct (initialize_tx _ _) as [s [e|[a d]]]; by intros [= <- _].
Qed.

Lemma run_lifespan (w w' : World) :
  run (lifespan app) w = (w', inr tt) →
  ∃ w1 w2, run initialize w = (w1, inr tt) ∧
    run (for_each bootstrap tt (λ _ p, save_bootstrap p)) w1 = (w2, inr tt) ∧
    run (hydrate (app_signer app)) (set_registry empty_registry w2) = (w', inr tt).
Proof.
  unfold lifespan. intros [(e & _ & [=])|(w1 & [] & Hi & Hr)]%run_bind_cases.
  apply run_bind_cases in Hr as [(e & _ & [=])|(w2 & [] & Hs & Hr)].
  rewrite run_bind in Hr. exists w1, w2. by split_and!.
Qed.

(** C27: A start that succeeds changes no stored policy: what an operator
    activated, replaced or retired is as it was, a bootstrap package is added only
    where its id is new, and the in-process registry is then exactly the stored
    active packages, each of which verifies. *)
Theorem lifespan_mirrors_stored_policies (w w' : World) :
  policies_ok (w_policies w) → run (lifespan app) w = (w', inr tt) →
  policies_ok (w_policies w') ∧
  supplements bootstrap (w_policies w) (w_policies w') ∧
  mirrors (w_policies w') (w_registry w') ∧
  ∀ r, r ∈ w_policies w' → pr_lifecycle r ∈ [ACTIVE; RETIRED] →
    verify (app_signer app) (pr_package r) = true.
Proof.
  intros Hok (w1 & w2 & Hi & Hs & Hr)%run_lifespan.
  apply initialize_keeps_policies in Hi. rewrite <- Hi in *.
  apply run_save_loop in Hs as [Hok2 Hs]; [|done].
  apply run_hydrate in Hr as (-> & Hm & Hv); [|done]. by split_and!.
Qed.
End start.

(** ** A fresh deployment *)
Section fresh.
Context `{HmacLaws} (sg : PolicySigner) {Ext : Type}.
Abbreviation World := (World Ext).

Definition package_scope (p : PolicyPackage) : string * string :=
  (pk_procedure_id p, pk_jurisdiction p).

(** New packages of distinct ids and scopes are all saved. *)
Lemma save_new_loop ps : ∀ done (w : World),
  NoDup (pk_package_id <$> done ++ ps) → NoDup (package_scope <$> done ++ ps) →
  w_policies w = row_of <$> done →
  run (for_each ps tt (λ _ p, save_bootstrap p)) w =
    (set_policies (row_of <$> done ++ ps) w, inr tt).
Proof.
  induction ps as [|p ps IH]; intros done w Hid Hsc Hw; cbn [for_each].
  - rewrite run_ret, app_nil_r, <- Hw. by destruct w.
  - assert (done ++ p :: ps = (done ++ [p]) ++ ps) as He by (by rewrite <- app_assoc).
    rewrite He in *.
    assert (tget pr_package_id (pk_package_id p) (w_policies w) = None) as Hg.
    { apply tget_None. rewrite Hw, <- list_fmap_compose. intros (q & Hq & Hin)%list_elem_of_fmap.
      rewrite fmap_app, fmap_app in Hid. apply NoDup_app in Hid as (Hid & _).
      apply NoDup_app in Hid as (_ & Hd & _). apply (Hd (pk_package_id p)); [|by left].
      apply list_elem_of_fmap. exists q. by split. }
    assert (run (save_bootstrap p) w = (set_policies (row_of <$> done ++ [p]) w, inr tt)) as Hs.
    { unfold save_bootstrap. rewrite run_bind, run_repo_get, Hg. cbn [option_map].
      unfold repo_save, policy_commit. rewrite run_atomically. unfold upsert_package, tupsert.
      change (pr_package_id (row_of p)) with (pk_package_id p). rewrite Hg, bool_decide_true.
      - cbn [rbind]. by rewrite Hw, fmap_app.
      - unfold one_active. rewrite select_where_filter.
        apply NoDup_filter_key. rewrite Hw.
        change [row_of p] with (row_of <$> [p]). rewrite <- fmap_app, <- list_fmap_compose.
        rewrite fmap_app in Hsc. by apply NoDup_app in Hsc as (Hsc & _). }
    rewrite run_bind, Hs. rewrite (IH (done ++ [p])); [|done..]. by destruct w.
Qed.

Context `{Oracle}.

(** A stored active package is found when it is required. *)
Lemma run_require_active r (w : World) :
  policies_ok (w_policies w) → r ∈ w_policies w → pr_lifecycle r = ACTIVE →
  verify sg (pr_package r) = true →
  (run (service_require_active sg (pr_package_id r)) w).2 = inr (pr_package r).
Proof.
  intros [Hids _ Hrows] Hr Ha Hv. destruct (Hrows r Hr) as [Hi Hl].
  unfold service_require_active. rewrite run_bind, (run_require_package _ _ r) by (by apply tget_elem).
  assert (pk_lifecycle (pr_package r) = ACTIVE) as Ha' by congruence.
  rewrite run_bind, run_require, Hv, bool_decide_true by done. cbn [andb].
  destruct (run_history sg (pr_package r) w) as (rg & Hrg & _); [rewrite Ha'; left|done|].
  by rewrite run_bind, Hrg.
Qed.

Lemma run_initialize_fresh (w : World) :
  w_core w = empty_core_db → ∃ w1, run initialize w = (w1, inr tt) ∧ w_policies w1 = w_policies w.
Proof.
  intros Hw. unfold initialize. rewrite run_commit, Hw. by eexists.
Qed.

Lemma run_fresh_lifespan (app : App Ext) (w : World) :
  app_signer app = sg → w_core w = empty_core_db → w_policies w = [] →
  NoDup (pk_package_id <$> (app_policies app).*2) →
  NoDup (package_scope <$> (app_policies app).*2) →
  (∀ p, p ∈ (app_policies app).*2 → pk_lifecycle p = ACTIVE ∧ verify sg p = true) →
  ∃ w', run (lifespan app) w = (w', inr tt) ∧ policies_ok (w_policies w') ∧
    w_policies w' = row_of <$> (app_policies app).*2 ∧ mirrors (w_policies w') (w_registry w').
Proof.
  intros Hsg Hc Hp Hids Hsc Hall. destruct (run_initialize_fresh w Hc) as (w1 & Hi & Hw1).
  unfold lifespan. rewrite run_bind, Hi, run_bind, Hsg.
  change (map snd (app_policies app)) with ((app_policies app).*2).
  rewrite (save_new_loop _ []); [|done..|by rewrite Hw1, Hp].
  unfold registry_call at 1. rewrite run_bind, run_atomically. rewrite app_nil_l.
  set (t := row_of <$> _). set (w2 := set_policies t w1).
  change (set_registry _ w2) with (set_registry empty_registry w2).
  assert (policies_ok t) as Hok.
  { assert (∀ r, r ∈ t → row_ok r) as Hr by (by intros r (p & -> & _)%list_elem_of_fmap).
    split; [|unfold one_active|done].
    - unfold unique, t. by rewrite <- list_fmap_compose.
    - rewrite select_where_filter. apply NoDup_filter_key. unfold t. by rewrite <- list_fmap_compose. }
  destruct (run (hydrate sg) (set_registry empty_registry w2)) as [w' r] eqn:Hh.
  assert (r = inr tt) as ->.
  { unfold hydrate in Hh. rewrite run_bind in Hh. unfold repo_list, policy_commit in Hh.
    rewrite run_atomically in Hh. cbn [w_policies set_registry] in Hh.
    apply (f_equal snd) in Hh. cbn [snd] in Hh. rewrite <- Hh. apply hydrate_loop_ok.
    intros p Hpin _. apply list_elem_of_fmap in Hpin as (row & -> & Hrow%elem_of_order_le).
    apply list_elem_of_fmap in Hrow as (p & -> & Hin). by apply Hall. }
  pose proof Hh as Hh'. apply run_hydrate in Hh' as (Hw' & Hm & _); [|done].
  exists w'. rewrite Hw'. by split_and!.
Qed.

(** C28: A fresh deployment starts: under validated settings an application that
    can be created completes its start-up on an empty database, and every
    bootstrap policy is then stored, active in the registry, and found by the
    gateway when it requires it. *)
Theorem fresh_deployment_starts s0 (app : App Ext) (w : World) :
  validate s0 = inr (app_settings app) → policy_signer (app_settings app) = inr sg →
  app_signer app = sg → bootstrap_policies (app_settings app) sg = inr (app_policies app) →
  w_core w = empty_core_db → w_policies w = [] →
  ∃ w', run (lifespan app) w = (w', inr tt) ∧
    ∀ pid p, dget pid (app_policies app) = Some p →
      dget (pk_package_id p) (rg_active (w_registry w')) = Some p ∧
      (run (service_require_active sg (pk_package_id p)) w').2 = inr p.
Proof.
  intros Hv%validate_duties Hsg%init_signer_wf Hs Hb Hc Hp. set (s := app_settings app) in *.
  revert Hb. unfold bootstrap_policies, active_refund_policy, active_reg_e_policy, active_fraud_policy.
  destruct (activated_ok sg Hsg s Hv "refund" "cs_refund" refund_rules)
    as (p1 & -> & A1 & V1 & _ & _ & _ & _ & P1 & I1).
  destruct (activated_ok sg Hsg s Hv "reg-e" "cs_eft_dispute" reg_e_rules)
    as (p2 & -> & A2 & V2 & _ & _ & _ & _ & P2 & I2).
  destruct (activated_ok sg Hsg s Hv "fraud" "fraud_alert_triage" fraud_rules)
    as (p3 & -> & A3 & V3 & _ & _ & _ & _ & P3 & I3).
  cbn [rbind]. intros [= Happ].
  assert ((app_policies app).*2 = [p1; p2; p3]) as Hps by (by rewrite <- Happ).
  assert (∀ p, p ∈ [p1; p2; p3] → pk_lifecycle p = ACTIVE ∧ verify sg p = true) as Hall.
  { intros p. rewrite !elem_of_cons. intros [->|[->|[->|[]%not_elem_of_nil]]]; by split. }
  destruct (run_fresh_lifespan app w) as (w' & Hr & Hok & Hw' & Hm); rewrite ?Hps; try done.
  - cbn. rewrite I1, I2, I3, !NoDup_cons, !not_elem_of_cons.
    split_and!; try apply not_elem_of_nil; try apply NoDup_nil_2; intros [=].
  - cbn. unfold package_scope. rewrite P1, P2, P3, !NoDup_cons, !not_elem_of_cons.
    split_and!; try apply not_elem_of_nil; try apply NoDup_nil_2; intros [=].
  - exists w'. split; [done|]. intros pid p Hpid%dget_elem_of.
    assert (p ∈ (app_policies app).*2) as Hin by (apply list_elem_of_fmap; by exists (pid, p)).
    rewrite Hps in Hin. destruct (Hall p Hin) as [Ha Hver].
    assert (row_of p ∈ w_policies w') as Hrow.
    { rewrite Hw', Hps. apply list_elem_of_fmap. by exists p. }
    split; [apply Hm; by exists (row_of p)|]. by apply (run_require_active (row_of p)).
Qed.
End fresh.

(** ** The connectors of a deployment *)
Section connectors.
Context `{Hmac} {Ext : Type} `{Oracle} `{Render} `{HttpClient Ext} `{UrlJoin} `{Secrets} `{Documents}.
Context (python_factory : string → ActionConnectorBinding → result (option (ActionConnector Ext))).
Implicit Types dp : Deployment Ext.

(** The same deployment with other connectors in the places of the sandbox. *)
Definition with_sandbox dp (sandbox refunds : ActionConnector Ext) : Deployment Ext :=
  mkDeployment (dp_settings dp) sandbox refunds (dp_provider dp) (dp_configured dp) (dp_profile dp)
    (dp_worker_owner dp).

(** No production binding is made of a SQLite connector. *)
Lemma build_production sqlite sqlite' bs : ∀ rg,
  _build python_factory true sqlite bs rg = _build python_factory true sqlite' bs rg.
Proof.
  induction bs as [|b bs IH]; intros rg; cbn [_build]; [done|].
  destruct (production_check b) as [e|[]] eqn:Hp; [done|]. cbn [rbind].
  assert (connector_of python_factory sqlite b = connector_of python_factory sqlite' b) as ->.
  { unfold production_check in Hp. unfold connector_of. by destruct (ab_transport b). }
  destruct (connector_of python_factory sqlite' b); cbn [rbind]; [done|apply IH].
Qed.

(** What a production deployment runs does not depend on the sandbox and
    demonstration connectors it builds: under validated production settings the
    application is the same whatever they are, in every upstream mode and with or
    without a configured registry. *)
Theorem production_never_sandboxed dp s0 sandbox refunds :
  validate s0 = inr (dp_settings dp) → is_production (dp_settings dp) = true →
  create_app python_factory dp = create_app python_factory (with_sandbox dp sandbox refunds).
Proof.
  intros Hv Hp. assert (effective_upstream_mode (dp_settings dp) ≠ UP_SANDBOX) as Hmode.
  { revert Hv Hp. unfold validate. destruct (validate_log_level _) as [|l]; [done|]. cbn [rbind].
    destruct (fields_valid s0); [|done].
    destruct (validate_production_secrets s0) as [|[]] eqn:Hs; [done|]. intros [= <-] Hp.
    apply secrets_ok in Hs as ([_ _ _ Hup _ _] & _); [exact Hup|exact Hp]. }
  unfold create_app, action_connectors, load_action_connector_registry, default_action_connector,
    create_registry. cbn [dp_settings dp_configured dp_provider dp_profile dp_worker_owner with_sandbox].
  apply bool_decide_eq_true in Hp. rewrite Hp. rewrite bool_decide_true by done.
  destruct (policy_signer _) as [|sg]; [done|]. cbn [rbind].
  destruct (bootstrap_policies _ _) as [|policies]; [done|]. cbn [rbind].
  destruct (dp_configured dp) as [document|].
  - destruct (model_validate document) as [e|config]; cbn [rbind];
      [by destruct (effective_upstream_mode _)|].
    rewrite (build_production (sqlite_connectors dp) (sqlite_connectors (with_sandbox dp sandbox refunds))).
    by destruct (effective_upstream_mode _).
  - by destruct (effective_upstream_mode _).
Qed.
End connectors.

Section honest.
Context `{Hmac} {Ext : Type} `{Oracle} `{Render} `{!HttpClient Ext} `{UrlJoin} `{Secrets} `{Documents}.
Context `{Outside Ext}.
Context (python_factory : string → ActionConnectorBinding → result (option (ActionConnector Ext))).
Implicit Types dp : Deployment Ext.

(** Every connector a deployment is given reports a success only of what is applied. *)
Record honest dp : Prop := {
  hn_sandbox : ConnectorLaws (dp_sandbox dp);
  hn_refunds : ConnectorLaws (dp_refunds dp);
  hn_provider c : dp_provider dp = Some c → ConnectorLaws c;
  hn_configured document b c : dp_configured dp = Some document → b ∈ rg_bindings document →
    connector_of python_factory (sqlite_connectors dp) b = inr c → ConnectorLaws c
}.

Lemma sqlite_honest dp a c :
  honest dp → dget a (sqlite_connectors dp) = Some c → ConnectorLaws c.
Proof.
  intros Hh. unfold sqlite_connectors. rewrite dget_dset. case_match; [intros [= <-]; apply Hh|].
  intros Ha%dget_elem_of. apply list_elem_of_fmap in Ha as (k & [= _ ->] & _). apply Hh.
Qed.

Lemma registry_honest sqlite config config' env rg a i v c r :
  model_validate config = inr config' → create_registry python_factory config' env sqlite = inr rg →
  (∀ b c, b ∈ rg_bindings config → connector_of python_factory sqlite b = inr c → ConnectorLaws c) →
  registry_resolve rg a i v c = inr r → ConnectorLaws (rc_connector r).
Proof.
  intros Hv Hc Hall Hr.
  assert (config' = config) as ->.
  { revert Hv. unfold model_validate. destruct (_ && _); [|done].
    destruct (unique_active_actions config); [done|]. by intros [= <-]. }
  destruct (registry_spec python_factory sqlite config env rg Hv Hc) as (_ & B2 & B3).
  assert (∃ b, b ∈ rg_bindings config ∧ resolves python_factory sqlite b = Some r) as (b & Hb & Hres).
  { assert ((∃ k, find_resolved k rg = Some r) ∨ ∃ a, dget a (cr_active rg) = Some r) as [[k Hk]|[a' Ha]].
    - revert Hr. unfold registry_resolve. destruct (dhas a _); cbn [negb]; [|done].
      destruct i, v, c; cbn [andb orb]; intros Hr;
        repeat (case_match; try discriminate Hr); injection Hr as <-; eauto.
    - apply B2 in Hk as (b & ? & _ & ?). by exists b.
    - apply B3 in Ha as (b & ? & _ & _ & ?). by exists b. }
  unfold resolves in Hres. destruct (connector_of python_factory sqlite b) as [|cn] eqn:Hcn; [done|].
  injection Hres as <-. cbn. by eapply Hall.
Qed.

(** The gateway of an honest deployment only reaches honest connectors. *)
Lemma deployment_gateway_laws dp app :
  honest dp → create_app python_factory dp = inr app → GatewayLaws (core_gateway app).
Proof.
  intros Hh Happ. unfold create_app in Happ.
  destruct (policy_signer _) as [|sg]; [done|]. cbn [rbind] in Happ.
  destruct (bootstrap_policies _ _) as [|policies]; [done|]. cbn [rbind] in Happ.
  destruct (action_connectors python_factory dp) as [|connectors] eqn:Hcs; [done|].
  injection Happ as <-. revert Hcs. unfold action_connectors, load_action_connector_registry.
  destruct (default_action_connector dp) as [|default] eqn:Hd; [done|]. cbn [rbind].
  assert (ConnectorLaws default) as Hdef.
  { revert Hd. unfold default_action_connector.
    destruct (effective_upstream_mode _);
      [by intros [= <-]; apply _|by intros [= <-]; apply Hh|].
    destruct (dp_provider dp) as [c|] eqn:Hpr; [intros [= <-]|done]. by eapply hn_provider. }
  destruct (dp_configured dp) as [document|] eqn:Hdoc; cbn [rbind].
  - destruct (model_validate document) as [|config] eqn:Hv; [done|]. cbn [rbind].
    destruct (create_registry _ _ _ _) as [|rg] eqn:Hrg; [done|]. cbn [rbind]. intros [= <-].
    intros c pinned rc Hr. unfold _resolve_connector in Hr. cbn in Hr.
    eapply registry_honest; [done|done| |exact Hr]. intros b cn Hb Hcn. by eapply hn_configured.
  - destruct (effective_upstream_mode _).
    2: { destruct (model_validate _) as [|config] eqn:Hv; [done|]. cbn [rbind].
      destruct (create_registry _ _ _ _) as [|rg] eqn:Hrg; [done|]. cbn [rbind]. intros [= <-].
      intros c pinned rc Hr. unfold _resolve_connector in Hr. cbn in Hr.
      eapply registry_honest; [done|done| |exact Hr]. cbn [rg_bindings].
      intros b cn (name & -> & _)%list_elem_of_fmap. unfold connector_of. cbn [ab_transport].
      destruct (dget _ (sqlite_connectors dp)) as [c1|] eqn:Hc1.
      - intros [= <-]. by eapply sqlite_honest.
      - cbn [ab_action_name]. destruct (dget name (sqlite_connectors dp)) as [c2|] eqn:Hc2; [|done].
        intros [= <-]. by eapply sqlite_honest. }
    all: intros [= <-]; intros c pinned rc Hr; unfold _resolve_connector in Hr; cbn [gw_connectors core_gateway app_connectors] in Hr.
    all: destruct (dget (c_action c) _) as [cn|] eqn:Hg; [injection Hr as <-; cbn|done].
    all: apply dget_elem_of in Hg;
      repeat (apply elem_of_cons in Hg as [[= _ ->]|Hg]; [done|]); by apply not_elem_of_nil in Hg.
Qed.
End honest.

(** ** Witnesses: a development deployment over the sandbox, and a production one *)

#[export] Instance sandbox_http : HttpClient Sandbox := λ _ x, (x, inr (mkHttpResponse 500 None)).
#[export] Instance no_urls : UrlJoin := λ base path, base +:+ path.
#[export] Instance no_secrets : Secrets := environment_secret [].
#[export] Instance no_documents : Documents := {
  document_sha256 _ := inl (OtherError "FileNotFoundError");
  document_value _ := inl (OtherError "FileNotFoundError")
}.

Definition dev_settings : Settings :=
  mkSettings DEV ["http://localhost:3000"] "sqlite+aiosqlite:///data/core.db"
    "sqlite+aiosqlite:///data/workflow.db" None None (mkAuthSettings true "a-dev-secret" "HS256" "engine" 480)
    None "dev-policy-signing-key" "system-author" "risk-approver" None
    "sqlite+aiosqlite:///data/upstream_sandbox.db" None 30 0 (mkRateSettings false 100 60) "INFO" 2
    true true "NAM" "dev" [] "workflow_engine" default_llm.

Definition no_python (factory : string) (b : ActionConnectorBinding) :
    result (option (ActionConnector Sandbox)) := inr None.

Definition demo_deployment (s : Settings) (provider : option (ActionConnector Sandbox)) :
    Deployment Sandbox :=
  mkDeployment s (sandbox_connector demo_iso) (sandbox_connector demo_iso) provider None
    DEFAULT_NAM_PROFILE "worker-1".

Definition dev_signer : PolicySigner := mkSigner "dev-policy-signing-key" "dev" [("dev", "dev-policy-signing-key")].

Definition dev_policies : dict PolicyPackage := or_else [] (bootstrap_policies dev_settings dev_signer).

(** The application of the deployment, whatever its connectors. *)
Definition app_of (dp : Deployment Sandbox) : App Sandbox :=
  or_else (mkApp dev_settings dev_signer dev_policies (inr []) (mkGuard DEFAULT_NAM_PROFILE false)
             (mkDelivery "" 30 5) (mkReconciliation 0))
    (create_app no_python dp).

Definition dev_app : App Sandbox := app_of (demo_deployment dev_settings None).

Lemma dev_app_created : create_app no_python (demo_deployment dev_settings None) = inr dev_app.
Proof. reflexivity. Qed.

Lemma dev_settings_valid : validate dev_settings = inr dev_settings.
Proof. vm_compute. reflexivity. Qed.
Lemma dev_signer_made : policy_signer dev_settings = inr dev_signer.
Proof. vm_compute. reflexivity. Qed.
Lemma dev_policies_made : bootstrap_policies dev_settings dev_signer = inr dev_policies.
Proof. vm_compute. reflexivity. Qed.

#[export] Instance dev_gateway_laws : GatewayLaws (core_gateway dev_app).
Proof.
  eapply deployment_gateway_laws; [|exact dev_app_created]. split; try apply _; by intros.
Qed.

Definition blank_world : World Sandbox :=
  mkWorld empty_core_db (mkSys 0 0) [] empty_registry []
    (mkSandbox [mkResourceRow "order" "ORD-1" (res_payload demo_order) 1 0] [] [] [] [] 0).

Definition started : World Sandbox := (run (lifespan dev_app) blank_world).1.

Lemma policies_ok_nil : policies_ok [].
Proof.
  split; [apply NoDup_nil_2|unfold one_active; cbn; apply NoDup_nil_2|by intros r ?%not_elem_of_nil].
Qed.

(** A run has one result. *)
Lemma same_left {A B} {p : A * B} {a a' : A} {b b' : B} : p = (a, b) → p = (a', b') → a' = a.
Proof. congruence. Qed.

Lemma started_run : run (lifespan dev_app) blank_world = (started, inr tt).
Proof.
  unfold started. rewrite (surjective_pairing (run _ _)) at 1. apply f_equal.
  vm_compute. reflexivity.
Qed.

Example bootstrap_governs_every_action_witness :
  ∃ pid p, _action_policy dev_policies "submit_sar" (Some "cs_refund") = inr (pid, p) ∧
    pid = "fraud_alert_triage" ∧ pk_lifecycle p = ACTIVE.
Proof.
  destruct (bootstrap_governs_every_action dev_settings dev_settings dev_signer dev_settings_valid
              dev_signer_made) as (policies & Hp & Hall).
  rewrite dev_policies_made in Hp. injection Hp as <-.
  destruct (Hall "submit_sar" (Some "cs_refund")) as (pid & p & Hf & _ & Hg); [reflexivity|].
  exists pid, p. split; [exact Hf|]. split; [|apply Hg].
  vm_compute in Hf. injection Hf as <- _. reflexivity.
Defined.

Example lifespan_mirrors_stored_policies_witness : mirrors (w_policies started) (w_registry started).
Proof.
  refine (proj1 (proj2 (proj2 (lifespan_mirrors_stored_policies dev_app blank_world started
    policies_ok_nil started_run)))).
Defined.

Example fresh_deployment_starts_witness :
  ∃ w', run (lifespan dev_app) blank_world = (w', inr tt) ∧ map pr_package_id (w_policies w') =
    ["refund@1.0.0:NAM"; "reg-e@1.0.0:NAM"; "fraud@1.0.0:NAM"].
Proof.
  destruct (fresh_deployment_starts dev_signer dev_settings dev_app blank_world dev_settings_valid
    dev_signer_made eq_refl dev_policies_made eq_refl eq_refl) as (w' & Hr & _).
  exists w'. split; [exact Hr|]. rewrite (same_left started_run Hr). vm_compute. reflexivity.
Defined.

Definition production : Settings := set_log_level "INFO" (demo_settings ["https://app.example"]).

Example production_never_sandboxed_witness :
  create_app no_python (demo_deployment production (Some disabled_connector)) =
  create_app no_python (with_sandbox (demo_deployment production (Some disabled_connector))
    disabled_connector disabled_connector).
Proof.
  refine (production_never_sandboxed no_python _ (demo_settings ["https://app.example"]) _ _ _ _);
    vm_compute; reflexivity.
Defined.
