(* ===== verification/ApiProps.v ===== *)
(** * Properties of the application

    Requests to any endpoint, interleaved at every await: how often a provider is
    called, what the other endpoints leave alone, who is let in, and whose
    identity an action carries. *)

From Stdlib Require Import SpecFloat.
From S2P Require Import Prelude PyValue PyString Numerals Prog RelyGuarantee Table ActionSpecs Procedures KernelData Policy World AuditTrail KernelStore KernelInv CaseKernel Fixtures KernelRaces PolicyStore PolicyProps Errors Auth Settings Conversation Gateway Outside AtMostOnce GatewayProps ActionService Reference Sandbox Domains Bridge ServiceProps BridgeProps Workers EngineSteps Channels ConnectorRegistry Startup Mcp Reasoning Guardrails GuardrailsProps Api Endpoints Operations ApiSteps BusinessTools BusinessProps SandboxProps AuditProps StartupProps.

Section serving.
Context `{Hmac} `{Oracle} `{Render} `{Pydantic} `{Digest} `{TextDigest} `{ChainHash}.
Context {Ext : Type} `{Adk Ext} `{Reasoning.Z3, Reasoning.Sympy} `{HasReference Ext} `{Outside Ext}.
Context (app : App Ext) (rp : ResourceProvider Ext) (providers : Providers Ext).
Context (iso iso_date : Z → string).
Context (procedures : dict (dict value)) (env : Surroundings (W := World Ext)).
Context `{!AdkLaws} `{!ProviderLaws providers} (Henv : surroundings_keep still env).
Context `{!ResourceProviderLaws rp} `{!ResourceProviderSteady rp} `{!GatewayLaws (core_gateway app)}.
Abbreviation serve := (serve app rp providers iso iso_date procedures env).

Lemma core_resolver_laws pv :
  gw_policy_resolver (core_gateway app) = Some pv → PolicyResolverLaws pv.
Proof. intros [= <-]. apply _. Qed.
Hint Resolve core_resolver_laws reference_read_still initialize_still new_uuid_still
  owned_still get_action_still : wf.

Lemma guard_token {A B} (r : result A) (k : A → prog (World Ext) B) :
  (∀ a, r = inr a → token_safe (k a)) → token_safe (guard r ≫= k).
Proof. intros Hk w g. destruct r; cbn; [done|by apply Hk]. Qed.

Lemma still_then_token {A B} (p : prog (World Ext) A) (k : A → prog (World Ext) B) :
  steps still p → (∀ a, token_safe (k a)) → token_safe (p ≫= k).
Proof. intros Hp Hk. apply token_safe_bind; [by apply token_safe_still|done]. Qed.

(** Every endpoint keeps to the claims it holds. *)
Lemma serve_token actor c : token_safe (serve actor c).
Proof.
  destruct (executes c) eqn:Hx; [|apply token_safe_still; by apply serve_still].
  destruct c; try discriminate Hx; cbn [ApiSteps.serve]; unfold answer;
    (apply token_safe_bind; [|intros; by apply token_safe_still]).
  - unfold confirm_action_proposal. apply guard_token; intros [] _.
    apply still_then_token; [auto with wf|intros []].
    apply still_then_token; [auto with wf|intros p].
    apply guard_token; intros [] _. apply still_then_token; [auto with wf|intros ev].
    apply token_safe_bind; [apply confirm_token; auto with wf|intros q].
    apply token_safe_still. step_through.
  - unfold submit_consequential_action. apply guard_token; intros cu _.
    apply guard_token; intros pm _. apply guard_token; intros [] _. apply guard_token; intros [] _.
    apply token_safe_require; intros _. apply still_then_token; [auto with wf|intros []].
    apply submit_token; auto with wf.
  - unfold create_refund_command. apply guard_token; intros cu _. apply guard_token; intros [] _.
    apply token_safe_require; intros _. apply still_then_token; [auto with wf|].
    { unfold order_get_by_id. auto with wf. }
    intros [order|]; [|by apply token_safe_still].
    apply guard_token; intros o _. apply token_safe_require; intros _.
    apply still_then_token; [auto with wf|intros []]. apply guard_token; intros pk _.
    apply guard_token; intros sn _. apply process_refund_token; auto with wf.
  - unfold run_action_worker. apply guard_token; intros [] _.
    apply delivery_run_once_token; auto with wf.
  - unfold run_reconciliation_worker. apply guard_token; intros [] _.
    apply reconciliation_run_once_token; auto with wf.
Qed.

(** The worker process holds to the same claims, and survives every exception. *)
Lemma worker_turn_token : token_safe (worker_turn app).
Proof.
  apply token_safe_try; [|by intros; apply token_safe_still].
  apply token_safe_bind; [apply delivery_run_once_token; auto with wf|intros _].
  apply token_safe_bind; [apply reconciliation_run_once_token; auto with wf|].
  by intros; apply token_safe_still.
Qed.

Lemma worker_run_token turns : token_safe (worker_run app turns).
Proof.
  apply still_then_token; [auto with wf|intros _].
  induction turns as [|turns IH]; [by apply token_safe_still|].
  apply token_safe_bind; [apply worker_turn_token|by intros _].
Qed.

Lemma worker_turn_survives w : (run (worker_turn app) w).2 = inr tt.
Proof. unfold worker_turn. rewrite run_try. by destruct (run _ w) as [w' [e|[]]]. Qed.

Lemma worker_loop_survives turns w : (run (worker_loop app turns) w).2 = inr tt.
Proof.
  revert w; induction turns as [|turns IH]; intros w; [done|]. cbn [worker_loop].
  rewrite run_bind. pose proof (worker_turn_survives w) as Hs.
  destruct (run (worker_turn app) w) as [w1 r]. cbn in Hs. subst. apply IH.
Qed.

(** C2: Any number of requests to any endpoints, by any callers, beside any number
    of worker processes, interleaved in any way at their awaits and stopped at any
    point: at most one dispatch per idempotency key, each for a stored action past
    its authorization; over honest connectors every action stored as succeeded or
    reconciled was applied by its provider; the database keeps its invariant and
    only evolves. *)
Theorem requests_execute_at_most_once (requests : list (UserContext * api_call))
    (workers : list nat) (w w' : World Ext) ps' :
  db_inv (w_core w) → backed_db w → w_trace w = [] →
  star pool_step
    (w, map (λ q, serve q.1 q.2) requests ++ map (worker_run app) workers) (w', ps') →
  NoDup (dispatched_keys (w_trace w')) ∧
  (∀ k, k ∈ dispatched_keys (w_trace w') →
     ∃ a, tget action_idem k (t_actions (w_core w')) = Some a ∧
          a_status a ∉ [REQUESTED; AUTHORIZED]) ∧
  (∀ a, a ∈ t_actions (w_core w') → a_status a = SUCCEEDED ∨ a_status a = RECONCILED →
     applied (action_idem a) (w_ext w')) ∧
  db_inv (w_core w') ∧ evolves (w_core w) (w_core w').
Proof.
  intros Hw Hb Ht Hstar.
  destruct (token_pool w w' (map (λ q, serve q.1 q.2) requests ++ map (worker_run app) workers) ps')
    as ([? Hb'] & [? _] & ? & ?); [by split|done| |done|by split_and!].
  apply Forall_app. split; apply Forall_forall; intros p (q & -> & _)%list_elem_of_fmap.
  - apply serve_token.
  - apply worker_run_token.
Qed.

(** C3: Only five endpoints execute: whatever a caller sends to any other one --
    chat, voice, WebSocket, MCP, proposals, listings, governance -- no provider of
    actions is called, no stored action becomes successful, and the database keeps
    its invariant and only evolves. *)
Theorem only_five_endpoints_execute actor c (w w' : World Ext) r :
  executes c = false → db_inv (w_core w) → run (serve actor c) w = (w', r) →
  w_trace w' = w_trace w ∧ no_success (w_core w) (w_core w') ∧
  db_inv (w_core w') ∧ evolves (w_core w) (w_core w').
Proof.
  intros Hx Hw Hr.
  pose proof (steps_run still _ w (serve_still app rp providers iso iso_date procedures env Henv actor c Hx)) as Hs.
  rewrite Hr in Hs. destruct Hs as [[Hg Ht] [Hn _]]. destruct (Hg Hw). by split_and!.
Qed.
End serving.

(** The session a turn opens is bound to the customer the host resolved: what
    [BusinessProps] shows of a bound session holds of its tool calls. *)
Lemma opened_session_owned context day :
  owned (tc_customer_id context) (session_state context day).
Proof.
  split; [reflexivity|]. intros k v Hk.
  repeat apply elem_of_cons in Hk as [->|Hk]; [discriminate..|by apply not_elem_of_nil in Hk].
Qed.

(** ** Who is let in *)

(** What the API asks of a caller before it does anything. *)
Inductive requirement :=
  | Serves (customer_id : string)          (* may act for this customer *)
  | Holds (p : Permission)                 (* has the permission, or is an administrator *)
  | Ingests                                (* an integration may ingest messages *)
  | MayExecute (action : string)           (* has the permission of the action *)
  | MayRefund                              (* is a customer, or may write refunds *)
  | Connected.                             (* there are upstream systems *)

(** The access matrix, in the order the requirements are checked.  The endpoints
    that read their own data by owner ask nothing here; [GET /customers],
    [GET /tables] and the probes ask nothing at all.  A session over the WebSocket
    asks it of each of its frames: here of the first one that is valid. *)
Definition required_legacy (c : legacy_call) : list requirement :=
  match c with
  | LegacyChat r => [Serves (ch_user_id r)]
  | LegacySessionState _ user | LegacySessions user => [Serves user]
  | LegacyProcedures | LegacyCustomers | LegacyTable _ => []
  end.

Fixpoint required_session (received : list ws_received) : list requirement :=
  match received with
  | [] => []
  | WsFrame frame :: _ => [Serves (wf_user_id frame)]
  | WsInvalid _ :: received' => required_session received'
  end.

Definition required (c : api_call) : list requirement :=
  match c with
  | ApiChat r => [Serves (ch_user_id r)]
  | ApiIvrTurn r => [Serves (iv_customer_id r)]
  | ApiTurn r => [Serves (cq_customer_id r); Ingests]
  | ApiWebSocket received => required_session received
  | ApiPropose r => [Serves (ap_customer_id r); Connected]
  | ApiConfirm _ => [Connected]
  | ApiSubmit r => [Serves (r_customer_id r); MayExecute (payload_action (r_payload r)); Connected]
  | ApiRefund r => [Serves (rc_customer_id r); Connected; MayRefund]
  | ApiTranscribe _ | ApiTelephony _ => [Holds CHANNEL_INGEST; Connected]
  | ApiSynthesize _ => [Holds CHANNEL_DELIVERY; Connected]
  | ApiDeliver r => [Serves (cd_customer_id r); Holds CHANNEL_DELIVERY; Connected]
  | ApiReceipt _ | ApiHandoffCallback _ _ _ => [Holds PROVIDER_CALLBACK; Connected]
  | ApiCreateHandoff r => [Serves (hq_customer_id r); Holds ESCALATION_CREATE; Connected]
  | ApiGetHandoff _ => [Holds CASE_READ]
  | ApiListPolicies | ApiListActions _ _ | ApiListOutbox _ _ | ApiActionEvents _ | ApiQuarantine _
  | ApiReceipts _ | ApiAuditIntegrity | ApiMetrics => [Holds ADMIN_READ]
  | ApiDraftPolicy _ | ApiApprovePolicy _ | ApiActivatePolicy _ | ApiRetirePolicy _
  | ApiRunDelivery | ApiRunReconciliation => [Holds ADMIN_WRITE]
  | ApiSessionState _ user | ApiSessions user => [Serves user]
  | ApiCatalog | ApiListProposals _ | ApiGetProposal _ | ApiCancel _
  | ApiActionStatus _ | ApiCustomers _ _ | ApiTable _ _ _ | ApiReady | ApiHealth
  | ApiProcedures | ApiJurisdiction | ApiMcp _ _ => []
  | ApiLegacy c => required_legacy c
  end.

Definition satisfied (s : Settings) (actor : UserContext) (q : requirement) : bool :=
  match q with
  | Serves customer =>
      if decide (user_role actor = CUSTOMER) then String.eqb (user_id actor) customer
      else has_permission actor CUSTOMER_READ
  | Holds p => bool_decide (user_role actor = ADMIN) || has_permission actor p
  | Ingests => negb (bool_decide (user_role actor = INTEGRATION)) || has_permission actor CHANNEL_INGEST
  | MayExecute action =>
      match dget action ACTION_PERMISSIONS with
      | Some p => bool_decide (user_role actor = ADMIN) || has_permission actor p
      | None => false
      end
  | MayRefund => bool_decide (user_role actor = CUSTOMER) || has_permission actor REFUND_WRITE
  | Connected => negb (bool_decide (effective_upstream_mode s = UP_DISABLED))
  end.

(** The first requirement that fails, and the status it is answered with. *)
Definition refusal (s : Settings) (actor : UserContext) (qs : list requirement) : option requirement :=
  List.find (λ q, negb (satisfied s actor q)) qs.
Definition refusal_status (q : requirement) : Z :=
  match q with Connected => 503 | _ => 403 end.

(** Every typed payload is that of an action with a permission. *)
Lemma payload_permission (p : ActionPayload) : is_Some (dget (payload_action p) ACTION_PERMISSIONS).
Proof. destruct p; cbn; by eexists. Qed.

Section access.
Context {Ext : Type} (app : App Ext).
Abbreviation s := (app_settings app).
Implicit Types actor : UserContext.

(** Each guard is its requirement. *)
Lemma guard_serves actor customer :
  if satisfied s actor (Serves customer)
  then ∃ c, resolve_customer_context actor customer = inr c ∧ cc_customer_id c = customer
  else ∃ e, resolve_customer_context actor customer = inl e ∧ rp_status_code (respond e) = 403%Z.
Proof.
  unfold satisfied, resolve_customer_context. case_decide.
  - destruct (String.eqb _ _); by eexists.
  - destruct (has_permission _ _); by eexists.
Qed.

Lemma guard_holds actor p :
  if satisfied s actor (Holds p) then _require_permission actor p = inr tt
  else ∃ e, _require_permission actor p = inl e ∧ rp_status_code (respond e) = 403%Z.
Proof.
  unfold satisfied, _require_permission. destruct (bool_decide _), (has_permission _ _); cbn;
    try done; by eexists.
Qed.

Lemma guard_connected actor :
  if satisfied s actor Connected then _require_upstream_available s = inr tt
  else _require_upstream_available s = inl upstream_unavailable.
Proof.
  unfold satisfied, _require_upstream_available.
  case_decide as Hd; [by rewrite bool_decide_true|by rewrite bool_decide_false].
Qed.

Lemma guard_execute actor action p :
  dget action ACTION_PERMISSIONS = Some p →
  satisfied s actor (MayExecute action) = satisfied s actor (Holds p).
Proof. intros Hp. unfold satisfied. by rewrite Hp. Qed.
End access.

Section matrix.
Context `{Hmac} `{Oracle} `{Render} `{Pydantic} `{Digest} `{TextDigest} `{ChainHash}.
Context {Ext : Type} `{Adk Ext} `{Reasoning.Z3, Reasoning.Sympy} `{HasReference Ext}.
Context (app : App Ext) (rp : ResourceProvider Ext) (providers : Providers Ext).
Context (iso iso_date : Z → string).
Context (procedures : dict (dict value)) (env : Surroundings (W := World Ext)).
Abbreviation serve := (serve app rp providers iso iso_date procedures env).
Abbreviation s := (app_settings app).

(** A request is refused with a status: the coroutine reads the clock, any number
    of times, and raises.  It has no other step: no query, no transaction, no call
    of a provider comes before the exception. *)
Inductive refuses (status : Z) {A} : prog (World Ext) A → Prop :=
  | refuses_now e : rp_status_code (respond e) = status → refuses status (Done (inl e))
  | refuses_clock k : (∀ t, refuses status (k t)) → refuses status (read_clock ≫= k).

Lemma refuses_bind {A B} status (p : prog (World Ext) A) (k : A → prog (World Ext) B) :
  refuses status p → refuses status (p ≫= k).
Proof.
  induction 1 as [e He|k' _ IH]; [by apply refuses_now|].
  exact (refuses_clock status (λ t, k' t ≫= k) IH).
Qed.

Lemma set_sys_id (w : World Ext) : set_sys (w_sys w) w = w.
Proof. by destruct w. Qed.

(** So a refused request ends with the status, from any world, and leaves it as it
    was but for the readings of the clock. *)
Lemma refuses_run {A} status (p : prog (World Ext) A) w :
  refuses status p →
  ∃ u e, run p w = (set_sys u w, inl e) ∧ rp_status_code (respond e) = status.
Proof.
  intros Hp. revert w. induction Hp as [e He|k _ IH]; intros w.
  { exists (w_sys w), e. by rewrite set_sys_id. }
  rewrite run_bind. unfold read_clock. rewrite run_atomically. cbv beta iota.
  destruct (IH (now_at (n_clock (w_sys w)))
              (set_sys (mkSys (S (n_clock (w_sys w))) (n_uuid (w_sys w))) w)) as (u & e & Hr & He).
  exists u, e. by rewrite Hr.
Qed.

(** A program enforces requirements in their order. *)
Definition enforces {A} actor (qs : list requirement) (p : prog (World Ext) A) : Prop :=
  ∀ q, refusal s actor qs = Some q → refuses (refusal_status q) p.

Lemma enforces_bind {A B} actor qs (p : prog (World Ext) A) (k : A → prog (World Ext) B) :
  enforces actor qs p → enforces actor qs (p ≫= k).
Proof. intros Hp q Hq. by apply refuses_bind, Hp. Qed.

Lemma enforces_nil {A} actor (p : prog (World Ext) A) : enforces actor [] p.
Proof. by intros q [=]. Qed.

Lemma enforces_cons {A B} actor q qs (r : result A) (k : A → prog (World Ext) B) :
  (satisfied s actor q = false →
   ∃ e, r = inl e ∧ rp_status_code (respond e) = refusal_status q) →
  (satisfied s actor q = true → ∃ a, r = inr a ∧ enforces actor qs (k a)) →
  enforces actor (q :: qs) (guard r ≫= k).
Proof.
  intros Hf Ht q'. unfold refusal. cbn [List.find].
  destruct (satisfied s actor q) eqn:Hq; cbn [negb].
  - destruct (Ht eq_refl) as (a & -> & Hk). apply Hk.
  - intros [= <-]. destruct (Hf eq_refl) as (e & -> & He). by apply refuses_now.
Qed.

Lemma enforces_serves {B} actor customer qs (k : CustomerContext → prog (World Ext) B) :
  (∀ c, cc_customer_id c = customer → enforces actor qs (k c)) →
  enforces actor (Serves customer :: qs) (guard (resolve_customer_context actor customer) ≫= k).
Proof.
  intros Hk. pose proof (guard_serves app actor customer) as Hg. apply enforces_cons; intros Hq;
    rewrite Hq in Hg; [done|]. destruct Hg as (c & -> & Hc). eauto.
Qed.

Lemma enforces_holds {B} actor p qs (k : unit → prog (World Ext) B) :
  enforces actor qs (k tt) → enforces actor (Holds p :: qs) (guard (_require_permission actor p) ≫= k).
Proof.
  intros Hk. pose proof (guard_holds app actor p) as Hg. apply enforces_cons; intros Hq;
    rewrite Hq in Hg; [done|]. by exists tt.
Qed.

Lemma enforces_connected {B} actor qs (k : unit → prog (World Ext) B) :
  enforces actor qs (k tt) →
  enforces actor (Connected :: qs) (guard (_require_upstream_available s) ≫= k).
Proof.
  intros Hk. pose proof (guard_connected app actor) as Hg. apply enforces_cons; intros Hq;
    rewrite Hq in Hg; [by eexists|]. by exists tt.
Qed.

Lemma enforces_refund {B} actor qs (k : unit → prog (World Ext) B) :
  enforces actor qs (k tt) →
  enforces actor (MayRefund :: qs)
    (require (bool_decide (user_role actor = CUSTOMER) || has_permission actor REFUND_WRITE)
       refund_forbidden ≫= k).
Proof.
  intros Hk.
  assert (require (bool_decide (user_role actor = CUSTOMER) || has_permission actor REFUND_WRITE)
            refund_forbidden
          = guard (Ext := Ext) (if satisfied s actor MayRefund then inr tt else inl refund_forbidden)) as ->.
  { unfold require. cbn [satisfied]. by destruct (_ || _). }
  apply enforces_cons; intros ->; [by eexists|by exists tt].
Qed.

(** A guard that checks several requirements itself. *)
Lemma enforces_guard {A B} actor qs (r : result A) (k : A → prog (World Ext) B) :
  (∀ q, refusal s actor qs = Some q →
   ∃ e, r = inl e ∧ rp_status_code (respond e) = refusal_status q) →
  enforces actor qs (guard r ≫= k).
Proof. intros Hr q Hq. destruct (Hr q Hq) as (e & -> & He). by apply refuses_now. Qed.

Lemma admit_turn_refused actor r q :
  refusal s actor [Serves (cq_customer_id r); Ingests] = Some q →
  ∃ e, admit_turn app r actor = inl e ∧ rp_status_code (respond e) = refusal_status q.
Proof.
  unfold refusal, admit_turn. cbn [List.find]. pose proof (guard_serves app actor (cq_customer_id r)) as Hg.
  destruct (satisfied s actor (Serves _)); cbn [negb].
  - destruct Hg as (c & -> & _). cbn [rbind]. cbn [satisfied]. unfold _require_permission.
    case_decide as Hi; [|by rewrite bool_decide_false]. rewrite bool_decide_true by done.
    rewrite (bool_decide_false (user_role actor = ADMIN)) by congruence.
    destruct (has_permission actor CHANNEL_INGEST); cbn; [done|]. intros [= <-]. by eexists.
  - intros [= <-]. destruct Hg as (e & -> & He). by exists e.
Qed.

Lemma enforces_submit {B} actor (request : ConsequentialActionRequest) qs
    (k : unit → prog (World Ext) B) :
  enforces actor qs (k tt) →
  enforces actor (MayExecute (payload_action (r_payload request)) :: qs)
    (permission ← guard (index (payload_action (r_payload request)) ACTION_PERMISSIONS);
     _ ← guard (_require_permission actor permission);
     k tt).
Proof.
  intros Hk. destruct (payload_permission (r_payload request)) as [p Hp].
  unfold index. rewrite Hp. pose proof (guard_execute app actor _ p Hp) as Hm.
  pose proof (guard_holds app actor p) as Hg. rewrite <- Hm in Hg.
  apply (enforces_cons actor (MayExecute _) qs (_require_permission actor p) (λ _, k tt));
    intros Hq; rewrite Hq in Hg; [done|by exists tt].
Qed.

(** Receiving a message reads the clock. *)
Lemma enforces_receive {B} actor qs channel raw user (k : InboundMessage → prog (World Ext) B) :
  (∀ now, ∃ i, inbound channel raw now = inr i ∧ in_user_id i = user) →
  (∀ i, in_user_id i = user → enforces actor qs (k i)) →
  enforces actor qs (receive channel raw ≫= k).
Proof.
  intros Hi Hk q Hq.
  change (refuses (refusal_status q) (read_clock ≫= λ t, lift_result (inbound channel raw t) ≫= k)).
  apply refuses_clock. intros t. destruct (Hi t) as (i & -> & Hu). by apply (Hk i Hu).
Qed.

Lemma enforces_chat actor r :
  enforces actor [Serves (ch_user_id r)]
    (chat_v1 app rp iso iso_date procedures env r actor).
Proof.
  apply (enforces_receive _ _ _ _ (ch_user_id r)).
  - intros now. destruct r as [m [] [] p u]; eexists; by split.
  - intros i <-. apply enforces_serves; intros. apply enforces_nil.
Qed.

(** A frame of the WebSocket, and a session up to its first one. *)
Lemma enforces_frame actor frame :
  enforces actor [Serves (wf_user_id frame)]
    (ws_turn app rp iso iso_date procedures env frame actor).
Proof.
  apply (enforces_receive _ _ _ _ (wf_user_id frame)).
  - intros now. destruct frame as [? ? [] ? ? [] ? ? ?]; eexists; by split.
  - intros i <-. apply enforces_serves; intros. apply enforces_nil.
Qed.

Lemma enforces_session actor received :
  enforces actor (required_session received)
    (websocket_loop app rp iso iso_date procedures env received actor).
Proof.
  unfold websocket_loop. match goal with |- enforces _ _ (for_each _ ?sent ?b) => set (body := b); generalize sent end.
  induction received as [|[frame|errors] received IH]; intros sent; cbn [for_each required_session].
  - apply enforces_nil.
  - apply enforces_bind. unfold body. apply enforces_bind, enforces_frame.
  - apply IH.
Qed.

(** An alias asks what its endpoint asks. *)
Lemma enforces_legacy actor c :
  enforces actor (required_legacy c)
    (serve_legacy app rp iso iso_date procedures env actor c).
Proof.
  destruct c; cbn [serve_legacy required_legacy]; unfold answer; apply enforces_bind;
    try apply enforces_nil; try apply enforces_chat.
  all: apply enforces_serves; intros; apply enforces_nil.
Qed.

(** The customer an MCP call acts for, if there is one the caller may serve. *)
Definition mcp_entitled (context : McpContext) : bool :=
  match mc_request context with
  | Some request =>
      match mr_user request with
      | Some actor =>
          let customer := mcp_customer app actor (mr_customer request) in
          str_truthy customer && satisfied s actor (Serves (default "" customer))
      | None => false
      end
  | None => false
  end.

Lemma mcp_context_refused context action arguments :
  mcp_entitled context = false →
  ∃ msg p, mcp_context app context action arguments = inl (AuthorizationError msg p).
Proof.
  unfold mcp_entitled, mcp_context. destruct (mc_request context) as [request|]; [|by eauto].
  destruct (mr_user request) as [actor|]; [|by eauto]. cbv zeta.
  destruct (str_truthy (mcp_customer app actor (mr_customer request))); cbn [negb andb]; [|by eauto].
  intros Hs. unfold resolve_customer_context. cbn [satisfied] in Hs. case_decide; rewrite Hs; eauto.
Qed.

(** C4: The access matrix.  A request that does not satisfy what its endpoint
    requires -- REST, alias, session over the WebSocket -- is answered with the
    status of the first requirement that fails: 403 for a customer the caller may
    not serve or a permission it lacks, 503 when there are no upstream systems.
    So is every frame of a WebSocket session, and a request to an endpoint of
    development, which is not found outside development.  An MCP call by nobody, or
    for a customer the caller may not serve, is refused, all but the catalog.  In
    each case the coroutine has no step but readings of the clock before it
    raises: nothing is read from or written to any store, policy, provider or case. *)
Theorem access_matrix_enforced actor :
  (∀ c q, refusal s actor (required c) = Some q →
     refuses (refusal_status q) (serve actor c) ∧
     ∀ w, ∃ u e, run (serve actor c) w = (set_sys u w, inl e) ∧
       rp_status_code (respond e) = refusal_status q) ∧
  (∀ frame, satisfied s actor (Serves (wf_user_id frame)) = false →
     refuses 403 (ws_turn app rp iso iso_date procedures env frame actor)) ∧
  (∀ context c, mcp_entitled context = false → c ≠ McpCatalog →
     ∃ e, action_mcp_server app rp iso context c = Done (inl e) ∧
       match c, e with
       | _, AuthorizationError _ _ => True
       | McpPrepare _ arguments _ _, ValueError _ => trusted_arguments arguments ≠ []
       | _, _ => False
       end) ∧
  (∀ d, is_dev s = false → serve_dev s actor d = Done (inl (HTTPException 404 ["Not Found"]))) ∧
  (∀ d, is_dev s = true → satisfied s actor (Holds ADMIN_WRITE) = false →
     ∃ e, serve_dev s actor d = Done (inl e) ∧ rp_status_code (respond e) = 403%Z).
Proof.
  assert (∀ c, enforces actor (required c) (serve actor c)) as Hserve.
  { intros c. destruct c; cbn [ApiSteps.serve required]; try apply enforces_legacy;
      unfold answer; apply enforces_bind;
      try apply enforces_nil; try (apply enforces_holds, enforces_nil);
      try (apply enforces_serves; intros; apply enforces_nil);
      try (apply enforces_connected, enforces_nil);
      try (apply enforces_holds, enforces_connected, enforces_nil);
      try (apply enforces_serves; intros; apply enforces_connected, enforces_nil);
      try (apply enforces_serves; intros; apply enforces_holds, enforces_connected, enforces_nil).
    - apply enforces_chat.
    - by apply enforces_guard, admit_turn_refused.
    - apply enforces_session.
    - unfold submit_consequential_action. apply enforces_serves; intros cu _.
      apply (enforces_submit actor _ _ (λ _, guard _ ≫= _)). apply enforces_connected, enforces_nil.
    - unfold create_refund_command. apply enforces_serves; intros cu _.
      apply enforces_connected, enforces_refund, enforces_nil. }
  split_and!.
  - intros c q Hq. pose proof (Hserve c q Hq) as Hr. split; [done|]. intros w. by apply refuses_run.
  - intros frame Hs. apply (enforces_frame actor frame (Serves (wf_user_id frame))).
    unfold refusal. cbn [List.find]. by rewrite Hs.
  - intros context c He Hc. destruct c as [action arguments t i|pid| |pid]; [|..|done|];
      cbn [action_mcp_server mcp_serve]; unfold action_mcp_server, mcp_serve.
    + unfold actions_prepare, _reject_trusted_arguments.
      destruct (trusted_arguments arguments) as [|x l] eqn:Ht; [|by eexists].
      unfold _resolve_mcp_action_context.
      destruct (mcp_context_refused context (Some action) (Some arguments) He) as (m & p & ->). by eexists.
    + unfold actions_get_status, _resolve_mcp_action_context.
      destruct (mcp_context_refused context None None He) as (m & p & ->). by eexists.
    + unfold action_proposal_status, _resolve_mcp_action_context.
      destruct (mcp_context_refused context None None He) as (m & p & ->). by eexists.
  - intros d Hd. unfold serve_dev. by rewrite Hd.
  - intros d Hd Hs. unfold serve_dev. rewrite Hd. pose proof (guard_holds app actor ADMIN_WRITE) as Hg.
    rewrite Hs in Hg. destruct Hg as (e & Hg & He). exists e. split; [|done].
    destruct d; [unfold put_sandbox_resource|unfold put_sandbox_scenario]; by rewrite Hg.
Qed.
End matrix.

(** ** Confirming *)
Section confirming.
Context `{Hmac} `{Oracle} `{Render} `{Pydantic} `{Digest} `{TextDigest}.
Context {Ext : Type} (app : App Ext) (rp : ResourceProvider Ext) (iso : Z → string).
Context `{!ResourceProviderLaws rp}.
Abbreviation World := (World Ext).
Abbreviation s := (app_settings app).

(** Initialization records the events of older rows, and nothing else. *)
Definition only_events (d d' : core_db) : Prop :=
  t_actions d' = t_actions d ∧ t_outbox d' = t_outbox d ∧ t_proposals d' = t_proposals d ∧
  t_cases d' = t_cases d.
#[local] Instance only_events_preorder : PreOrder only_events.
Proof. split; [done|]. intros d1 d2 d3 (?&?&?&?) (?&?&?&?). split_and!; congruence. Qed.

Lemma run_initialize (w w1 : World) r :
  run initialize w = (w1, r) → only_events (w_core w) (w_core w1) ∧ w_trace w1 = w_trace w.
Proof.
  intros Hr.
  assert (tx_preserves only_events initialize_tx) as Hp.
  { unfold initialize_tx, insert_event.
    repeat first [ match goal with |- ∀ _, _ => intro end
      | solve [auto with wf typeclass_instances]
      | match goal with
        | |- only_events _ _ => by split_and!
        | |- tx_preserves _ (mbind _ _) => apply tx_preserves_bind
        | |- tx_preserves _ (tx_for _ _) => apply tx_preserves_for
        | |- tx_preserves _ (sql_insert _ _ _ _) => apply tx_preserves_insert
        | |- tx_preserves _ (match ?x with _ => _ end) => destruct x eqn:?
        end ]. }
  unfold initialize in Hr. rewrite run_commit in Hr.
  destruct (initialize_tx (w_core w) (w_sys w)) as [u [e|[[] d]]] eqn:Ht; injection Hr as <- _;
    (split; [|done]); [done|]. by eapply Hp.
Qed.

(** The proposal an actor may handle. *)
Record owned (pid : string) (actor : UserContext) (p : ActionProposal) (w : World) : Prop := {
  ow_stored : tget p_proposal_id pid (t_proposals (w_core w)) = Some p;
  ow_actor : p_actor_id p = user_id actor;
  ow_customer : ∃ c, resolve_customer_context actor (p_customer_id p) = inr c
}.

Lemma run_owned pid actor (w w' : World) r :
  run (_owned_proposal pid actor) w = (w', r) →
  w' = w ∧ ∀ p, r = inr p → owned pid actor p w.
Proof.
  unfold _owned_proposal, get_action_proposal, guard. rewrite run_bind, run_query.
  cbn [tbl_get action_proposals].
  change (select_one _ _) with (tget p_proposal_id pid (t_proposals (w_core w))).
  destruct (tget p_proposal_id pid _) as [p|] eqn:Hp; [|by intros [= <- <-]].
  rewrite run_bind, run_lift. destruct (resolve_customer_context _ _) as [e|c] eqn:Hc;
    [by intros [= <- <-]|].
  rewrite run_bind, run_require. destruct (String.eqb_spec (p_actor_id p) (user_id actor));
    [|by intros [= <- <-]].
  rewrite run_ret. intros [= <- <-]. split; [done|]. intros q [= <-]. split; eauto.
Qed.

(** Where a confirmation that reaches the gateway comes from, every condition of the
    very world it is checked in: [w1] is what initialization leaves, [w2] follows
    the drawing of the evidence, and [w'] is what executing the stored payload under
    that evidence leaves. *)
Definition confirmed_by (actor : UserContext) (pid : string) (w w' : World) : Prop :=
  ∃ p spec payload w1 w2 evidence w3 r,
    run initialize w = (w1, inr tt) ∧
    run (new_uuid ("host-confirmation:" +:+ pid +:+ ":")) w1 = (w2, inr evidence) ∧
    evidence = "host-confirmation:" +:+ pid +:+ ":" +:+ uuid_at (n_uuid (w_sys w1)) ∧
    owned pid actor p w ∧ _require_action_access actor (p_action p) = inr tt ∧
    effective_upstream_mode s ≠ UP_DISABLED ∧
    let context := mkConfirmation (user_id actor) (p_customer_id p) (Some evidence) (Some evidence) in
    confirmable rp (action_bridge app) p context spec payload w2 ∧ idle w2 w3 ∧
    run (execute (app_signer app) (core_gateway app) rp p context
           (request_of p context spec payload)) w3 = (w', r).

Lemma no_action_core (w w' : World) :
  only_events (w_core w) (w_core w') → w_trace w' = w_trace w → no_action w w'.
Proof. by intros (?&?&?&?) ?; split_and!. Qed.

(** C5: Confirming over the API executes nothing unless the stored proposal is the
    caller's own, for a customer the caller may serve, of an action the caller may
    execute, with an upstream system to execute it; and, in the world in which the
    confirmation is checked, pending, unexpired by the clock's reading there, its
    resource as the system of record then returns it at the proposed version, its
    binding the proposed one.  The evidence is the host's own, a fresh id after the
    name of the proposal, never the client's; and what is then executed is the
    stored payload. *)
Theorem api_confirms_only_owned pid actor (w w' : World) r :
  run (confirm_action_proposal app rp iso pid actor) w = (w', r) →
  no_action w w' ∨ confirmed_by actor pid w w'.
Proof.
  unfold confirm_action_proposal, guard. rewrite run_bind, run_lift.
  unfold _require_upstream_available. case_decide as Hup; [intros [= <- <-]; by left|].
  intros [(e & Hi & _)|(w1 & [] & Hini & Hr)]%run_bind_cases;
    [apply run_initialize in Hi as [Hon Htr]; left; by apply no_action_core|].
  pose proof Hini as Hi. apply run_initialize in Hi as [Hon Htr].
  apply run_bind_cases in Hr as [(e & Ho & ->)|(w2 & p & Ho & Hr)]; apply run_owned in Ho as [-> Ho].
  { left. by apply no_action_core. }
  rewrite run_bind, run_lift in Hr.
  destruct (_require_action_access _ _) as [e|[]] eqn:Hacc; [injection Hr as <- <-; left; by apply no_action_core|].
  apply run_bind_cases in Hr as [(e & He & _)|(w3 & ev & Hev & Hr)].
  { unfold new_uuid in He. by rewrite run_atomically in He. }
  pose proof Hev as Hdrawn. unfold new_uuid in Hdrawn. rewrite run_atomically in Hdrawn.
  injection Hdrawn as Hw3 Hevd.
  assert (owned pid actor p w) as Hown.
  { destruct (Ho p eq_refl) as [Hst Ha Hc]. split; [|done|done]. by destruct Hon as (_ & _ & <- & _). }
  assert (∀ w4, no_action w3 w4 → no_action w w4) as Hna.
  { intros w4 (T & A & O). destruct Hon as (A1 & O1 & _). rewrite <- Hw3 in T, A, O.
    cbn in T, A, O. split_and!; congruence. }
  assert (∀ w4 r4, confirm_reaches (app_signer app) (core_gateway app) rp (action_bridge app) pid
            (mkConfirmation (user_id actor) (p_customer_id p) (Some ev) (Some ev)) w3 w4 r4 →
          no_action w w4 ∨ confirmed_by actor pid w w4) as Hreach.
  { intros w4 r4 [Hn|(p' & spec & payload & w5 & Hp' & Hcf & Hidle & Hex)]; [left; auto|right].
    assert (p' = p) as ->.
    { destruct Hown as [Hst _ _]. destruct Hon as (_ & _ & Hpr & _). rewrite <- Hw3 in Hp'.
      cbn in Hp'. congruence. }
    exists p, spec, payload, w1, w3, ev, w5, r4. split_and!; try done.
    rewrite <- Hevd. by rewrite !string_app_assoc. }
  apply run_bind_cases in Hr as [(e & Hcf & ->)|(w4 & q & Hcf & Hr)];
    apply run_confirm in Hcf; [|done| |done]; [by eapply Hreach|].
  assert (w' = w4) as ->; [|by eapply Hreach].
  destruct (str_truthy (p_action_id q)).
  - unfold get_action in Hr. rewrite run_bind, run_query in Hr. by injection Hr as <- _.
  - rewrite run_bind, run_ret in Hr. by injection Hr as <- _.
Qed.
End confirming.

(** ** Whose identity a proposal carries *)
Section identity.
Context `{Hmac} `{Oracle} `{Render} `{Pydantic} `{Digest} `{TextDigest}.
Context {Ext : Type} (app : App Ext) (rp : ResourceProvider Ext) (iso : Z → string).
Context `{!ResourceProviderLaws rp}.
Abbreviation World := (World Ext).

(** A pending proposal of this actor for this customer, of an action the actor may
    execute, under a policy of the application. *)
Record proposed_for (actor : UserContext) (customer_id action : string)
    (conversation_id message_id : option string) (p : ActionProposal) : Prop := {
  pf_actor : p_actor_id p = user_id actor;
  pf_customer : p_customer_id p = customer_id;
  pf_action : p_action p = action;
  pf_access : _require_action_access actor action = inr tt;
  pf_policy : ∃ pid policy, dget pid (app_policies app) = Some policy ∧
                p_policy_package_id p = pk_package_id policy;
  pf_status : p_status p = P_PENDING;
  pf_conversation : p_conversation_id p = conversation_id;
  pf_message : p_message_id p = message_id
}.

(** The proposals [ps] were added, and nothing was executed. *)
Definition added (ps : list ActionProposal) (w w' : World) : Prop :=
  w_trace w' = w_trace w ∧
  w_core w' = tbl_set action_proposals (t_proposals (w_core w) ++ ps) (w_core w).

Lemma added_nil (w w' : World) : idle w w' → added [] w w'.
Proof. intros [Hc Ht]. split; [done|]. rewrite Hc, app_nil_r. by destruct (w_core w). Qed.

Lemma added_app ps qs (w1 w2 w3 : World) : added ps w1 w2 → added qs w2 w3 → added (ps ++ qs) w1 w3.
Proof.
  intros [T1 C1] [T2 C2]. split; [congruence|]. rewrite C2, C1. cbn. by rewrite app_assoc.
Qed.

Lemma action_policy_member policies action requested pid p :
  _action_policy policies action requested = inr (pid, p) → ∃ pid, dget pid policies = Some p.
Proof.
  unfold _action_policy, index. intros Hr.
  destruct (match requested with Some _ => _ | None => _ end) as [|r]; [done|]. cbn [rbind] in Hr.
  destruct (dget r policies) as [q|] eqn:Hq; [|done]. cbn [rbind] in Hr.
  destruct (allows q action) as [|[]]; [done|injection Hr as <- <-; eauto|]. cbn [rbind] in Hr.
  destruct (dget action _) as [d|]; [|done]. cbn [rbind] in Hr.
  destruct (dget d policies) as [q'|] eqn:Hq'; [|done]. cbn [rbind] in Hr. injection Hr as <- <-. eauto.
Qed.

Lemma run_create_proposal actor customer action arguments resource conversation message requested
    (w w' : World) r :
  run (_create_action_proposal app rp actor customer action arguments resource conversation message
         requested) w = (w', r) →
  match r with
  | inl _ => idle w w'
  | inr p => added [p] w w' ∧ proposed_for actor customer action conversation message p
  end.
Proof.
  unfold _create_action_proposal. rewrite run_bind, run_lift.
  destruct (_require_action_access actor action) as [e|[]] eqn:Ha; [by intros [= <- <-]|].
  rewrite run_bind, run_lift.
  destruct (_action_policy _ _ _) as [e|[pid policy]] eqn:Hp; [by intros [= <- <-]|].
  intros Hr. apply run_propose in Hr; [|done]. destruct r as [e|p]; [exact Hr|].
  destruct Hr as (Ht & Hc & (Hact & Hcu & Hac & _ & Hpk & Hcv & Hms & Hst & _) & _ & _).
  split; [by split|]. split; try done. apply action_policy_member in Hp as [pid' Hp].
  by exists pid', policy.
Qed.

(** One intent of the model: at most one proposal, shown to the caller as stored. *)
Lemma run_prepare_intent context actor procedure raw (w w' : World) r :
  run (prepare_intent app rp iso context actor procedure raw) w = (w', r) →
  match r with
  | inr (Some view) =>
      ∃ p action, added [p] w w' ∧ view = _proposal_view iso p ∧
        proposed_for actor (tc_customer_id context) action (Some (tc_conversation_id context))
          (Some (tc_message_id context)) p
  | _ => idle w w'
  end.
Proof.
  unfold prepare_intent. rewrite run_try. set (body := mbind _ _).
  assert (∀ w1 r1, run body w = (w1, r1) →
    match r1 with
    | inl _ => idle w w1
    | inr o => ∃ view, o = Some view ∧ ∃ p action, added [p] w w1 ∧ view = _proposal_view iso p ∧
        proposed_for actor (tc_customer_id context) action (Some (tc_conversation_id context))
          (Some (tc_message_id context)) p
    end) as Hbody.
  { intros w1 r1. unfold body.
    do 5 (rewrite run_bind, run_lift;
          match goal with |- context [match ?r with _ => _ end] => destruct r as [?|?] end;
          [by intros [= <- <-]|]).
    intros [(e & Hc & ->)|(w2 & p & Hc & Hr)]%run_bind_cases; apply run_create_proposal in Hc.
    - exact Hc.
    - destruct Hc as [Hadd Hfor]. rewrite run_ret in Hr. injection Hr as <- <-.
      eexists. split; [done|]. eexists p, _. split; [exact Hadd|]. by split. }
  destruct (run body w) as [w1 [e|o]] eqn:Hb; specialize (Hbody _ _ eq_refl); cbn in Hbody.
  - rewrite run_bind, run_lift. intros Hr. destruct (py_get "action" VNone raw); by injection Hr as <- <-.
  - intros [= <- <-]. by destruct Hbody as (view & -> & Hv).
Qed.

Lemma string_app_nil (a : string) : a +:+ "" = a.
Proof. induction a as [|x a IH]; [done|]. exact (f_equal (String x) IH). Qed.
Lemma concat_empty (l : list string) x : String.concat "" (x :: l) = x +:+ String.concat "" l.
Proof. destruct l as [|y l]; [|done]. symmetry. apply string_app_nil. Qed.

Lemma run_prepare_intents context actor procedure pending : ∀ text views (w w' : World) r,
  run (for_each pending (text, views) (λ acc raw_intent,
         view ← prepare_intent app rp iso context actor procedure raw_intent;
         mret match view with
              | Some view => (acc.1, acc.2 ++ [view])
              | None => (acc.1 +:+ not_prepared, acc.2)
              end)) w = (w', r) →
  ∃ ps, added ps w w' ∧
    Forall (λ p, ∃ action, proposed_for actor (tc_customer_id context) action
                   (Some (tc_conversation_id context)) (Some (tc_message_id context)) p) ps ∧
    ∀ result, r = inr result →
      result.2 = views ++ map (_proposal_view iso) ps ∧ length ps ≤ length pending ∧
      result.1 = text +:+ String.concat "" (replicate (length pending - length ps) not_prepared).
Proof.
  induction pending as [|raw pending IH]; intros text views w w' r; cbn [for_each].
  - rewrite run_ret. intros [= <- <-]. exists []. split; [by apply added_nil|]. split; [done|].
    intros result [= <-]. cbn. rewrite app_nil_r. split_and!; [done|done|].
    symmetry. apply string_app_nil.
  - intros [(e & Hb & ->)|(w1 & acc & Hb & Hr)]%run_bind_cases.
    + apply run_bind_cases in Hb as [(e' & Hb & _)|(w1 & o & _ & [=])].
      apply run_prepare_intent in Hb. exists []. split; [by apply added_nil|]. by split.
    + apply run_bind_cases in Hb as [(e' & _ & [=])|(w2 & o & Hb & Hacc)].
      rewrite run_ret in Hacc. injection Hacc as <- <-. apply run_prepare_intent in Hb.
      destruct o as [view|]; apply IH in Hr as (ps & Hadd & Hall & Hres).
      * destruct Hb as (p & action & Hp & -> & Hfor). exists (p :: ps).
        split; [by apply (added_app [p] ps w w2)|]. split; [apply Forall_cons; eauto|].
        intros result Hr. destruct (Hres result Hr) as (-> & Hle & ->).
        cbn [map length fst snd]. rewrite <- app_assoc. cbn. split_and!; [done|lia|done].
      * exists ps. split; [by apply (added_app [] ps w w2); [apply added_nil|]|]. split; [done|].
        intros result Hr. destruct (Hres result Hr) as (-> & Hle & ->). cbn [length fst snd].
        split_and!; [done|lia|]. rewrite Nat.sub_succ_l by done. cbn [replicate].
        by rewrite concat_empty, string_app_assoc.
Qed.

(** C7: The intents of the model bind nobody: whatever they contain, each becomes
    at most one pending proposal, of the authenticated actor, for the customer,
    conversation and message of the turn, of an action that actor may execute,
    under a policy of the application; each one that does not adds the refusal
    text once; and nothing is recorded, queued or dispatched for any of them. *)
Theorem model_intents_carry_host_identity context actor procedure pending text (w w' : World) r :
  run (prepare_intents app rp iso context actor procedure pending text) w = (w', r) →
  ∃ ps, w_trace w' = w_trace w ∧
    w_core w' = tbl_set action_proposals (t_proposals (w_core w) ++ ps) (w_core w) ∧
    Forall (λ p, ∃ action, proposed_for actor (tc_customer_id context) action
                   (Some (tc_conversation_id context)) (Some (tc_message_id context)) p) ps ∧
    ∀ text' views, r = inr (text', views) →
      views = map (_proposal_view iso) ps ∧ length ps ≤ length pending ∧
      text' = text +:+ String.concat "" (replicate (length pending - length ps) not_prepared).
Proof.
  unfold prepare_intents. intros (ps & [Ht Hc] & Hall & Hres)%run_prepare_intents. exists ps.
  split_and!; [done|done|done|]. intros text' views Hr. by apply (Hres (text', views)).
Qed.

(** The trusted context of an MCP request is the authenticated caller's. *)
Lemma mcp_context_spec context action arguments trusted :
  mcp_context app context (Some action) arguments = inr trusted →
  ∃ request actor customer header,
    mc_request context = Some request ∧ mr_user request = Some actor ∧
    resolve_customer_context actor header = inr customer ∧
    _require_action_access actor action = inr tt ∧
    ta_actor_id trusted = user_id actor ∧ ta_customer_id trusted = cc_customer_id customer ∧
    is_Some (ta_conversation_id trusted) ∧ is_Some (ta_message_id trusted) ∧
    ∃ pid policy, dget pid (app_policies app) = Some policy ∧
      ta_policy_package_id trusted = pk_package_id policy.
Proof.
  unfold mcp_context. destruct (mc_request context) as [request|]; [|done].
  destruct (mr_user request) as [actor|] eqn:Hu; [|done]. case_match; [|done].
  destruct (resolve_customer_context _ _) as [e|customer] eqn:Hc; [done|]. cbn [rbind].
  destruct (_require_action_access actor action) as [e|[]] eqn:Ha; [done|]. cbn [rbind].
  destruct (_action_policy _ _ _) as [e|[pid policy]] eqn:Hp; [done|]. cbn [rbind]. intros [= <-].
  apply action_policy_member in Hp as [pid' Hp]. eexists _, _, _, _.
  split_and!; try done; [by eexists..|]. by exists pid', policy.
Qed.

(** C8: A model that prepares an action over MCP acts for the authenticated caller
    or not at all: the arguments name none of the trusted fields, the proposal is
    of the caller, for a customer the caller may serve, of an action the caller may
    execute; nothing is executed; and what the model sees of it is its id, action,
    preview, status and expiry. *)
Theorem mcp_prepares_for_the_caller context action arguments t i (w w' : World) r :
  run (action_mcp_server app rp iso context (McpPrepare action arguments t i)) w = (w', r) →
  match r with
  | inl _ => idle w w'
  | inr v =>
      ∃ request actor customer header conversation message p,
        mc_request context = Some request ∧ mr_user request = Some actor ∧
        resolve_customer_context actor header = inr customer ∧
        (∀ name, name ∈ _TRUSTED_ARGUMENT_NAMES → dhas name arguments = false) ∧
        w_trace w' = w_trace w ∧
        w_core w' = tbl_set action_proposals (t_proposals (w_core w) ++ [p]) (w_core w) ∧
        proposed_for actor (cc_customer_id customer) action conversation message p ∧
        v = VDict (_safe_proposal iso p)
  end.
Proof.
  unfold action_mcp_server. cbn [mcp_serve]. unfold actions_prepare.
  intros [(e & Hr & ->)|(w1 & d & Hr & Hret)]%run_bind_cases.
  - rewrite run_bind, run_lift in Hr. destruct (_reject_trusted_arguments _); [by injection Hr as <- _|].
    unfold _resolve_mcp_action_context in Hr. rewrite run_bind, run_lift in Hr.
    destruct (mcp_context _ _ _ _) as [|trusted]; [by injection Hr as <- _|].
    apply run_bind_cases in Hr as [(e' & Hp & _)|(w2 & p & _ & [=])].
    apply run_propose in Hp; [|done]. exact Hp.
  - rewrite run_ret in Hret. injection Hret as <- <-.
    rewrite run_bind, run_lift in Hr. destruct (_reject_trusted_arguments _) as [|[]] eqn:Hrej; [done|].
    unfold _resolve_mcp_action_context in Hr. rewrite run_bind, run_lift in Hr.
    destruct (mcp_context _ _ _ _) as [|trusted] eqn:Hm; [done|].
    apply run_bind_cases in Hr as [(e' & _ & [=])|(w2 & p & Hp & Hr)].
    rewrite run_ret in Hr. injection Hr as <- <-. apply run_propose in Hp; [|done].
    destruct Hp as (Ht & Hc & (Hact & Hcu & Hac & _ & Hpk & Hcv & Hms & Hst & _) & _ & _).
    apply mcp_context_spec in Hm
      as (request & actor & customer & header & Hreq & Hu & Hres & Hacc & Ha & Hcust & _ & _ & Hpol).
    exists request, actor, customer, header, (ta_conversation_id trusted), (ta_message_id trusted), p.
    split_and!; try done; [by apply trusted_arguments_spec|]. cbn in Hact.
    destruct Hpol as (pid & policy & Hd & He). split; try congruence.
    exists pid, policy. split; congruence.
Qed.
End identity.

(** ** Witnesses: the development deployment, started on a blank database

    The agent answers every turn with the same text and has queued a refund of
    somebody else's customer. *)

#[export] Instance inert_z3 : Reasoning.Z3 := {
  Reasoning.z3_check _ := Reasoning.unknown;
  Reasoning.StringVal v := inl (TypeError "not a string");
  Reasoning.RealVal q := inr (Reasoning.ZReal q);
  Reasoning.eq_value x v := inl (OtherError "Z3Exception")
}.
#[export] Instance inert_sympy : Reasoning.Sympy := {
  Reasoning.rational := Z;
  Reasoning.Rational v := match v with VInt z => inr z | _ => inl (TypeError "not a number") end;
  Reasoning.rat_gt := Z.gtb; Reasoning.rat_le := Z.leb; Reasoning.rat_eq := Z.eqb
}.
#[export] Instance empty_reference : HasReference Sandbox :=
  {| ref_get := λ _, mkReference [] [] 0; ref_set := λ _ x, x |}.

Definition smuggled_intent : value :=
  VDict [ ("action", VStr "issue_refund");
          ("arguments", VDict [("order_id", VStr "ORD-1"); ("customer_id", VStr "CUST-2")]) ].

#[export] Instance demo_adk : Adk Sandbox := {
  adk_get_session u s := mret None;
  adk_create_session u s st := mret st;
  adk_list_sessions u := mret [];
  adk_run u s st t :=
    mret ([mkAdkEvent "agent" [Some "Let me look at that order."]],
          dset "pending_action_intents" (VList [smuggled_intent; VDict [("action", VStr "submit_sar")]]) st)
}.
#[export] Instance demo_adk_laws : AdkLaws.
Proof. split; intros; apply steps_ret. Qed.

Definition demo_providers : Providers Sandbox :=
  mkProviders (λ r, mret (transcribe (f_of_Z 1) r))
    (λ r, mret (mkTtsResult "local" (tts_request_id r) (tts_call_id r) "P" "ref" true))
    (λ e, mthrow (ValueError "no telephony")) (λ m, mthrow (ValueError "no chat"))
    (λ r, mret (mkHandoffReceipt "local" (ht_handoff_id r) "T-1" "queued"))
    (λ r, mret r) (λ l, mret []).
#[export] Instance demo_provider_laws : ProviderLaws demo_providers.
Proof. split; intros; solve [apply steps_ret|apply steps_throw]. Qed.

Definition quiet_env : Surroundings (W := World Sandbox) :=
  mkSurroundings dev_settings (mret ("entry", "now", None)) (mret 0%Z) None.
Lemma quiet_env_keeps : surroundings_keep still quiet_env.
Proof. split; [apply steps_ret..|by intros write e [=]]. Qed.

Definition demo_serve : UserContext → api_call → prog (World Sandbox) unit :=
  ApiSteps.serve dev_app sandbox_resources demo_providers demo_iso demo_iso [] quiet_env.

Definition alice : UserContext := build_user_context "CUST-1" CUSTOMER None.
Definition mallory : UserContext := build_user_context "CUST-2" CUSTOMER None.
Definition operator : UserContext := build_user_context "OPS-1" ADMIN None.

(** A proposal of the API, made; then its confirmation, twice, racing a delivery
    worker, somebody else's confirmation and a chat message. *)
Definition proposing_world : World Sandbox :=
  (run (demo_serve alice (ApiPropose (mkProposalRequest "CUST-1" "issue_refund"
     [("order_id", VStr "ORD-1")] None (Some "CONV-1") (Some "MSG-1")))) started).1.
Definition pending_id : string :=
  match t_proposals (w_core proposing_world) with p :: _ => p_proposal_id p | [] => "" end.

Definition demo_requests : list (UserContext * api_call) :=
  [ (alice, ApiConfirm pending_id); (alice, ApiConfirm pending_id); (operator, ApiRunDelivery);
    (mallory, ApiConfirm pending_id);
    (alice, ApiChat (mkChat "refund my order" (Some "CONV-1") (Some "MSG-2") "web" "CUST-1")) ].

Definition demo_day : World Sandbox * list (prog (World Sandbox) unit) :=
  schedule (concat (replicate 30 (seq 0 6)) ++ concat (map (λ i, replicate 80 i) (seq 0 6)))
    proposing_world (map (λ q, demo_serve q.1 q.2) demo_requests ++ map (worker_run dev_app) [2]).

Lemma lifespan_calm {Ext} `{Hmac} `{Oracle} (app : App Ext) : steps calm (lifespan app).
Proof.
  assert (∀ p, steps (@offline Ext) (save_bootstrap p)) as Hs.
  { intros p. unfold save_bootstrap. apply steps_bind; [apply offline_policy_commit|].
    intros [q|]; [apply steps_ret|apply offline_policy_commit]. }
  unfold lifespan. apply steps_bind; [auto with wf|intros _].
  apply steps_bind; [apply steps_for_each; intros; apply offline_calm, Hs|intros _].
  apply offline_calm. apply steps_bind; [apply offline_registry_call|intros _]. apply hydrate_offline.
Qed.

Lemma calm_inv {Ext A} (p : prog (World Ext) A) w :
  steps calm p → db_inv (w_core w) → db_inv (w_core (run p w).1).
Proof. intros Hp Hw. by destruct (steps_run calm p w Hp) as [[]%(λ f, f Hw) _]. Qed.

Lemma still_calm {Ext A} `{Outside Ext} (p : prog (World Ext) A) : steps still p → steps calm p.
Proof. apply steps_impl. by intros w w' []. Qed.

Lemma started_inv : db_inv (w_core started).
Proof. unfold started. apply calm_inv; [apply lifespan_calm|exact db_inv_empty]. Qed.

Lemma proposing_world_inv : db_inv (w_core proposing_world).
Proof.
  unfold proposing_world, demo_serve.
  apply calm_inv; [|exact started_inv]. apply still_calm, serve_still; apply _ || done || apply quiet_env_keeps.
Qed.

Example requests_execute_at_most_once_witness :
  dispatched_keys (w_trace demo_day.1) = ["refund:ORD-1"] ∧
  applied "refund:ORD-1" (w_ext demo_day.1).
Proof.
  split; [vm_compute; reflexivity|].
  refine (proj1 (proj2 (proj2 (requests_execute_at_most_once dev_app sandbox_resources demo_providers
    demo_iso demo_iso [] quiet_env quiet_env_keeps demo_requests [2] proposing_world demo_day.1 demo_day.2
    proposing_world_inv _ _ (schedule_reaches _ _ _)))) (hd demo_action (t_actions (w_core demo_day.1))) _ _).
  - intros a Ha. vm_compute in Ha. by apply not_elem_of_nil in Ha.
  - vm_compute. reflexivity.
  - vm_compute. left.
  - left. vm_compute. reflexivity.
Defined.

(** A chat turn with an agent that smuggles: the trace stays empty. *)
Definition chat_call : api_call :=
  ApiChat (mkChat "refund my order" (Some "CONV-1") (Some "MSG-9") "web" "CUST-1").
Definition chatted : World Sandbox * result unit := run (demo_serve alice chat_call) proposing_world.

Example only_five_endpoints_execute_witness :
  w_trace chatted.1 = [] ∧ no_success (w_core proposing_world) (w_core chatted.1).
Proof.
  destruct (only_five_endpoints_execute dev_app sandbox_resources demo_providers demo_iso demo_iso []
    quiet_env quiet_env_keeps alice chat_call proposing_world chatted.1 chatted.2 eq_refl
    proposing_world_inv (surjective_pairing _)) as (Ht & Hn & _).
  split; [rewrite Ht; vm_compute; reflexivity|exact Hn].
Defined.

(** A customer cannot run the delivery worker. *)
Definition forbidden : World Sandbox * result unit := run (demo_serve mallory ApiRunDelivery) started.

Example access_matrix_enforced_witness : ∃ u e,
  run (demo_serve mallory ApiRunDelivery) started = (set_sys u started, inl e) ∧
  rp_status_code (respond e) = 403%Z.
Proof.
  refine (proj2 (proj1 (access_matrix_enforced dev_app sandbox_resources demo_providers demo_iso demo_iso []
    quiet_env mallory) ApiRunDelivery (Holds ADMIN_WRITE) _) started). vm_compute. reflexivity.
Defined.

Definition confirmed_run : World Sandbox * result (dict value * option ActionRecord) :=
  run (confirm_action_proposal dev_app sandbox_resources demo_iso pending_id alice) proposing_world.

Example api_confirms_only_owned_witness :
  (∃ p, owned pending_id alice p proposing_world) ∧ length (w_trace confirmed_run.1) = 1.
Proof.
  assert (length (w_trace confirmed_run.1) = 1) as Hlen by (vm_compute; reflexivity).
  split; [|exact Hlen].
  destruct (api_confirms_only_owned dev_app sandbox_resources demo_iso pending_id alice
    proposing_world confirmed_run.1 confirmed_run.2 (surjective_pairing _))
    as [(Ht & _)|(p & spec & payload & w1 & w2 & ev & w3 & r & _ & _ & _ & Hown & _)]; [|by exists p].
  exfalso. rewrite Ht in Hlen. vm_compute in Hlen. discriminate Hlen.
Defined.

Definition demo_turn : TurnContext :=
  mkTurnContext "CUST-1" "customer" [] "CUST-1" "owner" "CONV-1" "MSG-2" CHAT "en-US" "UTC".

Definition prepared_run : World Sandbox * result (string * list (dict value)) :=
  run (prepare_intents dev_app sandbox_resources demo_iso demo_turn alice (Some "cs_refund")
         [smuggled_intent; VDict [("action", VStr "submit_sar")]] "Let me look.") started.

(** The refund of the other customer's name is proposed for this one; the report is
    refused. *)
Example model_intents_carry_host_identity_witness :
  map p_customer_id (t_proposals (w_core prepared_run.1)) = ["CUST-1"] ∧
  w_trace prepared_run.1 = w_trace started.
Proof.
  split; [vm_compute; reflexivity|].
  destruct (model_intents_carry_host_identity dev_app sandbox_resources demo_iso demo_turn alice
    (Some "cs_refund") [smuggled_intent; VDict [("action", VStr "submit_sar")]] "Let me look."
    started prepared_run.1 prepared_run.2 (surjective_pairing _)) as (ps & Ht & _).
  exact Ht.
Defined.

Definition mcp_request : McpContext :=
  mkMcpContext (Some (mkMcpRequest (Some alice) (Some "CUST-2") None None None)) "REQ-1".
Definition mcp_run : World Sandbox * result value :=
  run (action_mcp_server dev_app sandbox_resources demo_iso mcp_request
         (McpPrepare "issue_refund" [("order_id", VStr "ORD-1")] None None)) started.

(** A customer's header naming somebody else is not looked at. *)
Example mcp_prepares_for_the_caller_witness :
  map p_customer_id (t_proposals (w_core mcp_run.1)) = ["CUST-1"] ∧
  w_trace mcp_run.1 = w_trace started.
Proof.
  split; [vm_compute; reflexivity|].
  pose proof (mcp_prepares_for_the_caller dev_app sandbox_resources demo_iso mcp_request "issue_refund"
    [("order_id", VStr "ORD-1")] None None started mcp_run.1 mcp_run.2 (surjective_pairing _)) as Hm.
  destruct mcp_run.2 as [e|v] eqn:Hr; [exact (proj2 Hm)|].
  destruct Hm as (rq & ac & cu & h & cv & ms & p & _ & _ & _ & _ & Ht & _). exact Ht.
Defined.
