(* ===== verification/Console.v ===== *)
(** * The operator console ([app_ui.py], [ui/client.py])

    The HTTP client of the API, the data the console keeps of a session, the views
    it renders and the handler of every event.  A view is the data it shows; the
    layout of the page is left out.  The HTTP library is a parameter: [exchange]
    sends one request to a backend of any kind.  The reactive framework runs the
    handlers of a session one after the other. *)

From stdpp Require Import pretty.
From Stdlib Require Import Ascii.
From S2P Require Import Prelude PyValue PyString Prog Sandbox.

(** ** Python on values of unknown shape *)

(** [v[:n]] *)
Definition py_take (n : nat) (v : value) : result value :=
  match v with
  | VStr s => inr (VStr (String.substring 0 n s))
  | VList l => inr (VList (take n l))
  | _ => inl (TypeError "object is not subscriptable")
  end.

(** [for x in l: out.append(f(x))] *)
Fixpoint map_result {A B} (f : A → result B) (l : list A) : result (list B) :=
  match l with
  | [] => inr []
  | x :: l' => rbind (f x) (λ y, rbind (map_result f l') (λ ys, inr (y :: ys)))
  end.

(** [s.title()] after [s.replace("_", " ")] (ASCII letters). *)
Fixpoint spaced (s : string) : string :=
  match s with
  | EmptyString => ""
  | String c s' => String (if Ascii.eqb c "_" then " "%char else c) (spaced s')
  end.
Fixpoint title_from (inside : bool) (s : string) : string :=
  match s with
  | EmptyString => ""
  | String c s' =>
      if is_alpha c then String (if inside then to_lower c else to_upper c) (title_from true s')
      else String c (title_from false s')
  end.

(** [s.replace("</", "<\\/")] *)
Fixpoint escape_close (s : string) : string :=
  match s with
  | EmptyString => ""
  | String c s' =>
      if Ascii.eqb c "<" then
        match s' with
        | String d s'' =>
            if Ascii.eqb d "/" then String "<" (String "\" (String "/" (escape_close s'')))
            else String c (escape_close s')
        | EmptyString => String c ""
        end
      else String c (escape_close s')
  end.

(** ** The HTTP client ([WorkflowApiClient]) *)

Record WorkflowApiClient := mkApiClient {
  ac_base_url : string; ac_token : option string; ac_timeout : Z
}.

(** [a or b or c] *)
Definition first_truthy (a b : option string) (c : string) : string :=
  if str_truthy a then default "" a else if str_truthy b then default "" b else c.

(** [environ] is the environment of the process. *)
Definition WorkflowApiClient_init (environ : dict string) (base_url token : option string)
    (timeout : Z) : WorkflowApiClient :=
  mkApiClient
    (rstrip_by (λ c, Ascii.eqb c "/")
       (first_truthy base_url (dget "BACKEND_URL" environ) "http://localhost:8000"))
    (match token with Some _ => token | None => dget "BACKEND_AUTH_TOKEN" environ end)
    timeout.

Definition client_headers (c : WorkflowApiClient) : dict string :=
  if str_truthy (ac_token c)
  then [("Authorization", "Bearer " +:+ default "" (ac_token c))] else [].

Record ClientRequest := mkCall {
  cr_method : string; cr_url : string; cr_headers : dict string;
  cr_params : option (dict value); cr_json : option value
}.
(** [cs_json] is what [response.json()] returns or raises. *)
Record ClientResponse := mkReply { cs_status : Z; cs_text : string; cs_json : result value }.

(** [httpx.AsyncClient.request]: the exceptions it raises are its own. *)
Class Network (B : Type) := exchange : ClientRequest → prog B ClientResponse.

(** The subclasses of [httpx.HTTPError], apart from [HTTPStatusError]. *)
Definition httpx_errors : list string :=
  [ "RequestError"; "TransportError"; "TimeoutException"; "ConnectTimeout"; "ReadTimeout";
    "WriteTimeout"; "PoolTimeout"; "NetworkError"; "ConnectError"; "ReadError"; "WriteError";
    "CloseError"; "ProtocolError"; "LocalProtocolError"; "RemoteProtocolError"; "ProxyError";
    "UnsupportedProtocol"; "DecodingError"; "TooManyRedirects" ].
Definition is_http_error (e : exn) : bool :=
  match e with
  | HTTPStatusError _ _ => true
  | OtherError ty => bool_decide (ty ∈ httpx_errors)
  | _ => false
  end.

(** ** Proposals and actions in replies *)

Definition dicts_of (l : list value) : list (dict value) :=
  omap (λ v, match v with VDict d => Some d | _ => None end) l.

Definition _proposal_list (payload : value) : list (dict value) :=
  match payload with
  | VList l => dicts_of l
  | VDict d =>
      match omap (λ k, match dget k d with Some (VList l) => Some l | _ => None end)
              ["action_proposals"; "proposals"; "items"] with
      | l :: _ => dicts_of l
      | [] =>
          match dget_none "proposal" d with
          | VDict nested => [nested]
          | _ => if truthy (dget_none "proposal_id" d) then [d] else []
          end
      end
  | _ => []
  end.

Section console.
Context `{Render}.

Definition _proposal_state (proposal : dict value) : string :=
  str_lower (py_str (py_or (py_or (dget_none "state" proposal) (dget_none "status" proposal))
                       (VStr "pending"))).

Definition _proposal_action_id (proposal : dict value) : option string :=
  let direct := dget_none "action_id" proposal in
  if truthy direct then Some (py_str direct)
  else
    match dget_none "result" proposal with
    | VDict r =>
        if truthy (dget_none "action_id" r) then Some (py_str (dget_none "action_id" r)) else None
    | _ => None
    end.

(** [for key in ("events", "event_history")]: taken from the envelope where the
    record has none. *)
Definition with_events (payload record : dict value) : dict value :=
  fold_left (λ record k,
    match dget k payload with
    | Some v => if dhas k record then record else dset k v record
    | None => record
    end) ["events"; "event_history"] record.

Definition _action_record (payload : value) : option (dict value) :=
  match payload with
  | VDict d =>
      match omap (λ k, match dget_none k d with
                       | VDict nested =>
                           if truthy (dget_none "action_id" nested) then Some nested else None
                       | _ => None
                       end) ["action"; "action_record"; "receipt"] with
      | nested :: _ => Some (with_events d nested)
      | [] => if truthy (dget_none "action_id" d) then Some d else None
      end
  | _ => None
  end.

(** The proposals kept, with the incoming ones put over them by their id. *)
Definition by_id (merged : dict (dict value)) (item : dict value) : dict (dict value) :=
  let proposal_id := dget_none "proposal_id" item in
  if truthy proposal_id then dset (py_str proposal_id) item merged else merged.
Definition merge_proposals (kept incoming : list (dict value)) : list (dict value) :=
  (fold_left by_id incoming (fold_left by_id kept [])).*2.

Definition has_id (proposal_id : string) (proposal : dict value) : bool :=
  String.eqb (py_str (dget_none "proposal_id" proposal)) proposal_id.
Definition patch (proposal_id : string) (changes : dict value) (l : list (dict value)) :
    list (dict value) :=
  map (λ p, if has_id proposal_id p then dupdate p changes else p) l.

(** ** Views *)

(** [json.dumps(value, indent=2, sort_keys=True, default=str)] *)
Context `{JsonDumps} (json_block : value → string).

Record Button := mkButton {
  bt_input : string; bt_identifier : string; bt_label : string; bt_class : string;
  bt_onclick : string
}.
Record Card := mkCard {
  cd_title : string; cd_state : string; cd_badge : string; cd_preview : string;
  cd_proposal : string; cd_expires : string; cd_controls : list Button;
  cd_error : option string; cd_status : option (string * string)
}.

Definition _action_event_button (input_name identifier label class_name : string) : Button :=
  let encoded := escape_close (json_dumps (VStr identifier)) in
  mkButton input_name identifier label class_name
    ("Shiny.setInputValue('" +:+ input_name +:+ "', " +:+ encoded +:+ ", "
       +:+ "{priority: 'event'})").

Definition badge_class (state : string) : string :=
  dget_or state "text-bg-info"
    [ ("pending", "text-bg-warning"); ("confirmed", "text-bg-primary");
      ("cancelled", "text-bg-secondary"); ("expired", "text-bg-dark") ].

(** [str(proposal.get(key) or default)] *)
Definition text_or (k default : string) (d : dict value) : string :=
  py_str (py_or (dget_none k d) (VStr default)).

Definition detail_keys : list string :=
  ["action_id"; "status"; "outcome"; "events"; "event_history"].

(** [detail] is the record of the action, or [None]. *)
Definition card_action_id (proposal : dict value) (detail : value) : value :=
  match _proposal_action_id proposal with
  | Some a => VStr a
  | None => match detail with VDict d => dget_none "action_id" d | _ => VNone end
  end.

Definition card_controls (state proposal_id : string) (action_id : value) : list Button :=
  (if String.eqb state "pending"
   then [ _action_event_button "action_confirm" proposal_id "Confirm action"
            "btn btn-success btn-sm me-2";
          _action_event_button "action_cancel" proposal_id "Cancel"
            "btn btn-outline-secondary btn-sm" ]
   else []) ++
  (if truthy action_id
   then [ _action_event_button "action_refresh" (py_str action_id) "Refresh status"
            "btn btn-outline-primary btn-sm ms-2" ]
   else []).

(** [if action_detail:] its status and the entries of its record that are shown. *)
Definition card_status (detail : value) : result (option (string * string)) :=
  if truthy detail then
    match detail with
    | VDict d =>
        inr (Some ("Action status: " +:+ py_str (dget_or "status" (VStr "unknown") d),
                   json_block (VDict (List.filter (λ e, bool_decide (e.1 ∈ detail_keys)) d))))
    | _ => inl (OtherError "AttributeError")
    end
  else inr None.

Definition _action_proposal_card (proposal : dict value) (detail : value) (error : option string) :
    result Card :=
  (let proposal_id := text_or "proposal_id" "unknown" proposal in
   let state := _proposal_state proposal in
   let? status := card_status detail in
   inr (mkCard (title_from false (spaced (text_or "action" "consequential action" proposal))) state
     (badge_class state)
     (json_block (py_or (py_or (dget_none "safe_preview" proposal) (dget_none "preview" proposal))
                    (VDict [])))
     ("Proposal: " +:+ proposal_id)
     ("Expires: " +:+ py_str (dget_or "expires_at" (VStr "not supplied") proposal))
     (card_controls state proposal_id (card_action_id proposal detail))
     (if str_truthy error then error else None) status))%wf.

(** What the other outputs show. *)
Inductive View :=
  | Note (text : string)
  | Lines (lines : list (string * string))
  | Select (choices : list (value * string)) (selected : option string).

Definition state_labels : list (string * string) :=
  [ ("current_procedure_name", "Procedure"); ("current_step", "Current Step");
    ("steps_completed", "Steps Completed"); ("workflow_status", "Status");
    ("escalation_reason", "Escalation") ].

Definition state_line (state : value) (items : list (string * string)) (kl : string * string) :
    result (list (string * string)) :=
  (let? there := py_in kl.1 state in
   if there then
     let? v := py_item kl.1 state in
     inr (if truthy v then items ++ [(kl.2 +:+ ": ", py_str v)] else items)
   else inr items)%wf.

Definition workflow_state_display (state : value) : result View :=
  if truthy state then
    (let? items := fold_result (state_line state) [] state_labels in
     inr (match items with [] => Note "No active workflow" | _ => Lines items end))%wf
  else inr (Note "No active workflow").

Definition customer_choice (choices : list (value * string)) (c : value) :
    result (list (value * string)) :=
  (let? customer_id := py_item "customer_id" c in
   let? name := py_item "name" c in
   inr (vset customer_id (py_str name +:+ " (" +:+ py_str customer_id +:+ ")") choices))%wf.

(** [data["customers"]], and the guest. *)
Definition customer_choices (data : value) : result (list (value * string)) :=
  (let? customers := py_item "customers" data in
   let? customers := py_list customers in
   let? choices := fold_result customer_choice [] customers in
   inr (vset (VStr "guest") "Guest (no account)" choices))%wf.

Definition session_choice (choices : list (value * string)) (s : value) :
    result (list (value * string)) :=
  (let? sid := py_item "session_id" s in
   let? proc := py_get "procedure" (VStr "") s in
   let? status := py_get "status" (VStr "") s in
   let? short := py_take 8 sid in
   let label := py_str short +:+ "..." in
   let label := if truthy proc then label +:+ " (" +:+ py_str proc +:+ ")" else label in
   let label := if truthy status then label +:+ " [" +:+ py_str status +:+ "]" else label in
   inr (vset sid label choices))%wf.

Definition session_history (sessions : value) : result View :=
  if truthy sessions then
    (let? sessions := py_list sessions in
     let? choices := fold_result session_choice [] sessions in
     inr (Select choices None))%wf
  else inr (Note "No previous sessions").

Definition session_id_display (sid : value) : result string :=
  if truthy sid then
    (let? short := py_take 12 sid in inr ("ID: " +:+ py_str short +:+ "..."))%wf
  else inr "No active session".

Definition procedure_line (proc : value) : result (string * string) :=
  (let? desc := py_item "description" proc in
   let? name := py_item "name" proc in
   let? n := py_len desc in
   if Nat.ltb 80 n then
     match desc with
     | VStr text => inr (py_str name, String.substring 0 80 text +:+ "...")
     | _ => inl (TypeError "can only concatenate str")
     end
   else inr (py_str name, py_str desc))%wf.

Definition procedure_lines (data : value) : result View :=
  (let? procs := py_item "procedures" data in
   let? procs := py_list procs in
   let? items := map_result procedure_line procs in
   inr (match items with [] => Note "No procedures loaded" | _ => Lines items end))%wf.

(** The rows of the data browser; without any, a frame that says so. *)
Definition table_data (rows : value) : result (list value) :=
  if truthy rows then py_list rows
  else inr [VDict [("message", VStr "No data. Click Load to fetch a table.")]].

(** The tables the browser offers. *)
Definition table_choices : list string :=
  [ "customers"; "orders"; "order_items"; "accounts"; "transactions"; "fraud_alerts"; "devices";
    "login_history"; "risk_indicators"; "cases"; "case_notes"; "escalations"; "refunds";
    "disputes"; "knowledge_articles" ].

(** One card per proposal: the details of its action, and the last error of the
    proposal or of its action. *)
Definition proposal_card (details : dict value) (errors : dict string) (proposal : dict value) :
    result Card :=
  let action_id := _proposal_action_id proposal in
  let detail := match action_id with Some a => dget_none a details | None => VNone end in
  let error := dget (py_str (dget_none "proposal_id" proposal)) errors in
  let error :=
    if str_truthy error then error
    else match action_id with Some a => dget a errors | None => error end in
  _action_proposal_card proposal detail error.

Definition action_proposal_cards (proposals : list (dict value)) (details : dict value)
    (errors : dict string) : result (list Card) :=
  map_result (proposal_card details errors) proposals.
End console.

(** ** Test scenarios *)

Record Scenario := mkScenario {
  sn_label : string; sn_customer_id : option string; sn_message : string; sn_description : string
}.

Definition positive_scenarios : list Scenario :=
  [ mkScenario "Refund eligible order (natural)" (Some "CUST-456")
        "I bought some headphones from TechMart about a week ago and I'd like a refund"
        "Natural language — search_orders finds ORD-123";
    mkScenario "Complaint about product (natural)" (Some "CUST-456")
        "I'm unhappy with the quality of the wireless headphones I got from TechMart"
        "Natural language complaint flow";
    mkScenario "Fraud alert triage" None
        "I need to investigate fraud alert FA-001"
        "High severity alert";
    mkScenario "EFT dispute — Tier 1 (within 2 days)" (Some "CUST-456")
        ("I want to dispute an unauthorized charge on my debit card. I noticed a $150 "
            +:+ "charge from QuickMart Online yesterday that I didn't make.")
        "DISP-001 — Tier 1, $50 max liability, should file + provisional credit";
    mkScenario "EFT dispute — Tier 2 (within 60 days)" (Some "CUST-789")
        ("I need to dispute an unauthorized ACH transfer. About two weeks ago I noticed "
            +:+ "$2500 was withdrawn from my account by MegaCorp Services. I never authorized "
            +:+ "this.")
        "DISP-002 — Tier 2, $500 max liability, should file + provisional credit";
    mkScenario "EFT dispute — error (wrong amount)" (Some "CUST-345")
        ("I was charged the wrong amount on my debit card at FreshMart Grocery. The "
            +:+ "receipt shows $45.50 but my account was debited $455.00. This happened a "
            +:+ "couple of days ago.")
        "DISP-004 — Error dispute, Tier 1, should file dispute for billing error" ].

Definition negative_scenarios : list Scenario :=
  [ mkScenario "Refund outside window (natural)" (Some "CUST-345")
        "I want to return a laptop stand I bought from HomeOffice Supplies last month"
        "Natural language — outside 30-day window";
    mkScenario "Order still processing" (Some "CUST-012")
        "I want a refund for order ORD-789"
        "Status: processing, not delivered";
    mkScenario "Invalid order ID" (Some "CUST-456")
        "I want a refund for order ORD-FAKE"
        "Order does not exist";
    mkScenario "Wrong customer (natural)" (Some "CUST-789")
        "I want a refund for some headphones I bought from TechMart for about $80"
        "search_orders returns no results for CUST-789";
    mkScenario "General question (no procedure)" (Some "guest")
        "What is your return policy?"
        "No matching procedure";
    mkScenario "EFT dispute — Tier 3 (outside 60-day window)" (Some "CUST-012")
        ("I want to dispute an unauthorized debit card charge from about 3 months ago. "
            +:+ "Someone used my card at LuxuryGoods Outlet for $500.")
        "DISP-003 — Tier 3, beyond 60 days, should be denied under Reg E";
    mkScenario "EFT dispute — non-EFT payment method" (Some "CUST-456")
        ("I want to dispute an unauthorized charge on my credit card. Someone used my "
            +:+ "Visa credit card to make a $200 purchase at ElectroMart.")
        "Credit card not covered by Reg E — should redirect to Reg Z process";
    mkScenario "EFT dispute — no matching transaction" (Some "CUST-789")
        ("I want to dispute a debit card charge of $999 from a store called FakeStore "
            +:+ "that happened last week.")
        "Transaction doesn't exist — dispute_not_found path" ].

Definition multi_turn_scenarios : list Scenario :=
  [ mkScenario "Escalation path" (Some "CUST-345")
        "I want a refund for order ORD-999"
        "Will be denied → user can request escalation in follow-up";
    mkScenario "Complaint → resolution" (Some "CUST-789")
        "My order ORD-456 hasn't arrived yet and it's been 3 days"
        "Shipped, not delivered → delivery complaint flow";
    mkScenario "EFT dispute → escalation" (Some "CUST-012")
        ("I want to dispute an unauthorized charge on my debit card from about 3 months "
            +:+ "ago. Someone charged $500 at LuxuryGoods Outlet.")
        ("Tier 3 deny → follow up with 'I want to speak to a supervisor' to test "
            +:+ "escalation") ].

Definition TEST_SCENARIOS : dict (list Scenario) :=
  [ ("positive", positive_scenarios); ("negative", negative_scenarios);
    ("multi_turn", multi_turn_scenarios) ].

Definition blank_line : string := String "010" (String "010" "").

(** ** The state of a session *)

Record Screen := mkScreen {
  sc_session_id : value;
  sc_selected_customer : string;
  sc_table_rows : value;
  sc_workflow_state : value;
  sc_action_proposals : list (dict value);
  sc_action_details : dict value;
  sc_action_errors : dict string;
  sc_session_list : value;
  sc_chat : list (string * value)
}.

(** A fresh session of the console. *)
Definition fresh_screen : Screen :=
  mkScreen VNone "CUST-456" (VList []) (VDict []) [] [] [] (VList []) [].

Section setters.
Implicit Types sc : Screen.
Definition put_session v sc :=
  mkScreen v (sc_selected_customer sc) (sc_table_rows sc) (sc_workflow_state sc)
    (sc_action_proposals sc) (sc_action_details sc) (sc_action_errors sc) (sc_session_list sc) (sc_chat sc).
Definition put_customer v sc :=
  mkScreen (sc_session_id sc) v (sc_table_rows sc) (sc_workflow_state sc)
    (sc_action_proposals sc) (sc_action_details sc) (sc_action_errors sc) (sc_session_list sc) (sc_chat sc).
Definition put_rows v sc :=
  mkScreen (sc_session_id sc) (sc_selected_customer sc) v (sc_workflow_state sc)
    (sc_action_proposals sc) (sc_action_details sc) (sc_action_errors sc) (sc_session_list sc) (sc_chat sc).
Definition put_state v sc :=
  mkScreen (sc_session_id sc) (sc_selected_customer sc) (sc_table_rows sc) v
    (sc_action_proposals sc) (sc_action_details sc) (sc_action_errors sc) (sc_session_list sc) (sc_chat sc).
Definition put_proposals v sc :=
  mkScreen (sc_session_id sc) (sc_selected_customer sc) (sc_table_rows sc) (sc_workflow_state sc)
    v (sc_action_details sc) (sc_action_errors sc) (sc_session_list sc) (sc_chat sc).
Definition put_details v sc :=
  mkScreen (sc_session_id sc) (sc_selected_customer sc) (sc_table_rows sc) (sc_workflow_state sc)
    (sc_action_proposals sc) v (sc_action_errors sc) (sc_session_list sc) (sc_chat sc).
Definition put_errors v sc :=
  mkScreen (sc_session_id sc) (sc_selected_customer sc) (sc_table_rows sc) (sc_workflow_state sc)
    (sc_action_proposals sc) (sc_action_details sc) v (sc_session_list sc) (sc_chat sc).
Definition put_sessions v sc :=
  mkScreen (sc_session_id sc) (sc_selected_customer sc) (sc_table_rows sc) (sc_workflow_state sc)
    (sc_action_proposals sc) (sc_action_details sc) (sc_action_errors sc) v (sc_chat sc).
Definition put_chat v sc :=
  mkScreen (sc_session_id sc) (sc_selected_customer sc) (sc_table_rows sc) (sc_workflow_state sc)
    (sc_action_proposals sc) (sc_action_details sc) (sc_action_errors sc) (sc_session_list sc) v.
End setters.

(** The console, every request it sent, and the backend. *)
Record Console (B : Type) := mkConsole {
  cn_screen : Screen; cn_sent : list ClientRequest; cn_backend : B
}.
Arguments mkConsole {B}.
Arguments cn_screen {B}.
Arguments cn_sent {B}.
Arguments cn_backend {B}.

(** A coroutine of the backend, seen from the console. *)
Fixpoint on_backend {B A} (p : prog B A) : prog (Console B) A :=
  match p with
  | Done r => Done r
  | Step f k =>
      Step (λ w, mkConsole (cn_screen w) (cn_sent w) (f (cn_backend w)))
           (λ w, on_backend (k (cn_backend w)))
  end.

Section server.
Context `{Render} `{JsonDumps} {B : Type} `{Network B} (client : WorkflowApiClient).
(** [str(exc)] of an exception of the HTTP library. *)
Context (exn_text : exn → string) (json_block : value → string).
Abbreviation prog := (prog (Console B)).

Definition screen {A} (f : Screen → A) : prog A := atomically (λ w, (w, inr (f (cn_screen w)))).
Definition show (f : Screen → Screen) : prog unit :=
  atomically (λ w, (mkConsole (f (cn_screen w)) (cn_sent w) (cn_backend w), inr tt)).

(** ** Requests *)

Definition record_sent (rq : ClientRequest) : prog unit :=
  atomically (λ w, (mkConsole (cn_screen w) (cn_sent w ++ [rq]) (cn_backend w), inr tt)).

(** [response.raise_for_status()] passes what the library counts as a success. *)
Definition is_success (status : Z) : bool := ((200 <=? status) && (status <=? 299))%Z.

Definition request (method path : string) (params : option (dict value)) (json : option value) :
    prog value :=
  let rq := mkCall method (ac_base_url client +:+ path) (client_headers client) params json in
  _ ← record_sent rq;
  response ← on_backend (exchange rq);
  _ ← require (is_success (cs_status response))
        (HTTPStatusError (cs_status response) (cs_text response));
  lift_result (cs_json response).

Definition api_customers : prog value := request "GET" "/api/v1/customers" None None.
Definition api_chat (payload : value) : prog value :=
  request "POST" "/api/v1/chat" None (Some payload).
Definition api_actions_catalog : prog value := request "GET" "/api/v1/actions/catalog" None None.
Definition api_propose_action (payload : value) : prog value :=
  request "POST" "/api/v1/action-proposals" None (Some payload).
Definition api_action_proposals (conversation_id : value) : prog value :=
  request "GET" "/api/v1/action-proposals"
    (if truthy conversation_id then Some [("conversation_id", conversation_id)] else None) None.
Definition api_action_proposal (proposal_id : string) : prog value :=
  request "GET" ("/api/v1/action-proposals/" +:+ proposal_id) None None.
Definition api_confirm (proposal_id : string) : prog value :=
  request "POST" ("/api/v1/action-proposals/" +:+ proposal_id +:+ "/confirm") None None.
Definition api_cancel (proposal_id : string) : prog value :=
  request "POST" ("/api/v1/action-proposals/" +:+ proposal_id +:+ "/cancel") None None.
Definition api_action_status (action_id : string) : prog value :=
  request "GET" ("/api/v1/actions/" +:+ action_id) None None.
Definition api_session_state (session_id : value) (user : string) : prog value :=
  request "GET" ("/api/v1/session/" +:+ py_str session_id +:+ "/state")
    (Some [("user_id", VStr user)]) None.
Definition api_sessions (user : string) : prog value :=
  request "GET" "/api/v1/sessions" (Some [("user_id", VStr user)]) None.
Definition api_procedures : prog value := request "GET" "/api/v1/procedures" None None.
Definition api_table (table_name : string) : prog value :=
  request "GET" ("/api/v1/tables/" +:+ table_name) None None.
Definition api_health : prog value := request "GET" "/health" None None.
Definition api_metrics : prog value := request "GET" "/api/v1/metrics" None None.
Definition api_audit_integrity : prog value :=
  request "GET" "/api/v1/operations/audit-integrity" None None.

(** [except httpx.HTTPError as exc] *)
Definition except_http {A} (p : prog A) (h : exn → prog A) : prog A :=
  try_except p (λ e, if is_http_error e then h e else mthrow e).

(** ** Proposals *)

(** [_confirm_and_load_action]: a confirmation, then the authoritative status. *)
Definition _confirm_and_load_action (proposal_id : string) :
    prog (value * option (dict value)) :=
  response ← api_confirm proposal_id;
  match _action_record response with
  | Some record =>
      authoritative ← api_action_status (py_str (dget_none "action_id" record));
      mret (response, Some (default record (_action_record authoritative)))
  | None => mret (response, None)
  end.

Definition _remember_proposals (payload : value) : prog unit :=
  match _proposal_list payload with
  | [] => mret tt
  | incoming => show (λ sc, put_proposals (merge_proposals (sc_action_proposals sc) incoming) sc)
  end.

Definition _patch_proposal (proposal_id : string) (changes : dict value) : prog unit :=
  show (λ sc, put_proposals (patch proposal_id changes (sc_action_proposals sc)) sc).

Definition put_detail (action_id : string) (record : value) : prog unit :=
  show (λ sc, put_details (dset action_id record (sc_action_details sc)) sc).
Definition put_error (key text : string) : prog unit :=
  show (λ sc, put_errors (dset key text (sc_action_errors sc)) sc).
Definition append_message (role : string) (content : value) : prog unit :=
  show (λ sc, put_chat (sc_chat sc ++ [(role, content)]) sc).
Definition say (role content : string) : prog unit := append_message role (VStr content).

Definition _refresh_action_proposals : prog unit :=
  sid ← screen sc_session_id;
  match sid with
  | VNone => mret tt
  | _ =>
      except_http (data ← api_action_proposals sid; _remember_proposals data)
        (λ _, mret tt)
  end.

Definition _refresh_action (action_id : string) : prog unit :=
  except_http
    (detail ← api_action_status action_id;
     put_detail action_id (match _action_record detail with Some r => VDict r | None => detail end))
    (λ exc, put_error action_id ("Could not refresh action status: " +:+ exn_text exc)).

(** ** The turn *)

(** What the browser has sent of the customer selector: [None] where the inputs
    have no such attribute, otherwise what reading it returns or raises. *)
Definition Inputs : Type := option (result string).

Definition _get_user_id (inputs : Inputs) : prog string :=
  cid ← match inputs with
        | Some r => lift_result r
        | None => screen sc_selected_customer
        end;
  mret (if String.eqb cid "" then "guest" else cid).

Definition _refresh_workflow_state (inputs : Inputs) : prog unit :=
  sid ← screen sc_session_id;
  match sid with
  | VNone => show (put_state (VDict []))
  | _ =>
      except_http
        (user ← _get_user_id inputs;
         data ← api_session_state sid user;
         state ← lift_result (py_get "state" (VDict []) data);
         show (put_state state))
        (λ _, show (put_state (VDict [])))
  end.

Definition cannot_connect : string :=
  "Cannot connect to backend. Is the FastAPI server running on port 8000?".

(** [except httpx.HTTPStatusError], [except httpx.ConnectError]: no other class. *)
Definition except_chat (p : prog unit) : prog unit :=
  try_except p (λ e,
    match e with
    | HTTPStatusError status text =>
        say "assistant" ("Error: " +:+ pretty status +:+ " — " +:+ text)
    | OtherError ty =>
        if String.eqb ty "ConnectError" then say "assistant" cannot_connect else mthrow e
    | _ => mthrow e
    end).

(** The reply to a message: its session, its text, its proposals. *)
Definition show_turn (inputs : Inputs) (data : value) : prog unit :=
  sid ← lift_result (py_item "session_id" data);
  _ ← show (put_session sid);
  response ← lift_result (py_item "response" data);
  _ ← append_message "assistant" response;
  _ ← _remember_proposals data;
  _ ← _refresh_action_proposals;
  _refresh_workflow_state inputs.

Definition on_user_message (inputs : Inputs) (user_msg : string) : prog unit :=
  if String.eqb user_msg "" then mret tt
  else
    except_chat
      (user ← _get_user_id inputs;
       sid ← screen sc_session_id;
       data ← api_chat (VDict ([("message", VStr user_msg); ("user_id", VStr user)] ++
                match sid with VNone => [] | _ => [("session_id", sid)] end));
       show_turn inputs data).

(** ** Decisions on a proposal *)

Definition submitted_note : string :=
  "Action confirmation was submitted through the typed gateway. "
    +:+ "The authoritative status is shown in the action card below.".

Definition show_record (proposal_id : string) (record : dict value) : prog unit :=
  let action_id := dget_none "action_id" record in
  _ ← put_detail (py_str action_id) (VDict record);
  _patch_proposal proposal_id [("status", VStr "confirmed"); ("action_id", action_id)].

Definition _confirm_action_proposal (proposal_id : value) : prog unit :=
  if negb (truthy proposal_id) then mret tt
  else
    let pid := py_str proposal_id in
    except_http
      (loaded ← _confirm_and_load_action pid;
       _ ← _remember_proposals loaded.1;
       _ ← match loaded.2 with Some record => show_record pid record | None => mret tt end;
       _ ← _refresh_action_proposals;
       proposals ← screen sc_action_proposals;
       _ ← match _proposal_action_id (default [] (select_first (has_id pid) proposals)) with
           | Some action_id => _refresh_action action_id
           | None => mret tt
           end;
       say "assistant" submitted_note)
      (λ exc, put_error pid ("Confirmation failed: " +:+ exn_text exc)).

Definition _cancel_action_proposal (proposal_id : value) : prog unit :=
  if negb (truthy proposal_id) then mret tt
  else
    let pid := py_str proposal_id in
    except_http
      (response ← api_cancel pid;
       _ ← _remember_proposals response;
       _ ← _patch_proposal pid [("status", VStr "cancelled")];
       _refresh_action_proposals)
      (λ exc, put_error pid ("Cancellation failed: " +:+ exn_text exc)).

Definition _refresh_action_status (action_id : value) : prog unit :=
  if truthy action_id then _refresh_action (py_str action_id) else mret tt.

(** ** Sessions *)

Definition clear_session (sid : value) (sc : Screen) : Screen :=
  put_chat [] (put_errors [] (put_details [] (put_proposals [] (put_state (VDict [])
    (put_session sid sc))))).

Definition _load_session_history (inputs : Inputs) : prog unit :=
  except_http
    (user ← _get_user_id inputs;
     data ← api_sessions user;
     sessions ← lift_result (py_get "sessions" (VList []) data);
     show (put_sessions sessions))
    (λ _, show (put_sessions (VList []))).

Definition _new_session : prog unit :=
  _ ← show (clear_session VNone);
  say "assistant" "New session started. Type a message to begin.".

Definition _restore_session (inputs : Inputs) (sid : value) : prog unit :=
  if negb (truthy sid) then mret tt
  else
    _ ← show (clear_session sid);
    short ← lift_result (py_take 12 sid);
    _ ← say "assistant" ("Restored session `" +:+ py_str short
                           +:+ "...`. Send a message to continue the conversation.");
    _ ← _refresh_workflow_state inputs;
    _refresh_action_proposals.

(** ** Scenarios, the data browser and the probes *)

Definition scenario_heading (scenario : Scenario) (cid : string) : string :=
  "**Test scenario:** " +:+ sn_label scenario +:+ blank_line +:+ "*" +:+ sn_description scenario
    +:+ "*" +:+ blank_line +:+ "Customer: " +:+ cid.

Definition _run_scenario (inputs : Inputs) (scenario : Scenario) : prog unit :=
  let cid := if str_truthy (sn_customer_id scenario) then default "" (sn_customer_id scenario)
             else "guest" in
  _ ← show (put_customer cid);
  _ ← show (clear_session VNone);
  _ ← say "assistant" (scenario_heading scenario cid);
  _ ← say "user" (sn_message scenario);
  except_chat
    (data ← api_chat (VDict [("message", VStr (sn_message scenario)); ("user_id", VStr cid)]);
     show_turn inputs data).

Definition _load_table (table_name : string) : prog unit :=
  except_http
    (data ← api_table table_name;
     rows ← lift_result (py_item "rows" data);
     show (put_rows rows))
    (λ _, show (put_rows (VList []))).

Definition procedure_list : prog View :=
  except_http (data ← api_procedures; lift_result (procedure_lines data))
    (λ _, mret (Note "Could not load procedures")).

Definition customer_selector : prog View :=
  except_http
    (data ← api_customers;
     choices ← lift_result (customer_choices data);
     selected ← screen sc_selected_customer;
     mret (Select choices (Some selected)))
    (λ _, mret (Note "Could not load customers")).

Definition session_selector (inputs : Inputs) : prog View :=
  _ ← _load_session_history inputs;
  sessions ← screen sc_session_list;
  lift_result (session_history sessions).

Definition system_status : prog View :=
  try_except
    (health ← api_health;
     metrics ← api_metrics;
     audit ← api_audit_integrity;
     mret (Lines [ ("Runtime", py_str health); ("Core metrics", py_str metrics);
                   ("Audit integrity", py_str audit) ]))
    (λ e,
      match e with
      | HTTPStatusError status _ => mret (Note ("Status request failed: " +:+ pretty status))
      | OtherError ty =>
          if String.eqb ty "ConnectError"
          then mret (Note ("Cannot connect to " +:+ ac_base_url client)) else mthrow e
      | _ => mthrow e
      end).

(** ** Events *)

Inductive Event :=
  | UserSubmit (message : string)
  | ActionConfirm (proposal_id : value)
  | ActionCancel (proposal_id : value)
  | ActionRefresh (action_id : value)
  | NewSession
  | RestoreSession (session_id : value)
  | ScenarioButton (category : string) (idx : nat)
  | LoadTable (table_name : string)
  | RefreshStatus
  | RenderCustomers
  | RenderSessions
  | RenderProcedures.

(** The handler of an event, or the output it renders; a scenario that does not
    exist has no button. *)
Definition handle (inputs : Inputs) (e : Event) : prog unit :=
  match e with
  | UserSubmit message => on_user_message inputs message
  | ActionConfirm proposal_id => _confirm_action_proposal proposal_id
  | ActionCancel proposal_id => _cancel_action_proposal proposal_id
  | ActionRefresh action_id => _refresh_action_status action_id
  | NewSession => _new_session
  | RestoreSession session_id => _restore_session inputs session_id
  | ScenarioButton category idx =>
      match dget_or category [] TEST_SCENARIOS !! idx with
      | Some scenario => _run_scenario inputs scenario
      | None => mret tt
      end
  | LoadTable table_name => _load_table table_name
  | RefreshStatus => _ ← system_status; mret tt
  | RenderCustomers => _ ← customer_selector; mret tt
  | RenderSessions => _ ← session_selector inputs; mret tt
  | RenderProcedures => _ ← procedure_list; mret tt
  end.

(** A session: its events in their order, until an exception leaves a handler that
    the framework does not let the session survive.  The result is the events that
    were handled. *)
Context (survives : exn → bool).
Fixpoint console_session (events : list (Inputs * Event)) : prog (list Event) :=
  match events with
  | [] => mret []
  | (inputs, e) :: events' =>
      goes_on ← try_except (_ ← handle inputs e; mret true) (λ x, mret (survives x));
      if goes_on : bool then handled ← console_session events'; mret (e :: handled)
      else mret [e]
  end.
End server.
