(* ===== verification/ConsoleProps.v ===== *)
(** * Properties of the console

    What a session of the console asks of the backend, whatever the backend
    answers: decisions are the operator's clicks, one request each.  Over the API
    itself, a session without a confirmation executes nothing.  What the screen
    holds, which failures a handler reports, and where one escapes. *)

From Stdlib Require Import Ascii SpecFloat.
From S2P Require Import Prelude PyValue PyString Numerals Prog RelyGuarantee Table ActionSpecs Procedures KernelData Policy World AuditTrail KernelStore KernelInv CaseKernel Fixtures PolicyStore PolicyProps Auth Settings Conversation Gateway Outside AtMostOnce ActionService Reference Sandbox Domains Bridge ServiceProps BridgeProps Workers EngineSteps Channels ConnectorRegistry Startup Mcp Reasoning Guardrails GuardrailsProps Api Endpoints Operations ApiSteps BusinessProps SandboxProps AuditProps StartupProps ApiProps Console.

(** The events that decide: clicks on the buttons of a proposal. *)
Definition clicks (e : Event) : bool :=
  match e with ActionConfirm _ | ActionCancel _ => true | _ => false end.

(** ** What the screen keeps *)
Section screen.
Context `{Render}.

(** Every proposal has an id, and no two the same. *)
Definition shown_id (p : dict value) : string := py_str (dget_none "proposal_id" p).
Definition proposals_ok (l : list (dict value)) : Prop :=
  NoDup (map shown_id l) ∧ Forall (λ p, truthy (dget_none "proposal_id" p) = true) l.
Definition keeps (f : Screen → Screen) : Prop :=
  ∀ sc, proposals_ok (sc_action_proposals sc) → proposals_ok (sc_action_proposals (f sc)).

Lemma keeps_same f : (∀ sc, sc_action_proposals (f sc) = sc_action_proposals sc) → keeps f.
Proof. intros Hf sc. by rewrite Hf. Qed.

Lemma proposals_ok_nil : proposals_ok [].
Proof. split; constructor. Qed.

(** Proposals filed under their ids. *)
Definition filed (m : dict (dict value)) : Prop :=
  NoDup (dkeys m) ∧
  Forall (λ e, truthy (dget_none "proposal_id" e.2) = true ∧ e.1 = shown_id e.2) m.

Lemma filed_by_id m p : filed m → filed (by_id m p).
Proof.
  intros [Hn Hf]. unfold by_id. destruct (truthy _) eqn:Ht; [|by split].
  split; [by apply NoDup_dset|]. apply Forall_forall. intros e [->|He]%elem_of_dset; [done|].
  rewrite Forall_forall in Hf. by apply Hf.
Qed.

Lemma filed_fold l m : filed m → filed (fold_left by_id l m).
Proof. revert m; induction l as [|p l IH]; intros m Hm; [done|]. by apply IH, filed_by_id. Qed.

Lemma filed_ok m : filed m → proposals_ok m.*2.
Proof.
  intros [Hn Hf]. split.
  - assert (map shown_id m.*2 = dkeys m) as ->; [|done].
    clear Hn. induction Hf as [|[k p] m [_ Hk] _ IH]; [done|]. cbn in *. by rewrite IH, Hk.
  - apply Forall_fmap. eapply Forall_impl; [exact Hf|]. by intros e [].
Qed.

Lemma merge_ok kept incoming : proposals_ok (merge_proposals kept incoming).
Proof. apply filed_ok, filed_fold, filed_fold. by split; constructor. Qed.

(** A change that does not touch the id. *)
Lemma patch_ok pid changes l :
  NoDup (dkeys changes) → dget "proposal_id" changes = None →
  proposals_ok l → proposals_ok (patch pid changes l).
Proof.
  intros Hnd Hc.
  assert (∀ p, dget_none "proposal_id" (if has_id pid p then dupdate p changes else p)
               = dget_none "proposal_id" p) as Hid.
  { intros p. destruct (has_id pid p); [|done]. unfold dget_none, dget_or.
    by rewrite dget_dupdate, Hc. }
  intros [Hn Hf]. unfold patch. split.
  - rewrite map_map. rewrite (map_ext _ shown_id); [done|]. intros p. unfold shown_id. by rewrite Hid.
  - apply Forall_map. eapply Forall_impl; [exact Hf|]. intros p. cbn. by rewrite Hid.
Qed.

Lemma keeps_merge incoming :
  keeps (λ sc, put_proposals (merge_proposals (sc_action_proposals sc) incoming) sc).
Proof. intros sc _. apply merge_ok. Qed.
Lemma keeps_patch pid changes :
  NoDup (dkeys changes) → dget "proposal_id" changes = None →
  keeps (λ sc, put_proposals (patch pid changes (sc_action_proposals sc)) sc).
Proof. intros Hn Hc sc. by apply patch_ok. Qed.
Lemma keeps_clear sid : keeps (clear_session sid).
Proof. intros sc _. apply proposals_ok_nil. Qed.
End screen.

(** ** Steps of a console *)
Section steps.
Context `{Render} `{JsonDumps} {B : Type} `{Network B} (client : WorkflowApiClient).
Context (exn_text : exn → string).
Abbreviation Console := (Console B).
Implicit Types (w : Console).

(** A relation that any change of the screen keeps, as long as it keeps the
    proposals in order. *)
Class Shows (R : Console → Console → Prop) :=
  shows w sc : (proposals_ok (sc_action_proposals (cn_screen w)) → proposals_ok (sc_action_proposals sc)) →
               R w (mkConsole sc (cn_sent w) (cn_backend w)).

Context (R : Console → Console → Prop) `{!PreOrder R} `{!Shows R}.

Lemma steps_screen {A} (f : Screen → A) : steps R (screen f).
Proof. apply steps_atomically. intros w. reflexivity. Qed.
Lemma steps_show f : keeps f → steps R (show f).
Proof. intros Hf. apply steps_atomically. intros w. apply shows, Hf. Qed.
Lemma steps_show_same f :
  (∀ sc, sc_action_proposals (f sc) = sc_action_proposals sc) → steps R (show f).
Proof. intros Hf. by apply steps_show, keeps_same. Qed.
Hint Resolve steps_screen steps_show keeps_merge keeps_clear : wf.
Hint Extern 2 (steps _ (show _)) => apply steps_show_same; reflexivity : wf.

Lemma steps_except_http {A} (p : prog Console A) h :
  steps R p → (∀ e, steps R (h e)) → steps R (except_http p h).
Proof. intros Hp Hh. apply steps_try; [done|]. intros e. destruct (is_http_error e); [done|apply steps_throw]. Qed.

(** Which requests keep the relation is what differs. *)
Context (Hget : ∀ path params, steps R (request client "GET" path params None)).
Context (Hchat : ∀ json, steps R (request client "POST" "/api/v1/chat" None json)).
Hint Resolve Hget Hchat : wf.

Lemma steps_remember payload : steps R (_remember_proposals payload).
Proof. unfold _remember_proposals. step_through. Qed.
Hint Resolve steps_remember : wf.

(** Through the handlers of HTTP errors as well. *)
Ltac console :=
  step_through; try (apply steps_except_http; console).

Lemma steps_refresh_proposals : steps R (_refresh_action_proposals client).
Proof. unfold _refresh_action_proposals, api_action_proposals. console. Qed.
Lemma steps_refresh_action a : steps R (_refresh_action client exn_text a).
Proof. unfold _refresh_action, api_action_status, put_detail, put_error. console. Qed.
Lemma steps_user inputs : steps R (_get_user_id inputs).
Proof. unfold _get_user_id. console. Qed.
Hint Resolve steps_refresh_proposals steps_refresh_action steps_user : wf.
Lemma steps_refresh_state inputs : steps R (_refresh_workflow_state client inputs).
Proof. unfold _refresh_workflow_state, api_session_state. console. Qed.
Hint Resolve steps_refresh_state : wf.
Lemma steps_show_turn inputs data : steps R (show_turn client inputs data).
Proof. unfold show_turn, append_message. console. Qed.
Hint Resolve steps_show_turn : wf.
Lemma steps_except_chat (p : prog Console unit) : steps R p → steps R (except_chat p).
Proof.
  intros Hp. apply steps_try; [done|]. intros e. unfold say, append_message. step_through.
Qed.

(** What follows the confirmation itself. *)
Lemma steps_load_action response :
  steps R (match _action_record response with
           | Some record =>
               authoritative ← api_action_status client (py_str (dget_none "action_id" record));
               mret (response, Some (default record (_action_record authoritative)))
           | None => mret (response, None)
           end).
Proof. unfold api_action_status. console. Qed.

Hint Resolve steps_load_action : wf.

Lemma steps_patch pid changes :
  NoDup (dkeys changes) → dget "proposal_id" changes = None →
  steps R (_patch_proposal pid changes).
Proof. intros Hn Hc. by apply steps_show, keeps_patch. Qed.
Lemma steps_show_record pid record : steps R (show_record pid record).
Proof.
  unfold show_record, put_detail. apply steps_bind; [auto with wf|intros _].
  apply steps_patch; [apply (decide_by_eval (NoDup ["status"; "action_id"])); reflexivity|done].
Qed.
Hint Resolve steps_show_record : wf.

(** What follows the request of a decision. *)
Lemma steps_decided (p : prog Console unit) pid text :
  steps R p → steps R (except_http p (λ exc, put_error pid (text exc))).
Proof. intros Hp. unfold put_error. apply steps_except_http; auto with wf. Qed.
Lemma steps_confirmed pid (loaded : value * option (dict value)) :
  steps R (_ ← _remember_proposals loaded.1;
           _ ← match loaded.2 with Some record => show_record pid record | None => mret tt end;
           _ ← _refresh_action_proposals client;
           proposals ← screen sc_action_proposals;
           _ ← match _proposal_action_id (default [] (select_first (has_id pid) proposals)) with
               | Some action_id => _refresh_action client exn_text action_id
               | None => mret tt
               end;
           say "assistant" submitted_note).
Proof. unfold say, append_message. console. Qed.
Lemma steps_cancelled pid response :
  steps R (_ ← _remember_proposals response;
           _ ← _patch_proposal pid [("status", VStr "cancelled")];
           _refresh_action_proposals client).
Proof.
  apply steps_bind; [auto with wf|intros _]. apply steps_bind; [|auto with wf].
  apply steps_patch; [apply (decide_by_eval (NoDup ["status"])); reflexivity|done].
Qed.

(** Every handler but the two that decide. *)
Lemma steps_handle inputs e :
  clicks e = false → steps R (handle client exn_text inputs e).
Proof.
  destruct e; intros He; try discriminate He; clear He; cbn [handle].
  - unfold on_user_message, api_chat. destruct (String.eqb _ _); [apply steps_ret|].
    apply steps_except_chat. console.
  - unfold _refresh_action_status. console.
  - unfold _new_session, say, append_message. console.
  - unfold _restore_session, say, append_message. console.
  - destruct (_ !! _) as [sc|]; [|apply steps_ret].
    unfold _run_scenario, say, append_message, api_chat. console. apply steps_except_chat. console.
  - unfold _load_table, api_table. console.
  - unfold system_status, api_health, api_metrics, api_audit_integrity. console.
  - unfold customer_selector, api_customers. console.
  - unfold session_selector, _load_session_history, api_sessions. console.
  - unfold procedure_list, api_procedures. console.
Qed.
End steps.

(** ** Decisions *)

(** A request that decides something: a POST that is not a chat message. *)
Definition decides (rq : ClientRequest) : bool :=
  String.eqb (cr_method rq) "POST" && negb (ends_with "/api/v1/chat" (cr_url rq)).
Definition decisions (l : list ClientRequest) : list string :=
  omap (λ rq, if decides rq then Some (cr_url rq) else None) l.

(** The one an event stands for: a click on a card's button. *)
Definition decision `{Render} (client : WorkflowApiClient) (e : Event) : option string :=
  match e with
  | ActionConfirm v =>
      if truthy v then Some (ac_base_url client +:+ "/api/v1/action-proposals/"
                               +:+ py_str v +:+ "/confirm") else None
  | ActionCancel v =>
      if truthy v then Some (ac_base_url client +:+ "/api/v1/action-proposals/"
                               +:+ py_str v +:+ "/cancel") else None
  | _ => None
  end.

Section decisions.
Context `{Render} `{JsonDumps} {B : Type} `{Network B} (client : WorkflowApiClient).
Context (exn_text : exn → string) (survives : exn → bool).
Abbreviation Console := (Console B).
Implicit Types (w : Console).

Definition same_decisions w w' : Prop := decisions (cn_sent w') = decisions (cn_sent w).
#[local] Instance same_decisions_preorder : PreOrder same_decisions.
Proof. split; [done|]. intros w1 w2 w3 E1 E2. unfold same_decisions in *. congruence. Qed.
#[local] Instance same_decisions_shows : Shows same_decisions.
Proof. done. Qed.

Lemma backend_same_decisions {A} (p : prog B A) : steps same_decisions (on_backend p).
Proof. induction p as [r|f k IH]; [done|]. intros w. split; [done|apply IH]. Qed.

(** What a request adds to what was sent; the rest of it sends nothing. *)
Definition call_of method path params json : ClientRequest :=
  mkCall method (ac_base_url client +:+ path) (client_headers client) params json.

Lemma request_then {A} method path params json (k : value → prog Console A) w :
  (∀ v, steps same_decisions (k v)) →
  decisions (cn_sent (run (request client method path params json ≫= k) w).1)
  = decisions (cn_sent w) ++ decisions [call_of method path params json].
Proof.
  intros Hk. unfold request. fold (call_of method path params json).
  set (rq := call_of _ _ _ _).
  assert (steps same_decisions
            (response ← on_backend (exchange rq);
             _ ← require (is_success (cs_status response))
                   (HTTPStatusError (cs_status response) (cs_text response));
             lift_result (cs_json response) : prog Console value)) as Hrest.
  { apply steps_bind; [apply backend_same_decisions|]. intros; step_through. }
  cbv zeta. rewrite run_bind, run_bind. unfold record_sent at 1. rewrite run_atomically. cbv beta iota.
  match goal with |- context [run ?p ?x] => set (w1 := x); set (rest := p) end.
  assert (decisions (cn_sent w1) = decisions (cn_sent w) ++ decisions [rq]) as <-
    by apply omap_app.
  pose proof (steps_run same_decisions rest w1 Hrest) as E1.
  destruct (run rest w1) as [w2 [e|v]]; [exact E1|].
  pose proof (steps_run same_decisions (k v) w2 (Hk v)) as E2. unfold same_decisions in *.
  by rewrite E2.
Qed.

Lemma request_steps method path params json :
  decides (call_of method path params json) = false →
  steps same_decisions (request client method path params json).
Proof.
  intros Hd. unfold request. apply steps_bind.
  - apply steps_atomically. intros w. unfold same_decisions, decisions. cbn [cn_sent fst].
    rewrite omap_app. unfold call_of in Hd. cbn. rewrite Hd. apply app_nil_r.
  - intros _. apply steps_bind; [apply backend_same_decisions|]. intros; step_through.
Qed.

Lemma get_steps path params : steps same_decisions (request client "GET" path params None).
Proof. by apply request_steps. Qed.
Lemma chat_steps json : steps same_decisions (request client "POST" "/api/v1/chat" None json).
Proof. apply request_steps. unfold decides. cbn [call_of cr_method cr_url]. by rewrite ends_with_app, starts_with_app. Qed.
Hint Resolve get_steps chat_steps : wf.

(** A decision is one request. *)
Lemma decides_confirm pid :
  decisions [call_of "POST" ("/api/v1/action-proposals/" +:+ pid +:+ "/confirm") None None]
  = [ac_base_url client +:+ "/api/v1/action-proposals/" +:+ pid +:+ "/confirm"].
Proof.
  unfold decisions, decides. cbn [call_of cr_method cr_url omap list_omap].
  rewrite <- !string_app_assoc. by rewrite ends_with_app.
Qed.
Lemma decides_cancel pid :
  decisions [call_of "POST" ("/api/v1/action-proposals/" +:+ pid +:+ "/cancel") None None]
  = [ac_base_url client +:+ "/api/v1/action-proposals/" +:+ pid +:+ "/cancel"].
Proof.
  unfold decisions, decides. cbn [call_of cr_method cr_url omap list_omap].
  rewrite <- !string_app_assoc. by rewrite ends_with_app.
Qed.

Lemma except_http_same {A} (p : prog Console A) h w :
  (∀ e, steps same_decisions (h e)) →
  decisions (cn_sent (run (except_http p h) w).1) = decisions (cn_sent (run p w).1).
Proof.
  intros Hh. unfold except_http. rewrite run_try. destruct (run p w) as [w' [e|a]]; [|done].
  destruct (is_http_error e); [|done]. exact (steps_run same_decisions _ w' (Hh e)).
Qed.

Hint Resolve steps_screen steps_show steps_refresh_proposals steps_refresh_action
  steps_remember steps_load_action same_decisions_preorder same_decisions_shows : wf.

(** Every event makes the decision it stands for, and no other. *)
Lemma handle_decisions inputs e w :
  decisions (cn_sent (run (handle client exn_text inputs e) w).1)
  = decisions (cn_sent w) ++ option_list (decision client e).
Proof.
  destruct (clicks e) eqn:Hc; [destruct e; try discriminate Hc|].
  - cbn [handle decision]. unfold _confirm_action_proposal. destruct (truthy proposal_id); cbn [negb option_list];
      [|by rewrite app_nil_r].
    rewrite except_http_same by (intros; by apply steps_show_same).
    unfold _confirm_and_load_action, api_confirm. rewrite run_bind_assoc, request_then, decides_confirm; [done|].
    intros response. apply steps_bind; [auto with wf|intros loaded]. apply steps_confirmed; auto with wf.
  - cbn [handle decision]. unfold _cancel_action_proposal. destruct (truthy proposal_id); cbn [negb option_list];
      [|by rewrite app_nil_r].
    rewrite except_http_same by (intros; by apply steps_show_same).
    unfold api_cancel. rewrite request_then, decides_cancel; [done|].
    intros response. apply steps_cancelled; auto with wf.
  - assert (decision client e = None) as -> by (by destruct e). cbn [option_list]. rewrite app_nil_r.
    exact (steps_run same_decisions _ w
             (steps_handle client exn_text same_decisions get_steps chat_steps inputs e Hc)).
Qed.

(** C35: The console decides nothing by itself.  Whatever the backend answers or
    fails to answer, whatever the replies, the state of the session and the order
    of events: the requests by which a session decides anything (every POST that
    is not a chat message) are the operator's clicks on the buttons of proposals,
    one request for each click that was handled, in the order of the clicks, each
    to confirm or cancel the proposal whose button it was.  Messages, scenarios,
    refreshes, restored sessions and rendering decide nothing. *)
Theorem console_decides_only_clicks events w w' r :
  run (console_session client exn_text survives events) w = (w', r) →
  ∃ handled, r = inr handled ∧ handled `prefix_of` events.*2 ∧
    decisions (cn_sent w') = decisions (cn_sent w) ++ omap (decision client) handled.
Proof.
  revert w w' r; induction events as [|[inputs e] events IH]; intros w w' r; cbn [console_session].
  - intros [= <- <-]. exists []. split_and!; [done|by exists []|by rewrite app_nil_r].
  - pose proof (handle_decisions inputs e w) as Hd. rewrite run_bind, run_try, run_bind.
    assert (∀ w1 go_on, decisions (cn_sent w1) = decisions (cn_sent w) ++ option_list (decision client e) →
      run (if go_on : bool
           then handled ← console_session client exn_text survives events; mret (e :: handled)
           else mret [e]) w1 = (w', r) →
      ∃ handled, r = inr handled ∧ handled `prefix_of` (inputs, e).2 :: events.*2 ∧
        decisions (cn_sent w') = decisions (cn_sent w) ++ omap (decision client) handled) as Hgo.
    { intros w1 go_on E1. destruct go_on; [rewrite run_bind|].
      - destruct (run (console_session _ _ _ _) w1) as [w2 r2] eqn:E.
        destruct (IH _ _ _ E) as (handled & -> & Hp & Hs). rewrite run_ret. intros [= <- <-].
        exists (e :: handled). split_and!; [done|by apply prefix_cons|].
        rewrite Hs, E1, <- app_assoc. f_equal. cbn. by destruct (decision client e).
      - rewrite run_ret. intros [= <- <-]. exists [e].
        split_and!; [done|by apply prefix_cons, prefix_nil|]. rewrite E1. cbn.
        by destruct (decision client e). }
    destruct (run (handle client exn_text inputs e) w) as [w1 [x|[]]]; cbn [fst] in Hd; rewrite run_ret.
    + by apply (Hgo w1 (survives x)).
    + by apply (Hgo w1 true).
Qed.
End decisions.

(** ** What can be confirmed *)

Definition confirm_buttons (c : Card) : list string :=
  omap (λ b, if String.eqb (bt_input b) "action_confirm" then Some (bt_identifier b) else None)
    (cd_controls c).

Section offers.
Context `{Render} `{JsonDumps} {B : Type} `{Network B} (client : WorkflowApiClient).
Context (exn_text : exn → string) (survives : exn → bool) (json_block : value → string).
Abbreviation Console := (Console B).
Implicit Types (w : Console).

Definition pending (p : dict value) : bool := String.eqb (_proposal_state p) "pending".

Lemma card_confirms p detail error c :
  truthy (dget_none "proposal_id" p) = true →
  _action_proposal_card json_block p detail error = inr c →
  confirm_buttons c = if pending p then [shown_id p] else [].
Proof.
  intros Ht. unfold _action_proposal_card. destruct (card_status json_block detail); [done|].
  intros [= <-]. unfold confirm_buttons, card_controls, pending, text_or, PyValue.py_or. cbn [cd_controls].
  rewrite Ht. rewrite omap_app. fold (shown_id p).
  by destruct (String.eqb _ _), (truthy (card_action_id p detail)).
Qed.

(** The buttons over all cards. *)
Lemma cards_confirm details errors l cards :
  proposals_ok l → action_proposal_cards json_block l details errors = inr cards →
  concat (map confirm_buttons cards) = map shown_id (List.filter pending l).
Proof.
  intros [_ Hf]. revert cards; induction Hf as [|p l Hp _ IH]; intros cards; cbn.
  - by intros [= <-].
  - destruct (proposal_card json_block details errors p) as [e|c] eqn:Hc; cbn; [done|].
    fold (map_result (proposal_card json_block details errors) l).
    destruct (map_result _ l) as [e|cs] eqn:Hcs; cbn; [done|]. intros [= <-]. cbn.
    rewrite (card_confirms _ _ _ _ Hp Hc), (IH cs Hcs). by destruct (pending p).
Qed.

Definition screen_kept w w' : Prop :=
  proposals_ok (sc_action_proposals (cn_screen w)) → proposals_ok (sc_action_proposals (cn_screen w')).
#[local] Instance screen_kept_preorder : PreOrder screen_kept.
Proof. split; [by intros w Hw|]. intros w1 w2 w3 E1 E2 Hw. by apply E2, E1. Qed.
#[local] Instance screen_kept_shows : Shows screen_kept.
Proof. by intros w sc. Qed.

Lemma backend_screen {A} (p : prog B A) : steps screen_kept (on_backend p).
Proof. induction p as [r|f k IH]; [done|]. intros w. split; [by intros Hw|apply IH]. Qed.
Lemma request_screen method path params json :
  steps screen_kept (request client method path params json).
Proof.
  unfold request. apply steps_bind; [apply steps_atomically; by intros w Hw|intros _].
  apply steps_bind; [apply backend_screen|]. intros; step_through.
Qed.
Hint Resolve request_screen screen_kept_preorder screen_kept_shows steps_load_action : wf.

Lemma handle_screen inputs e : steps screen_kept (handle client exn_text inputs e).
Proof.
  destruct (clicks e) eqn:Hc; [|apply steps_handle; auto with wf].
  destruct e; try discriminate Hc; cbn [handle].
  - unfold _confirm_action_proposal. destruct (negb _); [apply steps_ret|].
    apply steps_decided; [auto with wf..|]. apply steps_bind.
    + unfold _confirm_and_load_action. apply steps_bind; [apply request_screen|intros response]. auto with wf.
    + intros loaded. apply steps_confirmed; auto with wf.
  - unfold _cancel_action_proposal. destruct (negb _); [apply steps_ret|].
    apply steps_decided; [auto with wf..|]. apply steps_bind; [apply request_screen|intros response].
    apply steps_cancelled; auto with wf.
Qed.

Lemma session_screen events : steps screen_kept (console_session client exn_text survives events).
Proof.
  induction events as [|[inputs e] events IH]; [apply steps_ret|]. cbn [console_session].
  apply steps_bind.
  - apply steps_try; [|intros; apply steps_ret].
    apply steps_bind; [apply handle_screen|intros; apply steps_ret].
  - intros []; [|apply steps_ret]. apply steps_bind; [done|intros; apply steps_ret].
Qed.

(** What can be confirmed: after any events, whatever the backend sent, every
    proposal on the screen has an id and no two the same; and the confirm buttons
    of its cards are those of the proposals shown as pending, one for each, under
    its own id. *)
Theorem console_offers_pending_once events w w' r cards :
  proposals_ok (sc_action_proposals (cn_screen w)) →
  run (console_session client exn_text survives events) w = (w', r) →
  let sc := cn_screen w' in
  action_proposal_cards json_block (sc_action_proposals sc) (sc_action_details sc)
    (sc_action_errors sc) = inr cards →
  proposals_ok (sc_action_proposals sc) ∧
  concat (map confirm_buttons cards) = map shown_id (List.filter pending (sc_action_proposals sc)) ∧
  NoDup (concat (map confirm_buttons cards)).
Proof.
  intros Hok Hr sc Hcards. pose proof (steps_run screen_kept _ w (session_screen events)) as Hk.
  rewrite Hr in Hk. specialize (Hk Hok).
  split; [done|]. pose proof (cards_confirm _ _ _ _ Hk Hcards) as Hc. split; [done|]. rewrite Hc.
  by apply NoDup_map_filter, Hk.
Qed.
End offers.

(** ** A session over the API *)

(** The path of a URL ends where its query or its fragment begins. *)
Definition url_stop (c : ascii) : bool := Ascii.eqb c "?" || Ascii.eqb c "#".
Fixpoint url_path (u : string) : string :=
  match u with
  | EmptyString => ""
  | String c u' => if url_stop c then "" else String c (url_path u')
  end.
(** A text that a URL takes as a piece of its path *)
Fixpoint in_path (t : string) : bool :=
  match t with EmptyString => true | String c t' => negb (url_stop c) && in_path t' end.

Fixpoint slashed (t : string) : bool :=
  match t with EmptyString => false | String c t' => Ascii.eqb c "/" || slashed t' end.
Fixpoint last_segment (path : string) : string :=
  match path with
  | EmptyString => ""
  | String c path' =>
      if slashed path' then last_segment path' else if Ascii.eqb c "/" then path' else path
  end.
(** A segment that is neither escaped nor resolved: letters, digits, [-], [_], [:]. *)
Fixpoint plain_segment (t : string) : bool :=
  match t with
  | EmptyString => true
  | String c t' =>
      (is_alpha c || is_digit c || bool_decide (c ∈ ["-"; "_"; ":"]%char)) && plain_segment t'
  end.

(** The last segments of the paths of the endpoints that can reach a provider of
    actions, all of them asked by POST *)
Definition executing_segments : list string :=
  ["confirm"; "actions"; "refunds"; "actions:run"; "reconciliation:run"].
Definition executing (rq : ClientRequest) : bool :=
  let segment := last_segment (url_path (cr_url rq)) in
  String.eqb (cr_method rq) "POST" &&
  (negb (plain_segment segment) || bool_decide (segment ∈ executing_segments)).

Lemma url_path_app t u : in_path t = true → url_path (t +:+ u) = t +:+ url_path u.
Proof.
  induction t as [|c t IH]; [done|]. cbn [in_path]. intros [Hc Ht]%andb_true_iff.
  change (String c t +:+ u) with (String c (t +:+ u)). cbn [url_path].
  apply negb_true_iff in Hc as ->. by rewrite IH.
Qed.
Lemma in_path_app t u : in_path (t +:+ u) = in_path t && in_path u.
Proof.
  induction t as [|c t IH]; [done|]. change (String c t +:+ u) with (String c (t +:+ u)).
  cbn [in_path]. by rewrite IH, andb_assoc.
Qed.
Lemma slashed_app t u : slashed (t +:+ u) = slashed t || slashed u.
Proof.
  induction t as [|c t IH]; [done|]. change (String c t +:+ u) with (String c (t +:+ u)).
  cbn [slashed]. by rewrite IH, orb_assoc.
Qed.
Lemma last_segment_app t u : slashed u = false → last_segment (t +:+ String "/" u) = u.
Proof.
  intros Hu. induction t as [|c t IH].
  { change ("" +:+ String "/" u) with (String "/" u). cbn [last_segment]. by rewrite Hu. }
  change (String c t +:+ String "/" u) with (String c (t +:+ String "/" u)).
  cbn [last_segment]. rewrite slashed_app. cbn [slashed]. by rewrite orb_true_r.
Qed.

(** Under a path, a plain last segment decides. *)
Lemma executing_under method prefix segment headers params json :
  in_path prefix = true → in_path segment = true → slashed segment = false →
  plain_segment segment = true → segment ∉ executing_segments →
  executing (mkCall method (prefix +:+ String "/" segment) headers params json) = false.
Proof.
  intros Hp Hs Hf Hpl Hn. unfold executing. cbn [cr_method cr_url].
  rewrite url_path_app by done. change (url_path (String "/" segment)) with (String "/" (url_path segment)).
  replace (url_path segment) with segment.
  - rewrite last_segment_app, Hpl, bool_decide_false by done. apply andb_false_r.
  - clear -Hs. induction segment as [|c t IH]; [done|]. cbn in *. apply andb_true_iff in Hs as [Hc Ht].
    apply negb_true_iff in Hc as ->. by rewrite <- IH.
Qed.

Section served.
Context `{Hmac} `{Oracle} `{Render} `{Pydantic} `{Digest} `{TextDigest} `{ChainHash} `{JsonDumps}.
Context {Ext : Type} `{Adk Ext} `{Reasoning.Z3, Reasoning.Sympy} `{HasReference Ext} `{Outside Ext}.
Context (app : App Ext) (rp : ResourceProvider Ext) (providers : Providers Ext).
Context (iso iso_date : Z → string).
Context (procedures : dict (dict value)) (env : Surroundings (W := World Ext)).
Abbreviation World := (World Ext).
Abbreviation serve := (serve app rp providers iso iso_date procedures env).

(** The HTTP library and the web framework: which endpoint a request is for, as
    which caller, how what the endpoint leaves becomes a response, and what comes of
    a request for no endpoint -- a 404, or an exception at a URL the library
    refuses.  A request reaches an endpoint by the endpoint's method and path: the
    library resolves and escapes segments of the path, and the framework compares
    what it is left with, so a plain last segment is the endpoint's. *)
Context (decode : ClientRequest → option (UserContext * api_call)).
Context (reply : ClientRequest → World → result unit → ClientResponse).
Context (nowhere : ClientRequest → result ClientResponse).
Class Routed :=
  routed rq actor c : decode rq = Some (actor, c) → executes c = true → executing rq = true.

Definition api_network : Network World := λ rq,
  match decode rq with
  | None => lift_result (nowhere rq)
  | Some (actor, c) =>
      r ← try_except (_ ← serve actor c; mret (inr tt)) (λ e, mret (inl e));
      atomically (λ w, (w, inr (reply rq w r)))
  end.
#[local] Existing Instance api_network.

Context (client : WorkflowApiClient) (exn_text : exn → string) (survives : exn → bool).
Context `{!AdkLaws} `{!ProviderLaws providers} (Henv : surroundings_keep still env).
Context `{!ResourceProviderLaws rp} `{!ResourceProviderSteady rp} `{!Routed}.

Definition still_backend (w w' : Console World) : Prop := still (cn_backend w) (cn_backend w').
#[local] Instance still_backend_preorder : PreOrder still_backend.
Proof. split; [by intros w|]. intros w1 w2 w3 E1 E2. unfold still_backend in *. by etrans. Qed.
#[local] Instance still_backend_shows : Shows still_backend.
Proof. intros w sc _. unfold still_backend. reflexivity. Qed.

Lemma lift_still {A} (p : prog World A) : steps still p → steps still_backend (on_backend p).
Proof.
  induction p as [r|f k IH]; [done|]. intros Hp w. destruct (Hp (cn_backend w)) as [Hf Hk].
  split; [exact Hf|by apply IH].
Qed.

Lemma exchange_still rq : executing rq = false → steps still (exchange rq).
Proof.
  intros Hx. unfold exchange, api_network. destruct (decode rq) as [[actor c]|] eqn:Hd; [|apply steps_lift].
  assert (executes c = false) as Hc.
  { destruct (executes c) eqn:Hc; [|done]. by rewrite (routed rq actor c Hd Hc) in Hx. }
  apply steps_bind; [|intros r; apply steps_atomically; reflexivity].
  apply steps_try; [|intros; apply steps_ret]. apply steps_bind;
    [exact (serve_still app rp providers iso iso_date procedures env Henv actor c Hc)|].
  intros; apply steps_ret.
Qed.

Lemma request_still method path params json :
  executing (call_of client method path params json) = false →
  steps still_backend (request client method path params json).
Proof.
  intros Hx. unfold request. apply steps_bind; [apply steps_atomically; intros w; change (still (cn_backend w) (cn_backend w)); reflexivity|].
  intros _. apply steps_bind; [by apply lift_still, exchange_still|]. intros; step_through.
Qed.

Lemma get_still path params : steps still_backend (request client "GET" path params None).
Proof. by apply request_still. Qed.
Context (Hbase : in_path (ac_base_url client) = true).
Lemma chat_still json : steps still_backend (request client "POST" "/api/v1/chat" None json).
Proof.
  apply request_still. unfold call_of. change "/api/v1/chat" with ("/api/v1" +:+ String "/" "chat").
  rewrite <- string_app_assoc. apply executing_under; [by rewrite in_path_app, Hbase|done..|].
  apply (bool_decide_unpack _). vm_compute. exact I.
Qed.
Lemma client_cancel_still pid : in_path pid = true → steps still_backend (api_cancel client pid).
Proof.
  intros Hpid. apply request_still. unfold call_of. change "/cancel" with (String "/" "cancel").
  rewrite <- !string_app_assoc.
  apply executing_under; [by rewrite !in_path_app, Hbase, Hpid|done..|].
  apply (bool_decide_unpack _). vm_compute. exact I.
Qed.
Hint Resolve get_still chat_still still_backend_preorder still_backend_shows
  steps_remember steps_refresh_proposals : wf.

(** An event that confirms nothing. *)
Definition confirms (e : Event) : bool :=
  match e with ActionConfirm v => truthy v | _ => false end.

(** A cancellation whose identifier stays in the path *)
Definition cancels_in_path (e : Event) : bool :=
  match e with ActionCancel v => in_path (py_str v) | _ => true end.

Lemma handle_still inputs e :
  confirms e = false → cancels_in_path e = true → steps still_backend (handle client exn_text inputs e).
Proof.
  intros He Hpath. destruct (clicks e) eqn:Hc;
    [|by apply steps_handle; auto with wf]. destruct e; try discriminate Hc; cbn [handle] in *.
  - unfold _confirm_action_proposal. cbn [confirms] in He. rewrite He. apply steps_ret.
  - unfold _cancel_action_proposal. destruct (negb _); [apply steps_ret|].
    apply steps_decided; [auto with wf..|]. apply steps_bind; [by apply client_cancel_still|intros response].
    apply steps_cancelled; auto with wf.
Qed.

Lemma session_still events :
  (∀ q, q ∈ events → confirms q.2 = false ∧ cancels_in_path q.2 = true) →
  steps still_backend (console_session client exn_text survives events).
Proof.
  induction events as [|[inputs e] events IH]; intros He; [apply steps_ret|]. cbn [console_session].
  apply steps_bind.
  - apply steps_try; [|intros; apply steps_ret]. apply steps_bind; [|intros; apply steps_ret].
    destruct (He (inputs, e)) as [Hn Hp]; [by left|]. by apply handle_still.
  - intros []; [|apply steps_ret]. apply steps_bind; [|intros; apply steps_ret].
    apply IH. intros q Hq. apply He. by right.
Qed.

(** C6: Only the operator's confirmation makes the system act: over the API itself,
    a session of the console in which no proposal is confirmed -- whatever is typed
    or clicked otherwise, whatever scenarios run, whatever the model proposes and
    whatever else comes of the requests -- calls no provider of actions, makes no
    stored action successful, and keeps the database's invariant.  The address of
    the backend and the identifiers of cancelled proposals hold neither ["?"] nor
    ["#"]: the client puts them into the path of a URL as they are, and a
    cancellation of ["P-1/confirm?"] confirms ["P-1"]. *)
Theorem unconfirmed_session_executes_nothing events (w w' : Console World) r :
  db_inv (w_core (cn_backend w)) →
  (∀ q, q ∈ events → confirms q.2 = false ∧ cancels_in_path q.2 = true) →
  run (console_session client exn_text survives events) w = (w', r) →
  w_trace (cn_backend w') = w_trace (cn_backend w) ∧
  no_success (w_core (cn_backend w)) (w_core (cn_backend w')) ∧
  db_inv (w_core (cn_backend w')) ∧ evolves (w_core (cn_backend w)) (w_core (cn_backend w')).
Proof.
  intros Hw He Hr. pose proof (steps_run still_backend _ w (session_still events He)) as Hs.
  rewrite Hr in Hs. destruct Hs as [[Hg Ht] [Hn _]]. destruct (Hg Hw). by split_and!.
Qed.
End served.

(** ** Failures *)
Section failures.
Context `{Render} `{JsonDumps} {B : Type} `{Network B} (client : WorkflowApiClient).
Context (exn_text : exn → string).
Abbreviation Console := (Console B).

Lemma run_show f (w : Console) :
  run (show f) w = (mkConsole (f (cn_screen w)) (cn_sent w) (cn_backend w), inr tt).
Proof. unfold show. by rewrite run_atomically. Qed.

(** Under [except httpx.HTTPError] none gets out of a handler that shows it. *)
Lemma except_http_catches (p : prog Console unit) f (w w' : Console) e :
  run (except_http p (λ exc, show (f exc))) w = (w', inl e) → is_http_error e = false.
Proof.
  unfold except_http. rewrite run_try. destruct (run p w) as [w1 [e1|[]]]; [|done].
  destruct (is_http_error e1) eqn:He; [by rewrite run_show|]. rewrite run_throw. by intros [= _ <-].
Qed.

(** A decision or a refresh that fails does not leave its handler. *)
Lemma decisions_catch_failures inputs e (w w' : Console) x :
  match e with ActionConfirm _ | ActionCancel _ | ActionRefresh _ | LoadTable _ => True | _ => False end →
  run (handle client exn_text inputs e) w = (w', inl x) → is_http_error x = false.
Proof.
  destruct e; intros He; try destruct He; cbn [handle].
  - unfold _confirm_action_proposal. destruct (negb _); [done|]. unfold put_error. apply except_http_catches.
  - unfold _cancel_action_proposal. destruct (negb _); [done|]. unfold put_error. apply except_http_catches.
  - unfold _refresh_action_status, _refresh_action, put_error. destruct (truthy _); [|done].
    apply except_http_catches.
  - unfold _load_table. apply except_http_catches.
Qed.
End failures.

(** ** On concrete sessions *)

(** A backend that answers by a script, then is gone. *)
Definition Script : Type := list (result ClientResponse).
Definition script_network : Network Script := λ _,
  atomically (λ b, match b with [] => (b, inl (OtherError "ConnectError")) | r :: b' => (b', r) end).

Section demo.
#[local] Existing Instance script_network.
#[local] Instance no_render : Render := λ _, "".
#[local] Instance no_dumps : JsonDumps := λ _, "".
Definition demo_client : WorkflowApiClient :=
  WorkflowApiClient_init [("BACKEND_URL", "http://api/")] None (Some "T") 120.
Definition demo_console (b : Script) : Console Script := mkConsole fresh_screen [] b.
Definition reply_ok (d : dict value) : result ClientResponse := inr (mkReply 200 "" (inr (VDict d))).
Definition demo_handle (inputs : Inputs) (e : Event) := handle (B := Script) demo_client exn_name inputs e.
Definition by_customer (c : string) : Inputs := Some (inr c).

Definition demo_proposal (state : string) : value :=
  VDict [("proposal_id", VStr "P-1"); ("action", VStr "issue_refund"); ("state", VStr state)].
(** A chat that proposes, and the confirmation of the proposal. *)
Definition demo_script : Script :=
  [ reply_ok [ ("session_id", VStr "S-1"); ("response", VStr "Shall I?");
               ("action_proposals", VList [demo_proposal "pending"]) ];
    reply_ok [("action_proposals", VList [demo_proposal "pending"])];
    reply_ok [("state", VDict [])];
    reply_ok [("proposal_id", VStr "P-1"); ("state", VStr "confirmed");
              ("action_record", VDict [("action_id", VStr "A-1")])];
    reply_ok [("action", VDict [("action_id", VStr "A-1"); ("status", VStr "succeeded")]);
              ("events", VList [])] ].
Definition demo_events : list (Inputs * Event) :=
  [ (by_customer "CUST-456", UserSubmit "refund my order");
    (by_customer "CUST-456", ActionConfirm (VStr "P-1")) ].
Definition demo_session : Console Script * result (list Event) :=
  run (console_session demo_client exn_name (λ _, true) demo_events) (demo_console demo_script).

Example console_decides_only_clicks_witness :
  decisions (cn_sent demo_session.1) = ["http://api/api/v1/action-proposals/P-1/confirm"].
Proof.
  destruct (console_decides_only_clicks demo_client exn_name (λ _, true) demo_events
              (demo_console demo_script) demo_session.1 demo_session.2 (surjective_pairing _))
    as (handled & Hr & _ & Hd).
  rewrite Hd. vm_compute in Hr. injection Hr as <-. vm_compute. reflexivity.
Defined.

Example console_offers_pending_once_witness :
  let sc := cn_screen demo_session.1 in
  ∃ cards, action_proposal_cards (λ _, "") (sc_action_proposals sc) (sc_action_details sc)
             (sc_action_errors sc) = inr cards ∧
    NoDup (concat (map confirm_buttons cards)) ∧ length cards = 1.
Proof.
  destruct (action_proposal_cards (λ _, "") (sc_action_proposals (cn_screen demo_session.1))
              (sc_action_details (cn_screen demo_session.1))
              (sc_action_errors (cn_screen demo_session.1))) as [e|cards] eqn:Hc;
    [vm_compute in Hc; discriminate Hc|].
  exists cards. split; [exact Hc|split].
  - refine (proj2 (proj2 (console_offers_pending_once demo_client exn_name (λ _, true) (λ _, "")
      demo_events (demo_console demo_script) demo_session.1 demo_session.2 cards
      proposals_ok_nil (surjective_pairing _) Hc))).
  - vm_compute in Hc. injection Hc as <-. reflexivity.
Defined.

(** A chat message whose reply times out: the exception leaves the handler, where
    the one of a confirmation is shown. *)
Example chat_timeout_escapes :
  (run (demo_handle (by_customer "CUST-456") (UserSubmit "refund my order"))
     (demo_console [inl (OtherError "ReadTimeout")])).2 = inl (OtherError "ReadTimeout") ∧
  (run (demo_handle (by_customer "CUST-456") (ActionConfirm (VStr "P-1")))
     (demo_console [inl (OtherError "ReadTimeout")])).2 = inr tt ∧
  is_http_error (OtherError "ReadTimeout") = true.
Proof. by vm_compute. Qed.

(** A scenario chats for its own customer, and then asks for the state of the
    session of the one the selector still shows. *)
Example scenario_reads_another_customer :
  map (λ rq, (cr_url rq, cr_params rq))
    (cn_sent (run (demo_handle (by_customer "CUST-456") (ScenarioButton "positive" 4))
       (demo_console [ reply_ok [("session_id", VStr "S-1"); ("response", VStr "Hello")];
                       reply_ok [("action_proposals", VList [])]; reply_ok [] ])).1)
  = [ ("http://api/api/v1/chat", None);
      ("http://api/api/v1/action-proposals", Some [("conversation_id", VStr "S-1")]);
      ("http://api/api/v1/session/S-1/state", Some [("user_id", VStr "CUST-456")]) ] ∧
  option_map sn_customer_id (positive_scenarios !! 4) = Some (Some "CUST-789").
Proof. by vm_compute. Qed.

(** A confirmation that fails and is then repeated with success: the card shows
    the proposal as confirmed, and still that its confirmation failed. *)
Example stale_error_stays :
  let p := ("proposal_id", VStr "P-1") in
  let w := (run (_ ← demo_handle (by_customer "CUST-456") (ActionConfirm (VStr "P-1"));
                 demo_handle (by_customer "CUST-456") (ActionConfirm (VStr "P-1")))
              (demo_console [ inr (mkReply 503 "down" (inr VNone));
                              reply_ok [p; ("state", VStr "confirmed")] ])).1 in
  rbind (action_proposal_cards (λ _, "") (sc_action_proposals (cn_screen w))
           (sc_action_details (cn_screen w)) (sc_action_errors (cn_screen w)))
    (λ cards, inr (map (λ c, (cd_state c, cd_error c)) cards))
  = inr [("confirmed", Some "Confirmation failed: HTTPStatusError")].
Proof. by vm_compute. Qed.

(** The browser offers the tables that the API lets be browsed. *)
Lemma table_choices_browsable t : t ∈ table_choices ↔ t ∈ _ALLOWED_TABLES.
Proof.
  split; intros Ht; repeat (apply elem_of_cons in Ht as [->|Ht]; [apply (bool_decide_unpack _); vm_compute; exact I|]);
    by apply not_elem_of_nil in Ht.
Qed.
End demo.

(** What a button sends ends no script: the text of its identifier holds no closing
    tag, whatever the identifier. *)
Lemma escape_close_head c s : ∃ r, escape_close (String c s) = String c r.
Proof.
  cbn. destruct (Ascii.eqb_spec c "<"%char) as [->|]; [|by eexists].
  destruct s as [|d s]; [by eexists|]. destruct (Ascii.eqb d "/"%char); by eexists.
Qed.

Lemma no_close_cons c r :
  (c = "<"%char → ∀ r', r ≠ String "/" r') → str_contains "</" r = false →
  str_contains "</" (String c r) = false.
Proof.
  intros Hc Hr. change (String.prefix "</" (String c r) || str_contains "</" r = false).
  rewrite Hr, orb_false_r.
  change ((if Ascii.ascii_dec "<" c then String.prefix "/" r else false) = false).
  destruct (Ascii.ascii_dec "<" c) as [<-|]; [|done]. destruct r as [|d r]; [done|].
  change ((if Ascii.ascii_dec "/" d then String.prefix "" r else false) = false).
  destruct (Ascii.ascii_dec "/" d) as [<-|]; [|done]. by destruct (Hc eq_refl r).
Qed.

Lemma escape_close_safe s : str_contains "</" (escape_close s) = false.
Proof.
  induction s as [s IH] using (induction_ltof1 _ String.length). unfold ltof in IH.
  destruct s as [|c s]; [done|]. cbn [escape_close].
  destruct (Ascii.eqb_spec c "<"%char) as [->|Hc].
  - destruct s as [|d s]; [done|]. destruct (Ascii.eqb_spec d "/"%char) as [->|Hd].
    + do 3 (apply no_close_cons; [done|]). apply IH. cbn. lia.
    + apply no_close_cons; [|apply IH; cbn; lia]. intros _ r' Hr.
      destruct (escape_close_head d s) as [r Hh]. rewrite Hh in Hr. by injection Hr as -> _.
  - apply no_close_cons; [done|]. apply IH. cbn. lia.
Qed.

(** ** Over the API of the demonstration *)
Definition demo_decode (rq : ClientRequest) : option (UserContext * api_call) :=
  if String.eqb (cr_method rq) "POST" && ends_with "/api/v1/chat" (cr_url rq)
  then Some (alice, chat_call) else None.
Definition demo_reply (rq : ClientRequest) (w : World Sandbox) (r : result unit) : ClientResponse :=
  mkReply 200 "" (inr (VDict [("session_id", VStr "CONV-1"); ("response", VStr "Done.")])).
Definition demo_nowhere (rq : ClientRequest) : result ClientResponse :=
  inr (mkReply 404 "" (inr (VDict [("detail", VStr "Not Found")]))).
#[local] Instance demo_routed : Routed demo_decode.
Proof. intros rq actor c. unfold demo_decode. destruct (_ && _); [by intros [= <- <-]|done]. Qed.
#[local] Instance dumps : JsonDumps := λ _, "".

Definition idle_events : list (Inputs * Event) :=
  [ (None, UserSubmit "refund my order"); (None, ActionCancel (VStr pending_id));
    (None, ScenarioButton "positive" 0) ].
#[local] Instance idle_network : Network (World Sandbox) :=
  api_network dev_app sandbox_resources demo_providers demo_iso demo_iso [] quiet_env demo_decode demo_reply
    demo_nowhere.
Definition idle_session : Console (World Sandbox) * result (list Event) :=
  run (console_session (WorkflowApiClient_init [] None None 120) exn_name (λ _, true)
         idle_events) (mkConsole fresh_screen [] proposing_world).

Example unconfirmed_session_executes_nothing_witness :
  w_trace (cn_backend idle_session.1) = w_trace proposing_world.
Proof.
  refine (proj1 (unconfirmed_session_executes_nothing dev_app sandbox_resources demo_providers demo_iso
    demo_iso [] quiet_env demo_decode demo_reply demo_nowhere (WorkflowApiClient_init [] None None 120)
    exn_name (λ _, true) quiet_env_keeps eq_refl idle_events (mkConsole fresh_screen [] proposing_world) idle_session.1
    idle_session.2 proposing_world_inv _ (surjective_pairing _))).
  intros q Hq. by repeat (apply elem_of_cons in Hq as [->|Hq]; [done|]); apply not_elem_of_nil in Hq.
Defined.

(** The client does not escape what it puts into a path: the click that cancels
    this identifier asks the endpoint that confirms ["P-1"]. *)
Example cancel_reaches_confirm :
  let sent e := cn_sent (run (demo_handle None e)
                           (demo_console [])).1 in
  map (λ rq, (cr_method rq, url_path (cr_url rq))) (sent (ActionCancel (VStr "P-1/confirm?")))
  = map (λ rq, (cr_method rq, url_path (cr_url rq))) (sent (ActionConfirm (VStr "P-1"))) ∧
  map (λ rq, (cr_method rq, url_path (cr_url rq))) (sent (ActionConfirm (VStr "P-1")))
  = [("POST", "http://api/api/v1/action-proposals/P-1/confirm")].
Proof. by vm_compute. Qed.
